(* ===== verification/_CoqProject ===== *)
-Q . S2P
Prelude.v
GoStrings.v
OS.v
Machine.v
Cgroup.v
Proc.v
Metrics.v
Json.v
JsonText.v
Url.v
Mux.v
Flags.v
Chromium.v
TestUtil.v
BuildVersion.v
Supervisor.v
Launch.v
System.v
Invariant.v
Lease.v
Refinement.v
Scenario.v
Operations.v
Typing.v
Outcome.v
Http.v
Service.v
Instrument.v
Guarantees.v
Liveness.v
Main.v
Process.v
