(* ===== verification/Prelude.v ===== *)
(** * Crocochrome: a verification library

    Crocochrome runs headless Chromium for short-lived browser sessions: an
    HTTP API creates, proxies and deletes sessions, a supervisor starts one
    Chromium per session, kills it when its session ends or times out, and
    accounts for what it used.  This library models the program under src/
    and proves what its clients and operators rely on.  Definitions keep the
    names of the source where they can; [Session] of the source is [Session]
    here, its [delete] is [delete_], and so on.

    ** How the model is built

    The supervisor is a state-passing model.  [Supervisor.prog] is the state
    of the process: the [Supervisor] struct, the session contexts with the
    goroutines that hang off them (the [context.AfterFunc] callback, the
    launch goroutine), the clock, the log and the session directories.  Each
    method is a function on [prog].  [System.step] is the process as a
    transition system: a step is what happens between two acquisitions of
    [sessionsMtx], so the interleavings of the callers, timers, callbacks and
    goroutines are the sequences of steps.  [create] is cut in two at its
    call of [Version], the only place where it waits while it holds the lock
    ([create_begin], [create_end]).

    Around it are two more transition systems.  [Service.http_step] is the
    HTTP server: requests are routed and handled between the steps of the
    supervisor, and a creation is an event when it begins to wait for
    Chromium and another when it is answered.  [Main.main_step] and
    [Process.process_step] are func run: the goroutine that drains and shuts
    down, the goroutine of the HTTP server, and their error group.

    What the program reads from outside is an input: random bytes, the orders
    of map iterations, the outcome of running Chromium, and the file system,
    which may change between any two calls ([OS.world]).  Functions that read
    files are in the [OS.IO] monad, which counts the calls made.  The
    third-party packages are interfaces with laws, each with an instance at
    which the theorems are exercised: prometheus/procfs is [OS.ProcFS]
    ([Machine.plain_procfs]), promhttp is [Instrument.Promhttp] and
    prometheus [Instrument.Prometheus] ([plain_promhttp],
    [plain_prometheus]).  The standard library is modelled, as far as the
    code uses it.  Go integers are [Z], with their wrap-around where the code
    can leave the range; strings are byte sequences.

    ** The files

    - [Prelude]: integers, floats, errors ([fmt.Errorf "%w"] as [ErrWrap]),
      results, tactics, hint databases.
    - [GoStrings], [OS], [Machine]: the functions of strings, strconv,
      path/filepath and bufio the code uses; file systems and the [IO]
      monad; a concrete machine.
    - [Cgroup], [Proc]: internal/crocochrome/cgroup.go and proc.go.
    - [Metrics]: internal/metrics/metrics.go, the supervisor's collectors as
      the values they expose.
    - [Json], [Url], [Mux], [Flags]: what is used of encoding/json, net/url,
      http.ServeMux and flag; [JsonText]: JSON texts read back, UTF-8;
      [Flags] also has the configuration of cmd/crocochrome/main.go.
    - [Chromium]: internal/chromium/chromium.go.
    - [TestUtil]: internal/testutil, the fake version server and the
      heartbeat script with the code that counts its processes.
    - [BuildVersion]: internal/version/version.go.
    - [Supervisor], [Launch]: internal/crocochrome/crocochrome.go, the
      methods on the session state, and [launch], [mkdirTemp] and
      [ComputeUserAgent].
    - [System]: the transition system.  [Invariant]: what holds between any
      two steps.  [Lease]: the abstract contract of the supervisor, a lease
      on one browser.  [Refinement]: the program implements it.  [Scenario]:
      a concrete run.
    - [Operations], [Outcome]: the operations of the supervisor, and of a
      launch, one by one.  [Typing]: the shape of every value of a run.
    - [Http]: internal/http/http.go, the handlers.  [Service]: the server as
      a transition system, and the contract of the API.
    - [Instrument]: InstrumentHTTP and AddVersionMetrics of
      internal/metrics/metrics.go, the outer multiplexer of main.go, the
      registration of every collector, with what makes a descriptor valid.
    - [Guarantees], [Liveness]: the theorems about whole runs.
    - [Main], [Process]: cmd/crocochrome/main.go, start-up and shutdown, and
      the process around them from the command line to the exit status.

    ** What is shown

    - Sessions ([Guarantees], [Operations], [Typing]): every run is a run of
      the lease; there is never more than one session, and a session only
      ends by a delete, its timeout or a [Create]; at most one of several
      [CreateIfFree] succeeds; what [create] and [Delete] do on every
      branch; the metrics mirror the sessions; the order of map iterations
      does not matter; IDs, loggers, answers and metrics keep their shape in
      every run.
    - The HTTP API ([Service], [Http]): the server implements a lease whose
      statuses tell clients who holds the browser; two grants are separated
      by a release; the address a client is given routes back, through
      url.Parse, to the proxy of its own session; statuses and bodies of the
      handlers; written JSON is read back, for texts of any bytes.
    - Request metrics ([Instrument]): every API request is counted once
      under one of five routes and one observed duration; the outer
      multiplexer changes nothing but /metrics; no registration panics unless
      a version string is not UTF-8.
    - Draining and time ([Liveness], [Main]): no session outlives its
      timeout; after [Drain] no session or Chromium starts, and the goroutines that are
      left can always finish and take a bounded number of steps, so [Wait]
      returns; the grace time of the shutdown covers every session, and the
      process exits within 320 seconds.
    - The process ([Flags], [Process]): every configuration can be given on
      the command line; what each exit status says; when start-up succeeds;
      Chromium runs as the configured user.
    - Launching ([Outcome]): each run is counted once with the right state,
      OOM kills and memory are accounted exactly, directories are removed,
      the command line and the user agent, without any "Headless", are the
      intended ones for every Chromium.
    - Readiness client ([Chromium]): it returns within six attempts and
      within its budget plus one last wait, with the first answer or the
      context's error.
    - Files ([Cgroup], [Proc]): the kernel's counter is read back exactly,
      every result of the reading and when it is returned, the classification of processes does not
      depend on the layout of the command line, the walk over the processes
      equals its reference and is sound when processes vanish meanwhile, the
      capability check is exact.
    - Build version ([BuildVersion]): look-ups are in range and exact.
    - Test utilities ([TestUtil]): the heartbeat assertions count processes,
      wherever in their loops these are.

    ** Fuel and bounds

    [Version_loop] takes fuel; [Version_terminates] shows that seven turns
    are enough for the two-second budget.  The JSON parser takes twice the
    length of its input, as each call consumes a byte at least every second
    level ([Json.parse_json_fuel]); [strip_all], [replace_all], [unquote],
    [escape] and [to_valid] take the length of their input and consume a byte
    per turn ([JsonText.escape_read], [JsonText.to_valid_fuel]);
    [utoa] has the 20 digits of a 64-bit number; an IPv6 address has eight
    groups.  The binary search takes the length of the slice
    ([search_loop_spec]).

    ** Assumptions of the transition systems

    A callback, an expiry or the end of a launch may happen at any time after
    its cause; the liveness theorems say that such a step is enabled and how
    many there can be, and so hold for every schedule that runs the
    goroutines.  A launch goroutine may always return: that Chromium dies
    when it is killed is the kernel's promise.  [Main.main_step] assumes that
    the timers of the shutdown are prompt, and measures from the start of the
    drain: [Drain] waits for the lock, so a creation in progress, which lasts
    the two seconds of its readiness client and its last wait at most, comes
    before it.  A panic ([launch] when the
    directory cannot be removed) ends the process and has no step
    ([Process.crashes]).  A walk of
    the heartbeat directory reads one state of it.

    ** What is not modelled

    The bucket layouts and the exposition of Prometheus collectors, the
    websocket connection behind the proxy, the opening of the listener and
    the delivery of signals (events of [Process.process_step]), the texts of
    errors, and hosts in the patterns of a multiplexer, which the code does
    not use. *)

From Stdlib Require Export ZArith Lia Ascii String.
From stdpp Require Export base tactics option list gmap strings sorting relations.

(** ** Machine integers

    Go's [int], [int64], [uint64] and [time.Duration] are modelled as [Z];
    the arithmetic of the code that can leave the range goes through these
    two wrap-around functions. *)

Definition wrap_u64 (z : Z) : Z := (z mod 2 ^ 64)%Z.
Definition wrap_i64 (z : Z) : Z := ((z + 2 ^ 63) mod 2 ^ 64 - 2 ^ 63)%Z.

Definition is_u64 (z : Z) : Prop := (0 <= z < 2 ^ 64)%Z.
Definition is_i64 (z : Z) : Prop := (- 2 ^ 63 <= z < 2 ^ 63)%Z.

Lemma wrap_u64_id z : is_u64 z -> wrap_u64 z = z.
Proof. unfold is_u64, wrap_u64. intros. by apply Z.mod_small. Qed.

Lemma wrap_u64_range z : is_u64 (wrap_u64 z).
Proof. unfold is_u64, wrap_u64. apply Z.mod_pos_bound. lia. Qed.

Lemma wrap_i64_id z : is_i64 z -> wrap_i64 z = z.
Proof.
  unfold is_i64, wrap_i64. intros.
  rewrite Z.mod_small; lia.
Qed.

Lemma wrap_i64_range z : is_i64 (wrap_i64 z).
Proof.
  unfold is_i64, wrap_i64.
  pose proof (Z.mod_pos_bound (z + 2 ^ 63) (2 ^ 64)). lia.
Qed.

Definition wrap_u32 (z : Z) : Z := (z mod 2 ^ 32)%Z.

(** [float64(z)] for an integer [z >= 0]: rounding to 53 bits, ties to even.
    The values stay integers. *)
Definition float64_of_nonneg (z : Z) : Z :=
  if (z <? 2 ^ 53)%Z then z
  else
    let e := (Z.log2 z - 52)%Z in
    let q := (z / 2 ^ e)%Z in
    let r := (z mod 2 ^ e)%Z in
    let half := (2 ^ (e - 1))%Z in
    let up := (half <? r)%Z || ((r =? half)%Z && Z.odd q) in
    ((if up then q + 1 else q) * 2 ^ e)%Z.

Definition float64_of_int (z : Z) : Z :=
  if (z <? 0)%Z then (- float64_of_nonneg (- z))%Z else float64_of_nonneg z.

Lemma float64_exact z : (- 2 ^ 53 < z < 2 ^ 53)%Z -> float64_of_int z = z.
Proof.
  unfold float64_of_int, float64_of_nonneg. intros.
  destruct (Z.ltb_spec z 0).
  - rewrite (proj2 (Z.ltb_lt (- z) (2 ^ 53))) by lia. lia.
  - by rewrite (proj2 (Z.ltb_lt z (2 ^ 53))) by lia.
Qed.

(** ** Errors

    A Go [error] value.  The sentinels the code compares against with
    [errors.Is] are constructors; [fmt.Errorf "... %w" e] is [ErrWrap] and
    keeps the format, its other arguments and the wrapped error. *)

Inductive error :=
  | ErrSessionExists
  | ErrDraining
  | ErrCanceled              (* context.Canceled *)
  | ErrDeadlineExceeded      (* context.DeadlineExceeded *)
  | ErrNotExist              (* fs.ErrNotExist *)
  | ErrSyntax                (* strconv.ErrSyntax *)
  | ErrRange                 (* strconv.ErrRange *)
  | ErrTooLong               (* bufio.ErrTooLong *)
  | ErrNew (msg : string) (args : list string)
  | ErrWrap (fmt : string) (args : list string) (e : error).

#[export] Instance error_eq_dec : EqDecision error.
Proof. solve_decision. Defined.

(** [errors.Is err target] for a sentinel [target]. *)
Fixpoint errors_is (e target : error) : bool :=
  bool_decide (e = target) ||
  match e with
  | ErrWrap _ _ e' => errors_is e' target
  | _ => false
  end.

(** The result of a fallible Go call that returns [(value, error)]. *)
Inductive res (A : Type) :=
  | Ok (a : A)
  | Err (e : error).
Arguments Ok {A} a.
Arguments Err {A} e.

#[export] Instance res_eq_dec `{EqDecision A} : EqDecision (res A).
Proof. solve_decision. Defined.

#[export] Instance res_ret : MRet res := @Ok.
#[export] Instance res_bind : MBind res := fun A B f r =>
  match r with Ok a => f a | Err e => Err e end.

(** Wrapping the error of a call, as [fmt.Errorf(fmt, args, err)] does. *)
Definition wrap_err {A} (fmt : string) (args : list string) (r : res A) : res A :=
  match r with Ok a => Ok a | Err e => Err (ErrWrap fmt args e) end.

Definition is_ok {A} (r : res A) : bool := match r with Ok _ => true | Err _ => false end.

Lemma res_bind_Ok {A B} (f : A -> res B) r b :
  r ≫= f = Ok b <-> exists a, r = Ok a /\ f a = Ok b.
Proof. destruct r; naive_solver. Qed.

(** ** Bytes

    The non-printing bytes the code or the modelled library functions name. *)

Definition nul : ascii := Ascii.ascii_of_nat 0.
Definition tab : ascii := Ascii.ascii_of_nat 9.
Definition lf : ascii := Ascii.ascii_of_nat 10.
Definition cr : ascii := Ascii.ascii_of_nat 13.
Definition space : ascii := Ascii.ascii_of_nat 32.
Definition slash : ascii := "/"%char.

Definition str1 (c : ascii) : string := String c EmptyString.

(** ** Automation *)

Create HintDb croco discriminated.
Create Rewrite HintDb croco_rw.

(** Case analysis on every [if decide], [if b] and [match] of the goal, then
    the equalities that follow. *)
Ltac case_all := repeat (case_match || case_decide); simplify_eq/=; try done.

(** Turns boolean tests in the context into propositions. *)
Ltac to_prop :=
  repeat match goal with
  | H : andb _ _ = true |- _ => apply andb_true_iff in H; destruct H
  | H : andb _ _ = false |- _ => apply andb_false_iff in H
  | H : orb _ _ = true |- _ => apply orb_true_iff in H
  | H : orb _ _ = false |- _ => apply orb_false_iff in H; destruct H
  | H : negb _ = true |- _ => apply negb_true_iff in H
  | H : negb _ = false |- _ => apply negb_false_iff in H
  | H : bool_decide _ = true |- _ => apply bool_decide_eq_true in H
  | H : bool_decide _ = false |- _ => apply bool_decide_eq_false in H
  | H : Z.ltb _ _ = true |- _ => apply Z.ltb_lt in H
  | H : Z.ltb _ _ = false |- _ => apply Z.ltb_ge in H
  | H : Z.leb _ _ = true |- _ => apply Z.leb_le in H
  | H : Z.leb _ _ = false |- _ => apply Z.leb_gt in H
  | H : Z.eqb _ _ = true |- _ => apply Z.eqb_eq in H
  | H : Z.eqb _ _ = false |- _ => apply Z.eqb_neq in H
  | H : Nat.ltb _ _ = true |- _ => apply Nat.ltb_lt in H
  | H : Nat.ltb _ _ = false |- _ => apply Nat.ltb_ge in H
  end.
