(* ===== verification/GoStrings.v ===== *)
(** * The string functions of the Go standard library the code uses

    Go strings are byte sequences: [string] of [ascii].  Each definition is
    the behaviour of one library function on the arguments the code gives it
    ([strings], [strconv], [path/filepath]), executable, with the lemmas the
    components use. *)

From S2P Require Import Prelude.

(** ** Package strings *)

(** [strings.HasPrefix(s, p)]. *)
Fixpoint has_prefix (s p : string) : bool :=
  match p, s with
  | EmptyString, _ => true
  | String a p', String b s' => Ascii.eqb a b && has_prefix s' p'
  | String _ _, EmptyString => false
  end.

(** [s[n:]] for [n <= len(s)]. *)
Fixpoint drop_str (n : nat) (s : string) : string :=
  match n, s with
  | O, _ => s
  | S n', String _ s' => drop_str n' s'
  | S _, EmptyString => EmptyString
  end.

(** [s[:n]] for [n <= len(s)]. *)
Fixpoint take_str (n : nat) (s : string) : string :=
  match n, s with
  | O, _ => EmptyString
  | S n', String c s' => String c (take_str n' s')
  | S _, EmptyString => EmptyString
  end.

(** [strings.TrimPrefix(s, p)]. *)
Definition trim_prefix (s p : string) : string :=
  if has_prefix s p then drop_str (String.length p) s else s.

(** [strings.Index(s, sub)]: [None] for Go's [-1]. *)
Fixpoint index (s sub : string) : option nat :=
  if has_prefix s sub then Some 0
  else match s with
       | EmptyString => None
       | String _ s' => S <$> index s' sub
       end.

(** [strings.Contains(s, sub)]. *)
Definition contains (s sub : string) : bool := bool_decide (is_Some (index s sub)).

(** Whether byte [c] occurs in [s]. *)
Fixpoint mem_byte (c : ascii) (s : string) : bool :=
  match s with
  | EmptyString => false
  | String d s' => Ascii.eqb c d || mem_byte c s'
  end.

(** [strings.IndexAny(s, chars)] for ASCII-only [chars]: Go then compares
    byte by byte. *)
Fixpoint index_any (s chars : string) : option nat :=
  match s with
  | EmptyString => None
  | String c s' => if mem_byte c chars then Some 0 else S <$> index_any s' chars
  end.

(** [strings.Split(s, sep)] for a one-byte separator. *)
Fixpoint split (s : string) (sep : ascii) : list string :=
  match s with
  | EmptyString => [EmptyString]
  | String c s' =>
      if Ascii.eqb c sep then EmptyString :: split s' sep
      else match split s' sep with
           | [] => [str1 c]
           | w :: ws => String c w :: ws
           end
  end.

(** [strings.Join(l, sep)]. *)
Fixpoint join (l : list string) (sep : string) : string :=
  match l with
  | [] => EmptyString
  | [w] => w
  | w :: ws => w +:+ sep +:+ join ws sep
  end.

(** [strings.Cut(s, c)] for one byte: what is before the first [c], and what
    is after it if there is one. *)
Fixpoint cut (s : string) (c : ascii) : string * option string :=
  match s with
  | EmptyString => (EmptyString, None)
  | String d s' =>
      if Ascii.eqb d c then (EmptyString, Some s')
      else let '(a, b) := cut s' c in (String d a, b)
  end.

(** The UTF-8 encodings of the characters [unicode.IsSpace] accepts. *)
Definition bytes (l : list nat) : string :=
  foldr (fun n s => String (Ascii.ascii_of_nat n) s) EmptyString l.

Definition space_encodings : list string :=
  bytes <$>
    [[9]; [10]; [11]; [12]; [13]; [32]; [194; 133]; [194; 160]; [225; 154; 128];
     [226; 128; 128]; [226; 128; 129]; [226; 128; 130]; [226; 128; 131];
     [226; 128; 132]; [226; 128; 133]; [226; 128; 134]; [226; 128; 135];
     [226; 128; 136]; [226; 128; 137]; [226; 128; 138]; [226; 128; 168];
     [226; 128; 169]; [226; 128; 175]; [226; 129; 159]; [227; 128; 128]].

Definition strip_one (encs : list string) (s : string) : option string :=
  (fun e => drop_str (String.length e) s) <$> List.find (has_prefix s) encs.

Fixpoint strip_all (fuel : nat) (encs : list string) (s : string) : string :=
  match fuel with
  | O => s
  | S fuel' => match strip_one encs s with
               | Some s' => strip_all fuel' encs s'
               | None => s
               end
  end.

Definition rev_str (s : string) : string := String.rev s.

(** [strings.TrimSpace(s)]: a trailing space character is recognised by its
    encoding read backwards, which is what decoding the last rune does. *)
Definition trim_left (s : string) : string :=
  strip_all (String.length s) space_encodings s.
Definition trim_right (s : string) : string :=
  rev_str (strip_all (String.length s) (rev_str <$> space_encodings) (rev_str s)).
Definition trim_space (s : string) : string := trim_right (trim_left s).

(** [strings.ReplaceAll(s, old, new)] for a non-empty [old]: occurrences are
    found left to right and do not overlap.  Fuel: one per byte. *)
Fixpoint replace_all_aux (fuel : nat) (s old new : string) : string :=
  match fuel with
  | O => s
  | S fuel' =>
      match s with
      | EmptyString => EmptyString
      | String c s' =>
          if has_prefix s old
          then new +:+ replace_all_aux fuel' (drop_str (String.length old) s) old new
          else String c (replace_all_aux fuel' s' old new)
      end
  end.
Definition replace_all (s old new : string) : string :=
  replace_all_aux (String.length s) s old new.

(** [strings.Compare(a, b)]: bytewise lexicographic, as -1, 0 or 1. *)
Fixpoint compare (a b : string) : Z :=
  match a, b with
  | EmptyString, EmptyString => 0%Z
  | EmptyString, String _ _ => (-1)%Z
  | String _ _, EmptyString => 1%Z
  | String x a', String y b' =>
      match (N_of_ascii x ?= N_of_ascii y)%N with
      | Lt => (-1)%Z
      | Gt => 1%Z
      | Eq => compare a' b'
      end
  end.

(** ** Package strconv *)

Definition digit (c : ascii) : option Z :=
  let n := Z.of_N (N_of_ascii c) in
  if (48 <=? n)%Z && (n <=? 57)%Z then Some (n - 48)%Z else None.

Definition max_u64 : Z := (2 ^ 64 - 1)%Z.

(** The loop of [strconv.ParseUint(s, 10, 64)]: the syntax error of a byte
    comes before the range check of that byte, and a range error ends the
    loop at once. *)
Fixpoint parse_digits (acc : Z) (s : string) : res Z :=
  match s with
  | EmptyString => Ok acc
  | String c s' =>
      match digit c with
      | None => Err ErrSyntax
      | Some d =>
          if (max_u64 / 10 + 1 <=? acc)%Z then Err ErrRange
          else let n := (acc * 10)%Z in
               let n1 := wrap_u64 (n + d)%Z in
               if (n1 <? n)%Z then Err ErrRange else parse_digits n1 s'
      end
  end.

Definition parse_uint (s : string) : res Z :=
  match s with EmptyString => Err ErrSyntax | _ => parse_digits 0 s end.

(** [strconv.ParseInt(s, 10, 64)]. *)
Definition parse_int_mag (neg : bool) (s : string) : res Z :=
  match parse_uint s with
  | Err e => if bool_decide (e = ErrRange) then Err ErrRange else Err e
  | Ok un =>
      if negb neg && (2 ^ 63 <=? un)%Z then Err ErrRange
      else if neg && (2 ^ 63 <? un)%Z then Err ErrRange
      else Ok (if neg then (- un)%Z else un)
  end.

Definition parse_int (s : string) : res Z :=
  match s with
  | EmptyString => Err ErrSyntax
  | String c s' =>
      if Ascii.eqb c "+"%char then parse_int_mag false s'
      else if Ascii.eqb c "-"%char then parse_int_mag true s'
      else parse_int_mag false s
  end.

(** [strconv.Atoi] on a 64-bit platform: the same values as
    [ParseInt(s, 10, 0)]. *)
Definition atoi (s : string) : res Z := parse_int s.

(** [strconv.Itoa(n)]. *)
Definition digit_char (d : Z) : ascii := Ascii.ascii_of_N (Z.to_N (48 + d)).

Fixpoint utoa_aux (fuel : nat) (n : Z) (acc : string) : string :=
  match fuel with
  | O => acc
  | S fuel' =>
      let acc' := String (digit_char (n mod 10)) acc in
      if (n / 10 =? 0)%Z then acc' else utoa_aux fuel' (n / 10)%Z acc'
  end.
(** An [int] has at most 20 digits. *)
Definition utoa (n : Z) : string := utoa_aux 20 n EmptyString.
Definition itoa (n : Z) : string :=
  if (n <? 0)%Z then String "-"%char (utoa (- n)%Z) else utoa n.

(** ** Package path/filepath on Unix *)

Definition dot : string := ".".
Definition dotdot : string := "..".

(** One component of the lexical clean-up: [out] is the output stack, last
    component first. *)
Definition clean_step (rooted : bool) (out : list string) (w : string) : list string :=
  if bool_decide (w = EmptyString) || bool_decide (w = dot) then out
  else if bool_decide (w = dotdot) then
    match out with
    | [] => if rooted then [] else [dotdot]
    | o :: out' => if bool_decide (o = dotdot) then dotdot :: out else out'
    end
  else w :: out.

(** [filepath.Clean(p)]. *)
Definition clean (p : string) : string :=
  let rooted := has_prefix p "/" in
  let out := join (rev (foldl (clean_step rooted) [] (split p slash))) "/" in
  if rooted then String slash out
  else if bool_decide (out = EmptyString) then dot else out.

(** [filepath.Join(elems...)]: leading empty elements are dropped. *)
Fixpoint path_join (elems : list string) : string :=
  match elems with
  | [] => EmptyString
  | e :: es => if bool_decide (e = EmptyString) then path_join es
               else clean (join elems "/")
  end.

(** The bytes up to and including the last slash, and the rest. *)
Fixpoint cut_last_slash (s : string) : string * string :=
  match s with
  | EmptyString => (EmptyString, EmptyString)
  | String c s' =>
      let '(d, b) := cut_last_slash s' in
      if bool_decide (d = EmptyString)
      then if Ascii.eqb c slash then (str1 c, b) else (EmptyString, String c b)
      else (String c d, b)
  end.

(** [filepath.Dir(p)]. *)
Definition dir (p : string) : string := clean (cut_last_slash p).1.

Fixpoint strip_trailing_slashes (s : string) : string :=
  match s with
  | EmptyString => EmptyString
  | String c s' =>
      let r := strip_trailing_slashes s' in
      if bool_decide (r = EmptyString) && Ascii.eqb c slash then EmptyString else String c r
  end.

(** [filepath.Base(p)]. *)
Definition base (p : string) : string :=
  if bool_decide (p = EmptyString) then dot
  else let p' := strip_trailing_slashes p in
       if bool_decide (p' = EmptyString) then str1 slash else (cut_last_slash p').2.

(** ** Package bufio: a Scanner over lines *)

(** [bufio.ScanLines] drops one trailing carriage return. *)
Fixpoint drop_cr (s : string) : string :=
  match s with
  | EmptyString => EmptyString
  | String c EmptyString => if Ascii.eqb c cr then EmptyString else s
  | String c s' => String c (drop_cr s')
  end.

(** The lines of an input: a final line without newline counts if not empty. *)
Definition raw_lines (s : string) : list string :=
  let ws := split s lf in
  match last ws with
  | Some EmptyString => take (length ws - 1) ws
  | _ => ws
  end.

(** [bufio.MaxScanTokenSize]: a line of this many bytes or more does not fit
    the buffer. *)
Definition max_scan_token : nat := Z.to_nat 65536.

(** ** Facts *)

#[local] Arguments String.append !_ _ / : simpl nomatch.

(** Lines, each ended by a newline. *)
Definition unlines (ls : list string) : string :=
  foldr (fun l s => l +:+ String lf s) EmptyString ls.

Lemma string_app_nil s : s +:+ EmptyString = s.
Proof. induction s as [|c s IH]; simpl; [done|]. by rewrite IH. Qed.

Lemma string_app_assoc (a b c : string) : (a +:+ b) +:+ c = a +:+ (b +:+ c).
Proof. induction a as [|x a IH]; simpl; [done|]. by rewrite IH. Qed.

Lemma str1_app c s : str1 c +:+ s = String c s.
Proof. done. Qed.

Lemma length_string_app a b : String.length (a +:+ b) = String.length a + String.length b.
Proof. induction a as [|c a IH]; simpl; [done|]. by rewrite IH. Qed.

Lemma has_prefix_app p s : has_prefix (p +:+ s) p = true.
Proof. induction p as [|c p IH]; simpl; [by destruct s|]. by rewrite Ascii.eqb_refl. Qed.

Lemma drop_str_app p s : drop_str (String.length p) (p +:+ s) = s.
Proof. induction p as [|c p IH]; simpl; [by destruct s|done]. Qed.

Lemma take_str_app p s : take_str (String.length p) (p +:+ s) = p.
Proof. induction p as [|c p IH]; simpl; [by destruct s|]. by rewrite IH. Qed.

Lemma trim_prefix_app p s : trim_prefix (p +:+ s) p = s.
Proof. unfold trim_prefix. by rewrite has_prefix_app, drop_str_app. Qed.

Lemma has_prefix_inv s p : has_prefix s p = true -> s = p +:+ drop_str (String.length p) s.
Proof.
  revert s. induction p as [|c p IH]; intros [|d s]; simpl; try done.
  intros [->%Ascii.eqb_eq ?]%andb_true_iff. by rewrite <- IH.
Qed.

Lemma mem_byte_app c a b : mem_byte c (a +:+ b) = mem_byte c a || mem_byte c b.
Proof. induction a as [|d a IH]; simpl; [done|]. by rewrite IH, orb_assoc. Qed.

#[export] Hint Rewrite has_prefix_app drop_str_app trim_prefix_app mem_byte_app
  length_string_app string_app_nil : croco_rw.

(** *** Splitting and joining lines *)

Lemma split_cons_byte l sep s :
  mem_byte sep l = false -> split (l +:+ String sep s) sep = l :: split s sep.
Proof.
  induction l as [|c l IH]; simpl; intros Hl; [by rewrite Ascii.eqb_refl|].
  apply orb_false_iff in Hl as [Hc Hl]. rewrite Ascii.eqb_sym, Hc, IH by done. done.
Qed.

Lemma split_nonempty s sep : split s sep <> [].
Proof. induction s as [|c s IH]; simpl; [done|]. repeat case_match; done. Qed.

Lemma raw_lines_unlines ls rest :
  Forall (fun l => mem_byte lf l = false) ls ->
  raw_lines (unlines ls +:+ rest) = ls ++ raw_lines rest.
Proof.
  intros Hls.
  assert (Hsp : split (unlines ls +:+ rest) lf = ls ++ split rest lf).
  { induction Hls as [|l ls Hl _ IH]; simpl; [done|].
    by rewrite string_app_assoc; simpl; rewrite split_cons_byte, IH. }
  unfold raw_lines. rewrite Hsp, last_app.
  pose proof (split_nonempty rest lf) as Hne.
  destruct (last (split rest lf)) as [x|] eqn:El.
  2:{ by apply last_None in El. }
  destruct x; [|done]. rewrite take_app_ge.
  - f_equal. f_equal. rewrite length_app. lia.
  - rewrite length_app. destruct (split rest lf); simpl in *; [done|lia].
Qed.

Lemma drop_cr_id l : mem_byte cr l = false -> drop_cr l = l.
Proof.
  induction l as [|c l IH]; [done|]. cbn [mem_byte]. intros [Hc Hl]%orb_false_iff.
  specialize (IH Hl). destruct l; cbn [drop_cr] in *; [by rewrite Ascii.eqb_sym, Hc|]. by rewrite IH.
Qed.

(** *** Decimal numbers *)

Lemma digit_digit_char d : (0 <= d < 10)%Z -> digit (digit_char d) = Some d.
Proof.
  intros Hd. unfold digit, digit_char.
  rewrite N_ascii_embedding by lia.
  rewrite Z2N.id by lia.
  rewrite (proj2 (Z.leb_le 48 (48 + d))), (proj2 (Z.leb_le (48 + d) 57)) by lia.
  simpl. f_equal. lia.
Qed.

Lemma parse_digits_step acc d s :
  (0 <= acc)%Z -> (0 <= d < 10)%Z -> is_u64 (acc * 10 + d) ->
  parse_digits acc (String (digit_char d) s) = parse_digits (acc * 10 + d) s.
Proof.
  intros Ha Hd Hn. simpl. rewrite digit_digit_char by done. rewrite (wrap_u64_id _ Hn).
  unfold is_u64 in Hn. change (max_u64 / 10 + 1)%Z with 1844674407370955162%Z.
  destruct (_ <=? acc)%Z eqn:E1; [to_prop; lia|]. by destruct (_ <? _)%Z eqn:E2; [to_prop; lia|].
Qed.

Lemma parse_utoa_aux fuel n acc :
  (0 <= n < 10 ^ Z.of_nat fuel)%Z -> is_u64 n ->
  parse_digits 0 (utoa_aux fuel n acc) = parse_digits n acc.
Proof.
  revert n acc. induction fuel as [|fuel IH]; intros n acc Hn Hu.
  { simpl in *. assert (n = 0%Z) as -> by lia. done. }
  pose proof (Z.div_mod n 10 ltac:(lia)). pose proof (Z.mod_pos_bound n 10 ltac:(lia)).
  rewrite Nat2Z.inj_succ, Z.pow_succ_r in Hn by lia. unfold is_u64 in *.
  cbn [utoa_aux]. destruct (n / 10 =? 0)%Z eqn:E; to_prop.
  - rewrite parse_digits_step; [f_equal; lia|lia|lia|unfold is_u64; lia].
  - rewrite IH; [|split; [apply Z.div_pos; lia|apply Z.div_lt_upper_bound; lia]|lia].
    rewrite parse_digits_step; [f_equal; lia|apply Z.div_pos; lia|lia|unfold is_u64; lia].
Qed.

Lemma utoa_aux_nonempty fuel m acc : acc <> EmptyString -> utoa_aux fuel m acc <> EmptyString.
Proof.
  revert m acc. induction fuel as [|fuel IH]; intros m acc Ha; simpl; [done|].
  case_match; [done|]. by apply IH.
Qed.

Lemma utoa_nonempty n : utoa n <> EmptyString.
Proof.
  unfold utoa. generalize 19%nat as f. intros f. cbn [utoa_aux].
  case_match; [done|]. by apply utoa_aux_nonempty.
Qed.

(** [ParseUint] reads back what [Itoa] and the kernel print. *)
Lemma parse_uint_utoa n : is_u64 n -> parse_uint (utoa n) = Ok n.
Proof.
  intros Hn. unfold parse_uint. pose proof (utoa_nonempty n).
  destruct (utoa n) eqn:E; [done|]. rewrite <- E. unfold utoa.
  rewrite parse_utoa_aux; [done|unfold is_u64 in Hn; change (Z.of_nat 20) with 20%Z; lia|done].
Qed.

Lemma parse_digits_range acc s n : is_u64 acc -> parse_digits acc s = Ok n -> is_u64 n.
Proof.
  revert acc. induction s as [|c s IH]; intros acc Ha; cbn [parse_digits]; intros H; [by simplify_eq|].
  repeat case_match; try done. eapply IH; [|done]. apply wrap_u64_range.
Qed.

Lemma parse_uint_range s n : parse_uint s = Ok n -> is_u64 n.
Proof. destruct s; [done|]. apply parse_digits_range. unfold is_u64. lia. Qed.

Lemma parse_digits_error acc s e : parse_digits acc s = Err e -> e = ErrSyntax \/ e = ErrRange.
Proof. revert acc. induction s; intros acc; cbn [parse_digits]; repeat case_match; naive_solver. Qed.

Lemma parse_uint_error s e : parse_uint s = Err e -> e = ErrSyntax \/ e = ErrRange.
Proof. destruct s; [naive_solver|]. apply parse_digits_error. Qed.

Lemma parse_int_mag_range neg s n : parse_int_mag neg s = Ok n -> is_i64 n.
Proof.
  unfold parse_int_mag, is_i64. destruct (parse_uint s) as [un|e] eqn:E; [|by case_match].
  apply parse_uint_range in E. unfold is_u64 in E.
  destruct neg; simpl; destruct (_ <? _)%Z eqn:E1 || destruct (_ <=? _)%Z eqn:E1; intros; simplify_eq;
    to_prop; lia.
Qed.

Lemma parse_int_range s n : parse_int s = Ok n -> is_i64 n.
Proof. destruct s; simpl; [done|]. repeat case_match; apply parse_int_mag_range. Qed.

Lemma utoa_digits n : (0 <= n)%Z -> forall c, (N_of_ascii c < 48)%N -> mem_byte c (utoa n) = false.
Proof.
  intros Hn c Hc. unfold utoa.
  assert (forall fuel m acc, (0 <= m)%Z -> mem_byte c acc = false -> mem_byte c (utoa_aux fuel m acc) = false) as Hg.
  { intros fuel. induction fuel as [|fuel IH]; intros m acc Hm Ha; [done|].
    pose proof (Z.mod_pos_bound m 10 ltac:(lia)).
    assert (mem_byte c (String (digit_char (m mod 10)) acc) = false).
    { simpl. rewrite Ha, orb_false_r. apply Ascii.eqb_neq. intros ->.
      unfold digit_char in Hc. rewrite N_ascii_embedding in Hc; lia. }
    cbn [utoa_aux]. case_match; [done|]. apply IH; [apply Z.div_pos; lia|done]. }
  by apply Hg.
Qed.

Lemma utoa_length n : (String.length (utoa n) <= 20)%nat.
Proof.
  unfold utoa.
  assert (forall fuel m acc, String.length (utoa_aux fuel m acc) <= fuel + String.length acc)%nat as Hg.
  { intros fuel. induction fuel as [|fuel IH]; intros m acc; simpl; [lia|].
    case_match; simpl; [lia|]. specialize (IH (m / 10)%Z (String (digit_char (m mod 10)) acc)).
    simpl in IH. lia. }
  apply (Hg 20%nat n EmptyString).
Qed.

(** *** Paths *)

#[local] Arguments Ascii.eqb : simpl never.

(** A path component that [filepath.Clean] keeps. *)
Record proper_name (w : string) : Prop := {
  pn_slash : mem_byte slash w = false;
  pn_empty : w <> EmptyString;
  pn_dot : w <> dot;
  pn_dotdot : w <> dotdot;
}.

(** The absolute path with the given components. *)
Definition abs_path (ws : list string) : string := String slash (join ws "/").

Lemma join_cons w w' ws sep : join (w :: w' :: ws) sep = w +:+ sep +:+ join (w' :: ws) sep.
Proof. done. Qed.

Lemma join_snoc ws w sep : ws <> [] -> join (ws ++ [w]) sep = join ws sep +:+ sep +:+ w.
Proof.
  intros Hne. induction ws as [|x [|y ws] IH]; [done|done|].
  cbn [app] in *. by rewrite !join_cons, IH, !string_app_assoc.
Qed.

Lemma split_no_byte s sep : mem_byte sep s = false -> split s sep = [s].
Proof.
  induction s as [|c s IH]; simpl; [done|]. intros [Hc Hs]%orb_false_iff.
  by rewrite Ascii.eqb_sym, Hc, IH.
Qed.

Lemma split_join ws sep :
  ws <> [] -> Forall (fun w => mem_byte sep w = false) ws -> split (join ws (str1 sep)) sep = ws.
Proof.
  intros Hne Hws. induction Hws as [|w [|w' ws] Hw Hws IH]; [done|by apply split_no_byte|].
  rewrite join_cons. change (str1 sep +:+ ?s) with (String sep s).
  by rewrite split_cons_byte, IH.
Qed.

Lemma abs_path_snoc ws w : ws <> [] -> abs_path (ws ++ [w]) = abs_path ws +:+ String slash w.
Proof. intros. unfold abs_path. by rewrite join_snoc. Qed.

Lemma clean_steps rooted ws out :
  Forall proper_name ws -> foldl (clean_step rooted) out ws = rev ws ++ out.
Proof.
  intros Hws. revert out. induction Hws as [|w ws [] _ IH]; intros out; simpl; [done|].
  unfold clean_step at 2. rewrite !bool_decide_false by done. simpl.
  by rewrite IH, <- app_assoc.
Qed.

Lemma split_abs_path ws :
  ws <> [] -> Forall proper_name ws -> split (abs_path ws) slash = EmptyString :: ws.
Proof.
  intros Hne Hws. unfold abs_path. cbn [split]. rewrite Ascii.eqb_refl.
  change (join ws "/") with (join ws (str1 slash)). rewrite split_join; [done|done|]. eapply Forall_impl; [exact Hws|]. by intros ? [].
Qed.

Lemma rooted_slash s : has_prefix (String slash s) "/" = true.
Proof. apply (has_prefix_app (str1 slash)). Qed.

Lemma rooted_inv p : has_prefix p "/" = true -> exists t, p = String slash t.
Proof. intros Hp%has_prefix_inv. eexists. exact Hp. Qed.

Lemma clean_abs_path ws : ws <> [] -> Forall proper_name ws -> clean (abs_path ws) = abs_path ws.
Proof.
  intros Hne Hws. unfold clean. rewrite split_abs_path by done.
  unfold abs_path at 1 2. rewrite !rooted_slash. cbn [foldl]. rewrite clean_steps by done. change (clean_step _ [] EmptyString) with (@nil string).
  by rewrite app_nil_r, rev_involutive.
Qed.

Lemma cut_last_slash_app d b :
  mem_byte slash b = false -> cut_last_slash (d +:+ String slash b) = (d +:+ str1 slash, b).
Proof.
  intros Hb.
  assert (Hb' : cut_last_slash b = (EmptyString, b)).
  { clear d. induction b as [|c b IH]; [done|]. simpl in Hb. apply orb_false_iff in Hb as [Hc Hb].
    simpl. rewrite IH by done. rewrite bool_decide_true by done. by rewrite Ascii.eqb_sym, Hc. }
  induction d as [|c d IH]; simpl.
  - by rewrite Hb'.
  - rewrite IH. by rewrite bool_decide_false by (by destruct d).
Qed.

Lemma dir_abs_path ws f :
  ws <> [] -> Forall proper_name ws -> proper_name f -> dir (abs_path (ws ++ [f])) = abs_path ws.
Proof.
  intros Hne Hws [Hf _ _ _]. unfold dir.
  rewrite abs_path_snoc, cut_last_slash_app by done. cbn [fst].
  unfold clean.
  assert (Hs : split (abs_path ws +:+ str1 slash) slash = EmptyString :: ws ++ [EmptyString]).
  { unfold abs_path. simpl. f_equal.
    rewrite <- (string_app_nil (str1 slash)), <- (split_join (ws ++ [EmptyString]) slash).
    - by rewrite join_snoc.
    - by destruct ws.
    - apply Forall_app_2; [|by repeat constructor]. eapply Forall_impl; [exact Hws|]. by intros ? []. }
  rewrite Hs. unfold abs_path at 1 2.
  change (String slash ?a +:+ ?b) with (String slash (a +:+ b)). rewrite !rooted_slash. cbn [foldl].
  change (clean_step _ [] EmptyString) with (@nil string).
  rewrite foldl_app, (clean_steps _ ws) by done. cbn [foldl].
  change (clean_step _ ?o EmptyString) with o. by rewrite app_nil_r, rev_involutive.
Qed.

Lemma strip_trailing_slashes_app d b :
  b <> EmptyString -> mem_byte slash b = false -> strip_trailing_slashes (d +:+ b) = d +:+ b.
Proof.
  intros Hne Hb.
  assert (Hb' : strip_trailing_slashes b = b).
  { clear d. induction b as [|c b IH]; [done|]. simpl in *. apply orb_false_iff in Hb as [Hc Hb].
    destruct b; [by rewrite bool_decide_true, Ascii.eqb_sym, Hc|].
    rewrite IH by done. by rewrite bool_decide_false. }
  induction d as [|c d IH]; simpl; [done|]. rewrite IH.
  rewrite bool_decide_false; [done|]. by destruct d.
Qed.

Lemma base_app d b :
  b <> EmptyString -> mem_byte slash b = false -> base (d +:+ String slash b) = b.
Proof.
  intros Hne Hb. unfold base. rewrite bool_decide_false by (by destruct d).
  change (String slash b) with (str1 slash +:+ b).
  rewrite <- string_app_assoc, strip_trailing_slashes_app, string_app_assoc by done.
  rewrite bool_decide_false by (by destruct d).
  change (str1 slash +:+ b) with (String slash b). by rewrite cut_last_slash_app.
Qed.

Lemma path_join_abs ws f :
  ws <> [] -> Forall proper_name ws -> proper_name f ->
  path_join [abs_path ws; f] = abs_path (ws ++ [f]).
Proof.
  intros Hne Hws Hf. cbn [path_join]. rewrite bool_decide_false by done.
  change (join [abs_path ws; f] "/") with (abs_path ws +:+ String slash f).
  rewrite <- abs_path_snoc by done. apply clean_abs_path; [by destruct ws|].
  by apply Forall_app_2; [|constructor].
Qed.

(** *** Searching *)

(** A pattern without the byte [sep] is found on one side of it. *)
Lemma has_prefix_sep a sep s p :
  mem_byte sep p = false -> has_prefix (a +:+ String sep s) p = has_prefix a p.
Proof.
  revert p. induction a as [|c a IH]; intros [|d p]; simpl; intros Hp; try done.
  all: apply orb_false_iff in Hp as [Hd Hp].
  - by rewrite Ascii.eqb_sym, Hd.
  - by rewrite IH.
Qed.

Lemma index_sep a sep s p :
  mem_byte sep p = false -> p <> EmptyString -> index a p = None ->
  index (a +:+ String sep s) p = Nat.add (S (String.length a)) <$> index s p.
Proof.
  intros Hp Hne. induction a as [|c a IH]; intros Ha.
  - change (EmptyString +:+ ?x) with x. cbn [index String.length].
    assert (has_prefix (String sep s) p = false) as ->; [|done].
    destruct p; simpl in *; [done|]. apply orb_false_iff in Hp as [Hp _].
    by rewrite Ascii.eqb_sym, Hp.
  - cbn [index] in Ha. destruct (has_prefix (String c a) p) eqn:Hc; [done|].
    destruct (index a p) eqn:Hi; [done|].
    change (String c a +:+ String sep s) with (String c (a +:+ String sep s)). cbn [index].
    rewrite <- (has_prefix_sep _ sep s p) in Hc by done.
    change (String c a +:+ ?t) with (String c (a +:+ t)) in Hc. rewrite Hc, IH by done.
    by destruct (index s p).
Qed.

Lemma index_prefix p s : index (p +:+ s) p = Some 0.
Proof. pose proof (has_prefix_app p s) as E. destruct (p +:+ s); cbn [index]; by rewrite E. Qed.

Lemma index_any_app a c s chars :
  (forall d, mem_byte d a = true -> mem_byte d chars = false) -> mem_byte c chars = true ->
  index_any (a +:+ String c s) chars = Some (String.length a).
Proof.
  intros Ha Hc. induction a as [|d a IH]; simpl; [by rewrite Hc|].
  rewrite Ha by (simpl; by rewrite Ascii.eqb_refl). rewrite IH; [done|].
  intros d' Hd. apply Ha. simpl. by rewrite Hd, orb_true_r.
Qed.

(** *** Replacing bytes *)

Fixpoint map_str (f : ascii -> ascii) (s : string) : string :=
  match s with
  | EmptyString => EmptyString
  | String c s' => String (f c) (map_str f s')
  end.

Lemma drop_map_str f n s : drop_str n (map_str f s) = map_str f (drop_str n s).
Proof. revert s. induction n as [|n IH]; intros [|c s]; simpl; done. Qed.

Lemma take_map_str f n s : take_str n (map_str f s) = map_str f (take_str n s).
Proof. revert s. induction n as [|n IH]; intros [|c s]; simpl; by rewrite ?IH. Qed.

(** [f] changes no byte into, or out of, a byte of [p]. *)
Definition fixes (f : ascii -> ascii) (p : string) : Prop :=
  forall a b, mem_byte a p = true -> Ascii.eqb a (f b) = Ascii.eqb a b.

Lemma has_prefix_map f s p : fixes f p -> has_prefix (map_str f s) p = has_prefix s p.
Proof.
  revert s. induction p as [|a p IH]; intros [|b s] Hf; simpl; try done.
  rewrite Hf by (simpl; by rewrite Ascii.eqb_refl). f_equal. apply IH.
  intros x y Hx. apply Hf. simpl. by rewrite Hx, orb_true_r.
Qed.

Lemma index_map f s p : fixes f p -> index (map_str f s) p = index s p.
Proof.
  intros Hf. induction s as [|c s IH]; [done|].
  pose proof (has_prefix_map f (String c s) p Hf) as E. cbn [index map_str] in *. by rewrite E, IH.
Qed.

Lemma contains_map f s p : fixes f p -> contains (map_str f s) p = contains s p.
Proof. intros. unfold contains. by rewrite index_map. Qed.

(** *** Replacing substrings *)

Lemma replace_all_aux_none fuel s old new : index s old = None -> replace_all_aux fuel s old new = s.
Proof.
  revert s. induction fuel as [|fuel IH]; intros [|c s] Hi; [done..|].
  cbn [index] in Hi. cbn [replace_all_aux].
  destruct (has_prefix (String c s) old); [done|]. by rewrite IH by (by apply fmap_None in Hi).
Qed.

(** The first byte of [old] occurs nowhere else in it, so two occurrences
    never overlap. *)
Definition borderless (old : string) : Prop :=
  exists c o, old = String c o /\ mem_byte c o = false.

(** The first occurrence of [old] after a piece without one. *)
Lemma replace_all_aux_piece fuel a old new b :
  borderless old -> index a old = None -> (String.length (a +:+ (old +:+ b)) <= fuel)%nat ->
  exists fuel', (String.length b <= fuel')%nat /\
    replace_all_aux fuel (a +:+ (old +:+ b)) old new = a +:+ (new +:+ replace_all_aux fuel' b old new).
Proof.
  intros (c & o & -> & Ho) Ha Hf. revert fuel Ha Hf.
  induction a as [|d a IH]; intros [|fuel] Ha Hf; rewrite !length_string_app in Hf; simpl in Hf; try lia.
  - exists fuel. split; [lia|].
    pose proof (has_prefix_app (String c o) b) as Hp. pose proof (drop_str_app (String c o) b) as Hd.
    change (EmptyString +:+ (String c o +:+ b)) with (String c (o +:+ b)).
    change (String c o +:+ b) with (String c (o +:+ b)) in Hp, Hd.
    cbn [replace_all_aux]. by rewrite Hp, Hd.
  - cbn [index] in Ha. destruct (has_prefix (String d a) (String c o)) eqn:Hp; [done|].
    apply fmap_None in Ha. destruct (IH fuel Ha) as (fuel' & Hl & E).
    { rewrite !length_string_app. simpl. lia. }
    exists fuel'. split; [done|]. change (String d a +:+ ?x) with (String d (a +:+ x)). cbn [replace_all_aux].
    assert (has_prefix (String d (a +:+ (String c o +:+ b))) (String c o) = false) as ->; [|by rewrite E].
    cbn [has_prefix] in Hp |- *. change (String c o +:+ b) with (String c (o +:+ b)).
    by rewrite (has_prefix_sep a c (o +:+ b) o Ho).
Qed.

(** Every occurrence is replaced: a string is pieces without [old] with [old]
    between them, and the result is the pieces with [new] between them. *)
Lemma replace_all_join pieces old new :
  borderless old -> Forall (fun p => index p old = None) pieces ->
  replace_all (join pieces old) old new = join pieces new.
Proof.
  intros Hb Hp. unfold replace_all.
  assert (Hf : (String.length (join pieces old) <= String.length (join pieces old))%nat) by done.
  revert Hf. generalize (String.length (join pieces old)) at 2 3 as fuel.
  induction Hp as [|p pieces Hp Hps IH]; intros fuel Hf; [by destruct fuel|].
  destruct pieces as [|q pieces]; [by apply replace_all_aux_none|].
  change (join (p :: q :: pieces) ?x) with (p +:+ (x +:+ join (q :: pieces) x)) in *.
  destruct (replace_all_aux_piece fuel p old new (join (q :: pieces) old) Hb Hp Hf) as (fuel' & Hl & ->).
  by rewrite IH.
Qed.

Lemma index_split s old n :
  old <> EmptyString -> index s old = Some n ->
  exists a b, s = a +:+ (old +:+ b) /\ index a old = None.
Proof.
  intros Hne. revert n. induction s as [|c s IH]; intros n; cbn [index].
  { destruct (has_prefix EmptyString old) eqn:Hp; [|done]. by destruct old. }
  destruct (has_prefix (String c s) old) eqn:Hp.
  - intros _. exists EmptyString, (drop_str (String.length old) (String c s)).
    split; [by apply has_prefix_inv|]. by destruct old.
  - intros (m & Hi & _)%fmap_Some. destruct (IH m Hi) as (a & b & -> & Ha).
    exists (String c a), b. split; [done|]. cbn [index]. rewrite Ha.
    destruct (has_prefix (String c a) old) eqn:Hq; [|done].
    apply has_prefix_inv in Hq. change (String c (a +:+ ?x)) with (String c a +:+ x) in Hp.
    by rewrite Hq, string_app_assoc, has_prefix_app in Hp.
Qed.

(** Every string has such pieces. *)
Lemma pieces_exist old s :
  old <> EmptyString -> exists pieces, s = join pieces old /\ Forall (fun p => index p old = None) pieces.
Proof.
  intros Hne. remember (String.length s) as k eqn:Hk. revert s Hk.
  induction (lt_wf k) as [k _ IH]. intros s ->. destruct (index s old) as [n|] eqn:Hi.
  - destruct (index_split s old n Hne Hi) as (a & b & -> & Ha).
    destruct (IH (String.length b)) with (s := b) as (pieces & -> & Hps); [|done|].
    { rewrite !length_string_app. destruct old; simpl; [done|lia]. }
    exists (a :: match pieces with [] => [EmptyString] | _ => pieces end).
    destruct pieces; (split; [done|]); constructor; try done.
    constructor; [by destruct old|done].
  - exists [s]. split; [done|]. by constructor.
Qed.

(** *** Every byte of a string *)

Fixpoint all_bytes (P : ascii -> bool) (s : string) : bool :=
  match s with EmptyString => true | String c s' => P c && all_bytes P s' end.

Lemma all_bytes_mem P s : (forall c, mem_byte c s = true -> P c = true) -> all_bytes P s = true.
Proof.
  induction s as [|c s IH]; intros HP; simpl; [done|].
  rewrite HP by (simpl; by rewrite Ascii.eqb_refl). apply IH.
  intros d Hd. apply HP. simpl. by rewrite Hd, orb_true_r.
Qed.

Lemma all_bytes_app P a b : all_bytes P (a +:+ b) = all_bytes P a && all_bytes P b.
Proof.
  induction a as [|c a IH]; [done|]. change (String c a +:+ b) with (String c (a +:+ b)).
  simpl. by rewrite IH, andb_assoc.
Qed.

Definition byte_in (lo hi : N) (c : ascii) : bool :=
  ((lo <=? N_of_ascii c) && (N_of_ascii c <=? hi))%N.

Lemma all_bytes_weaken (P Q : ascii -> bool) s :
  (forall c, P c = true -> Q c = true) -> all_bytes P s = true -> all_bytes Q s = true.
Proof.
  intros HPQ. induction s as [|c s IH]; simpl; [done|]. intros [Hc Hs]%andb_true_iff.
  by rewrite (HPQ _ Hc), IH.
Qed.

(** *** Decimal numbers *)

Lemma digit_char_byte d : (0 <= d < 10)%Z -> byte_in 48 57 (digit_char d) = true.
Proof.
  intros Hd. unfold byte_in, digit_char. rewrite N_ascii_embedding by lia.
  apply andb_true_iff. split; apply N.leb_le; lia.
Qed.

Lemma utoa_aux_digits fuel n acc :
  (0 <= n)%Z -> all_bytes (byte_in 48 57) acc = true -> all_bytes (byte_in 48 57) (utoa_aux fuel n acc) = true.
Proof.
  revert n acc. induction fuel as [|fuel IH]; intros n acc Hn Ha; [done|]. cbn [utoa_aux].
  assert (Hd : all_bytes (byte_in 48 57) (String (digit_char (n mod 10)) acc) = true).
  { simpl. rewrite Ha, digit_char_byte; [done|]. apply Z.mod_pos_bound. lia. }
  destruct (n / 10 =? 0)%Z; [done|]. apply IH; [|done]. apply Z.div_pos; lia.
Qed.

(** The bytes of a decimal number are visible ASCII characters. *)
Definition visible : ascii -> bool := byte_in 33 126.

Lemma digits_visible s : all_bytes (byte_in 48 57) s = true -> all_bytes visible s = true.
Proof.
  apply all_bytes_weaken. intros c. unfold visible, byte_in.
  rewrite !andb_true_iff, !N.leb_le. lia.
Qed.

Lemma itoa_visible n : all_bytes visible (itoa n) = true.
Proof.
  unfold itoa. destruct (Z.ltb_spec n 0); [cbn [all_bytes]; change (visible "-"%char) with true|];
    apply digits_visible, utoa_aux_digits; (done || lia).
Qed.

Lemma itoa_nonempty n : itoa n <> EmptyString.
Proof. unfold itoa. destruct (n <? 0)%Z; [done|apply utoa_nonempty]. Qed.

Lemma parse_int_itoa n : is_i64 n -> parse_int (itoa n) = Ok n.
Proof.
  unfold is_i64, itoa, parse_int, parse_int_mag. intros Hn. destruct (Z.ltb_spec n 0).
  - cbn -[parse_uint utoa Z.pow]. rewrite parse_uint_utoa by (unfold is_u64; lia). cbn [negb andb].
    rewrite (proj2 (Z.ltb_ge (2 ^ 63) (- n))) by lia. f_equal. lia.
  - pose proof (parse_uint_utoa n ltac:(unfold is_u64; lia)) as Hp.
    pose proof (utoa_aux_digits 20 n EmptyString ltac:(lia) eq_refl) as Hd. fold (utoa n) in Hd.
    destruct (utoa n) as [|c s]; [done|]. apply andb_true_iff in Hd as [Hc _].
    destruct (Ascii.eqb_spec c "+"%char) as [->|]; [by vm_compute in Hc|].
    destruct (Ascii.eqb_spec c "-"%char) as [->|]; [by vm_compute in Hc|].
    rewrite Hp. cbn [negb andb]. by rewrite (proj2 (Z.leb_gt (2 ^ 63) n)) by lia.
Qed.

(** *** A line of visible characters, trimmed *)

Lemma rev_app_str a b c : String.rev_app (a +:+ b) c = String.rev_app b (String.rev_app a c).
Proof. revert c. induction a as [|x a IH]; intros c; [done|]. apply (IH (String x c)). Qed.

Lemma rev_app_split a b : String.rev_app a b = rev_str a +:+ b.
Proof.
  unfold rev_str, String.rev. revert b. induction a as [|x a IH]; intros b; [done|].
  cbn [String.rev_app]. rewrite IH, (IH (String x "")). by rewrite string_app_assoc.
Qed.

Lemma rev_str_app a b : rev_str (a +:+ b) = rev_str b +:+ rev_str a.
Proof. unfold rev_str at 1, String.rev. by rewrite rev_app_str, rev_app_split. Qed.

Lemma rev_str_involutive a : rev_str (rev_str a) = a.
Proof.
  induction a as [|x a IH]; [done|]. change (String x a) with (str1 x +:+ a).
  by rewrite !rev_str_app, IH.
Qed.

Lemma all_bytes_rev P a : all_bytes P (rev_str a) = all_bytes P a.
Proof.
  induction a as [|x a IH]; [done|]. change (String x a) with (str1 x +:+ a).
  rewrite rev_str_app, !all_bytes_app, IH. apply andb_comm.
Qed.

Lemma rev_str_nonempty a : a <> EmptyString -> rev_str a <> EmptyString.
Proof. intros Ha E. apply Ha. by rewrite <- (rev_str_involutive a), E. Qed.

Definition not_visible_first (e : string) : Prop :=
  match e with String c _ => visible c = false | EmptyString => False end.

Lemma strip_all_first fuel encs c s :
  Forall not_visible_first encs -> visible c = true -> strip_all fuel encs (String c s) = String c s.
Proof.
  intros He Hc. destruct fuel as [|fuel]; [done|]. cbn [strip_all].
  assert (strip_one encs (String c s) = None) as ->; [|done]. unfold strip_one.
  enough (List.find (has_prefix (String c s)) encs = None) as -> by done.
  induction He as [|e es Hd He IH]; [done|]. cbn [List.find]. rewrite IH.
  destruct e as [|d e]; [done|]. cbn [has_prefix].
  destruct (Ascii.eqb_spec d c) as [->|]; [|done]. simpl in Hd. congruence.
Qed.

Lemma spaces_not_visible : Forall not_visible_first (space_encodings ++ (rev_str <$> space_encodings)).
Proof. repeat constructor. Qed.

Lemma strip_newline r : strip_one (rev_str <$> space_encodings) (String lf r) = Some r.
Proof. by destruct r. Qed.

Lemma trim_space_line s :
  all_bytes visible s = true -> s <> EmptyString -> trim_space (s +:+ str1 lf) = s.
Proof.
  intros Hs Hne. pose proof spaces_not_visible as [Hl Hr]%Forall_app.
  assert (trim_left (s +:+ str1 lf) = s +:+ str1 lf) as Hleft.
  { destruct s as [|c s]; [done|]. apply andb_true_iff in Hs as [Hc _]. by apply strip_all_first. }
  unfold trim_space. rewrite Hleft. unfold trim_right.
  rewrite length_string_app, Nat.add_comm, rev_str_app. cbn [str1 String.length Nat.add strip_all].
  change (rev_str (str1 lf) +:+ rev_str s) with (String lf (rev_str s)).
  rewrite strip_newline. apply rev_str_nonempty in Hne. rewrite <- (all_bytes_rev visible s) in Hs.
  destruct (rev_str s) as [|c r] eqn:E; [done|]. apply andb_true_iff in Hs as [Hc _].
  rewrite strip_all_first by done. rewrite <- E. apply rev_str_involutive.
Qed.

(** *** Cutting *)

Lemma cut_app a c b : mem_byte c a = false -> cut (a +:+ String c b) c = (a, Some b).
Proof.
  induction a as [|d a IH]; simpl; [by rewrite Ascii.eqb_refl|].
  intros [Hd Ha]%orb_false_iff. rewrite Ascii.eqb_sym, Hd. by rewrite IH.
Qed.

Lemma cut_none a c : mem_byte c a = false -> cut a c = (a, None).
Proof.
  induction a as [|d a IH]; simpl; [done|].
  intros [Hd Ha]%orb_false_iff. rewrite Ascii.eqb_sym, Hd. by rewrite IH.
Qed.
