(* ===== verification/OS.v ===== *)
(** * The operating system the code reads

    The file system is outside the program and changes while the program
    runs, so a run is given a [world]: what each successive file-system call
    observes.  Code that reads files is a function in the [IO] monad below,
    which only threads the number of calls made so far.  The third-party
    package prometheus/procfs is the interface [ProcFS]. *)

From S2P Require Import Prelude.

(** What [os.Open] followed by reads gives: the bytes that could be read and
    the error that ended the reading, if it was not the end of the file. *)
Record file := mkFile { f_data : string; f_err : option error }.

(** A file system, as one call sees it. *)
Record FS := mkFS {
  fs_stat : string -> res unit;       (* os.Stat: only its error is used *)
  fs_open : string -> res file;       (* os.Open and the reads after it *)
}.

(** [os.ReadFile(path)]. *)
Definition fs_read_file (fs : FS) (path : string) : res string :=
  f ← fs_open fs path;
  match f_err f with None => Ok (f_data f) | Some e => Err e end.

(** What the n-th file-system call of the run observes. *)
Definition world := nat -> FS.

Definition IO (A : Type) := world -> nat -> A * nat.

#[export] Instance io_ret : MRet IO := fun A a w n => (a, n).
#[export] Instance io_bind : MBind IO := fun A B k m w n =>
  let '(a, n') := m w n in k a w n'.

(** One system call. *)
Definition sys {A} (f : FS -> A) : IO A := fun w n => (f (w n), S n).

(** Running a computation against a world. *)
Definition run_io {A} (m : IO A) (w : world) : A := (m w 0).1.

(** A world in which nothing changes. *)
Definition still (fs : FS) : world := fun _ => fs.

(** [x, err := call; if err != nil { return on_err }; k x]. *)
Definition try_io {A B} (m : IO (res A)) (on_err : error -> B) (k : A -> IO B) : IO B :=
  r ← m; match r with Ok a => k a | Err e => mret (on_err e) end.

(** ** prometheus/procfs *)

Record cgroup := mkCgroup { cg_Controllers : list string; cg_Path : string }.

(** The fields of [procfs.ProcStatus] the code reads, all [uint64]. *)
Record proc_status := mkStatus { VmRSS : Z; VmHWM : Z; CapEff : Z }.

Class ProcFS := {
  pfs_mount : Type;
  pfs_proc : Type;
  NewFS : string -> FS -> res pfs_mount;
  Self : pfs_mount -> FS -> res pfs_proc;
  Proc : pfs_mount -> Z -> FS -> res pfs_proc;
  Cgroups : pfs_proc -> FS -> res (list cgroup);
  NewStatus : pfs_proc -> FS -> res proc_status;
}.

(** In a world that does not change, the result of a computation does not
    depend on how many calls preceded it. *)
Definition stable {A} (m : IO A) : Prop :=
  forall fs n n', (m (still fs) n).1 = (m (still fs) n').1.

Lemma stable_ret {A} (a : A) : stable (mret a).
Proof. done. Qed.

Lemma stable_sys {A} (f : FS -> A) : stable (sys f).
Proof. done. Qed.

Lemma stable_bind {A B} (m : IO A) (k : A -> IO B) :
  stable m -> (forall a, stable (k a)) -> stable (m ≫= k).
Proof.
  intros Hm Hk fs n n'. unfold mbind, io_bind.
  specialize (Hm fs n n'). destruct (m _ n), (m _ n'). simplify_eq/=. apply Hk.
Qed.

Lemma stable_try {A B} (m : IO (res A)) (f : error -> B) (k : A -> IO B) :
  stable m -> (forall a, stable (k a)) -> stable (try_io m f k).
Proof. intros. apply stable_bind; [done|]. intros [?|?]; [done|apply stable_ret]. Qed.

#[export] Hint Resolve stable_ret stable_sys stable_bind stable_try : croco.

(** Computes the calls of an [IO] term down to the results it branches on. *)
Ltac io_run :=
  cbv beta iota zeta delta [run_io try_io sys mbind io_bind res_bind mret io_ret res_ret still fst snd].
