(* ===== verification/Machine.v ===== *)
(** * A concrete machine

    An instance of the procfs interface and a small file system: the inputs
    at which the theorems of the other files are exercised. *)

From S2P Require Import Prelude GoStrings OS.

(** A procfs whose status files hold three numbers and whose cgroup files
    hold one hierarchy per line, controllers and path separated by a colon. *)
Definition read_numbers (data : string) : list Z :=
  omap (fun w => match parse_uint w with Ok n => Some n | Err _ => None end)
    (split (trim_space data) space).

Definition read_cgroup (line : string) : option cgroup :=
  match split line ":"%char with
  | [cs; p] => Some (mkCgroup (split cs ","%char) p)
  | _ => None
  end.

#[export] Instance plain_procfs : ProcFS := {|
  pfs_mount := string;
  pfs_proc := string;
  NewFS root fs := _ ← fs_stat fs root; Ok root;
  Self root fs := _ ← fs_stat fs (root +:+ "/self"); Ok (root +:+ "/self");
  Proc root pid fs := _ ← fs_stat fs (root +:+ "/" +:+ itoa pid); Ok (root +:+ "/" +:+ itoa pid);
  Cgroups p fs :=
    data ← fs_read_file fs (p +:+ "/cgroup");
    Ok (omap read_cgroup (split data lf));
  NewStatus p fs :=
    data ← fs_read_file fs (p +:+ "/status");
    match read_numbers data with
    | [rss; hwm; cap] => Ok (mkStatus rss hwm cap)
    | _ => Err (ErrNew "malformed status" [])
    end;
|}.

(** A file system given by its files; a path exists if it is a file or a
    directory that leads to one. *)
Definition fs_of (files : list (string * string)) : FS :=
  mkFS
    (fun p => if existsb (fun f => has_prefix f.1 p) files then Ok tt else Err ErrNotExist)
    (fun p => match list_find (fun f => f.1 = p) files with
              | Some (_, f) => Ok (mkFile f.2 None)
              | None => Err ErrNotExist
              end).

Definition line (s : string) : string := s +:+ str1 lf.

Definition machine : FS :=
  fs_of
    [("/cg/memory.events", line "max 5" +:+ line "oom_kill 3");
     ("/cg/cgroup.procs", line "1" +:+ line "17" +:+ line "99");
     ("/cg/memory.current", line "314572800");
     ("/proc/self/status", "100 200 251");
     ("/proc/1/status", "100 200 0");
     ("/proc/1/cmdline", "/sbin/tini" +:+ str1 nul +:+ "crocochrome" +:+ str1 nul);
     ("/proc/17/status", "5000 9000 0");
     ("/proc/17/cmdline", "/usr/lib/chromium/chromium --type=renderer --lang=en")].
