(* ===== verification/Cgroup.v ===== *)
(** * Cgroup files: internal/crocochrome/cgroup.go

    Locating the memory events file of the container's cgroup and reading
    its OOM-kill counter. *)

From S2P Require Import Prelude GoStrings OS Machine.

Definition cgroupV2MemoryEvents : string := "/sys/fs/cgroup/memory.events".

(** The template "/sys/fs/cgroup/memory%s/memory.oom_control". *)
Definition cgroupV1OOMControl (path : string) : string :=
  "/sys/fs/cgroup/memory" +:+ path +:+ "/memory.oom_control".

Section paths.
Context `{ProcFS}.

(** The two nested loops over cgroups and their controllers. *)
Fixpoint memory_hierarchy (cgs : list cgroup) : option string :=
  match cgs with
  | [] => None
  | cg :: cgs' =>
      if existsb (fun c => bool_decide (c = "memory")) (cg_Controllers cg)
      then Some (cg_Path cg) else memory_hierarchy cgs'
  end.

Definition cgroupV1MemoryOOMControlPath (procRoot : string) : IO string :=
  try_io (sys (NewFS procRoot)) (fun _ => EmptyString) (fun fs =>
  try_io (sys (Self fs)) (fun _ => EmptyString) (fun self =>
  try_io (sys (Cgroups self)) (fun _ => EmptyString) (fun cgs =>
  mret match memory_hierarchy cgs with
       | Some path => cgroupV1OOMControl path
       | None => EmptyString
       end))).

Definition detectCgroupMemoryEventsPath (procRoot : string) : IO string :=
  st ← sys (fun fs => fs_stat fs cgroupV2MemoryEvents);
  if is_ok st then mret cgroupV2MemoryEvents
  else cgroupV1MemoryOOMControlPath procRoot.
End paths.

(** ** The OOM-kill counter *)

(** The lines a [bufio.Scanner] yields for a file, and [scanner.Err()] after
    the last one. *)
Fixpoint scan_lines (lines : list string) (read_err : option error)
    : list string * option error :=
  match lines with
  | [] => ([], read_err)
  | l :: ls =>
      if max_scan_token <=? String.length l then ([], Some ErrTooLong)
      else let '(ts, e) := scan_lines ls read_err in (drop_cr l :: ts, e)
  end.

Definition scanner (f : file) : list string * option error :=
  scan_lines (raw_lines (f_data f)) (f_err f).

Definition oom_kill_prefix : string := "oom_kill ".

(** The scan loop: the first line with the prefix decides. *)
Fixpoint scan_oom_kill (path : string) (lines : list string) (err : option error) : res Z :=
  match lines with
  | [] =>
      match err with
      | Some e => Err (ErrWrap "scanning cgroup memory events file %q: %w" [path] e)
      | None => Ok 0%Z
      end
  | line :: lines' =>
      if negb (has_prefix line oom_kill_prefix) then scan_oom_kill path lines' err
      else wrap_err "parsing oom_kill value from %q: %w" [base path]
             (parse_uint (trim_prefix line oom_kill_prefix))
  end.

Definition readOOMKillCount (path : string) : IO (res Z) :=
  if bool_decide (path = EmptyString) then mret (Ok 0%Z)
  else
    f ← sys (fun fs => fs_open fs path);
    mret match f with
         | Err e =>
             if bool_decide (e = ErrNotExist) then Ok 0%Z
             else Err (ErrWrap "opening cgroup memory events file %q: %w" [path] e)
         | Ok f => let '(lines, err) := scanner f in scan_oom_kill path lines err
         end.

(** ** What the counter read means *)

#[local] Opaque max_scan_token.

(** A line a [bufio.Scanner] yields as it is. *)
Record plain_line (l : string) : Prop := {
  pl_lf : mem_byte lf l = false;
  pl_cr : mem_byte cr l = false;
  pl_short : (String.length l < max_scan_token)%nat;
}.

Definition oom_kill_line (n : Z) : string := oom_kill_prefix +:+ utoa n.

Lemma oom_kill_line_plain n : is_u64 n -> plain_line (oom_kill_line n).
Proof.
  intros [Hn _]. unfold oom_kill_line. split.
  1,2: rewrite mem_byte_app, utoa_digits; done.
  rewrite length_string_app. pose proof (utoa_length n).
  change (String.length oom_kill_prefix) with 9%nat.
  apply (Nat.le_lt_trans _ 29%nat); [lia|]. apply Nat.ltb_lt. vm_compute. reflexivity.
Qed.

Lemma scan_lines_app pre rest err :
  Forall plain_line pre ->
  scan_lines (pre ++ rest) err =
    (pre ++ (scan_lines rest err).1, (scan_lines rest err).2).
Proof.
  induction 1 as [|l pre [Hlf Hcr Hs] _ IH]; cbn [scan_lines app]; [by destruct (scan_lines rest err)|].
  apply Nat.leb_gt in Hs as ->. by rewrite IH, drop_cr_id.
Qed.

Lemma scan_oom_kill_skip path pre rest err :
  Forall (fun l => has_prefix l oom_kill_prefix = false) pre ->
  scan_oom_kill path (pre ++ rest) err = scan_oom_kill path rest err.
Proof. induction 1 as [|l pre Hl _ IH]; simpl; [done|]. by rewrite Hl. Qed.

(** The errors a scan can end with, and their causes. *)
Lemma scan_oom_kill_result path lines err :
  match scan_oom_kill path lines err with
  | Ok n => is_u64 n
  | Err e =>
      (exists l c, l ∈ lines /\ has_prefix l oom_kill_prefix = true /\
        parse_uint (trim_prefix l oom_kill_prefix) = Err c /\
        e = ErrWrap "parsing oom_kill value from %q: %w" [base path] c) \/
      (exists c, err = Some c /\ e = ErrWrap "scanning cgroup memory events file %q: %w" [path] c)
  end.
Proof.
  induction lines as [|l lines IH]; simpl.
  { destruct err; [by right; eauto|]. unfold is_u64. lia. }
  destruct (has_prefix l oom_kill_prefix) eqn:Hl; simpl.
  - destruct (parse_uint _) eqn:E; simpl; [by apply parse_uint_range in E|].
    left. eexists _, _. split; [left|]. done.
  - destruct (scan_oom_kill path lines err); [done|].
    destruct IH as [(l' & c & ? & ?)|?]; [|by right].
    left. eexists _, _. split; [by right|]. done.
Qed.

Lemma scan_lines_error lines err e :
  (scan_lines lines err).2 = Some e -> e = ErrTooLong \/ err = Some e.
Proof.
  induction lines as [|l lines IH]; simpl; [by right|].
  destruct (_ <=? _)%nat; simpl; [left; congruence|].
  by destruct (scan_lines lines err).
Qed.

(** C20: round trip of the kernel's OOM-kill counter: from any events file in
    which the line "oom_kill <n>" comes after lines without that prefix,
    whatever follows it and even if reading then fails, [readOOMKillCount]
    returns exactly [n], for every 64-bit [n]. *)
Theorem readOOMKillCount_roundtrip (w : world) path pre n rest err :
  path <> EmptyString ->
  Forall plain_line pre ->
  Forall (fun l => has_prefix l oom_kill_prefix = false) pre ->
  is_u64 n ->
  fs_open (w 0%nat) path = Ok (mkFile (unlines (pre ++ [oom_kill_line n]) +:+ rest) err) ->
  run_io (readOOMKillCount path) w = Ok n.
Proof.
  intros Hp Hpl Hpre Hn Ho. unfold readOOMKillCount. rewrite bool_decide_false by done.
  unfold run_io. simpl. rewrite Ho. unfold scanner. simpl.
  pose proof (oom_kill_line_plain n Hn) as Hl.
  rewrite raw_lines_unlines, scan_lines_app.
  - destruct (scan_lines _ _) as [ts e]. simpl.
    rewrite <- app_assoc, scan_oom_kill_skip by done. simpl.
    unfold oom_kill_line. rewrite has_prefix_app, trim_prefix_app. simpl.
    by rewrite parse_uint_utoa.
  - by apply Forall_app_2; [|constructor].
  - apply Forall_app_2; [|repeat constructor; apply Hl].
    eapply Forall_impl; [exact Hpl|]. by intros ? [].
Qed.

(** Every result of [readOOMKillCount], and when it is returned. *)
Inductive oom_kill_reading (path : string) (w : world) : res Z -> Prop :=
  | or_disabled : path = EmptyString -> oom_kill_reading path w (Ok 0%Z)
  | or_absent :
      path <> EmptyString -> fs_open (w 0%nat) path = Err ErrNotExist ->
      oom_kill_reading path w (Ok 0%Z)
  | or_unopened c :
      path <> EmptyString -> fs_open (w 0%nat) path = Err c -> c <> ErrNotExist ->
      oom_kill_reading path w (Err (ErrWrap "opening cgroup memory events file %q: %w" [path] c))
  | or_line f pre v post err :
      path <> EmptyString -> fs_open (w 0%nat) path = Ok f ->
      scanner f = (pre ++ ("oom_kill " +:+ v) :: post, err) ->
      Forall (fun l => has_prefix l "oom_kill " = false) pre ->
      oom_kill_reading path w (wrap_err "parsing oom_kill value from %q: %w" [base path] (parse_uint v))
  | or_unscanned f lines c :
      path <> EmptyString -> fs_open (w 0%nat) path = Ok f -> scanner f = (lines, Some c) ->
      Forall (fun l => has_prefix l "oom_kill " = false) lines ->
      oom_kill_reading path w (Err (ErrWrap "scanning cgroup memory events file %q: %w" [path] c))
  | or_no_line f lines :
      path <> EmptyString -> fs_open (w 0%nat) path = Ok f -> scanner f = (lines, None) ->
      Forall (fun l => has_prefix l "oom_kill " = false) lines ->
      oom_kill_reading path w (Ok 0%Z).

Lemma scan_oom_kill_none path lines err :
  Forall (fun l => has_prefix l oom_kill_prefix = false) lines ->
  scan_oom_kill path lines err = scan_oom_kill path [] err.
Proof. intros Hl. rewrite <- (app_nil_r lines). by apply scan_oom_kill_skip. Qed.

Lemma scan_oom_kill_line path pre v post err :
  Forall (fun l => has_prefix l oom_kill_prefix = false) pre ->
  scan_oom_kill path (pre ++ (oom_kill_prefix +:+ v) :: post) err =
    wrap_err "parsing oom_kill value from %q: %w" [base path] (parse_uint v).
Proof.
  intros Hp. rewrite scan_oom_kill_skip by done. cbn [scan_oom_kill].
  by rewrite has_prefix_app, trim_prefix_app.
Qed.

(** The first line with the prefix, if there is one. *)
Lemma first_oom_kill_line lines :
  Forall (fun l => has_prefix l oom_kill_prefix = false) lines \/
  exists pre v post, lines = pre ++ (oom_kill_prefix +:+ v) :: post /\
    Forall (fun l => has_prefix l oom_kill_prefix = false) pre.
Proof.
  induction lines as [|l lines IH]; [by left|].
  destruct (has_prefix l oom_kill_prefix) eqn:Hl.
  - right. apply has_prefix_inv in Hl. by exists [], (drop_str (String.length oom_kill_prefix) l), lines; rewrite <- Hl.
  - destruct IH as [?|(pre & v & post & -> & ?)]; [left; by constructor|right].
    exists (l :: pre), v, post. split; [done|]. by constructor.
Qed.

Lemma readOOMKillCount_reading path w : oom_kill_reading path w (run_io (readOOMKillCount path) w).
Proof.
  unfold readOOMKillCount, run_io. case_bool_decide as Hp; [by constructor|]. simpl.
  destruct (fs_open (w 0%nat) path) as [f|e] eqn:E; simpl.
  2:{ case_bool_decide; subst; by econstructor. }
  destruct (scanner f) as [lines err] eqn:Es.
  destruct (first_oom_kill_line lines) as [Hn|(pre & v & post & -> & Hpre)].
  - rewrite scan_oom_kill_none by done. destruct err; by econstructor.
  - rewrite scan_oom_kill_line by done. by econstructor.
Qed.

(** C27: [readOOMKillCount] on every input: a disabled path, a missing file
    and a file without a line "oom_kill ..." count as zero; otherwise the
    first such line decides, and its value fits 64 bits; an error is a
    failure to open the file other than its absence, a first such line whose
    value is not a 64-bit decimal number, or, with no such line, a failure of
    the scan, wrapped with the file's name. *)
Theorem readOOMKillCount_result (w : world) path :
  (forall r, run_io (readOOMKillCount path) w = r <-> oom_kill_reading path w r) /\
  match run_io (readOOMKillCount path) w with
  | Ok n => is_u64 n
  | Err e =>
      (exists c, fs_open (w 0%nat) path = Err c /\ c <> ErrNotExist /\
        e = ErrWrap "opening cgroup memory events file %q: %w" [path] c) \/
      (exists f, fs_open (w 0%nat) path = Ok f /\
        ((exists c, (c = ErrSyntax \/ c = ErrRange) /\
            e = ErrWrap "parsing oom_kill value from %q: %w" [base path] c) \/
         (exists c, (c = ErrTooLong \/ f_err f = Some c) /\
            e = ErrWrap "scanning cgroup memory events file %q: %w" [path] c)))
  end.
Proof.
  split.
  - intros r. split; [intros <-; apply readOOMKillCount_reading|].
    unfold readOOMKillCount, run_io.
    intros [->|Hp E|c Hp E Hc|f pre v post err Hp E Es Hpre|f lines c Hp E Es Hl|f lines Hp E Es Hl]; [done|..].
    all: rewrite (bool_decide_false (path = _)) by done; simpl; rewrite E; simpl; rewrite ?Es.
    + done.
    + by rewrite bool_decide_false.
    + by apply scan_oom_kill_line.
    + by apply scan_oom_kill_none.
    + by apply scan_oom_kill_none.
  - destruct (readOOMKillCount_reading path w)
      as [|?|c ? E ?|f pre v post err ? E _ _|f lines c ? E Es _|]; try (unfold is_u64; lia).
    + left. eauto.
    + destruct (parse_uint v) as [n|c] eqn:Ev; simpl; [by apply parse_uint_range in Ev|].
      right. exists f. split; [done|]. left. exists c. by apply parse_uint_error in Ev.
    + right. exists f. split; [done|]. right. exists c. split; [|done].
      unfold scanner in Es. pose proof (scan_lines_error (raw_lines (f_data f)) (f_err f)) as He.
      rewrite Es in He. by apply He.
Qed.

(** A file that is read without any I/O error makes [readOOMKillCount] fail
    when the value is not a number. *)
Lemma readOOMKillCount_garbage_fails :
  run_io (readOOMKillCount "/f") (still (fs_of [("/f", line "oom_kill max")])) =
    Err (ErrWrap "parsing oom_kill value from %q: %w" ["f"] ErrSyntax).
Proof. vm_compute. reflexivity. Qed.

(** ** What the detection finds *)

(** The first cgroup that has the memory controller. *)
Lemma memory_hierarchy_spec cgs :
  match memory_hierarchy cgs with
  | Some p => exists pre cg post, cgs = pre ++ cg :: post /\ cg_Path cg = p /\
      "memory" ∈ cg_Controllers cg /\ Forall (fun cg' => "memory" ∉ cg_Controllers cg') pre
  | None => Forall (fun cg => "memory" ∉ cg_Controllers cg) cgs
  end.
Proof.
  induction cgs as [|cg cgs IH]; simpl; [constructor|].
  destruct (existsb _ _) eqn:E.
  - apply existsb_exists in E as (c & Hin & Hc%bool_decide_eq_true). subst c.
    exists [], cg, cgs. split_and!; [done|done|by apply list_elem_of_In|constructor].
  - assert ("memory" ∉ cg_Controllers cg).
    { intros Hin%list_elem_of_In. assert (existsb (fun c => bool_decide (c = "memory")) (cg_Controllers cg) = true); [|congruence].
      apply existsb_exists. exists "memory". by rewrite bool_decide_eq_true. }
    destruct (memory_hierarchy cgs); [|by constructor].
    destruct IH as (pre & cg' & post & -> & ? & ? & ?).
    exists (cg :: pre), cg', post. split_and!; try done. by constructor.
Qed.

(** What the second call of the detection and the ones after it observe. *)
Definition cgroups_seen `{ProcFS} (procRoot : string) (w : world) (n : nat) : res (list cgroup) :=
  fs ← NewFS procRoot (w n); self ← Self fs (w (S n)); Cgroups self (w (S (S n))).

(** [detectCgroupMemoryEventsPath] returns the cgroups-v2 file when it
    exists; otherwise the v1 file of the first hierarchy that has the memory
    controller, and the empty path, which disables the accounting, exactly
    when procfs cannot be read or no hierarchy has it. *)
Theorem detectCgroupMemoryEventsPath_spec `{ProcFS} procRoot (w : world) :
  let path := run_io (detectCgroupMemoryEventsPath procRoot) w in
  match fs_stat (w 0%nat) cgroupV2MemoryEvents with
  | Ok _ => path = cgroupV2MemoryEvents
  | Err _ =>
      (exists pre cg post, cgroups_seen procRoot w 1 = Ok (pre ++ cg :: post) /\
         path = cgroupV1OOMControl (cg_Path cg) /\
         "memory" ∈ cg_Controllers cg /\ Forall (fun cg' => "memory" ∉ cg_Controllers cg') pre) \/
      (path = EmptyString /\
       forall cgs, cgroups_seen procRoot w 1 = Ok cgs ->
         Forall (fun cg => "memory" ∉ cg_Controllers cg) cgs)
  end.
Proof.
  unfold detectCgroupMemoryEventsPath, cgroupV1MemoryOOMControlPath, cgroups_seen. io_run.
  destruct (fs_stat _ _); simpl; [done|].
  destruct (NewFS _ _) as [fs|?]; [|right; naive_solver].
  destruct (Self _ _) as [self|?]; [|right; naive_solver].
  destruct (Cgroups _ _) as [cgs|?]; [|right; naive_solver].
  pose proof (memory_hierarchy_spec cgs) as Hs.
  destruct (memory_hierarchy cgs) as [p|].
  - left. destruct Hs as (pre & cg & post & -> & <- & ? & ?). by exists pre, cg, post.
  - right. split; [done|]. intros cgs' ?. by simplify_eq.
Qed.

(** ** Witnesses *)

Lemma readOOMKillCount_roundtrip_witness :
  run_io (readOOMKillCount "/cg/memory.events") (still machine) = Ok 3%Z.
Proof.
  apply (readOOMKillCount_roundtrip _ _ ["max 5"] 3 EmptyString None).
  - discriminate.
  - repeat constructor. apply Nat.ltb_lt. vm_compute. reflexivity.
  - repeat constructor.
  - unfold is_u64. lia.
  - vm_compute. reflexivity.
Defined.
