(* ===== verification/Proc.v ===== *)
(** * Process metrics: internal/crocochrome/proc.go

    Classifying the processes of the container, collecting their memory at
    session teardown, and the capability check of the entry point. *)

From S2P Require Import Prelude GoStrings OS Machine.

Record processInfo := mkProcessInfo {
  PID : Z;
  Type_ : string;
  RSS : Z;
  PeakRSS : Z;
}.

Definition cgroupProcsPath (eventsPath : string) : string :=
  path_join [dir eventsPath; "cgroup.procs"].

Definition cgroupMemoryCurrentPath (eventsPath : string) : string :=
  let d := dir eventsPath in
  if bool_decide (base eventsPath = "memory.events") then path_join [d; "memory.current"]
  else path_join [d; "memory.usage_in_bytes"].

(** ** Process types *)

Definition type_flag : string := "--type=".
Definition arg_end : string := bytes [32; 0].

(** [rest[:end]], or all of it when no terminator is found. *)
Definition until_any (s chars : string) : string :=
  match index_any s chars with Some n => take_str n s | None => s end.

(** [chromiumProcessType] after the cmdline has been read. *)
Definition classify (raw : string) : string :=
  match index raw type_flag with
  | Some idx =>
      let rest := drop_str (idx + String.length type_flag) raw in
      let processType := until_any rest arg_end in
      if bool_decide (processType = "utility") && contains raw "network.mojom.NetworkService"
      then "network-service" else processType
  | None =>
      let execBase := base (until_any raw (bytes [0; 32])) in
      if contains raw "chrome_crashpad" then "crashpad"
      else if bool_decide (execBase = "tini") then "tini"
      else if contains raw "crocochrome" then "crocochrome"
      else "browser"
  end.

Definition chromiumProcessType (pid : Z) (procRoot : string) : IO string :=
  try_io (sys (fun fs => fs_read_file fs (path_join [procRoot; itoa pid; "cmdline"])))
    (fun _ => "unknown") (fun data => mret (classify data)).

Section procfs.
Context `{ProcFS}.

(** ** Memory of one process *)

Definition processMemoryStats (pid : Z) (procRoot : string) : IO (res (Z * Z)) :=
  try_io (sys (NewFS procRoot))
    (fun e => Err (ErrWrap "opening procfs at %q: %w" [procRoot] e)) (fun fs =>
  try_io (sys (Proc fs pid)) Err (fun p =>
  try_io (sys (NewStatus p)) Err (fun st =>
  mret (if bool_decide (VmRSS st = 0%Z) && bool_decide (VmHWM st = 0%Z)
        then Err (ErrNew "VmRSS/VmHWM not found in /proc/%d/status" [itoa pid])
        else Ok (wrap_i64 (VmRSS st), wrap_i64 (VmHWM st)))))).

(** ** The walk over cgroup.procs *)

Fixpoint collect_lines (procRoot : string) (lines : list string) : IO (list processInfo) :=
  match lines with
  | [] => mret []
  | line :: lines' =>
      if bool_decide (line = EmptyString) then collect_lines procRoot lines'
      else match atoi line with
           | Err _ => collect_lines procRoot lines'
           | Ok pid =>
               r ← processMemoryStats pid procRoot;
               match r with
               | Err _ => collect_lines procRoot lines'
               | Ok (rss, peakRSS) =>
                   ty ← chromiumProcessType pid procRoot;
                   ps ← collect_lines procRoot lines';
                   mret (mkProcessInfo pid ty rss peakRSS :: ps)
               end
           end
  end.

(** [collectProcessMetrics] returns what it collected together with the
    error, if any. *)
Definition collectProcessMetrics (cgroupEventsPath procRoot : string)
    : IO (list processInfo * Z * option error) :=
  try_io (sys (fun fs => fs_read_file fs (cgroupProcsPath cgroupEventsPath)))
    (fun e => ([], 0%Z, Some (ErrWrap "reading cgroup.procs: %w" [] e))) (fun procsData =>
  processes ← collect_lines procRoot (split (trim_space procsData) lf);
  try_io (sys (fun fs => fs_read_file fs (cgroupMemoryCurrentPath cgroupEventsPath)))
    (fun e => (processes, 0%Z, Some (ErrWrap "reading cgroup memory current: %w" [] e)))
    (fun currentData =>
  mret match parse_int (trim_space currentData) with
       | Err e => (processes, 0%Z, Some (ErrWrap "parsing cgroup memory current: %w" [] e))
       | Ok cgroupRSS => (processes, cgroupRSS, None)
       end)).

(** ** Capabilities *)

Definition requiredCapabilities : list (string * Z) :=
  [("CAP_CHOWN", 0); ("CAP_DAC_OVERRIDE", 1); ("CAP_FOWNER", 3); ("CAP_KILL", 5);
   ("CAP_SETGID", 6); ("CAP_SETUID", 7)]%Z.

Definition missing_capabilities (capEff : Z) : list string :=
  fst <$> filter (fun c => Z.land capEff (Z.shiftl 1 c.2) = 0%Z) requiredCapabilities.

Definition CheckCapabilities (procRoot : string) : IO (option error) :=
  try_io (sys (NewFS procRoot))
    (fun e => Some (ErrWrap "opening procfs at %q: %w" [procRoot] e)) (fun fs =>
  try_io (sys (Self fs)) Some (fun p =>
  try_io (sys (NewStatus p)) Some (fun st =>
  let missing := missing_capabilities (CapEff st) in
  mret (if 0 <? length missing
        then Some (ErrNew "missing capabilities %s, which are required to run chromium as a different user; see doc/capabilities.md"
                     [join missing ", "])
        else None)))).
End procfs.

(** ** Paths *)

(** The files read at teardown are the neighbours of the events file:
    for an events file with a clean absolute path, [cgroup.procs] of the same
    directory, and [memory.current] or [memory.usage_in_bytes] according to
    the version of the hierarchy. *)
Theorem cgroup_paths ws f :
  ws <> [] -> Forall proper_name ws -> proper_name f ->
  cgroupProcsPath (abs_path (ws ++ [f])) = abs_path (ws ++ ["cgroup.procs"]) /\
  cgroupMemoryCurrentPath (abs_path (ws ++ [f])) =
    abs_path (ws ++ [if decide (f = "memory.events") then "memory.current"
                     else "memory.usage_in_bytes"]).
Proof.
  intros Hne Hws Hf. unfold cgroupProcsPath, cgroupMemoryCurrentPath.
  rewrite dir_abs_path by done.
  assert (base (abs_path (ws ++ [f])) = f) as ->.
  { rewrite abs_path_snoc by done. destruct Hf. by apply base_app. }
  split; [by apply path_join_abs|].
  case_decide; [rewrite bool_decide_true by done|rewrite bool_decide_false by done];
    by apply path_join_abs.
Qed.

(** ** Classification *)

(** The cmdline of a process started with [exec]: NUL-terminated arguments. *)
Definition exec_cmdline (args : list string) : string :=
  foldr (fun a s => a +:+ String nul s) EmptyString args.

(** The cmdline after [SetProcessTitleFromCommandLine] rewrote it: a space
    for every NUL between arguments. *)
Definition nul_to_space (c : ascii) : ascii := if Ascii.eqb c nul then space else c.
Definition retitled (raw : string) : string := map_str nul_to_space raw.

Lemma nul_to_space_fixes p :
  mem_byte nul p = false -> mem_byte space p = false -> fixes nul_to_space p.
Proof.
  intros Hn Hs a b Ha. unfold nul_to_space. destruct (Ascii.eqb_spec b nul) as [->|]; [|done].
  rewrite !(proj2 (Ascii.eqb_neq a _)); [done|intros ->; congruence..].
Qed.

Lemma until_any_retitled s chars :
  mem_byte nul chars = true -> mem_byte space chars = true ->
  (forall c, mem_byte c chars = true -> c = nul \/ c = space) ->
  until_any (retitled s) chars = until_any s chars.
Proof.
  intros Hn Hs Hc. unfold until_any, retitled.
  assert (Hi : index_any (map_str nul_to_space s) chars = index_any s chars /\
    (forall n, index_any s chars = Some n -> take_str n (map_str nul_to_space s) = take_str n s) /\
    (index_any s chars = None -> map_str nul_to_space s = s)).
  { induction s as [|c s (IH1 & IH2 & IH3)]; [done|]. cbn [map_str index_any].
    unfold nul_to_space at 1 3 5. destruct (Ascii.eqb_spec c nul) as [->|Hcn].
    - rewrite Hs, Hn. split_and!; [done| |done]. intros ? [= <-]. done.
    - destruct (mem_byte c chars) eqn:Ec.
      + split_and!; [done| |done]. intros ? [= <-]. done.
      + rewrite IH1. split_and!; [done| |].
        * intros n (m & Hm & ->)%fmap_Some. cbn [take_str]. by rewrite IH2.
        * intros Hm%fmap_None. by rewrite IH3. }
  destruct Hi as (Hi & Ht & Hnone). rewrite Hi.
  destruct (index_any s chars); [by apply Ht|by apply Hnone].
Qed.

Lemma arg_end_bytes c : mem_byte c arg_end = true -> c = nul \/ c = space.
Proof. simpl. rewrite orb_false_r. intros [->%Ascii.eqb_eq| ->%Ascii.eqb_eq]%orb_true_iff; auto. Qed.

(** C32: the classification does not depend on how Chromium laid out the
    command line: a process is given the same type whether its arguments are
    separated by NULs (exec) or were rewritten with spaces (zygote). *)
Theorem classify_layout raw : classify (retitled raw) = classify raw.
Proof.
  unfold classify, retitled.
  rewrite index_map by (by apply nul_to_space_fixes).
  destruct (index raw type_flag) as [idx|].
  - rewrite drop_map_str. fold (retitled (drop_str (idx + String.length type_flag) raw)).
    rewrite until_any_retitled by (done || apply arg_end_bytes).
    by rewrite contains_map by (by apply nul_to_space_fixes).
  - fold (retitled raw). rewrite until_any_retitled.
    + unfold retitled. by rewrite !contains_map by (by apply nul_to_space_fixes).
    + done.
    + done.
    + intros c. simpl. rewrite orb_false_r. intros [->%Ascii.eqb_eq| ->%Ascii.eqb_eq]%orb_true_iff; auto.
Qed.

Lemma exec_cmdline_app pre post :
  exec_cmdline (pre ++ post) = exec_cmdline pre +:+ exec_cmdline post.
Proof.
  induction pre as [|a pre IH]; [done|]. cbn [app exec_cmdline foldr].
  fold (exec_cmdline (pre ++ post)) (exec_cmdline pre). by rewrite IH, string_app_assoc.
Qed.

Lemma index_exec_cmdline pre s p :
  mem_byte nul p = false -> p <> EmptyString -> Forall (fun a => index a p = None) pre ->
  index (exec_cmdline pre +:+ s) p = Nat.add (String.length (exec_cmdline pre)) <$> index s p.
Proof.
  intros Hp Hne. induction 1 as [|a pre Ha _ IH]; [change (index s p = Nat.add 0 <$> index s p); by destruct (index s p)|].
  cbn [exec_cmdline foldr]. fold (exec_cmdline pre). rewrite string_app_assoc.
  change (String nul ?x +:+ s) with (String nul (x +:+ s)).
  rewrite index_sep, IH by done. rewrite length_string_app. cbn [String.length].
  destruct (index s p); simpl; f_equal. lia.
Qed.

(** The bytes before the terminator. *)
Lemma until_any_app a c s chars :
  (forall d, mem_byte d a = true -> mem_byte d chars = false) -> mem_byte c chars = true ->
  until_any (a +:+ String c s) chars = a.
Proof. intros. unfold until_any. by rewrite index_any_app, take_str_app. Qed.

(** An argument without spaces or NULs. *)
Definition plain_arg (a : string) : Prop := mem_byte nul a = false /\ mem_byte space a = false.

Lemma plain_arg_bytes a chars :
  plain_arg a -> (forall c, mem_byte c chars = true -> c = nul \/ c = space) ->
  forall d, mem_byte d a = true -> mem_byte d chars = false.
Proof.
  intros [Hn Hs] Hc d Hd. destruct (mem_byte d chars) eqn:E; [|done].
  by destruct (Hc d E) as [-> | ->]; congruence.
Qed.

Definition network_service : string := "network.mojom.NetworkService".

(** A process with a [--type=] argument has that type, whatever its
    other arguments, except that the utility process that hosts the network
    service is called "network-service". *)
Theorem classify_typed pre t post :
  Forall (fun a => index a type_flag = None) pre -> plain_arg t ->
  let raw := exec_cmdline (pre ++ (type_flag +:+ t) :: post) in
  classify raw =
    if decide (t = "utility") then if contains raw network_service then "network-service" else t
    else t.
Proof.
  intros Hpre Ht raw. unfold classify.
  assert (Hraw : raw = exec_cmdline pre +:+ (type_flag +:+ (t +:+ String nul (exec_cmdline post)))).
  { unfold raw. rewrite exec_cmdline_app. cbn [exec_cmdline foldr]. by rewrite string_app_assoc. }
  assert (index raw type_flag = Some (String.length (exec_cmdline pre))) as ->.
  { rewrite Hraw, index_exec_cmdline, index_prefix by done. simpl. f_equal. lia. }
  assert (until_any (drop_str (String.length (exec_cmdline pre) + String.length type_flag) raw) arg_end = t)
    as ->.
  { rewrite Hraw, <- string_app_assoc, <- length_string_app, drop_str_app.
    apply until_any_app; [|done]. apply plain_arg_bytes; [done|apply arg_end_bytes]. }
  case_decide as E; simpl.
  - rewrite bool_decide_true by done. simpl. by destruct (contains raw _).
  - by rewrite bool_decide_false.
Qed.

(** A process without [--type=] is classified by its executable: a crash
    handler first, then tini even though crocochrome is one of its
    arguments, then crocochrome; only what is none of them is the browser. *)
Theorem classify_untyped d b rest :
  plain_arg (d +:+ String slash b) -> b <> EmptyString -> mem_byte slash b = false ->
  Forall (fun a => index a type_flag = None) ((d +:+ String slash b) :: rest) ->
  let raw := exec_cmdline ((d +:+ String slash b) :: rest) in
  classify raw =
    if contains raw "chrome_crashpad" then "crashpad"
    else if decide (b = "tini") then "tini"
    else if contains raw "crocochrome" then "crocochrome"
    else "browser".
Proof.
  intros Hexe Hb Hs Hflag raw. unfold classify.
  assert (index raw type_flag = None) as ->.
  { unfold raw. rewrite <- (string_app_nil (exec_cmdline _)), index_exec_cmdline by done. done. }
  assert (base (until_any raw (bytes [0; 32])) = b) as ->.
  2:{ by case_decide; [rewrite bool_decide_true|rewrite bool_decide_false]. }
  unfold raw. cbn [exec_cmdline foldr]. rewrite until_any_app; [by apply base_app| |done].
  apply plain_arg_bytes; [done|]. intros c. simpl. rewrite orb_false_r.
  intros [->%Ascii.eqb_eq| ->%Ascii.eqb_eq]%orb_true_iff; auto.
Qed.

(** ** The walk over the processes *)

Definition listed_pid (line : string) : option Z :=
  if bool_decide (line = EmptyString) then None
  else match atoi line with Ok pid => Some pid | Err _ => None end.

(** The PIDs a [cgroup.procs] file lists. *)
Definition listed_pids (data : string) : list Z := omap listed_pid (split (trim_space data) lf).

Section walk.
Context `{ProcFS}.

(** What one file system says of a process: [None] if it is gone. *)
Definition process_of (fs : FS) (procRoot : string) (pid : Z) : option processInfo :=
  match run_io (processMemoryStats pid procRoot) (still fs) with
  | Ok (rss, peakRSS) =>
      Some (mkProcessInfo pid (run_io (chromiumProcessType pid procRoot) (still fs)) rss peakRSS)
  | Err _ => None
  end.

(** The reference: every listed process that exists, in the order of the
    list, and the kernel's total. *)
Definition process_metrics (fs : FS) (eventsPath procRoot : string)
    : list processInfo * Z * option error :=
  match fs_read_file fs (cgroupProcsPath eventsPath) with
  | Err e => ([], 0%Z, Some (ErrWrap "reading cgroup.procs: %w" [] e))
  | Ok data =>
      let processes := omap (process_of fs procRoot) (listed_pids data) in
      match (data ← fs_read_file fs (cgroupMemoryCurrentPath eventsPath);
             Ok (parse_int (trim_space data))) with
      | Err e => (processes, 0%Z, Some (ErrWrap "reading cgroup memory current: %w" [] e))
      | Ok (Err e) => (processes, 0%Z, Some (ErrWrap "parsing cgroup memory current: %w" [] e))
      | Ok (Ok rss) => (processes, rss, None)
      end
  end.

Lemma processMemoryStats_stable pid procRoot : stable (processMemoryStats pid procRoot).
Proof. unfold processMemoryStats. eauto 10 with croco. Qed.

Lemma chromiumProcessType_stable pid procRoot : stable (chromiumProcessType pid procRoot).
Proof. unfold chromiumProcessType. eauto 10 with croco. Qed.

Lemma collect_lines_still fs procRoot lines n :
  (collect_lines procRoot lines (still fs) n).1 =
    omap (process_of fs procRoot) (omap listed_pid lines).
Proof.
  revert n. induction lines as [|l lines IH]; intros n; [done|].
  cbn [collect_lines omap list_omap]. unfold listed_pid at 1.
  case_bool_decide; [apply IH|]. destruct (atoi l) as [pid|]; [|apply IH].
  cbn [omap list_omap]. unfold process_of at 1, run_io.
  rewrite (processMemoryStats_stable pid procRoot fs 0 n). unfold mbind, io_bind.
  destruct (processMemoryStats _ _ _ n) as [[[rss peak]|e] n1]; simpl; [|apply IH].
  rewrite (chromiumProcessType_stable pid procRoot fs 0 n1).
  destruct (chromiumProcessType _ _ _ n1) as [ty n2]. specialize (IH n2).
  by destruct (collect_lines _ _ _ n2); simpl in *; subst.
Qed.

(** C21: when nothing changes while it runs, the walk returns the reference:
    exactly the listed processes that exist, with their types, and the
    kernel's total; a failure of either file is reported after what was
    collected. *)
Theorem collectProcessMetrics_still fs eventsPath procRoot :
  run_io (collectProcessMetrics eventsPath procRoot) (still fs) =
    process_metrics fs eventsPath procRoot.
Proof.
  unfold collectProcessMetrics, process_metrics, listed_pids. io_run.
  destruct (fs_read_file fs (cgroupProcsPath _)) as [data|e]; [|done].
  pose proof (collect_lines_still fs procRoot (split (trim_space data) lf) 1) as Hc.
  unfold still in Hc.
  destruct (collect_lines _ _ _ 1) as [ps n]. simpl in Hc. subst ps.
  destruct (fs_read_file fs _) as [cur|e]; [|done].
  by destruct (parse_int _).
Qed.

(** *** In a world that changes *)

Definition i64_process (p : processInfo) : Prop := is_i64 (RSS p) /\ is_i64 (PeakRSS p).

Lemma processMemoryStats_i64 pid procRoot w n rss peak :
  (processMemoryStats pid procRoot w n).1 = Ok (rss, peak) -> is_i64 rss /\ is_i64 peak.
Proof.
  unfold processMemoryStats. io_run. repeat case_match; intros; simplify_eq.
  split; apply wrap_i64_range.
Qed.

Lemma collect_lines_sound procRoot lines w n :
  let ps := (collect_lines procRoot lines w n).1 in
  (PID <$> ps) `sublist_of` omap listed_pid lines /\ Forall i64_process ps.
Proof.
  revert n. induction lines as [|l lines IH]; intros n; [done|].
  cbn [collect_lines omap list_omap]. unfold listed_pid at 1.
  case_bool_decide; [apply IH|]. destruct (atoi l) as [pid|]; [|apply IH].
  unfold mbind, io_bind. pose proof (processMemoryStats_i64 pid procRoot w n) as Hi.
  destruct (processMemoryStats _ _ _ n) as [[[rss peak]|e] n1]; simpl in *.
  2:{ destruct (IH n1). split; [by apply sublist_cons|done]. }
  destruct (chromiumProcessType _ _ _ n1) as [ty n2]. destruct (IH n2) as [Hs Hf].
  destruct (collect_lines _ _ _ n2). simpl in *. split; [by apply sublist_skip|].
  constructor; [|done]. by apply Hi.
Qed.

(** C26: whatever the processes do while the walk runs, every process it
    reports was listed, in the order of the list and no more often, with
    memory sizes that fit an [int64]; processes that disappear never make it
    fail: it reports an error exactly when one of its two files cannot be
    read or parsed, and then the total is zero. *)
Theorem collectProcessMetrics_sound eventsPath procRoot w :
  let '(ps, rss, err) := run_io (collectProcessMetrics eventsPath procRoot) w in
  Forall i64_process ps /\ is_i64 rss /\ (is_Some err -> rss = 0%Z) /\
  match fs_read_file (w 0%nat) (cgroupProcsPath eventsPath) with
  | Err e => ps = [] /\ err = Some (ErrWrap "reading cgroup.procs: %w" [] e)
  | Ok data =>
      (PID <$> ps) `sublist_of` listed_pids data /\
      exists n, err = match fs_read_file (w n) (cgroupMemoryCurrentPath eventsPath) with
                      | Err e => Some (ErrWrap "reading cgroup memory current: %w" [] e)
                      | Ok cur => match parse_int (trim_space cur) with
                                  | Err e => Some (ErrWrap "parsing cgroup memory current: %w" [] e)
                                  | Ok _ => None
                                  end
                      end
  end.
Proof.
  unfold collectProcessMetrics, listed_pids. io_run.
  assert (H0 : is_i64 0) by (unfold is_i64; lia).
  destruct (fs_read_file (w 0%nat) _) as [data|e]; [|by split_and!; try constructor].
  pose proof (collect_lines_sound procRoot (split (trim_space data) lf) w 1) as [Hs Hf].
  destruct (collect_lines _ _ w 1) as [ps n]. simpl in Hs, Hf.
  destruct (fs_read_file (w n) _) as [cur|e] eqn:Ec.
  - destruct (parse_int _) as [rss|e] eqn:Ei; split_and!; try done.
    + by apply parse_int_range in Ei.
    + exists n. by rewrite Ec, Ei.
    + exists n. by rewrite Ec, Ei.
  - split_and!; try done. exists n. by rewrite Ec.
Qed.

(** ** Capabilities *)

(** The status the three calls of the check observe. *)
Definition self_status (procRoot : string) (w : world) : res proc_status :=
  fs ← wrap_err "opening procfs at %q: %w" [procRoot] (NewFS procRoot (w 0%nat));
  p ← Self fs (w 1%nat);
  NewStatus p (w 2%nat).

Lemma land_bit_zero a b : (0 <= b)%Z -> Z.land a (Z.shiftl 1 b) = 0%Z <-> Z.testbit a b = false.
Proof.
  intros Hb. rewrite Z.shiftl_1_l. split.
  - intros E. apply (f_equal (fun z => Z.testbit z b)) in E.
    by rewrite Z.land_spec, Z.pow2_bits_true, andb_true_r, Z.bits_0 in E.
  - intros E. apply Z.bits_inj'. intros n Hn. rewrite Z.land_spec, Z.bits_0.
    destruct (decide (n = b)) as [->|]; [by rewrite E|].
    by rewrite Z.pow2_bits_false, andb_false_r.
Qed.

(** The missing capabilities of a list, bit by bit. *)
Lemma missing_bits capEff (l : list (string * Z)) :
  Forall (fun c => (0 <= c.2)%Z) l ->
  fst <$> filter (fun c => Z.land capEff (Z.shiftl 1 c.2) = 0%Z) l =
    omap (fun c => if Z.testbit capEff c.2 then None else Some c.1) l.
Proof.
  induction 1 as [|c l Hc _ IH]; [done|]. rewrite filter_cons. cbn [omap list_omap].
  destruct (decide _) as [E|E]; rewrite land_bit_zero in E by done.
  - rewrite E. cbn. by rewrite <- IH.
  - apply not_false_is_true in E. by rewrite E.
Qed.

Lemma missing_none capEff (l : list (string * Z)) :
  forallb (fun c => Z.testbit capEff c.2) l = true <->
  omap (fun c => if Z.testbit capEff c.2 then None else Some c.1) l = [].
Proof. induction l as [|c l IH]; [done|]. cbn. destruct (Z.testbit _ _); cbn; [done|by split]. Qed.

(** C33: the capability check passes exactly when the status of the process
    can be read and all six required capabilities (chown, dac_override,
    fowner, kill, setgid, setuid, by their bits in the kernel's mask) are in
    the effective set; when some are missing the error names those, in
    order. *)
Theorem CheckCapabilities_spec procRoot w :
  let required := [("CAP_CHOWN", 0); ("CAP_DAC_OVERRIDE", 1); ("CAP_FOWNER", 3); ("CAP_KILL", 5);
                   ("CAP_SETGID", 6); ("CAP_SETUID", 7)]%Z in
  run_io (CheckCapabilities procRoot) w =
    match self_status procRoot w with
    | Err e => Some e
    | Ok st =>
        if forallb (fun c => Z.testbit (CapEff st) c.2) required then None
        else Some (ErrNew "missing capabilities %s, which are required to run chromium as a different user; see doc/capabilities.md"
               [join (omap (fun c => if Z.testbit (CapEff st) c.2 then None else Some c.1) required) ", "])
    end.
Proof.
  intros required. unfold CheckCapabilities, self_status, wrap_err. io_run.
  destruct (NewFS _ _) as [fs|?]; [|done]. destruct (Self _ _) as [self|?]; [|done].
  destruct (NewStatus _ _) as [st|?]; [|done].
  assert (Hm : missing_capabilities (CapEff st) =
    omap (fun c => if Z.testbit (CapEff st) c.2 then None else Some c.1) required).
  { apply (missing_bits (CapEff st) required). by repeat constructor. }
  rewrite Hm. pose proof (missing_none (CapEff st) required) as Hall.
  destruct (forallb _ required) eqn:E.
  - by rewrite (proj1 Hall).
  - destruct (omap _ required); [by discriminate (proj2 Hall eq_refl)|done].
Qed.
End walk.

(** ** Witnesses *)

Lemma cgroup_paths_witness :
  cgroupProcsPath "/sys/fs/cgroup/memory.events" = "/sys/fs/cgroup/cgroup.procs".
Proof.
  apply (cgroup_paths ["sys"; "fs"; "cgroup"] "memory.events"); [done| |].
  - repeat constructor; done.
  - constructor; done.
Defined.

Lemma classify_typed_witness :
  classify (exec_cmdline ["/usr/lib/chromium/chromium"; "--type=renderer"; "--lang=en"]) = "renderer".
Proof.
  apply (classify_typed ["/usr/lib/chromium/chromium"] "renderer" ["--lang=en"]).
  - repeat constructor.
  - by split.
Defined.

Lemma classify_untyped_witness :
  classify (exec_cmdline ["/sbin/tini"; "--"; "/usr/local/bin/crocochrome"]) = "tini".
Proof.
  apply (classify_untyped "/sbin" "tini" ["--"; "/usr/local/bin/crocochrome"]); try done.
  repeat constructor.
Defined.

Example collect_machine :
  run_io (collectProcessMetrics "/cg/memory.events" "/proc") (still machine) =
    ([mkProcessInfo 1 "tini" 100 200; mkProcessInfo 17 "renderer" 5000 9000], 314572800%Z, None).
Proof. vm_compute. reflexivity. Qed.

Example capabilities_machine : run_io (CheckCapabilities "/proc") (still machine) = None.
Proof. vm_compute. reflexivity. Qed.
