(* ===== verification/Metrics.v ===== *)
(** * Supervisor metrics: internal/metrics/metrics.go

    The Prometheus collectors as the values they expose.  A counter only goes
    up by what it is given; a vector keeps one counter per label value, and a
    label value that was never used has no series.  Histograms keep their
    observations, latest first. *)

From S2P Require Import Prelude.

Definition ExecutionStateFinished : string := "finished".
Definition ExecutionStateFailed : string := "failed".
Definition ResourceRSS : string := "rss".
Definition TerminationReasonDeleted : string := "deleted".
Definition TerminationReasonTimeout : string := "timeout".
Definition TerminationReasonReplaced : string := "replaced".

Record SupervisorMetrics := mkMetrics {
  SessionDuration : list Z;             (* observed durations, in ns *)
  ChromiumExecutions : gmap string Z;   (* by state *)
  ChromiumResources : gmap string (list Z);  (* by resource *)
  SessionActive : Z;                    (* gauge *)
  SessionsCreated : Z;
  SessionsTerminated : gmap string Z;   (* by reason *)
  OOMKills : Z;
}.

(** What [metrics.Supervisor] registers: nothing observed, every plain
    collector at zero, no series in the vectors. *)
Definition newSupervisorMetrics : SupervisorMetrics :=
  mkMetrics [] ∅ ∅ 0 0 ∅ 0.

(** [CounterVec.With(labels).Inc()]; a key is the values of the labels. *)
Definition inc_label `{Countable K} (l : K) (m : gmap K Z) : gmap K Z :=
  <[l := (default 0 (m !! l) + 1)%Z]> m.

(** [HistogramVec.With(label).Observe(v)]. *)
Definition observe_label `{Countable K} (l : K) (v : Z) (m : gmap K (list Z)) : gmap K (list Z) :=
  <[l := v :: default [] (m !! l)]> m.

Definition set_active (v : Z) (m : SupervisorMetrics) : SupervisorMetrics :=
  mkMetrics (SessionDuration m) (ChromiumExecutions m) (ChromiumResources m) v
    (SessionsCreated m) (SessionsTerminated m) (OOMKills m).
Definition inc_created (m : SupervisorMetrics) : SupervisorMetrics :=
  mkMetrics (SessionDuration m) (ChromiumExecutions m) (ChromiumResources m) (SessionActive m)
    (SessionsCreated m + 1) (SessionsTerminated m) (OOMKills m).
Definition inc_terminated (reason : string) (m : SupervisorMetrics) : SupervisorMetrics :=
  mkMetrics (SessionDuration m) (ChromiumExecutions m) (ChromiumResources m) (SessionActive m)
    (SessionsCreated m) (inc_label reason (SessionsTerminated m)) (OOMKills m).
Definition inc_execution (state : string) (m : SupervisorMetrics) : SupervisorMetrics :=
  mkMetrics (SessionDuration m) (inc_label state (ChromiumExecutions m)) (ChromiumResources m)
    (SessionActive m) (SessionsCreated m) (SessionsTerminated m) (OOMKills m).
Definition observe_rss (v : Z) (m : SupervisorMetrics) : SupervisorMetrics :=
  mkMetrics (SessionDuration m) (ChromiumExecutions m)
    (observe_label ResourceRSS v (ChromiumResources m))
    (SessionActive m) (SessionsCreated m) (SessionsTerminated m) (OOMKills m).
Definition observe_duration (v : Z) (m : SupervisorMetrics) : SupervisorMetrics :=
  mkMetrics (v :: SessionDuration m) (ChromiumExecutions m) (ChromiumResources m)
    (SessionActive m) (SessionsCreated m) (SessionsTerminated m) (OOMKills m).
Definition add_oom_kills (v : Z) (m : SupervisorMetrics) : SupervisorMetrics :=
  mkMetrics (SessionDuration m) (ChromiumExecutions m) (ChromiumResources m)
    (SessionActive m) (SessionsCreated m) (SessionsTerminated m) (OOMKills m + v).

Section vec.
Context `{Countable K}.
Implicit Types (l : K) (m : gmap K Z).

(** The sum of the series of a counter vector. *)
Definition vec_total (m : gmap K Z) : Z := map_fold (fun _ n acc => (n + acc)%Z) 0%Z m.

Lemma vec_total_empty : vec_total ∅ = 0%Z.
Proof. apply map_fold_empty. Qed.

Lemma vec_total_insert l v m :
  m !! l = None -> vec_total (<[l := v]> m) = (v + vec_total m)%Z.
Proof.
  intros. unfold vec_total.
  rewrite (map_fold_insert_L (fun _ n acc => (n + acc)%Z)); [done| |done].
  intros. lia.
Qed.

Lemma vec_total_inc l m : vec_total (inc_label l m) = (vec_total m + 1)%Z.
Proof.
  unfold inc_label. destruct (m !! l) as [n|] eqn:E; simpl.
  - rewrite <- (insert_delete_id m l n E) at 2.
    rewrite <- insert_delete_eq, !vec_total_insert by apply lookup_delete_eq. lia.
  - rewrite vec_total_insert by done. lia.
Qed.

Lemma inc_label_same l m : inc_label l m !! l = Some (default 0 (m !! l) + 1)%Z.
Proof. apply lookup_insert_eq. Qed.

Lemma inc_label_other l l' m : l <> l' -> inc_label l m !! l' = m !! l'.
Proof. intros. by apply lookup_insert_ne. Qed.

End vec.

#[export] Hint Rewrite @vec_total_inc @inc_label_same @vec_total_empty : croco_rw.
