(* ===== verification/Json.v ===== *)
(** * JSON: what the code uses of encoding/json

    Parsing a value from the front of an input as [json.Decoder] does, and
    printing strings as [json.Encoder] does.  The texts of the errors are not
    modelled, only their kinds. *)

From S2P Require Import Prelude GoStrings OS.
Local Open Scope N_scope.

(** A JSON value.  A number keeps its text; an object keeps its members in
    order, repetitions included. *)
Inductive json :=
  | JNull
  | JBool (b : bool)
  | JNumber (text : string)
  | JString (s : string)
  | JArray (l : list json)
  | JObject (l : list (string * json)).

(** The outcome of reading from an input: the value and what follows it, the
    end of the input, or an error at some byte. *)
Inductive scan (A : Type) :=
  | Done (a : A) (rest : string)
  | More
  | Bad.
Arguments Done {A} a rest.
Arguments More {A}.
Arguments Bad {A}.

Definition scan_bind {A B} (r : scan A) (k : A -> string -> scan B) : scan B :=
  match r with Done a rest => k a rest | More => More | Bad => Bad end.

(** ** UTF-8 *)

Definition cont : ascii -> bool := byte_in 128 191.

(** The number of bytes of the well-formed sequence [s] starts with; 0 if it
    starts with none. *)
Definition rune_len (s : string) : nat :=
  match s with
  | EmptyString => O
  | String a s1 =>
      if N_of_ascii a <? 128 then 1%nat
      else match s1 with
           | EmptyString => O
           | String b s2 =>
               if byte_in 194 223 a then (if cont b then 2%nat else O)
               else match s2 with
                    | EmptyString => O
                    | String c s3 =>
                        let ok3 :=
                          (Ascii.eqb a (ascii_of_N 224) && byte_in 160 191 b) ||
                          ((byte_in 225 236 a || byte_in 238 239 a) && cont b) ||
                          (Ascii.eqb a (ascii_of_N 237) && byte_in 128 159 b) in
                        if ok3 then (if cont c then 3%nat else O)
                        else match s3 with
                             | EmptyString => O
                             | String d _ =>
                                 let ok4 :=
                                   (Ascii.eqb a (ascii_of_N 240) && byte_in 144 191 b) ||
                                   (byte_in 241 243 a && cont b) ||
                                   (Ascii.eqb a (ascii_of_N 244) && byte_in 128 143 b) in
                                 if ok4 && cont c && cont d then 4%nat else O
                             end
                    end
           end
  end.

Definition chr (n : N) : string := str1 (ascii_of_N n).
Definition replacement_char : string := bytes [239; 191; 189]%nat.

(** The UTF-8 encoding of a code point; surrogates become U+FFFD. *)
Definition encode_rune (r : N) : string :=
  if r <? 128 then chr r
  else if r <? 2048 then chr (192 + r / 64) +:+ chr (128 + r mod 64)
  else if (55296 <=? r) && (r <=? 57343) then replacement_char
  else if r <? 65536 then chr (224 + r / 4096) +:+ chr (128 + r / 64 mod 64) +:+ chr (128 + r mod 64)
  else chr (240 + r / 262144) +:+ chr (128 + r / 4096 mod 64) +:+ chr (128 + r / 64 mod 64) +:+ chr (128 + r mod 64).

(** ** Strings *)

Definition dquote : ascii := ascii_of_N 34.
Definition backslash : ascii := ascii_of_N 92.

Definition hex_val (c : ascii) : option N :=
  let n := N_of_ascii c in
  if byte_in 48 57 c then Some (n - 48)
  else if byte_in 97 102 c then Some (n - 87)
  else if byte_in 65 70 c then Some (n - 55)
  else None.

Definition simple_escape (c : ascii) : option ascii :=
  match N_of_ascii c with
  | 98 => Some (ascii_of_N 8) | 102 => Some (ascii_of_N 12) | 110 => Some (ascii_of_N 10)
  | 114 => Some (ascii_of_N 13) | 116 => Some (ascii_of_N 9)
  | 34 => Some dquote | 92 => Some backslash | 47 => Some (ascii_of_N 47)
  | _ => None
  end.

(** The scanner's view of a string after its opening quote: the text up to
    the closing one, escapes checked. *)
Fixpoint scan_hex (n : nat) (k : string -> scan string) (s : string) : scan string :=
  match n with
  | O => k s
  | S n' => match s with
            | EmptyString => More
            | String c s' => match hex_val c with Some _ => scan_hex n' k s' | None => Bad end
            end
  end.

Definition cons_text (c : ascii) (r : scan string) : scan string :=
  match r with Done t rest => Done (String c t) rest | r => r end.

Fixpoint scan_string (s : string) : scan string :=
  match s with
  | EmptyString => More
  | String c s1 =>
      if Ascii.eqb c dquote then Done EmptyString s1
      else if N_of_ascii c <? 32 then Bad
      else if Ascii.eqb c backslash then
        match s1 with
        | EmptyString => More
        | String d s2 =>
            match simple_escape d with
            | Some _ => cons_text c (cons_text d (scan_string s2))
            | None =>
                if Ascii.eqb d "u"%char then
                  match s2 with
                  | String h1 (String h2 (String h3 (String h4 s3))) =>
                      if forallb (fun h => bool_decide (is_Some (hex_val h))) [h1; h2; h3; h4]
                      then cons_text c (cons_text d (cons_text h1 (cons_text h2 (cons_text h3
                             (cons_text h4 (scan_string s3))))))
                      else Bad
                  | _ => scan_hex 4 (fun _ => Bad) s2   (* fewer than four bytes are left *)
                  end
                else Bad
            end
        end
      else cons_text c (scan_string s1)
  end.

(** The code unit of a [\uXXXX] at the front of [s]. *)
Definition getu4 (s : string) : option N :=
  match s with
  | String a (String u (String h1 (String h2 (String h3 (String h4 _))))) =>
      if Ascii.eqb a backslash && Ascii.eqb u "u"%char then
        n1 ← hex_val h1; n2 ← hex_val h2; n3 ← hex_val h3; n4 ← hex_val h4;
        Some (4096 * n1 + 256 * n2 + 16 * n3 + n4)
      else None
  | _ => None
  end.

Definition is_surrogate (r : N) : bool := (55296 <=? r) && (r <=? 57343).

(** The rune of a surrogate pair. *)
Definition decode_pair (r1 r2 : N) : option N :=
  if (55296 <=? r1) && (r1 <? 56320) && (56320 <=? r2) && (r2 <=? 57343)
  then Some ((r1 - 55296) * 1024 + (r2 - 56320) + 65536) else None.

(** [unquote]: escapes decoded, malformed UTF-8 and lone surrogates replaced
    by U+FFFD.  Fuel: the length; each turn consumes a byte at least. *)
Fixpoint unquote (fuel : nat) (s : string) : string :=
  match fuel, s with
  | S fuel', String c s1 =>
      if Ascii.eqb c backslash then
        match getu4 s with
        | Some rr =>
            if is_surrogate rr then
              match (r2 ← getu4 (drop_str 6 s); decode_pair rr r2) with
              | Some r => encode_rune r +:+ unquote fuel' (drop_str 12 s)
              | None => replacement_char +:+ unquote fuel' (drop_str 6 s)
              end
            else encode_rune rr +:+ unquote fuel' (drop_str 6 s)
        | None =>
            match s1 with
            | String d s2 => match simple_escape d with
                             | Some e => String e (unquote fuel' s2)
                             | None => EmptyString
                             end
            | EmptyString => EmptyString
            end
        end
      else if N_of_ascii c <? 128 then String c (unquote fuel' s1)
      else match rune_len s with
           | O => replacement_char +:+ unquote fuel' s1
           | n => take_str n s +:+ unquote fuel' (drop_str n s)
           end
  | _, _ => EmptyString
  end.

Definition parse_string (s : string) : scan string :=
  scan_bind (scan_string s) (fun raw rest => Done (unquote (String.length raw) raw) rest).

(** ** Numbers and literals *)

Definition is_digit (c : ascii) : bool := byte_in 48 57 c.

(** The digits at the front, and the rest. *)
Fixpoint take_digits (s : string) : string * string :=
  match s with
  | String c s' => if is_digit c then let '(d, r) := take_digits s' in (String c d, r) else (EmptyString, s)
  | EmptyString => (EmptyString, EmptyString)
  end.

(** At least one digit. *)
Definition scan_digits (s : string) : scan string :=
  match take_digits s with
  | (EmptyString, EmptyString) => More
  | (EmptyString, _) => Bad
  | (d, r) => Done d r
  end.

Definition scan_int (s : string) : scan string :=
  match s with
  | EmptyString => More
  | String c s' => if Ascii.eqb c "0"%char then Done (str1 c) s' else scan_digits s
  end.

Definition scan_frac (s : string) : scan string :=
  match s with
  | String c s' =>
      if Ascii.eqb c "."%char then scan_bind (scan_digits s') (fun d r => Done (String c d) r)
      else Done EmptyString s
  | EmptyString => Done EmptyString s
  end.

Definition scan_exp (s : string) : scan string :=
  match s with
  | String c s' =>
      if Ascii.eqb c "e"%char || Ascii.eqb c "E"%char then
        match s' with
        | String d s'' =>
            if Ascii.eqb d "+"%char || Ascii.eqb d "-"%char
            then scan_bind (scan_digits s'') (fun ds r => Done (String c (String d ds)) r)
            else scan_bind (scan_digits s') (fun ds r => Done (String c ds) r)
        | EmptyString => More
        end
      else Done EmptyString s
  | EmptyString => Done EmptyString s
  end.

Definition scan_number (s : string) : scan string :=
  let '(sign, s0) := match s with
                     | String c s' => if Ascii.eqb c "-"%char then (str1 c, s') else (EmptyString, s)
                     | EmptyString => (EmptyString, s)
                     end in
  scan_bind (scan_int s0) (fun i s1 =>
  scan_bind (scan_frac s1) (fun f s2 =>
  scan_bind (scan_exp s2) (fun e s3 => Done (sign +:+ i +:+ f +:+ e) s3))).

Fixpoint scan_literal (word s : string) : scan unit :=
  match word, s with
  | EmptyString, _ => Done tt s
  | _, EmptyString => More
  | String c w, String d s' => if Ascii.eqb c d then scan_literal w s' else Bad
  end.

(** ** Values *)

Definition is_ws (c : ascii) : bool :=
  match N_of_ascii c with 9 | 10 | 13 | 32 => true | _ => false end.

Fixpoint skip_ws (s : string) : string :=
  match s with
  | String c s' => if is_ws c then skip_ws s' else s
  | EmptyString => EmptyString
  end.

Definition maxNestingDepth : nat := Z.to_nat 10000.

(** One value; [depth] counts the open arrays and objects that may still be
    opened.  Fuel: every call is made on a shorter input than its caller's
    caller, so twice the length is enough. *)
Fixpoint parse_value (fuel depth : nat) (s : string) : scan json :=
  match fuel with
  | O => Bad
  | S fuel' =>
      match skip_ws s with
      | EmptyString => More
      | String c s' =>
          match N_of_ascii c with
          | 34 => scan_bind (parse_string s') (fun t r => Done (JString t) r)
          | 123 =>   (* { *)
              match depth with
              | O => Bad
              | S depth' =>
                  match skip_ws s' with
                  | EmptyString => More
                  | String d s'' =>
                      if Ascii.eqb d "}"%char then Done (JObject []) s''
                      else scan_bind (parse_members fuel' depth' (String d s''))
                             (fun l r => Done (JObject l) r)
                  end
              end
          | 91 =>   (* [ *)
              match depth with
              | O => Bad
              | S depth' =>
                  match skip_ws s' with
                  | EmptyString => More
                  | String d s'' =>
                      if Ascii.eqb d "]"%char then Done (JArray []) s''
                      else scan_bind (parse_elems fuel' depth' (String d s''))
                             (fun l r => Done (JArray l) r)
                  end
              end
          | 116 => scan_bind (scan_literal "rue" s') (fun _ r => Done (JBool true) r)
          | 102 => scan_bind (scan_literal "alse" s') (fun _ r => Done (JBool false) r)
          | 110 => scan_bind (scan_literal "ull" s') (fun _ r => Done JNull r)
          | _ => scan_bind (scan_number (String c s')) (fun t r => Done (JNumber t) r)
          end
      end
  end
with parse_elems (fuel depth : nat) (s : string) : scan (list json) :=
  match fuel with
  | O => Bad
  | S fuel' =>
      scan_bind (parse_value fuel' depth s) (fun v r =>
      match skip_ws r with
      | EmptyString => More
      | String c r' =>
          if Ascii.eqb c ","%char then
            scan_bind (parse_elems fuel' depth r') (fun l r'' => Done (v :: l) r'')
          else if Ascii.eqb c "]"%char then Done [v] r'
          else Bad
      end)
  end
with parse_members (fuel depth : nat) (s : string) : scan (list (string * json)) :=
  match fuel with
  | O => Bad
  | S fuel' =>
      match skip_ws s with
      | EmptyString => More
      | String q s' =>
          if negb (Ascii.eqb q dquote) then Bad else
          scan_bind (parse_string s') (fun k r =>
          match skip_ws r with
          | EmptyString => More
          | String c r' =>
              if negb (Ascii.eqb c ":"%char) then Bad else
              scan_bind (parse_value fuel' depth r') (fun v r'' =>
              match skip_ws r'' with
              | EmptyString => More
              | String d r''' =>
                  if Ascii.eqb d ","%char then
                    scan_bind (parse_members fuel' depth r''') (fun l rest => Done ((k, v) :: l) rest)
                  else if Ascii.eqb d "}"%char then Done [(k, v)] r'''
                  else Bad
              end)
          end)
      end
  end.

Definition parse_json (s : string) : scan json :=
  parse_value (2 * S (String.length s)) maxNestingDepth s.

(** Texts with quotes written as apostrophes, for the examples. *)
Definition quoted (s : string) : string :=
  map_str (fun c => if Ascii.eqb c "'"%char then dquote else c) s.

Example parse_json_ex :
  parse_json (quoted " {'a': [1, -2.5e3, true], 'b\u0041\n': {}} x") =
    Done (JObject [("a", JArray [JNumber "1"; JNumber "-2.5e3"; JBool true]); ("bA" +:+ str1 lf, JObject [])]) " x".
Proof. vm_compute. reflexivity. Qed.

(** ** Decoding *)

Definition scalar (v : json) : bool := match v with JArray _ | JObject _ => false | _ => true end.

(** [json.NewDecoder(r).Decode], up to the syntax: the first value of the
    stream [f].  A scalar is only known to be complete once the next byte, or
    the end, has been read. *)
Definition Decode (f : file) : res json :=
  match parse_json (f_data f) with
  | Done v rest =>
      match f_err f with
      | Some e => if scalar v && bool_decide (rest = EmptyString) then Err e else Ok v
      | None => Ok v
      end
  | More =>
      match f_err f with
      | Some e => Err e
      | None => Err (ErrNew (if bool_decide (skip_ws (f_data f) = EmptyString)
                             then "EOF" else "unexpected EOF") [])
      end
  | Bad => Err (ErrNew "invalid JSON" [])
  end.

Definition type_error : error := ErrNew "json: cannot unmarshal" [].

(** [foldName]: ASCII case, and the two other characters that fold to ASCII
    letters, U+017F and U+212A. *)
Fixpoint fold_name (s : string) : string :=
  match s with
  | EmptyString => EmptyString
  | String a s1 =>
      match s1 with
      | String b s2 =>
          if Ascii.eqb a (ascii_of_N 197) && Ascii.eqb b (ascii_of_N 191)
          then String "s"%char (fold_name s2)
          else match s2 with
               | String c s3 =>
                   if Ascii.eqb a (ascii_of_N 226) && Ascii.eqb b (ascii_of_N 132) && Ascii.eqb c (ascii_of_N 170)
                   then String "k"%char (fold_name s3)
                   else String (if byte_in 65 90 a then ascii_of_N (N_of_ascii a + 32) else a) (fold_name s1)
               | EmptyString =>
                   String (if byte_in 65 90 a then ascii_of_N (N_of_ascii a + 32) else a) (fold_name s1)
               end
      | EmptyString => String (if byte_in 65 90 a then ascii_of_N (N_of_ascii a + 32) else a) EmptyString
      end
  end.

(** The struct field a key is for: an exact match, else a folded one. *)
Definition find_field (names : list string) (k : string) : option string :=
  if bool_decide (k ∈ names) then Some k
  else List.find (fun n => bool_decide (fold_name n = fold_name k)) names.

(** Whether [strconv.ParseFloat(text, 64)] overflows: the absolute value is
    half a unit in the last place above the largest double, or more. *)
Definition nat_of_digits (s : string) : Z :=
  (fix go acc s := match s with
                   | EmptyString => acc
                   | String c s' => go (acc * 10 + Z.of_N (N_of_ascii c - 48))%Z s'
                   end) 0%Z s.

Definition number_overflows (text : string) : bool :=
  let s := trim_prefix text "-" in
  let '(int, s1) := take_digits s in
  let '(frac, s2) := match s1 with
                     | String c s' => if Ascii.eqb c "."%char then take_digits s' else (EmptyString, s1)
                     | EmptyString => (EmptyString, s1)
                     end in
  let exp := match s2 with
             | String _ s' =>
                 let '(d, _) := take_digits (trim_prefix (trim_prefix s' "+") "-") in
                 if has_prefix s' "-" then (- nat_of_digits d)%Z else nat_of_digits d
             | EmptyString => 0%Z
             end in
  let m := nat_of_digits (int +:+ frac) in
  let e := (exp - Z.of_nat (String.length frac))%Z in
  let bound := (2 ^ 1024 - 2 ^ 970)%Z in
  let digits := Z.of_nat (String.length (int +:+ frac)) in
  if (m =? 0)%Z then false
  else if (310 <? e)%Z then true
  else if (digits + e <? 309)%Z then false
  else if (0 <=? e)%Z then (bound <=? m * 10 ^ e)%Z else (bound * 10 ^ (- e) <=? m)%Z.

(** Whether a value can be stored in an [any]. *)
Fixpoint storable (v : json) : bool :=
  match v with
  | JNumber text => negb (number_overflows text)
  | JArray l => forallb storable l
  | JObject l => forallb (fun kv => storable kv.2) l
  | _ => true
  end.

(** Storing a value in a [string] field. *)
Definition decode_string (old : string) (v : json) : res string :=
  match v with JString s => Ok s | JNull => Ok old | _ => Err type_error end.

(** Storing a value in a [map[string]any] field. *)
Definition decode_map (old : gmap string json) (v : json) : res (gmap string json) :=
  match v with
  | JObject l =>
      if forallb (fun kv => storable kv.2) l
      then Ok (foldl (fun m kv => <[kv.1 := kv.2]> m) old l) else Err type_error
  | JNull => Ok ∅
  | _ => Err type_error
  end.

(** Storing the members of an object, in order, in a struct. *)
Definition decode_struct {A} (store : A -> string -> json -> res A) (zero : A) (v : json) : res A :=
  match v with
  | JObject l => foldl (fun r kv => a ← r; store a kv.1 kv.2) (Ok zero) l
  | JNull => Ok zero
  | _ => Err type_error
  end.

(** ** Encoding *)

Definition hex_lower (n : N) : ascii := ascii_of_N (if n <? 10 then 48 + n else 87 + n).

(** [appendString] with HTML escaping, one character of ASCII. *)
Definition escape_byte (c : ascii) : string :=
  let n := N_of_ascii c in
  if (n =? 34) || (n =? 92) then String backslash (str1 c)
  else if n =? 8 then String backslash "b"
  else if n =? 12 then String backslash "f"
  else if n =? 10 then String backslash "n"
  else if n =? 13 then String backslash "r"
  else if n =? 9 then String backslash "t"
  else if (n <? 32) || (n =? 60) || (n =? 62) || (n =? 38)
  then String backslash ("u00" +:+ str1 (hex_lower (n / 16)) +:+ str1 (hex_lower (n mod 16)))
  else str1 c.

Fixpoint escape (fuel : nat) (s : string) : string :=
  match fuel, s with
  | S fuel', String c s1 =>
      if N_of_ascii c <? 128 then escape_byte c +:+ escape fuel' s1
      else match rune_len s with
           | O => String backslash "ufffd" +:+ escape fuel' s1
           | n =>
               let r := take_str n s in
               (if bool_decide (r = bytes [226; 128; 168]%nat) then String backslash "u2028"
                else if bool_decide (r = bytes [226; 128; 169]%nat) then String backslash "u2029"
                else r) +:+ escape fuel' (drop_str n s)
           end
  | _, _ => EmptyString
  end.

Definition encode_string (s : string) : string :=
  str1 dquote +:+ escape (String.length s) s +:+ str1 dquote.

Definition encode_strings (l : list string) : string :=
  "[" +:+ join (encode_string <$> l) "," +:+ "]".

(** An object of which the members are already encoded. *)
Definition encode_object (l : list (string * string)) : string :=
  "{" +:+ join ((fun kv => encode_string kv.1 +:+ ":" +:+ kv.2) <$> l) "," +:+ "}".

(** ** Fuel *)

Lemma skip_ws_length s : (String.length (skip_ws s) <= String.length s)%nat.
Proof. induction s as [|c s IH]; simpl; [done|]. destruct (is_ws c); simpl; lia. Qed.

(** What a scan leaves is shorter than [n]. *)
Definition shrinks {A} (n : nat) (r : scan A) : Prop :=
  match r with Done _ rest => (String.length rest < n)%nat | _ => True end.

Lemma shrinks_bind {A B} n m (r : scan A) (k : A -> string -> scan B) :
  shrinks n r -> (forall a rest, (String.length rest < n)%nat -> shrinks m (k a rest)) ->
  shrinks m (scan_bind r k).
Proof. destruct r; simpl; auto. Qed.

Lemma shrinks_le {A} n m (r : scan A) : (n <= m)%nat -> shrinks n r -> shrinks m r.
Proof. destruct r; simpl; [lia|done..]. Qed.

Lemma shrinks_cons n c r : shrinks n r -> shrinks n (cons_text c r).
Proof. by destruct r. Qed.

Lemma scan_hex_bad n s : shrinks 0 (scan_hex n (fun _ => Bad) s).
Proof. revert s. induction n as [|n IH]; intros [|c s]; simpl; try done. by destruct (hex_val c). Qed.

Lemma scan_string_shrinks n s : (String.length s <= n)%nat -> shrinks (S n) (scan_string s).
Proof.
  revert s. induction n as [n IH] using lt_wf_ind. intros s Hn.
  destruct s as [|c s1]; [done|]. cbn [scan_string String.length] in *.
  destruct (Ascii.eqb c dquote); [simpl; lia|]. destruct (_ <? 32); [done|].
  assert (Hs : forall s', (S (String.length s') <= n)%nat -> shrinks (S n) (scan_string s')).
  { intros s' Hl. apply (shrinks_le (S (String.length s'))); [lia|]. by apply IH. }
  destruct (Ascii.eqb c backslash); [|by apply shrinks_cons, Hs].
  destruct s1 as [|d s2]; [done|]. cbn [String.length] in Hn.
  destruct (simple_escape d); [apply shrinks_cons, shrinks_cons, Hs; lia|].
  destruct (Ascii.eqb d "u"); [|done].
  assert (Hbad : shrinks (S n) (scan_hex 4 (fun _ => Bad) s2)).
  { apply (shrinks_le 0); [lia|]. apply scan_hex_bad. }
  destruct s2 as [|h1 [|h2 [|h3 [|h4 s3]]]]; try exact Hbad.
  destruct (forallb _ _); [|done]. cbn [String.length] in Hn.
  do 6 apply shrinks_cons. apply Hs. lia.
Qed.

Lemma parse_string_shrinks s : shrinks (S (String.length s)) (parse_string s).
Proof. eapply shrinks_bind; [by apply scan_string_shrinks|]. done. Qed.

Lemma take_digits_length s :
  (String.length (take_digits s).1 + String.length (take_digits s).2 = String.length s)%nat.
Proof.
  induction s as [|c s IH]; simpl; [done|]. destruct (is_digit c); [|done].
  destruct (take_digits s). simpl in *. lia.
Qed.

Lemma scan_digits_shrinks s : shrinks (String.length s) (scan_digits s).
Proof.
  unfold scan_digits. pose proof (take_digits_length s) as Hl.
  destruct (take_digits s) as [[|c d] [|c' r]]; simpl in *; try done; lia.
Qed.

Lemma scan_int_shrinks s : shrinks (String.length s) (scan_int s).
Proof.
  destruct s as [|c s]; [done|]. cbn [scan_int]. destruct (Ascii.eqb c "0"); [simpl; lia|].
  apply scan_digits_shrinks.
Qed.

Lemma scan_frac_shrinks s : shrinks (S (String.length s)) (scan_frac s).
Proof.
  destruct s as [|c s]; [simpl; lia|]. cbn [scan_frac]. destruct (Ascii.eqb c "."); [|simpl; lia].
  eapply shrinks_bind; [apply scan_digits_shrinks|]. intros d r Hr. simpl. lia.
Qed.

Lemma scan_exp_shrinks s : shrinks (S (String.length s)) (scan_exp s).
Proof.
  destruct s as [|c s]; [simpl; lia|]. cbn [scan_exp]. destruct (_ || _); [|simpl; lia].
  destruct s as [|d s]; [done|]. destruct (_ || _).
  all: eapply shrinks_bind; [apply scan_digits_shrinks|]; intros ds r Hr; simpl in *; lia.
Qed.

Lemma scan_number_shrinks s : shrinks (String.length s) (scan_number s).
Proof.
  unfold scan_number.
  assert (H : forall sign s0, (String.length s0 <= String.length s)%nat ->
    shrinks (String.length s)
      (scan_bind (scan_int s0) (fun i s1 => scan_bind (scan_frac s1) (fun f s2 =>
         scan_bind (scan_exp s2) (fun e s3 => Done (sign +:+ i +:+ f +:+ e) s3))))).
  { intros sign s0 H0. eapply shrinks_bind; [apply scan_int_shrinks|]. intros i s1 H1.
    eapply shrinks_bind; [apply scan_frac_shrinks|]. intros f s2 H2.
    eapply shrinks_bind; [apply scan_exp_shrinks|]. intros e s3 H3. simpl. lia. }
  destruct s as [|c s]; [by apply H|]. destruct (Ascii.eqb c "-"); apply H; simpl; lia.
Qed.

Lemma scan_literal_shrinks w s : shrinks (S (String.length s)) (scan_literal w s).
Proof.
  revert s. induction w as [|c w IH]; intros [|d s]; simpl; try lia.
  destruct (Ascii.eqb c d); [|done]. apply (shrinks_le (S (String.length s))); [lia|apply IH].
Qed.

(** The cases of the first byte of a value. *)
Lemma parse_value_eq fuel depth s :
  parse_value (S fuel) depth s =
    match skip_ws s with
    | EmptyString => More
    | String c s' =>
        if N_of_ascii c =? 34 then scan_bind (parse_string s') (fun t r => Done (JString t) r)
        else if N_of_ascii c =? 123 then
          match depth with
          | O => Bad
          | S depth' =>
              match skip_ws s' with
              | EmptyString => More
              | String d s'' =>
                  if Ascii.eqb d "}"%char then Done (JObject []) s''
                  else scan_bind (parse_members fuel depth' (String d s'')) (fun l r => Done (JObject l) r)
              end
          end
        else if N_of_ascii c =? 91 then
          match depth with
          | O => Bad
          | S depth' =>
              match skip_ws s' with
              | EmptyString => More
              | String d s'' =>
                  if Ascii.eqb d "]"%char then Done (JArray []) s''
                  else scan_bind (parse_elems fuel depth' (String d s'')) (fun l r => Done (JArray l) r)
              end
          end
        else if N_of_ascii c =? 116 then scan_bind (scan_literal "rue" s') (fun _ r => Done (JBool true) r)
        else if N_of_ascii c =? 102 then scan_bind (scan_literal "alse" s') (fun _ r => Done (JBool false) r)
        else if N_of_ascii c =? 110 then scan_bind (scan_literal "ull" s') (fun _ r => Done JNull r)
        else scan_bind (scan_number (String c s')) (fun t r => Done (JNumber t) r)
    end.
Proof.
  cbn [parse_value]. destruct (skip_ws s) as [|c s']; [done|].
  destruct c as [[] [] [] [] [] [] [] []]; reflexivity.
Qed.

Lemma skip_ws_cons s c s' : skip_ws s = String c s' -> (S (String.length s') <= String.length s)%nat.
Proof. intros E. pose proof (skip_ws_length s) as Hl. rewrite E in Hl. exact Hl. Qed.

Lemma parse_shrinks fuel :
  (forall depth s, shrinks (String.length s) (parse_value fuel depth s)) /\
  (forall depth s, shrinks (String.length s) (parse_elems fuel depth s)) /\
  (forall depth s, shrinks (String.length s) (parse_members fuel depth s)).
Proof.
  induction fuel as [|fuel (IHv & IHe & IHm)]; [done|]. split_and!; intros depth s.
  - rewrite parse_value_eq. destruct (skip_ws s) as [|c s'] eqn:E; [done|]. apply skip_ws_cons in E.
    assert (Hin : forall {A} (r : scan A) (k : A -> json) n, shrinks n r -> (n <= String.length s)%nat ->
      shrinks (String.length s) (scan_bind r (fun a rest => Done (k a) rest))).
    { intros A r k n Hr Hn. eapply shrinks_bind; [exact Hr|]. intros; simpl; lia. }
    repeat (destruct (_ =? _)).
    + eapply Hin; [apply parse_string_shrinks|done].
    + destruct depth; [done|]. destruct (skip_ws s') as [|d s''] eqn:E'; [done|]. apply skip_ws_cons in E'.
      destruct (Ascii.eqb _ _); [simpl; lia|]. eapply Hin; [apply IHm|simpl; lia].
    + destruct depth; [done|]. destruct (skip_ws s') as [|d s''] eqn:E'; [done|]. apply skip_ws_cons in E'.
      destruct (Ascii.eqb _ _); [simpl; lia|]. eapply Hin; [apply IHe|simpl; lia].
    + eapply Hin; [apply scan_literal_shrinks|done].
    + eapply Hin; [apply scan_literal_shrinks|done].
    + eapply Hin; [apply scan_literal_shrinks|done].
    + eapply Hin; [apply scan_number_shrinks|done].
  - cbn [parse_elems]. eapply shrinks_bind; [apply IHv|]. intros v r Hr.
    destruct (skip_ws r) as [|c r'] eqn:E; [done|]. apply skip_ws_cons in E.
    destruct (Ascii.eqb _ _); [|destruct (Ascii.eqb _ _); [simpl; lia|done]].
    eapply shrinks_bind; [apply IHe|]. intros; simpl; lia.
  - cbn [parse_members]. destruct (skip_ws s) as [|q s'] eqn:E; [done|]. apply skip_ws_cons in E.
    destruct (negb _); [done|]. eapply shrinks_bind; [apply parse_string_shrinks|]. intros k r Hr.
    destruct (skip_ws r) as [|c r'] eqn:E'; [done|]. apply skip_ws_cons in E'.
    destruct (negb _); [done|]. eapply shrinks_bind; [apply IHv|]. intros v r2 Hr2.
    destruct (skip_ws r2) as [|d r3] eqn:E2; [done|]. apply skip_ws_cons in E2.
    destruct (Ascii.eqb _ _); [|destruct (Ascii.eqb _ _); [simpl; lia|done]].
    eapply shrinks_bind; [apply IHm|]. intros; simpl; lia.
Qed.

Lemma scan_bind_ext {A B} n (r : scan A) (k k' : A -> string -> scan B) :
  shrinks n r -> (forall a rest, (String.length rest < n)%nat -> k a rest = k' a rest) ->
  scan_bind r k = scan_bind r k'.
Proof. destruct r; simpl; auto. Qed.

(** Enough fuel: more changes nothing. *)
Lemma parse_more_fuel fuel :
  (forall fuel' depth s, (2 * String.length s < fuel)%nat -> (2 * String.length s < fuel')%nat ->
     parse_value fuel depth s = parse_value fuel' depth s) /\
  (forall fuel' depth s, (S (2 * String.length s) < fuel)%nat -> (S (2 * String.length s) < fuel')%nat ->
     parse_elems fuel depth s = parse_elems fuel' depth s) /\
  (forall fuel' depth s, (S (2 * String.length s) < fuel)%nat -> (S (2 * String.length s) < fuel')%nat ->
     parse_members fuel depth s = parse_members fuel' depth s).
Proof.
  induction fuel as [|fuel (IHv & IHe & IHm)]; [split_and!; intros; lia|].
  split_and!; intros [|fuel'] depth s Hf Hf'; try lia.
  - rewrite !parse_value_eq. destruct (skip_ws s) as [|c s'] eqn:E; [done|]. apply skip_ws_cons in E.
    destruct depth as [|depth]; [done|].
    destruct (skip_ws s') as [|d s''] eqn:E'; [done|]. apply skip_ws_cons in E'.
    by rewrite (IHm fuel'), (IHe fuel') by (simpl; lia).
  - cbn [parse_elems]. rewrite (IHv fuel') by lia.
    eapply scan_bind_ext; [apply parse_shrinks|]. intros v r Hr.
    destruct (skip_ws r) as [|c r'] eqn:E; [done|]. apply skip_ws_cons in E.
    by rewrite (IHe fuel') by lia.
  - cbn [parse_members]. destruct (skip_ws s) as [|q s'] eqn:E; [done|]. apply skip_ws_cons in E.
    destruct (negb _); [done|]. eapply scan_bind_ext; [apply parse_string_shrinks|]. intros k r Hr.
    destruct (skip_ws r) as [|c r'] eqn:E'; [done|]. apply skip_ws_cons in E'.
    destruct (negb _); [done|]. rewrite (IHv fuel') by lia.
    eapply scan_bind_ext; [apply parse_shrinks|]. intros v r2 Hr2.
    destruct (skip_ws r2) as [|d r3] eqn:E2; [done|]. apply skip_ws_cons in E2.
    by rewrite (IHm fuel') by lia.
Qed.

(** The fuel of [parse_json] is enough: its result is the one of any larger
    fuel. *)
Lemma parse_json_fuel fuel s :
  (2 * String.length s < fuel)%nat -> parse_json s = parse_value fuel maxNestingDepth s.
Proof. intros Hf. by apply (proj1 (parse_more_fuel _)); [lia|]. Qed.
