(* ===== verification/JsonText.v ===== *)
(** * JSON texts: reading back what is written

    A string that [json.Encoder] writes is read as its valid UTF-8 text, and an
    object member by member; a string that [json.Decoder] reads is always
    valid, so what was read once is read back unchanged. *)

From S2P Require Import Prelude GoStrings OS Json.
Local Open Scope N_scope.

(** ** Valid text *)

#[local] Arguments String.append !_ _ / : simpl nomatch.

Definition is_ascii (c : ascii) : bool := N_of_ascii c <? 128.

Definition is_high (c : ascii) : bool := 128 <=? N_of_ascii c.

(** [strings.ToValidUTF8(s, "\uFFFD")], byte for byte: what a string becomes on
    the wire. *)
Fixpoint to_valid (fuel : nat) (s : string) : string :=
  match fuel, s with
  | S fuel', String c s1 =>
      if N_of_ascii c <? 128 then String c (to_valid fuel' s1)
      else match rune_len s with
           | O => replacement_char +:+ to_valid fuel' s1
           | n => take_str n s +:+ to_valid fuel' (drop_str n s)
           end
  | _, _ => EmptyString
  end.
Definition valid_text (s : string) : string := to_valid (String.length s) s.
Arguments valid_text : simpl never.

(** Well-formed UTF-8. *)
Definition utf8 (s : string) : Prop := valid_text s = s.
#[export] Instance utf8_dec s : Decision (utf8 s).
Proof. unfold utf8. apply _. Defined.

Lemma to_valid_ascii fuel s :
  (String.length s <= fuel)%nat -> all_bytes is_ascii s = true -> to_valid fuel s = s.
Proof.
  revert fuel. induction s as [|c s IH]; intros [|fuel] Hf; simpl in Hf; try done; try lia.
  cbn [all_bytes to_valid]. intros [Hc Hs]%andb_true_iff. unfold is_ascii in Hc.
  rewrite Hc, IH; [done|lia|done].
Qed.

Lemma ascii_utf8 s : all_bytes is_ascii s = true -> utf8 s.
Proof. by apply to_valid_ascii. Qed.

Lemma byte_in_high lo hi c : 128 <= lo -> byte_in lo hi c = true -> is_high c = true.
Proof. unfold byte_in, is_high. rewrite andb_true_iff, !N.leb_le. lia. Qed.

Lemma cont_high c : cont c = true -> is_high c = true.
Proof. by apply byte_in_high. Qed.

(** A well-formed sequence at the front of a string is one whatever follows
    it, and all its bytes are outside ASCII unless it is a single one. *)
Lemma rune_len_split s n :
  rune_len s = S n ->
  exists r s', s = r +:+ s' /\ String.length r = S n /\ (forall x, rune_len (r +:+ x) = S n) /\
    (match s with String c _ => is_ascii c = true | EmptyString => False end \/ all_bytes is_high r = true).
Proof.
  destruct s as [|a s1]; [done|]. cbn [rune_len]. destruct (N_of_ascii a <? 128) eqn:Ha.
  { intros [= <-]. exists (str1 a), s1. split_and!; auto. intros x. cbn. by rewrite Ha. }
  assert (Hha : is_high a = true) by (unfold is_high; rewrite N.leb_antisym; by rewrite Ha).
  destruct s1 as [|b s2]; [done|]. destruct (byte_in 194 223 a) eqn:E2.
  { destruct (cont b) eqn:Eb; [|done]. intros [= <-]. exists (str1 a +:+ str1 b), s2.
    split_and!; [done|done|intros x; change (rune_len (String a (String b x)) = 2%nat); cbn [rune_len]; by rewrite Ha, E2, Eb|right; cbn; by rewrite Hha, cont_high]. }
  destruct s2 as [|c s3]; [done|]. cbv zeta.
  destruct (_ || _ || _) eqn:E3.
  { destruct (cont c) eqn:Ec; [|done]. intros [= <-]. exists (str1 a +:+ str1 b +:+ str1 c), s3.
    split_and!; [done|done|intros x; change (rune_len (String a (String b (String c x))) = 3%nat);
      cbn [rune_len]; cbv zeta; by rewrite Ha, E2, E3, Ec|right].
    assert (Hb : is_high b = true).
    { apply orb_true_iff in E3 as [[[_ E]%andb_true_iff|[_ E]%andb_true_iff]%orb_true_iff|[_ E]%andb_true_iff];
        by eapply byte_in_high; [|exact E]. }
    cbn. by rewrite Hha, Hb, cont_high. }
  destruct s3 as [|d s4]; [done|]. destruct ((_ || _ || _) && cont c && cont d) eqn:E4; [|done].
  intros [= <-]. exists (str1 a +:+ str1 b +:+ str1 c +:+ str1 d), s4.
  split_and!; [done|done|intros x; change (rune_len (String a (String b (String c (String d x)))) = 4%nat);
    cbn [rune_len]; cbv zeta; by rewrite Ha, E2, E3, E4|right].
  apply andb_true_iff in E4 as [[E4 Ec]%andb_true_iff Ed].
  assert (Hb : is_high b = true).
  { apply orb_true_iff in E4 as [[[_ E]%andb_true_iff|[_ E]%andb_true_iff]%orb_true_iff|[_ E]%andb_true_iff];
      by eapply byte_in_high; [|exact E]. }
  cbn. by rewrite Hha, Hb, !cont_high.
Qed.

(** *** The pieces of an escaped string *)

Definition prefix_text (e : string) (r : scan string) : scan string :=
  match r with Done t rest => Done (e +:+ t) rest | r => r end.

(** [e] is scanned as it is and decoded to [t] in one turn, whatever follows. *)
Record piece (e t : string) : Prop := {
  pc_scan rest : scan_string (e +:+ rest) = prefix_text e (scan_string rest);
  pc_unquote fuel rest : unquote (S fuel) (e +:+ rest) = t +:+ unquote fuel rest;
  pc_nonempty : (1 <= String.length e)%nat;
}.

Ltac compute_escape :=
  match goal with
  | |- context [escape_byte ?c] =>
      let e := eval vm_compute in (escape_byte c) in change (escape_byte c) with e
  end.

Lemma getu4_other a d s : Ascii.eqb d "u"%char = false -> getu4 (String a (String d s)) = None.
Proof.
  intros Hd. cbn [getu4]. rewrite Hd, andb_false_r. by repeat case_match.
Qed.

Lemma unquote_simple fuel d e s :
  simple_escape d = Some e ->
  unquote (S fuel) (String backslash (String d s)) = String e (unquote fuel s).
Proof.
  intros Hd. cbn [unquote]. rewrite Ascii.eqb_refl, getu4_other, Hd; [done|].
  destruct (Ascii.eqb_spec d "u"%char) as [->|]; done.
Qed.

Lemma piece_ascii c : is_ascii c = true -> piece (escape_byte c) (str1 c).
Proof.
  intros Hc. split.
  - intros rest. revert Hc. destruct c as [[] [] [] [] [] [] [] []]; intros Hc; try discriminate Hc;
      compute_escape; cbn; by destruct (scan_string rest).
  - intros fuel rest. revert Hc.
    destruct c as [[] [] [] [] [] [] [] []]; intros Hc; try discriminate Hc; try reflexivity.
    all: by apply unquote_simple.
  - unfold escape_byte. repeat case_match; simpl; lia.
Qed.

(** A piece that is written as a code unit. *)
Lemma piece_u4 e t :
  e ∈ [String backslash "ufffd"; String backslash "u2028"; String backslash "u2029"] ->
  t = match getu4 e with Some r => encode_rune r | None => EmptyString end -> piece e t.
Proof.
  rewrite !elem_of_cons, elem_of_nil.
  intros [->|[->|[->|[]]]] ->; split; try (intros; reflexivity); try (simpl; lia).
  all: intros rest; cbn; by destruct (scan_string rest).
Qed.

Lemma scan_high r rest :
  all_bytes is_high r = true -> scan_string (r +:+ rest) = prefix_text r (scan_string rest).
Proof.
  induction r as [|c r IH]; [intros _; change (EmptyString +:+ rest) with rest; by destruct (scan_string rest)|]. intros [Hc Hr]%andb_true_iff.
  change (String c r +:+ rest) with (String c (r +:+ rest)). cbn [scan_string]. rewrite IH by done.
  destruct (Ascii.eqb_spec c dquote) as [->|]; [done|].
  destruct (Ascii.eqb_spec c backslash) as [->|]; [done|].
  unfold is_high in Hc. apply N.leb_le in Hc. rewrite (proj2 (N.ltb_ge _ 32)) by lia.
  by destruct (scan_string rest).
Qed.

Definition escape_rune (r : string) : string :=
  if bool_decide (r = bytes [226; 128; 168]%nat) then String backslash "u2028"
  else if bool_decide (r = bytes [226; 128; 169]%nat) then String backslash "u2029"
  else r.

Lemma piece_rune r n :
  (forall x, rune_len (r +:+ x) = S n) -> String.length r = S n -> all_bytes is_high r = true ->
  piece (escape_rune r) r.
Proof.
  intros Hr Hl Hh. unfold escape_rune.
  case_bool_decide; [subst; apply piece_u4; [rewrite !elem_of_cons; auto|reflexivity]|].
  case_bool_decide; [subst; apply piece_u4; [rewrite !elem_of_cons; auto|reflexivity]|].
  split; [intros; by apply scan_high| |lia]. intros fuel rest.
  destruct r as [|c r]; [done|]. specialize (Hr rest).
  change (String c r +:+ rest) with (String c (r +:+ rest)) in *. cbn [unquote].
  cbn [all_bytes] in Hh. apply andb_true_iff in Hh as [Hc _]. unfold is_high in Hc. apply N.leb_le in Hc.
  destruct (Ascii.eqb_spec c backslash) as [->|]; [done|].
  rewrite (proj2 (N.ltb_ge _ 128)) by lia. rewrite Hr. rewrite <- Hl.
  change (String c (r +:+ rest)) with (String c r +:+ rest). by rewrite take_str_app, drop_str_app.
Qed.

(** A string is escaped piece by piece. *)
Lemma escape_pieces fuel c s :
  exists e t s', piece e t /\ (String.length s' <= String.length s)%nat /\
    escape (S fuel) (String c s) = e +:+ escape fuel s' /\
    to_valid (S fuel) (String c s) = t +:+ to_valid fuel s'.
Proof.
  cbn [escape to_valid]. destruct (N_of_ascii c <? 128) eqn:Hc.
  { exists (escape_byte c), (str1 c), s. split; [by apply piece_ascii|done]. }
  destruct (rune_len (String c s)) as [|n] eqn:E.
  { exists (String backslash "ufffd"), replacement_char, s. split; [|done].
    apply piece_u4; [rewrite !elem_of_cons; auto|reflexivity]. }
  destruct (rune_len_split _ _ E) as (r & s' & Hs & Hl & Hr & Hh). rewrite Hs, <- Hl.
  rewrite take_str_app, drop_str_app. exists (escape_rune r), r, s'. split_and!; try done.
  - apply (piece_rune r n); [done|done|]. destruct Hh as [Hh|]; [|done].
    unfold is_ascii in Hh. congruence.
  - apply (f_equal String.length) in Hs. rewrite length_string_app in Hs. simpl in Hs. lia.
Qed.

Lemma escape_read fuel s :
  (String.length s <= fuel)%nat ->
  (forall rest, scan_string (escape fuel s +:+ String dquote rest) = Done (escape fuel s) rest) /\
  (forall fuel', (String.length (escape fuel s) <= fuel')%nat -> unquote fuel' (escape fuel s) = to_valid fuel s).
Proof.
  revert s. induction fuel as [|fuel IH]; intros [|c s] Hf; simpl in Hf; try lia.
  1,2: split; [intros rest; reflexivity|by intros []].
  destruct (escape_pieces fuel c s) as (e & t & s' & He & Hs' & -> & ->).
  destruct (IH s' ltac:(lia)) as [IHs IHu]. split.
  - intros rest. by rewrite string_app_assoc, (pc_scan _ _ He), IHs.
  - intros fuel'. rewrite length_string_app. pose proof (pc_nonempty _ _ He).
    destruct fuel' as [|fuel']; [lia|]. intros Hle. rewrite (pc_unquote _ _ He), IHu; [done|lia].
Qed.

(** A string that was written is read as its valid text. *)
Lemma parse_string_escape s rest :
  parse_string (escape (String.length s) s +:+ String dquote rest) = Done (valid_text s) rest.
Proof.
  destruct (escape_read (String.length s) s) as [Hs Hu]; [done|].
  unfold parse_string. rewrite Hs. cbn [scan_bind]. by rewrite Hu.
Qed.

(** A text that is read as the value [v], whatever follows it. *)
Definition reads (n : nat) (text : string) (v : json) : Prop :=
  forall fuel depth rest, (n <= fuel)%nat -> (n <= depth)%nat ->
    parse_value fuel depth (text +:+ rest) = Done v rest.

Lemma reads_string s : reads 1 (encode_string s) (JString (valid_text s)).
Proof.
  intros [|fuel] depth rest Hf _; [lia|].
  unfold encode_string. rewrite !string_app_assoc, !str1_app. cbn [parse_value skip_ws].
  change (is_ws dquote) with false. change (N_of_ascii dquote) with 34. cbv iota.
  by rewrite parse_string_escape.
Qed.

(** A member of an object: its name, its encoded value and its value. *)
Abbreviation member := (string * string * json)%type.
Definition encode_member (m : member) : string := encode_string m.1.1 +:+ ":" +:+ m.1.2.
Definition member_ok (n : nat) (m : member) : Prop :=
  utf8 m.1.1 /\ reads n m.1.2 m.2.

Lemma encode_string_app s rest :
  encode_string s +:+ rest = String dquote (escape (String.length s) s +:+ String dquote rest).
Proof. unfold encode_string. by rewrite !string_app_assoc, !str1_app. Qed.

(** Reading the first member of several. *)
Lemma parse_member n fuel depth m tail :
  member_ok n m -> (n <= fuel)%nat -> (n <= depth)%nat ->
  parse_members (S fuel) depth (encode_member m +:+ tail) =
    match skip_ws tail with
    | EmptyString => More
    | String d rest =>
        if Ascii.eqb d ","%char then
          scan_bind (parse_members fuel depth rest) (fun l r => Done ((m.1.1, m.2) :: l) r)
        else if Ascii.eqb d "}"%char then Done [(m.1.1, m.2)] rest
        else Bad
    end.
Proof.
  destruct m as [[k t] v]. intros [Hk Hv] Hf Hd. cbn [fst snd] in *. unfold encode_member. cbn [fst snd].
  rewrite string_app_assoc, encode_string_app, string_app_assoc. cbn [parse_members skip_ws].
  change (is_ws dquote) with false. cbv iota. rewrite Ascii.eqb_refl. cbn [negb].
  rewrite parse_string_escape, Hk. cbn [scan_bind]. change (":" +:+ ?x) with (String ":" x).
  cbn [skip_ws]. change (is_ws ":") with false. cbv iota. rewrite Ascii.eqb_refl. cbn [negb].
  rewrite Hv by done. done.
Qed.

Lemma parse_members_object l n fuel depth rest :
  l <> [] -> (n + length l <= fuel)%nat -> (n <= depth)%nat -> Forall (member_ok n) l ->
  parse_members fuel depth (join (encode_member <$> l) "," +:+ String "}" rest) =
  Done ((fun m => (m.1.1, m.2)) <$> l) rest.
Proof.
  intros Hne Hf Hd Hl. revert fuel Hf.
  induction Hl as [|m l Hm Hl IH]; intros [|fuel] Hf; simpl in Hf; try done; try lia.
  destruct l as [|m' l]; cbn [fmap list_fmap] in *.
  - cbn [join]. by rewrite (parse_member n) by (done || lia).
  - rewrite join_cons, string_app_assoc, (parse_member n) by (done || lia).
    change (("," +:+ ?x) +:+ ?y) with (String "," (x +:+ y)). cbn [skip_ws].
    change (is_ws ",") with false. cbv iota. rewrite Ascii.eqb_refl.
    rewrite IH; [done|done|simpl in *; lia].
Qed.

(** An object is read back member by member. *)
Lemma reads_object l n :
  l <> [] -> Forall (member_ok n) l ->
  reads (S (n + length l)) (encode_object (fst <$> l)) (JObject ((fun m => (m.1.1, m.2)) <$> l)).
Proof.
  intros Hne Hl [|fuel] [|depth] rest Hf Hd; try lia.
  unfold encode_object. rewrite <- list_fmap_compose.
  change ((fun kv => encode_string kv.1 +:+ ":" +:+ kv.2) ∘ fst) with encode_member.
  rewrite !string_app_assoc. change ("}" +:+ rest) with (String "}" rest).
  pose proof (parse_members_object l n fuel depth rest Hne ltac:(lia) ltac:(lia) Hl) as Hp.
  assert (Ht : exists x, join (encode_member <$> l) "," +:+ String "}" rest = String dquote x).
  { destruct l as [|[[k t] v] [|m l]]; [done|..]; cbn [fmap list_fmap]; [cbn [join]|rewrite join_cons];
      unfold encode_member, encode_string; rewrite !string_app_assoc, str1_app; eauto. }
  destruct Ht as [x Hx]. rewrite Hx in *. change ("{" +:+ ?x) with (String "{" x).
  cbn [parse_value skip_ws]. change (is_ws "{") with false. change (N_of_ascii "{") with 123.
  cbv iota. cbn [skip_ws]. change (is_ws dquote) with false. cbv iota.
  change (Ascii.eqb dquote "}") with false. cbv iota. by rewrite Hp.
Qed.

(** ** Texts that were read *)

(** A well-formed sequence: one rune. *)
Definition rune (r : string) : Prop :=
  exists n, String.length r = S n /\ forall x, rune_len (r +:+ x) = S n.

Lemma to_valid_fuel f1 f2 s :
  (String.length s <= f1)%nat -> (String.length s <= f2)%nat -> to_valid f1 s = to_valid f2 s.
Proof.
  revert f2 s. induction f1 as [|f1 IH]; intros [|f2] [|c s]; cbn [to_valid String.length]; try done; try lia. intros H1 H2.
  destruct (N_of_ascii c <? 128); [f_equal; apply IH; lia|].
  destruct (rune_len (String c s)) as [|n] eqn:E; [f_equal; apply IH; lia|].
  destruct (rune_len_split _ _ E) as (r & s' & Hs & Hl & _ & _). rewrite Hs, <- Hl, drop_str_app.
  assert (Hlen : (String.length s' <= String.length s)%nat).
  { apply (f_equal String.length) in Hs. rewrite length_string_app in Hs. simpl in Hs. lia. }
  by rewrite (IH f2 s') by lia.
Qed.

Lemma utf8_rune r s : rune r -> utf8 s -> utf8 (r +:+ s).
Proof.
  intros (n & Hl & Hr) Hs. unfold utf8, valid_text in *. destruct r as [|c r]; [done|].
  specialize (Hr s). rewrite length_string_app, Hl.
  change (String c r +:+ s) with (String c (r +:+ s)) in *. cbn [to_valid Nat.add].
  destruct (N_of_ascii c <? 128) eqn:Hc.
  - cbn [rune_len] in Hr. rewrite Hc in Hr. destruct r; [|simpl in *; lia].
    change (EmptyString +:+ s) with s. rewrite (to_valid_fuel _ (String.length s)) by lia. by rewrite Hs.
  - rewrite Hr, <- Hl. change (String c (r +:+ s)) with (String c r +:+ s).
    rewrite take_str_app, drop_str_app, (to_valid_fuel _ (String.length s)) by lia. by rewrite Hs.
Qed.

Lemma rune_ascii c : is_ascii c = true -> rune (str1 c).
Proof. intros Hc. exists O. split; [done|]. intros x. rewrite str1_app. cbn [rune_len]. unfold is_ascii in Hc. by rewrite Hc. Qed.

Lemma replacement_rune : rune replacement_char.
Proof. exists 2%nat. split; [done|]. intros x. reflexivity. Qed.

Lemma byte_in_chr lo hi n : lo <= n -> n <= hi -> hi < 256 -> byte_in lo hi (ascii_of_N n) = true.
Proof. intros. unfold byte_in. rewrite N_ascii_embedding by lia. apply andb_true_iff. split; apply N.leb_le; lia. Qed.

Lemma rune_len_three a b c x :
  224 <= a < 240 -> 128 <= b < 192 -> 128 <= c < 192 ->
  (a = 224 -> 160 <= b) -> (a = 237 -> b < 160) ->
  rune_len (String (ascii_of_N a) (String (ascii_of_N b) (String (ascii_of_N c) x))) = 3%nat.
Proof.
  intros Ha Hb Hc H0 Hd. cbn [rune_len]. rewrite N_ascii_embedding, (proj2 (N.ltb_ge _ 128)) by lia.
  assert (Hn : forall lo hi, hi < a \/ a < lo -> byte_in lo hi (ascii_of_N a) = false).
  { intros lo hi Hr. unfold byte_in. rewrite N_ascii_embedding by lia.
    apply andb_false_iff. rewrite !N.leb_gt. lia. }
  rewrite Hn by lia. cbv zeta. unfold cont. rewrite (byte_in_chr _ _ c) by lia.
  destruct (decide (a = 224)) as [->|]; [by rewrite (byte_in_chr 160 191 b) by lia|].
  destruct (decide (a = 237)) as [->|]; [rewrite (byte_in_chr 128 159 b) by lia; by rewrite !orb_true_r|].
  assert (byte_in 225 236 (ascii_of_N a) || byte_in 238 239 (ascii_of_N a) = true) as ->.
  { destruct (N.leb_spec a 236); [by rewrite byte_in_chr by lia|].
    rewrite orb_true_iff. right. apply byte_in_chr; lia. }
  rewrite (byte_in_chr 128 191 b) by lia. by rewrite !orb_true_r.
Qed.

Lemma rune_len_four a b c d x :
  240 <= a < 245 -> 128 <= b < 192 -> 128 <= c < 192 -> 128 <= d < 192 ->
  (a = 240 -> 144 <= b) -> (a = 244 -> b < 144) ->
  rune_len (String (ascii_of_N a) (String (ascii_of_N b) (String (ascii_of_N c) (String (ascii_of_N d) x)))) = 4%nat.
Proof.
  intros Ha Hb Hc Hd H0 H4. cbn [rune_len]. rewrite N_ascii_embedding, (proj2 (N.ltb_ge _ 128)) by lia.
  assert (Hn : forall lo hi, hi < a \/ a < lo -> byte_in lo hi (ascii_of_N a) = false).
  { intros lo hi Hr. unfold byte_in. rewrite N_ascii_embedding by lia.
    apply andb_false_iff. rewrite !N.leb_gt. lia. }
  assert (He : forall n, n < 240 -> Ascii.eqb (ascii_of_N a) (ascii_of_N n) = false).
  { intros n Hlt. apply Ascii.eqb_neq. intros E. apply (f_equal N_of_ascii) in E.
    rewrite !N_ascii_embedding in E by lia. lia. }
  rewrite !Hn, !He by lia. cbn [orb andb]. cbv zeta. unfold cont.
  rewrite (byte_in_chr _ _ c), (byte_in_chr _ _ d) by lia.
  destruct (decide (a = 240)) as [->|]; [by rewrite (byte_in_chr 144 191 b) by lia|].
  destruct (decide (a = 244)) as [->|]; [rewrite (byte_in_chr 128 143 b) by lia; by rewrite !orb_true_r|].
  rewrite (byte_in_chr 241 243), (byte_in_chr 128 191 b) by lia. by rewrite !orb_true_r.
Qed.

Lemma rune_encode r : r < 1114112 -> rune (encode_rune r).
Proof.
  intros Hr. unfold encode_rune, chr.
  pose proof (N.div_mod r 64 ltac:(lia)) as H1. pose proof (N.mod_lt r 64 ltac:(lia)) as H2.
  destruct (N.ltb_spec r 128); [apply rune_ascii; unfold is_ascii; rewrite N_ascii_embedding by lia; by apply N.ltb_lt|].
  assert (E12 : r / 4096 = r / 64 / 64) by by rewrite N.Div0.div_div.
  assert (E18 : r / 262144 = r / 64 / 64 / 64) by by rewrite !N.Div0.div_div.
  rewrite E18, E12. clear E18 E12.
  pose proof (N.div_mod (r / 64) 64 ltac:(lia)) as H3. pose proof (N.mod_lt (r / 64) 64 ltac:(lia)) as H4.
  pose proof (N.div_mod (r / 64 / 64) 64 ltac:(lia)) as H5. pose proof (N.mod_lt (r / 64 / 64) 64 ltac:(lia)) as H6.
  set (q := r / 64) in *. set (m := r mod 64) in *. set (q2 := q / 64) in *. set (m2 := q mod 64) in *.
  set (q3 := q2 / 64) in *. set (m3 := q2 mod 64) in *. clearbody q m q2 m2 q3 m3.
  destruct (N.ltb_spec r 2048).
  { exists 1%nat. split; [done|]. intros x. rewrite string_app_assoc, !str1_app. cbn [rune_len].
    rewrite N_ascii_embedding, (proj2 (N.ltb_ge _ 128)) by lia. unfold cont.
    by rewrite !byte_in_chr by lia. }
  destruct (_ && _) eqn:Hs; [apply replacement_rune|].
  apply andb_false_iff in Hs. rewrite !N.leb_gt in Hs.
  destruct (N.ltb_spec r 65536).
  - exists 2%nat. split; [done|]. intros x. rewrite !string_app_assoc, !str1_app. apply rune_len_three; lia.
  - exists 3%nat. split; [done|]. intros x. rewrite !string_app_assoc, !str1_app. apply rune_len_four; lia.
Qed.

Lemma hex_val_bound c n : hex_val c = Some n -> n < 16.
Proof.
  unfold hex_val, byte_in. repeat case_match; intros; simplify_eq;
    repeat match goal with H : _ && _ = true |- _ => apply andb_true_iff in H as [?%N.leb_le ?%N.leb_le] end; lia.
Qed.

Lemma getu4_bound s r : getu4 s = Some r -> r < 65536.
Proof.
  unfold getu4. repeat case_match; try done. intros E.
  repeat match type of E with
         | mbind _ ?x = _ => let H := fresh in destruct x eqn:H; [apply hex_val_bound in H|done]; simpl in E
         end.
  injection E as <-. lia.
Qed.

Lemma decode_pair_bound r1 r2 r : decode_pair r1 r2 = Some r -> r < 1114112.
Proof.
  unfold decode_pair. case_match; [|done]. intros [= <-].
  repeat match goal with H : _ && _ = true |- _ => apply andb_true_iff in H as [H ?] end.
  rewrite ?N.leb_le, ?N.ltb_lt in *. lia.
Qed.

Lemma simple_escape_ascii c e : simple_escape c = Some e -> is_ascii e = true.
Proof. unfold simple_escape. repeat case_match; intros; simplify_eq; reflexivity. Qed.

Lemma utf8_cons c s : is_ascii c = true -> utf8 s -> utf8 (String c s).
Proof. intros Hc Hs. rewrite <- str1_app. by apply utf8_rune; [apply rune_ascii|]. Qed.

(** What the decoder makes of a string is UTF-8, whatever the input. *)
Lemma unquote_utf8 fuel s : utf8 (unquote fuel s).
Proof.
  revert s. induction fuel as [|fuel IH]; intros s; [reflexivity|]. destruct s as [|c s1]; [reflexivity|].
  cbn [unquote]. destruct (Ascii.eqb c backslash).
  - destruct (getu4 (String c s1)) as [rr|] eqn:E.
    + apply getu4_bound in E. destruct (is_surrogate rr).
      * destruct (r2 ← _; decode_pair rr r2) as [r|] eqn:E2; [|by apply utf8_rune; [apply replacement_rune|]].
        apply bind_Some in E2 as (r2 & _ & E2%decode_pair_bound). by apply utf8_rune; [apply rune_encode|].
      * apply utf8_rune; [apply rune_encode; lia|done].
    + destruct s1 as [|d s2]; [reflexivity|]. destruct (simple_escape d) eqn:Ed; [|reflexivity].
      by apply utf8_cons; [eapply simple_escape_ascii|].
  - destruct (N_of_ascii c <? 128) eqn:Hc; [by apply utf8_cons|].
    destruct (rune_len (String c s1)) as [|n] eqn:E; [by apply utf8_rune; [apply replacement_rune|]|].
    destruct (rune_len_split _ _ E) as (r & s' & Hs & Hl & Hr & _). rewrite Hs, <- Hl, take_str_app.
    apply utf8_rune; [by exists n|done].
Qed.

(** *** Values that were read *)

Fixpoint utf8_json (v : json) : Prop :=
  match v with
  | JString s => utf8 s
  | JArray l => (fix go l := match l with [] => True | v :: l' => utf8_json v /\ go l' end) l
  | JObject l =>
      (fix go l := match l with [] => True | kv :: l' => (utf8 kv.1 /\ utf8_json kv.2) /\ go l' end) l
  | _ => True
  end.

Lemma utf8_array l : utf8_json (JArray l) <-> Forall utf8_json l.
Proof. induction l as [|v l IH]; [done|]. rewrite Forall_cons, <- IH. done. Qed.

Lemma utf8_object l : utf8_json (JObject l) <-> Forall (fun kv => utf8 kv.1 /\ utf8_json kv.2) l.
Proof. induction l as [|v l IH]; [done|]. rewrite Forall_cons, <- IH. done. Qed.

(** What a scan gives satisfies [P]. *)
Definition gives {A} (P : A -> Prop) (r : scan A) : Prop := match r with Done a _ => P a | _ => True end.

Lemma gives_bind {A B} (P : A -> Prop) (Q : B -> Prop) r k :
  gives P r -> (forall a rest, P a -> gives Q (k a rest)) -> gives Q (scan_bind r k).
Proof. destruct r; simpl; auto. Qed.

Lemma gives_any {A} (r : scan A) : gives (fun _ => True) r.
Proof. by destruct r. Qed.

Lemma parse_string_utf8 s : gives utf8 (parse_string s).
Proof.
  unfold parse_string. eapply gives_bind; [apply gives_any|]. intros raw rest _. apply unquote_utf8.
Qed.

Lemma parse_utf8 fuel :
  (forall depth s, gives utf8_json (parse_value fuel depth s)) /\
  (forall depth s, gives (Forall utf8_json) (parse_elems fuel depth s)) /\
  (forall depth s, gives (Forall (fun kv => utf8 kv.1 /\ utf8_json kv.2)) (parse_members fuel depth s)).
Proof.
  induction fuel as [|fuel (IHv & IHe & IHm)]; [done|]. split_and!; intros depth s.
  - rewrite parse_value_eq. destruct (skip_ws s) as [|c s']; [done|].
    repeat (destruct (_ =? _)).
    + eapply gives_bind; [apply parse_string_utf8|done].
    + destruct depth; [done|]. destruct (skip_ws s') as [|d s'']; [done|]. destruct (Ascii.eqb _ _); [done|].
      eapply gives_bind; [apply IHm|]. intros l r Hl. by apply utf8_object.
    + destruct depth; [done|]. destruct (skip_ws s') as [|d s'']; [done|]. destruct (Ascii.eqb _ _); [done|].
      eapply gives_bind; [apply IHe|]. intros l r Hl. by apply utf8_array.
    + eapply gives_bind; [apply gives_any|done].
    + eapply gives_bind; [apply gives_any|done].
    + eapply gives_bind; [apply gives_any|done].
    + eapply gives_bind; [apply gives_any|done].
  - cbn [parse_elems]. eapply gives_bind; [apply IHv|]. intros v r Hv.
    destruct (skip_ws r) as [|c r']; [done|].
    destruct (Ascii.eqb _ _); [|destruct (Ascii.eqb _ _); simpl; auto].
    eapply gives_bind; [apply IHe|]. intros; simpl; auto.
  - cbn [parse_members]. destruct (skip_ws s) as [|q s']; [done|]. destruct (negb _); [done|].
    eapply gives_bind; [apply parse_string_utf8|]. intros k r Hk.
    destruct (skip_ws r) as [|c r']; [done|]. destruct (negb _); [done|].
    eapply gives_bind; [apply IHv|]. intros v r2 Hv. destruct (skip_ws r2) as [|d r3]; [done|].
    destruct (Ascii.eqb _ _); [|destruct (Ascii.eqb _ _); simpl; auto].
    eapply gives_bind; [apply IHm|]. intros; simpl; auto.
Qed.

Lemma Decode_utf8 f v : Decode f = Ok v -> utf8_json v.
Proof.
  unfold Decode, parse_json. pose proof (proj1 (parse_utf8 (2 * S (String.length (f_data f)))) maxNestingDepth (f_data f)) as H.
  destruct (parse_value _ _ _) as [a rest| |]; simpl in H; repeat case_match; intros; by simplify_eq.
Qed.

(** *** Structs that were read *)

Lemma decode_string_utf8 old v s : utf8 old -> utf8_json v -> decode_string old v = Ok s -> utf8 s.
Proof. destruct v; simpl; intros; by simplify_eq. Qed.

(** What holds of the zero value and is kept by each member that is stored
    holds of the struct. *)
Lemma decode_struct_inv {A} (P : A -> Prop) (store : A -> string -> json -> res A) zero v a :
  P zero -> (forall a k j a', P a -> utf8_json j -> store a k j = Ok a' -> P a') ->
  utf8_json v -> decode_struct store zero v = Ok a -> P a.
Proof.
  intros Hz Hst Hv. destruct v as [| | | | |l]; try done; [intros; by simplify_eq/=|].
  apply utf8_object in Hv. simpl.
  assert (Hacc : forall r, (forall x, r = Ok x -> P x) ->
    foldl (fun r kv => a ← r; store a kv.1 kv.2) r l = Ok a -> P a); [|apply Hacc; intros; by simplify_eq].
  clear Hz. induction Hv as [|[k j] l [_ Hj] Hl IH]; simpl; intros r Hr; [apply Hr|].
  apply IH. intros x Hx. destruct r as [y|e]; [|done]. simpl in Hx. eauto.
Qed.
