(* ===== verification/Url.v ===== *)
(** * net/url

    What the code uses of package net/url: [url.Parse] for the address
    Chromium advertises, [URL.String] for the address of the proxy, and the
    unescaping of paths.  Brackets in a host hold an IPv6 address, so the
    check of [netip.ParseAddr] is here too. *)

From S2P Require Import Prelude GoStrings Json.

(** ** Escaping *)


(** [url.PathUnescape] of a segment the server has parsed. *)
Fixpoint path_unescape (s : string) : string :=
  match s with
  | String c s1 =>
      if Ascii.eqb c "%"%char then
        match s1 with
        | String h1 (String h2 s3) =>
            match hex_val h1, hex_val h2 with
            | Some n1, Some n2 => String (ascii_of_N (16 * n1 + n2)) (path_unescape s3)
            | _, _ => String c (path_unescape s1)
            end
        | _ => String c (path_unescape s1)
        end
      else String c (path_unescape s1)
  | EmptyString => EmptyString
  end.

Definition is_alnum (c : ascii) : bool :=
  byte_in 48 57 c || byte_in 65 90 c || byte_in 97 122 c.

(** [shouldEscape] in the modes the code uses. *)
Definition host_kept (c : ascii) : bool :=
  is_alnum c || mem_byte c ("!$&'()*+,;=:[]<>-_.~" +:+ str1 dquote).
Definition path_kept (c : ascii) : bool := is_alnum c || mem_byte c "-_.~$&+,/:;=@".

Definition upper_hex (n : N) : ascii := ascii_of_N (if (n <? 10)%N then 48 + n else 55 + n)%N.

Fixpoint url_escape (kept : ascii -> bool) (s : string) : string :=
  match s with
  | EmptyString => EmptyString
  | String c s' =>
      (if kept c then str1 c
       else String "%" (String (upper_hex (N_of_ascii c / 16)) (str1 (upper_hex (N_of_ascii c mod 16)))))
      +:+ url_escape kept s'
  end.

(** [URL.String()] of a URL with a scheme, a host and a path. *)
Definition url_string (scheme host path : string) : string :=
  scheme +:+ ":" +:+
  (if bool_decide (host = EmptyString) && bool_decide (path = EmptyString) then EmptyString else "//") +:+
  url_escape host_kept host +:+
  (if negb (bool_decide (path = EmptyString)) && negb (has_prefix path "/") &&
      negb (bool_decide (host = EmptyString)) then "/" else EmptyString) +:+
  url_escape path_kept path.

(** ** Unescaping *)

(** The modes of [unescape] that differ in what they accept. *)
Inductive encoding := encodeHost | encodeZone | encodeOther.

Definition invalid_escape (s : string) : error := ErrNew "invalid URL escape %q" [take_str 3 s].
Definition invalid_host (c : ascii) : error := ErrNew "invalid character %q in host name" [str1 c].

(** Whether [%h1h2] may stand in this mode. *)
Definition escape_allowed (mode : encoding) (h1 h2 : ascii) (v1 v2 : N) : bool :=
  let percent := Ascii.eqb h1 "2"%char && Ascii.eqb h2 "5"%char in
  match mode with
  | encodeHost => negb (v1 <? 8)%N || percent
  | encodeZone => percent || (16 * v1 + v2 =? 32)%N || host_kept (ascii_of_N (16 * v1 + v2))
  | encodeOther => true
  end.

Definition byte_allowed (mode : encoding) (c : ascii) : bool :=
  match mode with
  | encodeOther => true
  | _ => negb (N_of_ascii c <? 128)%N || host_kept c
  end.

(** The checks of [unescape]; its result is then [path_unescape]. *)
Fixpoint check_escapes (mode : encoding) (s : string) : option error :=
  match s with
  | EmptyString => None
  | String c s1 =>
      if Ascii.eqb c "%"%char then
        match s1 with
        | String h1 (String h2 s3) =>
            match hex_val h1, hex_val h2 with
            | Some v1, Some v2 =>
                if escape_allowed mode h1 h2 v1 v2 then check_escapes mode s3
                else Some (invalid_escape s)
            | _, _ => Some (invalid_escape s)
            end
        | _ => Some (invalid_escape s)
        end
      else if byte_allowed mode c then check_escapes mode s1 else Some (invalid_host c)
  end.

Definition unescape (mode : encoding) (s : string) : res string :=
  match check_escapes mode s with Some e => Err e | None => Ok (path_unescape s) end.

(** ** netip.ParseAddr of an IPv6 address *)

(** One field of an IPv4 address: one to three digits without a leading zero,
    at most 255. *)
Definition ipv4_field (f : string) : bool :=
  match f with
  | EmptyString => false
  | String c f' =>
      all_bytes (byte_in 48 57) f && (negb (Ascii.eqb c "0"%char) || bool_decide (f' = EmptyString)) &&
      (String.length f <=? 3) &&
      match parse_uint f with Ok n => (n <=? 255)%Z | Err _ => false end
  end.

Definition ipv4_fields (s : string) : bool :=
  let fs := split s "."%char in (length fs =? 4) && forallb ipv4_field fs.

(** The hexadecimal digits [s] starts with, and the rest. *)
Fixpoint take_hex (s : string) : string * string :=
  match s with
  | EmptyString => (EmptyString, EmptyString)
  | String c s' =>
      match hex_val c with
      | Some _ => let '(a, b) := take_hex s' in (String c a, b)
      | None => (EmptyString, s)
      end
  end.

(** The loop of [parseIPv6] over the groups: [i] is the number of bytes read,
    [ellipsis] whether a double colon was.  Fuel: one per group. *)
Fixpoint ipv6_groups (fuel : nat) (i : nat) (ellipsis : bool) (s : string) : bool :=
  let finish := fun i (s : string) ellipsis =>
    bool_decide (s = EmptyString) && (if i <? 16 then ellipsis else negb ellipsis) in
  match fuel with
  | O => finish i s ellipsis
  | S fuel' =>
      let '(group, rest) := take_hex s in
      let n := String.length group in
      if (n =? 0) || (4 <? n) then false
      else if has_prefix rest "." then
        (ellipsis || (i =? 12)) && (i + 4 <=? 16) && ipv4_fields s &&
        (if i + 4 <? 16 then ellipsis else negb ellipsis)
      else match rest with
           | EmptyString => finish (i + 2) rest ellipsis
           | String c s1 =>
               if negb (Ascii.eqb c ":"%char) then false
               else match s1 with
                    | EmptyString => false
                    | String d s2 =>
                        if Ascii.eqb d ":"%char then
                          if ellipsis then false
                          else if bool_decide (s2 = EmptyString) then finish (i + 2) s2 true
                          else ipv6_groups fuel' (i + 2) true s2
                        else ipv6_groups fuel' (i + 2) ellipsis s1
                    end
           end
  end.

(** Whether [netip.ParseAddr(s)] is an address that is not IPv4. *)
Definition is_ipv6 (s : string) : bool :=
  match index_any s ".:%" with
  | Some i =>
      if has_prefix (drop_str i s) ":" then
        let '(a, zone) := cut s "%"%char in
        if bool_decide (zone = Some EmptyString) then false
        else if has_prefix a "::" then
          let a := drop_str 2 a in
          if bool_decide (a = EmptyString) then true else ipv6_groups 8 0 true a
        else ipv6_groups 8 0 false a
      else false
  | None => false
  end.

(** ** url.Parse *)

Record URL := mkURL {
  Scheme : string; Opaque : string; User : option string; Host : string; Path : string; RawQuery : string
}.

Definition is_letter (c : ascii) : bool := byte_in 65 90 c || byte_in 97 122 c.
Definition to_lower (c : ascii) : ascii :=
  if byte_in 65 90 c then ascii_of_N (N_of_ascii c + 32) else c.

(** [getScheme]: the scheme, empty if there is none, and the rest. *)
Fixpoint scheme_length (first : bool) (s : string) : res (option nat) :=
  match s with
  | EmptyString => Ok None
  | String c s' =>
      if is_letter c then (n ← scheme_length false s'; Ok (option_map S n))
      else if byte_in 48 57 c || mem_byte c "+-." then
        if first then Ok None else (n ← scheme_length false s'; Ok (option_map S n))
      else if Ascii.eqb c ":"%char then
        if first then Err (ErrNew "missing protocol scheme" []) else Ok (Some 0)
      else Ok None
  end.

Definition getScheme (s : string) : res (string * string) :=
  n ← scheme_length true s;
  Ok (match n with
      | Some n => (take_str n s, drop_str (S n) s)
      | None => (EmptyString, s)
      end).

(** [validOptionalPort]. *)
Definition valid_optional_port (p : string) : bool :=
  match p with
  | EmptyString => true
  | String c ds => Ascii.eqb c ":"%char && all_bytes (byte_in 48 57) ds
  end.

Definition valid_userinfo (s : string) : bool :=
  all_bytes (fun c => is_alnum c || mem_byte c "-._:~!$&'()*+,;=%@") s.

(** The bytes from the last [c] on, without those before it; [None] if [c]
    does not occur. *)
Fixpoint from_last (s : string) (c : ascii) : option string :=
  match s with
  | EmptyString => None
  | String d s' =>
      match from_last s' c with
      | Some t => Some t
      | None => if Ascii.eqb d c then Some s else None
      end
  end.
Definition before_last (s : string) (c : ascii) : string :=
  match from_last s c with
  | Some t => take_str (String.length s - String.length t) s
  | None => s
  end.

Definition invalid_port (p : string) : error := ErrNew "invalid port %q after host" [p].

(** The host between brackets, then the port. *)
Definition parse_bracketed (host : string) : res string :=
  match from_last host "]"%char with
  | None => Err (ErrNew "missing ']' in host" [])
  | Some tail =>
      let colonPort := drop_str 1 tail in
      if negb (valid_optional_port colonPort) then Err (invalid_port colonPort)
      else
        port ← unescape encodeHost colonPort;
        let hostname := drop_str 1 (before_last host "]"%char) in
        name ← match index hostname "%25" with
               | Some z =>
                   h ← unescape encodeHost (take_str z hostname);
                   zone ← unescape encodeZone (drop_str z hostname);
                   Ok (h +:+ zone)
               | None => unescape encodeHost hostname
               end;
        if is_ipv6 name then Ok ("[" +:+ name +:+ "]" +:+ port)
        else Err (ErrNew "invalid host" [name])
  end.

(** [parseHost]: an http URL may have one colon in its host, another URL
    several, the last before the port. *)
Definition parseHost (scheme host : string) : res string :=
  match from_last host "["%char with
  | Some t =>
      if bool_decide (t = host) then parse_bracketed host else Err (ErrNew "invalid IP-literal" [])
  | None =>
      let strict := bool_decide (scheme = "http") || bool_decide (scheme = "https") in
      let colonPort :=
        if strict then match cut host ":"%char with (_, Some p) => String ":" p | _ => EmptyString end
        else default EmptyString (from_last host ":"%char) in
      if valid_optional_port colonPort then unescape encodeHost host else Err (invalid_port colonPort)
  end.

Definition parseAuthority (scheme authority : string) : res (option string * string) :=
  match from_last authority "@"%char with
  | None => h ← parseHost scheme authority; Ok (None, h)
  | Some t =>
      h ← parseHost scheme (drop_str 1 t);
      let userinfo := before_last authority "@"%char in
      if negb (valid_userinfo userinfo) then Err (ErrNew "net/url: invalid userinfo" [])
      else _ ← unescape encodeOther userinfo; Ok (Some userinfo, h)
  end.

Definition is_ctl (c : ascii) : bool := (N_of_ascii c <? 32)%N || (N_of_ascii c =? 127)%N.

(** [parse(rawURL, false)]. *)
Definition parse_url (raw : string) : res URL :=
  if negb (all_bytes (fun c => negb (is_ctl c)) raw) then
    Err (ErrNew "net/url: invalid control character in URL" [])
  else if bool_decide (raw = "*") then Ok (mkURL "" "" None "" "*" "")
  else
    sr ← getScheme raw;
    let scheme := map_str to_lower sr.1 in
    let '(rest, query) := cut sr.2 "?"%char in
    let query := default EmptyString query in
    if negb (has_prefix rest "/") && negb (bool_decide (scheme = EmptyString)) then
      Ok (mkURL scheme rest None "" "" query)
    else if negb (has_prefix rest "/") && mem_byte ":" (cut rest slash).1 then
      Err (ErrNew "first path segment in URL cannot contain colon" [])
    else if (negb (bool_decide (scheme = EmptyString)) || negb (has_prefix rest "///")) &&
            has_prefix rest "//" then
      let '(authority, after) := cut (drop_str 2 rest) slash in
      uh ← parseAuthority scheme authority;
      path ← unescape encodeOther (match after with Some p => String slash p | None => EmptyString end);
      Ok (mkURL scheme "" uh.1 uh.2 path query)
    else
      path ← unescape encodeOther rest;
      Ok (mkURL scheme "" None "" path query).

(** [url.Parse]: the fragment is checked and dropped. *)
Definition url_Parse (raw : string) : res URL :=
  let '(u, frag) := cut raw "#"%char in
  v ← wrap_err "parse %q: %w" [u] (parse_url u);
  _ ← wrap_err "parse %q: %w" [raw] (unescape encodeOther (default EmptyString frag));
  Ok v.

Definition host_of (r : res URL) : res string := u ← r; Ok (Host u).

Example url_ex :
  host_of <$> [url_Parse "ws://127.0.0.1:5222/devtools/browser/a279?x#y"; url_Parse "ws://[::1]:5222/a";
               url_Parse "WS://u:p@h%C3%A9:80"; url_Parse "mailto:x@y"; url_Parse "/just/path";
               url_Parse "ws://[fe80::1%25eth0]/"; url_Parse "ws://a:b:80/"] =
    [Ok "127.0.0.1:5222"; Ok "[::1]:5222"; Ok ("h" +:+ bytes [195; 169] +:+ ":80"); Ok ""; Ok "";
     Ok "[fe80::1%eth0]"; Ok "a:b:80"].
Proof. vm_compute. reflexivity. Qed.

Example url_refused :
  (fun u => is_ok (url_Parse u)) <$>
    ["ws://127.0.0.1:x/"; "ws://[127.0.0.1]/"; "ws://[::1"; "ws://a[::1]/"; "ws://h%41/"; ":x"; "a:b%";
     "ws://h/%zz"; "ws://[1::2::3]/"; "ws://a b/"; "http://a:b:80/"; "1a:b"; "ws://[1:2:3:4:5:6:7]/";
     "ws://[1:2:3:4:5:6:7:8]/"; "ws://[::1.2.3.4]/"; "ws://[::1.2.3.04]/"; "ws://[1:2:3:4:5:6:7::]/"] =
    [false; false; false; false; false; false; true; false; false; false; false; false; false;
     true; true; false; true].
Proof. vm_compute. reflexivity. Qed.

(** ** Facts *)

#[local] Arguments String.append !_ _ / : simpl nomatch.

Lemma split_first s sep :
  exists w ws, split s sep = w :: ws /\
    forall c, Ascii.eqb c sep = false -> split (String c s) sep = String c w :: ws.
Proof.
  destruct (split s sep) as [|w ws] eqn:E; [by apply split_nonempty in E|].
  exists w, ws. split; [done|]. intros c Hc. simpl. by rewrite Hc, E.
Qed.

Lemma join_first c w ws sep : join (String c w :: ws) sep = String c (join (w :: ws) sep).
Proof. by destruct ws. Qed.

Lemma hex_not_slash c v : hex_val c = Some v -> Ascii.eqb c slash = false.
Proof. intros Hv. destruct (Ascii.eqb_spec c slash) as [->|]; [by vm_compute in Hv|done]. Qed.

(** A percent sign that starts no escape stays. *)
Lemma path_unescape_percent s :
  (forall h1 h2 s3, s = String h1 (String h2 s3) -> hex_val h1 = None \/ hex_val h2 = None) ->
  path_unescape (String "%" s) = String "%" (path_unescape s).
Proof.
  intros Hno. cbn [path_unescape]. change (Ascii.eqb "%" "%") with true. cbv iota.
  destruct s as [|h1 [|h2 s3]]; [done|done|].
  destruct (Hno h1 h2 s3 eq_refl) as [E|E]; rewrite E; [done|]. by destruct (hex_val h1).
Qed.

Lemma path_unescape_byte c s :
  Ascii.eqb c "%" = false -> path_unescape (String c s) = String c (path_unescape s).
Proof. intros Hc. cbn [path_unescape]. by rewrite Hc. Qed.

Lemma path_unescape_escape h1 h2 v1 v2 s :
  hex_val h1 = Some v1 -> hex_val h2 = Some v2 ->
  path_unescape (String "%" (String h1 (String h2 s))) =
    String (ascii_of_N (16 * v1 + v2)) (path_unescape s).
Proof. intros E1 E2. cbn [path_unescape]. change (Ascii.eqb "%" "%") with true. by rewrite E1, E2. Qed.

(** Unescaping a path is unescaping its segments: an escape never spans a
    slash. *)
Lemma path_unescape_split s :
  path_unescape s = join (path_unescape <$> split s slash) "/".
Proof.
  remember (String.length s) as n eqn:Hn. revert s Hn.
  induction n as [n IH] using lt_wf_ind. intros [|c s] Hn; [done|]. simpl in Hn.
  assert (IHs : path_unescape s = join (path_unescape <$> split s slash) "/") by (eapply IH; [|done]; lia).
  destruct (split_first s slash) as (w & ws & Es & Hc).
  destruct (Ascii.eqb_spec c slash) as [->|Hne].
  { rewrite path_unescape_byte, IHs, Es by done. simpl. by rewrite Es. }
  rewrite Hc by by apply Ascii.eqb_neq.
  destruct (Ascii.eqb_spec c "%"%char) as [->|Hp].
  2:{ apply Ascii.eqb_neq in Hp. rewrite path_unescape_byte, IHs, Es by done. rewrite !fmap_cons.
      by rewrite path_unescape_byte, join_first by done. }
  destruct s as [|h1 [|h2 s3]].
  1,2: rewrite path_unescape_percent, IHs, Es by done; rewrite !fmap_cons;
    rewrite path_unescape_percent, join_first; [done|];
    intros k1 k2 s' ->; simpl in Es; repeat case_match; by simplify_eq.
  destruct (hex_val h1) as [v1|] eqn:E1; [destruct (hex_val h2) as [v2|] eqn:E2|].
  - destruct (split_first s3 slash) as (w3 & ws3 & Es3 & Hc3).
    destruct (split_first (String h2 s3) slash) as (w2 & ws2 & Es2 & Hc2).
    rewrite (Hc2 h1) in Es by by eapply hex_not_slash.
    rewrite (Hc3 h2) in Es2 by by eapply hex_not_slash. simplify_eq.
    rewrite !fmap_cons. rewrite !(path_unescape_escape h1 h2 v1 v2), join_first by done. f_equal.
    rewrite (IH (String.length s3)) by (simpl; lia). by rewrite Es3.
  - rewrite path_unescape_percent, IHs, Es by (intros; simplify_eq; auto). rewrite !fmap_cons.
    rewrite path_unescape_percent, join_first; [done|].
    intros k1 k2 s' ->. destruct (split_first (String h2 s3) slash) as (w2 & ws2 & Es2 & Hc2).
    destruct (split_first s3 slash) as (w3 & ws3 & Es3 & Hc3).
    rewrite (Hc2 h1) in Es by by eapply hex_not_slash. simplify_eq. right.
    destruct (Ascii.eqb_spec h2 slash) as [->|Hne2]; [simpl in Es2; by simplify_eq|].
    rewrite (Hc3 h2) in Es2 by by apply Ascii.eqb_neq. by simplify_eq.
  - rewrite path_unescape_percent, IHs, Es by (intros; simplify_eq; auto). rewrite !fmap_cons.
    rewrite path_unescape_percent, join_first; [done|].
    intros k1 k2 s' ->. destruct (split_first (String h2 s3) slash) as (w2 & ws2 & Es2 & Hc2).
    destruct (Ascii.eqb_spec h1 slash) as [->|Hne1]; [simpl in Es; by simplify_eq|].
    rewrite (Hc2 h1) in Es by by apply Ascii.eqb_neq. simplify_eq. auto.
Qed.

(** The path of an absolute reference is that of its segments. *)
Lemma path_unescape_abs s :
  path_unescape (String slash s) = abs_path (path_unescape <$> split s slash).
Proof. rewrite path_unescape_byte by done. unfold abs_path. by rewrite <- path_unescape_split. Qed.

Lemma from_last_none a c : mem_byte c a = false -> from_last a c = None.
Proof.
  induction a as [|d a IH]; simpl; [done|].
  intros [Hd Ha]%orb_false_iff. rewrite (IH Ha). by rewrite Ascii.eqb_sym, Hd.
Qed.

(** *** Bytes that stand for themselves *)

Lemma all_bytes_impl (P Q : ascii -> bool) s :
  (forall c, P c = true -> Q c = true) -> all_bytes P s = true -> all_bytes Q s = true.
Proof. intros HPQ. induction s as [|c s IH]; simpl; [done|]. rewrite !andb_true_iff. naive_solver. Qed.

Lemma all_bytes_not_mem (P : ascii -> bool) c s :
  P c = false -> all_bytes P s = true -> mem_byte c s = false.
Proof.
  intros Hc. induction s as [|d s IH]; simpl; [done|]. intros [Hd Hs]%andb_true_iff.
  apply orb_false_iff. split; [|auto]. destruct (Ascii.eqb_spec c d); [congruence|done].
Qed.

(** The bytes of a host without brackets, and of a path, that need no escape
    and end neither. *)
Definition host_plain (c : ascii) : bool := host_kept c && negb (mem_byte c "[]").
Definition path_plain (c : ascii) : bool := negb (is_ctl c) && negb (mem_byte c "?#%").

Lemma host_plain_byte c :
  host_plain c = true ->
  negb (is_ctl c) && byte_allowed encodeHost c && negb (Ascii.eqb c "%") = true.
Proof. destruct c as [[] [] [] [] [] [] [] []]; vm_compute; done. Qed.

Lemma path_unescape_plain s : mem_byte "%" s = false -> path_unescape s = s.
Proof.
  induction s as [|c s IH]; [done|]. cbn [mem_byte path_unescape]. intros [Hc Hs]%orb_false_iff.
  rewrite Ascii.eqb_sym, Hc. by rewrite IH.
Qed.

Lemma unescape_plain mode s :
  all_bytes (fun c => byte_allowed mode c && negb (Ascii.eqb c "%")) s = true -> unescape mode s = Ok s.
Proof.
  intros Hs. unfold unescape.
  assert (check_escapes mode s = None /\ path_unescape s = s) as [-> ->]; [|done].
  induction s as [|c s IH]; [done|]. simpl in Hs. to_prop.
  destruct IH as [IH1 IH2]; [done|]. cbn [check_escapes path_unescape].
  rewrite H1, H, IH1, IH2. done.
Qed.

(** A host with an optional port, not bracketed. *)
Definition plain_host (h : string) : bool :=
  all_bytes host_plain h && valid_optional_port (default EmptyString (from_last h ":"%char)).

Lemma parseAuthority_plain h : plain_host h = true -> parseAuthority "ws" h = Ok (None, h).
Proof.
  unfold plain_host. intros [Hb Hp]%andb_true_iff. unfold parseAuthority, parseHost.
  rewrite !from_last_none by (by eapply all_bytes_not_mem; [|done]).
  cbn [bool_decide]. rewrite !bool_decide_false by done. cbn [orb]. rewrite Hp.
  rewrite unescape_plain; [done|]. eapply all_bytes_impl; [|done].
  intros c [[_ ?]%andb_true_iff ?]%host_plain_byte%andb_true_iff. by apply andb_true_iff.
Qed.

(** A ws address with a plain host and path is parsed to its parts. *)
Lemma url_Parse_ws h p :
  plain_host h = true -> all_bytes path_plain p = true ->
  url_Parse ("ws://" +:+ h +:+ "/" +:+ p) = Ok (mkURL "ws" "" None h (String slash p) "").
Proof.
  intros Hh Hp. pose proof Hh as Hh'. unfold plain_host in Hh'. apply andb_true_iff in Hh' as [Hb _].
  assert (Hall : forall c, path_plain c = false -> host_plain c = false -> Ascii.eqb slash c = false ->
    mem_byte c (h +:+ String slash p) = false).
  { intros c Hc1 Hc2 Hc3. rewrite mem_byte_app. simpl. rewrite Ascii.eqb_sym, Hc3.
    rewrite (all_bytes_not_mem _ _ _ Hc1 Hp), (all_bytes_not_mem _ _ _ Hc2 Hb). done. }
  change ("ws://" +:+ h +:+ "/" +:+ p) with ("ws://" +:+ h +:+ String slash p).
  set (u := h +:+ String slash p) in *.
  unfold url_Parse. rewrite cut_none by (rewrite mem_byte_app, Hall by done; done).
  assert (parse_url ("ws://" +:+ u) = Ok (mkURL "ws" "" None h (String slash p) "")) as ->; [|done].
  unfold parse_url.
  replace (all_bytes (fun c => negb (is_ctl c)) ("ws://" +:+ u)) with true.
  2:{ symmetry. rewrite all_bytes_app. unfold u. rewrite all_bytes_app. simpl.
      rewrite andb_true_iff. split.
      - eapply all_bytes_impl; [|done]. by intros c [[? _]%andb_true_iff _]%host_plain_byte%andb_true_iff.
      - eapply all_bytes_impl; [|done]. by intros c [? _]%andb_true_iff. }
  cbn [negb]. rewrite bool_decide_false by done.
  change (getScheme ("ws://" +:+ u)) with (Ok ("ws", "//" +:+ u)). cbn [mbind res_bind fst snd].
  change (map_str to_lower "ws") with "ws".
  rewrite cut_none by (rewrite mem_byte_app, Hall by done; done).
  change (has_prefix ("//" +:+ u) "/") with true. change (has_prefix ("//" +:+ u) "//") with (has_prefix u "").
  change (drop_str 2 ("//" +:+ u)) with u. rewrite bool_decide_false by done.
  replace (has_prefix u EmptyString) with true by by destruct u. cbn [negb andb orb].
  unfold u. rewrite cut_app by (by eapply all_bytes_not_mem; [|done]).
  rewrite parseAuthority_plain by done. cbn [mbind res_bind fst snd].
  rewrite unescape_plain; [done|]. simpl. eapply all_bytes_impl; [|done].
  intros c Hc. by destruct (Ascii.eqb_spec c "%"%char) as [->|].
Qed.
