(* ===== verification/Mux.v ===== *)
(** * http.ServeMux

    The routing of net/http the two multiplexers of the process use: patterns
    with a method and segments, the search of the routing tree, the redirects
    to canonical paths, and the answers to requests no pattern matches.  The
    handlers are a parameter; hosts in patterns and the end-of-path wildcard
    are not used by the code and are left out. *)

From S2P Require Import Prelude GoStrings Json Url.

(** A segment of a pattern: a literal, a wildcard [{name}], or the trailing
    slash, which matches the rest of the path. *)
Inductive segment := Lit (s : string) | Wild | Rest.

#[export] Instance segment_eq_dec : EqDecision segment.
Proof. solve_decision. Defined.

Record pattern (H : Type) := mkPattern {
  p_method : option string; p_segments : list segment; p_handler : H
}.
Arguments mkPattern {H} _ _ _.
Arguments p_method {H} _.
Arguments p_segments {H} _.
Arguments p_handler {H} _.

(** The segments of an absolute path; a trailing slash gives a last empty one.
    The path of a CONNECT request may be empty. *)
Definition raw_segments (p : string) : list string :=
  match p with
  | String c p' => if Ascii.eqb c slash then split p' slash else []
  | EmptyString => []
  end.

(** What [firstSegment] makes of them: each unescaped, the trailing slash as
    a slash.  So is a segment that unescapes to a slash. *)
Fixpoint unescape_segments (ws : list string) : list string :=
  match ws with
  | [] => []
  | [w] => [if bool_decide (w = EmptyString) then "/" else path_unescape w]
  | w :: ws' => path_unescape w :: unescape_segments ws'
  end.
Definition segments (p : string) : list string := unescape_segments (raw_segments p).

(** [cleanPath]. *)
Definition clean_path (p : string) : string :=
  let p := if has_prefix p "/" then p else String slash p in
  let np := clean p in
  if negb (bool_decide (np = "/")) && bool_decide (last (split p slash) = Some EmptyString)
  then np +:+ "/" else np.

Definition first_some {A} (a b : option A) : option A := match a with Some _ => a | None => b end.

(** What [ServeHTTP] does with a request: it calls a handler with the values
    of the wildcards, redirects, or answers itself. *)
Inductive routed (H : Type) :=
  | Handled (h : H) (values : list string)
  | Redirected (path : string)
  | NotAllowed (allow : list string)
  | NotFound
  | BadURI.
Arguments Handled {H} h values.
Arguments Redirected {H} path.
Arguments NotAllowed {H} allow.
Arguments NotFound {H}.
Arguments BadURI {H}.

Section mux.
Context {H : Type}.
Implicit Types p : pattern H.

(** A node of the routing tree: the patterns that are still possible, each
    with the segments that remain to be matched. *)
Definition node := list (list segment * pattern H).

Definition child (seg : segment -> bool) (n : node) : node :=
  omap (fun e => match e.1 with
                 | s :: rest => if seg s then Some (rest, e.2) else None
                 | [] => None
                 end) n.
Definition is_lit (w : string) (s : segment) : bool :=
  match s with Lit w' => bool_decide (w' = w) | _ => false end.
Definition is_wild (s : segment) : bool := match s with Wild => true | _ => false end.

Definition leaf (n : node) : option (pattern H) :=
  snd <$> List.find (fun e => bool_decide (e.1 = [])) n.
Definition multi (n : node) : option (pattern H) :=
  snd <$> List.find (fun e => bool_decide (e.1 = [Rest])) n.

(** [matchPath]: a literal first, then a wildcard, which matches no trailing
    slash, then a trailing-slash pattern. *)
Fixpoint match_path (n : node) (segs : list string) : option (pattern H * list string) :=
  match segs with
  | [] => (fun p => (p, [])) <$> leaf n
  | w :: segs' =>
      first_some (match_path (child (is_lit w) n) segs')
        (first_some
           (if bool_decide (w = "/") then None
            else (fun m => (m.1, w :: m.2)) <$> match_path (child is_wild n) segs')
           ((fun p => (p, [])) <$> multi n))
  end.

Context (ps : list (pattern H)).   (* the registered patterns *)

Definition with_method (m : option string) : node :=
  (fun p => (p_segments p, p)) <$> filter (fun p => p_method p = m) ps.

(** [matchMethodAndPath]: the method's own patterns, those of GET for HEAD,
    then those of any method. *)
Definition tree_match (method : string) (segs : list string) : option (pattern H * list string) :=
  first_some (match_path (with_method (Some method)) segs)
    (first_some (if bool_decide (method = "HEAD") then match_path (with_method (Some "GET")) segs else None)
       (match_path (with_method None) segs)).

(** [exactMatch]. *)
Definition exact (m : option (pattern H * list string)) (path : string) : bool :=
  match m with
  | None => false
  | Some (p, _) =>
      if bool_decide (last (p_segments p) = Some Rest) then
        bool_decide (last (split path slash) = Some EmptyString) &&
        bool_decide (length (p_segments p) = length (raw_segments path))
      else true
  end.

Definition ends_with_slash (path : string) : bool :=
  has_prefix path "/" && bool_decide (last (split path slash) = Some EmptyString).

(** [matchOrRedirect]: whether the path with a slash added is the exact one. *)
Definition slash_redirect (method path : string) : bool :=
  negb (exact (tree_match method (segments path)) path) && negb (ends_with_slash path) &&
  exact (tree_match method (segments (path +:+ "/"))) (path +:+ "/").

(** [matchingMethods]: the methods for the Allow header, sorted. *)
Definition matching_method (path m : string) : bool :=
  bool_decide (is_Some (match_path (with_method (Some m)) (segments path))) ||
  (negb (ends_with_slash path) &&
   bool_decide (is_Some (match_path (with_method (Some m)) (segments (path +:+ "/"))))).

Definition string_le (a b : string) : Prop := (compare a b <= 0)%Z.
#[export] Instance string_le_dec : RelDecision string_le.
Proof. intros a b. unfold string_le. apply _. Defined.

Definition matching_methods (path : string) : list string :=
  let ms := filter (fun m => matching_method path m = true) (remove_dups (omap p_method ps)) in
  merge_sort string_le (if bool_decide ("GET" ∈ ms) then remove_dups ("HEAD" :: ms) else ms).

(** [mux.ServeHTTP] up to the call of the handler; paths of CONNECT requests
    are not cleaned. *)
Definition mux_dispatch (method escaped : string) : routed H :=
  if bool_decide (escaped = "*") then BadURI
  else
    let path := if bool_decide (method = "CONNECT") then escaped else clean_path escaped in
    if slash_redirect method path then Redirected (clean_path (path_unescape escaped) +:+ "/")
    else if negb (bool_decide (path = escaped)) then Redirected path
    else match tree_match method (segments path) with
         | Some (p, vs) => Handled (p_handler p) vs
         | None => match matching_methods path with
                   | [] => NotFound
                   | allow => NotAllowed allow
                   end
         end.
End mux.
Arguments node H : clear implicits.

(** ** Facts *)

(** What a pattern matches, and the values of its wildcards. *)
Inductive matches : list segment -> list string -> list string -> Prop :=
  | m_nil : matches [] [] []
  | m_lit w p segs vs : matches p segs vs -> matches (Lit w :: p) (w :: segs) vs
  | m_wild w p segs vs : w <> "/" -> matches p segs vs -> matches (Wild :: p) (w :: segs) (w :: vs)
  | m_rest w segs : matches [Rest] (w :: segs) [].

Lemma raw_segments_abs ws :
  ws <> [] -> Forall proper_name ws -> raw_segments (abs_path ws) = ws.
Proof.
  intros Hne Hws. pose proof (split_abs_path ws Hne Hws) as Hs. unfold abs_path in *.
  cbn [raw_segments split] in *. change (Ascii.eqb slash slash) with true in *. cbv iota in *.
  by injection Hs.
Qed.

Lemma unescape_segments_snoc ws w :
  unescape_segments (ws ++ [w]) =
    (path_unescape <$> ws) ++ [if bool_decide (w = EmptyString) then "/" else path_unescape w].
Proof.
  induction ws as [|v ws IH]; [done|]. cbn [app fmap list_fmap]. rewrite <- IH.
  destruct ws; reflexivity.
Qed.

Lemma unescape_segments_length ws : length (unescape_segments ws) = length ws.
Proof.
  destruct (decide (ws = [])) as [->|Hne]; [done|]. destruct (exists_last Hne) as (ws' & w & ->).
  by rewrite unescape_segments_snoc, !length_app, length_fmap.
Qed.

(** Without a trailing slash every segment is unescaped. *)
Lemma unescape_segments_plain ws :
  "/" ∉ unescape_segments ws -> unescape_segments ws = path_unescape <$> ws.
Proof.
  destruct (decide (ws = [])) as [->|Hne]; [done|]. destruct (exists_last Hne) as (ws' & w & ->).
  rewrite unescape_segments_snoc, fmap_app. case_bool_decide; [|done].
  intros []. apply elem_of_app. right. by left.
Qed.

Lemma segments_path escaped :
  segments escaped <> [] -> "/" ∉ segments escaped -> path_unescape escaped = abs_path (segments escaped).
Proof.
  unfold segments. destruct escaped as [|c p]; cbn [raw_segments]; [done|].
  destruct (Ascii.eqb_spec c slash) as [->|]; [|done].
  intros _ Hs. by rewrite path_unescape_abs, (unescape_segments_plain _ Hs).
Qed.

(** Unescaping leaves no segment empty that was not. *)
Lemma path_unescape_nonempty s : s <> EmptyString -> path_unescape s <> EmptyString.
Proof. destruct s as [|c s]; [done|]. cbn [path_unescape]. repeat case_match; done. Qed.

Lemma segments_last escaped : last (segments escaped) <> Some EmptyString.
Proof.
  unfold segments. destruct (decide (raw_segments escaped = [])) as [->|Hne]; [done|].
  destruct (exists_last Hne) as (ws & w & ->). rewrite unescape_segments_snoc, last_snoc.
  case_bool_decide; [done|]. intros [= E]. by eapply path_unescape_nonempty.
Qed.

Section facts.
Context {H : Type}.
Implicit Types n : node H.

Lemma child_in seg n q (p : pattern H) :
  (q, p) ∈ child seg n -> exists s, seg s = true /\ (s :: q, p) ∈ n.
Proof.
  unfold child. intros ([[|s q'] p'] & Hin & E)%list_elem_of_omap; simpl in E; [done|].
  destruct (seg s) eqn:Es; simplify_eq. eauto.
Qed.

Lemma find_in (f : list segment * pattern H -> bool) n p :
  snd <$> List.find f n = Some p -> exists q, (q, p) ∈ n /\ f (q, p) = true.
Proof.
  intros ([q p'] & E & ->)%fmap_Some. apply List.find_some in E as [Hin Hf].
  exists q. by rewrite <- list_elem_of_In in Hin.
Qed.

Lemma first_some_Some {A} (a b : option A) x :
  first_some a b = Some x -> a = Some x \/ b = Some x.
Proof. destruct a; simpl; auto. Qed.

Lemma match_path_sound n segs p vs :
  match_path n segs = Some (p, vs) -> exists q, (q, p) ∈ n /\ matches q segs vs.
Proof.
  revert n vs. induction segs as [|w segs IH]; intros n vs; cbn [match_path].
  - intros (p' & E & ?)%fmap_Some. simplify_eq. apply find_in in E as (q & Hin & Hq).
    to_prop. simpl in *. subst. exists []. by split; [|constructor].
  - intros [E|[E|E]%first_some_Some]%first_some_Some.
    + apply IH in E as (q & (s & Hs & Hin)%child_in & Hm). destruct s as [w'| |]; try done.
      simpl in Hs. to_prop. subst. exists (Lit w :: q). by split; [|constructor].
    + case_bool_decide; [done|]. apply fmap_Some in E as ([p' vs'] & E & ?). simplify_eq/=.
      apply IH in E as (q & (s & Hs & Hin)%child_in & Hm). destruct s; try done.
      exists (Wild :: q). by split; [|constructor].
    + apply fmap_Some in E as (p' & E & ?). simplify_eq. apply find_in in E as (q & Hin & Hq).
      to_prop. simpl in *. subst. exists [Rest]. by split; [|constructor].
Qed.

(** A match comes from a registered pattern, which matches the segments. *)
Lemma tree_match_sound (ps : list (pattern H)) m segs p vs :
  tree_match ps m segs = Some (p, vs) -> p ∈ ps /\ matches (p_segments p) segs vs.
Proof.
  unfold tree_match. intros E.
  assert (exists m', match_path (with_method ps m') segs = Some (p, vs)) as [m' E'].
  { apply first_some_Some in E as [E|[E|E]%first_some_Some]; eauto.
    case_bool_decide; [eauto|done]. }
  apply match_path_sound in E' as (q & Hin & Hm).
  unfold with_method in Hin. apply list_elem_of_fmap in Hin as (p' & E' & [_ Hin]%list_elem_of_filter).
  by simplify_eq.
Qed.

(** A request is handled at its own path, which is clean. *)
Lemma mux_dispatch_handled (ps : list (pattern H)) m escaped h vs :
  mux_dispatch ps m escaped = Handled h vs ->
  exists p, p ∈ ps /\ p_handler p = h /\ matches (p_segments p) (segments escaped) vs /\
    (m <> "CONNECT" -> clean_path escaped = escaped).
Proof.
  unfold mux_dispatch. case_bool_decide; [done|]. destruct (slash_redirect _ _ _); [done|].
  destruct (negb _) eqn:En; [done|]. apply negb_false_iff, bool_decide_eq_true in En. rewrite En.
  destruct (tree_match _ _ _) as [[p vs']|] eqn:Em; [|by destruct (matching_methods _ _)].
  intros. simplify_eq. apply tree_match_sound in Em as [Hin Hm]. exists p. split_and!; try done.
  intros Hne. by rewrite bool_decide_false in En.
Qed.
End facts.

(** *** Trailing slashes *)

Lemma matches_no_slash q segs vs :
  matches q segs vs -> Rest ∉ q -> Lit "/" ∉ q -> "/" ∉ segs.
Proof.
  induction 1 as [|w q segs vs _ IH|w q segs vs Hw _ IH|w segs]; intros Hr Hl; [apply not_elem_of_nil|..].
  all: try apply not_elem_of_cons in Hr as [Hr1 Hr]; try apply not_elem_of_cons in Hl as [Hl1 Hl].
  - apply not_elem_of_cons. split; [congruence|auto].
  - apply not_elem_of_cons. split; [congruence|auto].
  - by destruct Hr1.
Qed.

Lemma split_trailing s : split (s +:+ "/") slash = split s slash ++ [EmptyString].
Proof.
  induction s as [|c s IH]; [done|].
  change (String c s +:+ "/") with (String c (s +:+ "/")). cbn [split].
  destruct (Ascii.eqb c slash); rewrite IH; [done|].
  pose proof (split_nonempty s slash). by destruct (split s slash).
Qed.

(** The segments of a path that a slash was added to end with a slash. *)
Lemma segments_trailing p : "/" ∈ segments (p +:+ "/") \/ segments (p +:+ "/") = [].
Proof.
  unfold segments. destruct p as [|c p]; [left; by left|].
  change (String c p +:+ "/") with (String c (p +:+ "/")). cbn [raw_segments].
  destruct (Ascii.eqb c slash); [left|by right].
  rewrite split_trailing, unescape_segments_snoc. apply elem_of_app. right. by left.
Qed.

Section trailing.
Context {H : Type} (ps : list (pattern H)).

(** Patterns without trailing slashes never redirect to one. *)
Lemma no_slash_redirect m path :
  (forall p, p ∈ ps -> p_segments p <> [] /\ Rest ∉ p_segments p /\ Lit "/" ∉ p_segments p) ->
  slash_redirect ps m path = false.
Proof.
  intros Hps. unfold slash_redirect. rewrite andb_false_iff. right.
  destruct (tree_match ps m (segments (path +:+ "/"))) as [[p vs]|] eqn:E; [|done].
  apply tree_match_sound in E as [Hin Hm]. destruct (Hps p Hin) as (Hne & Hr & Hl).
  destruct (segments_trailing path) as [He|He].
  - by destruct (matches_no_slash _ _ _ Hm Hr Hl).
  - rewrite He in Hm. by inversion Hm; subst.
Qed.

(** A clean path is then never redirected. *)
Lemma dispatch_clean m escaped :
  (forall p, p ∈ ps -> p_segments p <> [] /\ Rest ∉ p_segments p /\ Lit "/" ∉ p_segments p) ->
  m = "CONNECT" \/ clean_path escaped = escaped -> forall p, mux_dispatch ps m escaped <> Redirected p.
Proof.
  intros Hps Hc p. unfold mux_dispatch. case_bool_decide; [done|].
  rewrite no_slash_redirect by done.
  assert ((if bool_decide (m = "CONNECT") then escaped else clean_path escaped) = escaped) as ->.
  { case_bool_decide; [done|]. by destruct Hc. }
  rewrite bool_decide_true by done. simpl. repeat case_match; done.
Qed.
End trailing.
