(* ===== verification/Flags.v ===== *)
(** * The command line: package flag and func main

    The three flags of cmd/crocochrome/main.go, parsed as package flag does,
    with the parts of package strconv their values need. *)

From S2P Require Import Prelude GoStrings Json Url.

(** ** Configuration *)

Record Config := mkConfig { C_UserGroup : Z; C_TempDir : string; C_EnableProcessMetrics : bool }.

(** The defaults of the flags. *)
Definition default_config : Config := mkConfig 65534 "/chromium-tmp" false.

(** ** strconv.ParseInt with base 0, strconv.ParseBool *)

Definition lower (c : ascii) : ascii := if byte_in 65 90 c then ascii_of_N (N_of_ascii c + 32) else c.

Definition digit0 (c : ascii) : option Z :=
  match digit c with
  | Some d => Some d
  | None => if byte_in 97 122 (lower c) then Some (Z.of_N (N_of_ascii (lower c)) - 87)%Z else None
  end.

(** The loop of [ParseUint]: underscores are skipped here. *)
Fixpoint parse_digits0 (base acc : Z) (s : string) : res Z :=
  match s with
  | EmptyString => Ok acc
  | String c s' =>
      if Ascii.eqb c "_"%char then parse_digits0 base acc s'
      else match digit0 c with
           | None => Err ErrSyntax
           | Some d =>
               if (base <=? d)%Z then Err ErrSyntax
               else if (max_u64 / base + 1 <=? acc)%Z then Err ErrRange
               else let n := (acc * base)%Z in
                    let n1 := wrap_u64 (n + d)%Z in
                    if (n1 <? n)%Z then Err ErrRange else parse_digits0 base n1 s'
           end
  end.

(** The base a number is written in, and its digits. *)
Definition base_prefix (s : string) : Z * string :=
  match s with
  | String z s1 =>
      if Ascii.eqb z "0"%char then
        match s1 with
        | String b s2 =>
            if bool_decide (s2 = EmptyString) then (8%Z, s1)
            else if Ascii.eqb (lower b) "b"%char then (2%Z, s2)
            else if Ascii.eqb (lower b) "o"%char then (8%Z, s2)
            else if Ascii.eqb (lower b) "x"%char then (16%Z, s2)
            else (8%Z, s1)
        | EmptyString => (8%Z, s1)
        end
      else (10%Z, s)
  | EmptyString => (10%Z, s)
  end.

(** [underscoreOK]: the last byte seen was nothing yet, a digit or the base
    prefix, an underscore, or something else. *)
Inductive seen := SawStart | SawDigit | SawUnderscore | SawOther.

Fixpoint underscores (hex : bool) (saw : seen) (s : string) : bool :=
  match s with
  | EmptyString => match saw with SawUnderscore => false | _ => true end
  | String c s' =>
      if byte_in 48 57 c || (hex && byte_in 97 102 (lower c)) then underscores hex SawDigit s'
      else if Ascii.eqb c "_"%char then
        match saw with SawDigit => underscores hex SawUnderscore s' | _ => false end
      else match saw with SawUnderscore => false | _ => underscores hex SawOther s' end
  end.

Definition underscoreOK (s : string) : bool :=
  match s with
  | String z (String b s2) =>
      if Ascii.eqb z "0"%char && mem_byte (lower b) "box"
      then underscores (Ascii.eqb (lower b) "x"%char) SawDigit s2
      else underscores false SawStart s
  | _ => underscores false SawStart s
  end.

Definition parse_uint0 (s : string) : res Z :=
  if bool_decide (s = EmptyString) then Err ErrSyntax
  else
    let '(base, digits) := base_prefix s in
    n ← parse_digits0 base 0 digits;
    if mem_byte "_" digits && negb (underscoreOK s) then Err ErrSyntax else Ok n.

(** [strconv.ParseInt(s, 0, 64)]. *)
Definition parse_int0 (s : string) : res Z :=
  let '(neg, mag) :=
    match s with
    | String c s' => if Ascii.eqb c "-"%char then (true, s')
                     else if Ascii.eqb c "+"%char then (false, s') else (false, s)
    | EmptyString => (false, s)
    end in
  un ← parse_uint0 mag;
  if negb neg && (2 ^ 63 <=? un)%Z then Err ErrRange
  else if neg && (2 ^ 63 <? un)%Z then Err ErrRange
  else Ok (if neg then (- un)%Z else un).

Definition parse_bool (s : string) : res bool :=
  if bool_decide (s ∈ ["1"; "t"; "T"; "TRUE"; "true"; "True"]) then Ok true
  else if bool_decide (s ∈ ["0"; "f"; "F"; "FALSE"; "false"; "False"]) then Ok false
  else Err ErrSyntax.

(** ** flag.Parse *)

Inductive flags := Parsed (c : Config) | HelpAsked | BadFlags.

Definition set_temp_dir (v : string) (c : Config) : Config :=
  mkConfig (C_UserGroup c) v (C_EnableProcessMetrics c).
Definition set_user_group (n : Z) (c : Config) : Config :=
  mkConfig n (C_TempDir c) (C_EnableProcessMetrics c).
Definition set_process_metrics (b : bool) (c : Config) : Config :=
  mkConfig (C_UserGroup c) (C_TempDir c) b.

(** The arguments after the program's name.  Parsing ends at the first that
    is not a flag, and after two dashes; what follows is ignored. *)
Fixpoint parse_flags (args : list string) (c : Config) : flags :=
  match args with
  | [] => Parsed c
  | s :: rest =>
      if (String.length s <? 2) || negb (has_prefix s "-") || bool_decide (s = "--") then Parsed c
      else
        let name := drop_str (if has_prefix s "--" then 2 else 1) s in
        if bool_decide (name = EmptyString) || has_prefix name "-" || has_prefix name "=" then BadFlags
        else
          let '(name, value) := cut name "="%char in
          let with_value := fun (set : string -> option (Config)) =>
            match value, rest with
            | Some v, _ => match set v with Some c => parse_flags rest c | None => BadFlags end
            | None, v :: rest' => match set v with Some c => parse_flags rest' c | None => BadFlags end
            | None, [] => BadFlags
            end in
          if bool_decide (name = "temp-dir") then with_value (fun v => Some (set_temp_dir v c))
          else if bool_decide (name = "user-group") then
            with_value (fun v => match parse_int0 v with Ok n => Some (set_user_group n c) | Err _ => None end)
          else if bool_decide (name = "process-metrics") then
            match parse_bool (default "true" value) with
            | Ok b => parse_flags rest (set_process_metrics b c)
            | Err _ => BadFlags
            end
          else if bool_decide (name = "help") || bool_decide (name = "h") then HelpAsked
          else BadFlags
  end.

Example flags_ex :
  (fun args => parse_flags args default_config) <$>
    [[]; ["-user-group"; "0"]; ["--user-group=0x_ff"; "-process-metrics"; "-temp-dir"; "/x"; "rest"; "-bad"];
     ["-process-metrics=F"; "--"; "-bad"]; ["-temp-dir"]; ["-user-group=1_0"]; ["-user-group=1__0"];
     ["-help"]; ["-nope"]; ["-=x"]; ["-user-group=0o17"]; ["-user-group=-017"]; ["-process-metrics"; "false"]] =
    [Parsed default_config; Parsed (mkConfig 0 "/chromium-tmp" false); Parsed (mkConfig 255 "/x" true);
     Parsed default_config; BadFlags; Parsed (mkConfig 10 "/chromium-tmp" false); BadFlags;
     HelpAsked; BadFlags; BadFlags; Parsed (mkConfig 15 "/chromium-tmp" false);
     Parsed (mkConfig (-15) "/chromium-tmp" false); Parsed (mkConfig 65534 "/chromium-tmp" true)].
Proof. vm_compute. reflexivity. Qed.

(** ** Facts *)

(** A positive number does not start with a zero. *)
Lemma utoa_aux_first fuel n acc :
  (0 < n < 10 ^ Z.of_nat fuel)%Z ->
  exists d rest, utoa_aux fuel n acc = String (digit_char d) rest /\ (0 < d < 10)%Z.
Proof.
  revert n acc. induction fuel as [|fuel IH]; intros n acc Hn; [simpl in Hn; lia|].
  rewrite Nat2Z.inj_succ, Z.pow_succ_r in Hn by lia. cbn [utoa_aux].
  pose proof (Z.div_mod n 10 ltac:(lia)). pose proof (Z.mod_pos_bound n 10 ltac:(lia)).
  destruct (n / 10 =? 0)%Z eqn:E; to_prop.
  - eexists _, _. split; [done|lia].
  - apply IH. pose proof (Z.div_pos n 10). split; [lia|]. apply Z.div_lt_upper_bound; lia.
Qed.

Lemma digit_byte c : byte_in 48 57 c = true -> exists d, digit c = Some d /\ (0 <= d < 10)%Z.
Proof.
  unfold byte_in, digit. intros [H1 H2]%andb_true_iff.
  apply N.leb_le in H1, H2. exists (Z.of_N (N_of_ascii c) - 48)%Z.
  rewrite (proj2 (Z.leb_le 48 _)), (proj2 (Z.leb_le _ 57)) by lia. split; [done|lia].
Qed.

Lemma parse_digits0_decimal acc s :
  all_bytes (byte_in 48 57) s = true -> parse_digits0 10 acc s = parse_digits acc s.
Proof.
  revert acc. induction s as [|c s IH]; intros acc; [done|]. intros [Hc Hs]%andb_true_iff.
  cbn [parse_digits0 parse_digits].
  assert (Ascii.eqb c "_" = false) as -> by (destruct (Ascii.eqb_spec c "_"%char) as [->|]; [by vm_compute in Hc|done]).
  unfold digit0. destruct (digit_byte c Hc) as (d & -> & Hd).
  rewrite (proj2 (Z.leb_gt 10 d)) by lia. destruct (_ <=? acc)%Z; [done|]. cbv zeta.
  destruct (_ <? _)%Z; [done|]. by apply IH.
Qed.

Lemma parse_uint0_utoa n : is_u64 n -> parse_uint0 (utoa n) = Ok n.
Proof.
  intros Hn. unfold is_u64 in Hn.
  destruct (decide (n = 0%Z)) as [->|Hne]; [by vm_compute|].
  assert (Hd : all_bytes (byte_in 48 57) (utoa n) = true) by (apply utoa_aux_digits; [lia|done]).
  destruct (utoa_aux_first 20 n EmptyString) as (d & rest & E & Hd0); [change (10 ^ Z.of_nat 20)%Z with 100000000000000000000%Z; lia|].
  pose proof (parse_uint_utoa n Hn) as Hp. unfold utoa in *. rewrite E in *.
  unfold parse_uint0. rewrite bool_decide_false by done.
  assert (base_prefix (String (digit_char d) rest) = (10%Z, String (digit_char d) rest)) as ->.
  { unfold base_prefix. assert (Ascii.eqb (digit_char d) "0" = false) as ->; [|done].
    apply Ascii.eqb_neq. intros Hz. pose proof (digit_digit_char d ltac:(lia)) as Hx.
    rewrite Hz in Hx. injection Hx. lia. }
  rewrite parse_digits0_decimal by done. unfold parse_uint in Hp. rewrite Hp. cbn [mbind res_bind].
  by rewrite (all_bytes_not_mem (byte_in 48 57) "_"%char).
Qed.

Lemma parse_int0_itoa n : is_i64 n -> parse_int0 (itoa n) = Ok n.
Proof.
  unfold is_i64, itoa, parse_int0. intros Hn. destruct (Z.ltb_spec n 0).
  - cbn -[parse_uint0 utoa Z.pow]. rewrite parse_uint0_utoa by (unfold is_u64; lia). cbn [mbind res_bind negb andb].
    rewrite (proj2 (Z.ltb_ge (2 ^ 63) (- n))) by lia. f_equal. lia.
  - assert (Hfirst : forall c s, utoa n = String c s -> byte_in 48 57 c = true).
    { intros c s E. assert (Hd : all_bytes (byte_in 48 57) (utoa n) = true) by (apply utoa_aux_digits; [lia|done]).
      rewrite E in Hd. by apply andb_true_iff in Hd as [? _]. }
    pose proof (parse_uint0_utoa n ltac:(unfold is_u64; lia)) as Hp.
    destruct (utoa n) as [|c s]; [done|]. specialize (Hfirst c s eq_refl).
    destruct (Ascii.eqb_spec c "-"%char) as [->|]; [by vm_compute in Hfirst|].
    destruct (Ascii.eqb_spec c "+"%char) as [->|]; [by vm_compute in Hfirst|].
    rewrite Hp. cbn [mbind res_bind negb andb].
    by rewrite (proj2 (Z.leb_gt (2 ^ 63) n)) by lia.
Qed.

(** ** The round trip *)

(** A configuration as a command line. *)
Definition to_flags (c : Config) : list string :=
  ["-user-group=" +:+ itoa (C_UserGroup c); "-temp-dir=" +:+ C_TempDir c;
   "-process-metrics=" +:+ (if C_EnableProcessMetrics c then "true" else "false")].

(** A flag given as one argument, with its value after an equals sign. *)
Lemma parse_flag n name v rest c :
  mem_byte "=" (String n name) = false -> Ascii.eqb n "-" = false -> Ascii.eqb n "=" = false ->
  parse_flags (String "-" (String n name +:+ String "=" v) :: rest) c =
    if bool_decide (String n name = "temp-dir") then parse_flags rest (set_temp_dir v c)
    else if bool_decide (String n name = "user-group") then
      match parse_int0 v with Ok g => parse_flags rest (set_user_group g c) | Err _ => BadFlags end
    else if bool_decide (String n name = "process-metrics") then
      match parse_bool v with Ok b => parse_flags rest (set_process_metrics b c) | Err _ => BadFlags end
    else if bool_decide (String n name = "help") || bool_decide (String n name = "h") then HelpAsked
    else BadFlags.
Proof.
  intros Hm Hd He. set (u := String n name) in *. set (s := u +:+ String "=" v).
  assert (Hs : s = String n (name +:+ String "=" v)) by done. clearbody s.
  assert (Hl : (String.length (String "-" s) <? 2) = false) by by rewrite Hs.
  assert (Hp : has_prefix (String "-" s) "--" = false).
  { rewrite Hs. cbn [has_prefix]. by rewrite Ascii.eqb_refl, (Ascii.eqb_sym "-" n), Hd. }
  cbn [parse_flags]. rewrite Hl, Hp. change (has_prefix (String "-" s) "-") with (has_prefix s EmptyString).
  replace (has_prefix s EmptyString) with true by by rewrite Hs.
  rewrite (bool_decide_false (String "-" s = "--")).
  2:{ intros [= E]. rewrite E in Hs. injection Hs as Hn _. by rewrite <- Hn in Hd. }
  cbn [negb orb drop_str]. rewrite bool_decide_false by by rewrite Hs.
  assert (has_prefix s "-" = false) as -> by (rewrite Hs; cbn [has_prefix]; by rewrite Ascii.eqb_sym, Hd).
  assert (has_prefix s "=" = false) as -> by (rewrite Hs; cbn [has_prefix]; by rewrite Ascii.eqb_sym, He).
  assert (cut s "=" = (u, Some v)) as ->.
  { rewrite Hs. change (String n (name +:+ String "=" v)) with (u +:+ String "=" v). by apply cut_app. }
  cbn [orb]. change (default "true" (Some v)) with v. destruct (parse_int0 v); reflexivity.
Qed.

(** C36: every configuration can be given on the command line, whatever the
    defaults: the flags written for it are parsed to it, and a trailing
    argument that is not a flag changes nothing. *)
Theorem flags_roundtrip c c0 rest :
  is_i64 (C_UserGroup c) -> Forall (fun a => has_prefix a "-" = false) rest ->
  parse_flags (to_flags c ++ rest) c0 = Parsed c.
Proof.
  intros Hg Hrest. unfold to_flags. cbn [app].
  assert (Hr : forall c, parse_flags rest c = Parsed c).
  { intros c1. destruct Hrest as [|a l Ha _]; [done|]. cbn [parse_flags]. rewrite Ha. by rewrite orb_true_r. }
  change ("-user-group=" +:+ ?x) with (String "-" ("user-group" +:+ String "=" x)).
  change ("-temp-dir=" +:+ ?x) with (String "-" ("temp-dir" +:+ String "=" x)).
  change ("-process-metrics=" +:+ ?x) with (String "-" ("process-metrics" +:+ String "=" x)).
  rewrite (parse_flag "u" "ser-group"), parse_int0_itoa by done.
  rewrite (parse_flag "t" "emp-dir") by done. rewrite (parse_flag "p" "rocess-metrics") by done.
  simpl. destruct c as [g d []]; simpl; by rewrite Hr.
Qed.

Lemma flags_roundtrip_witness :
  parse_flags ["-user-group=-5"; "-temp-dir=/x"; "-process-metrics=true"; "more"] default_config =
    Parsed (mkConfig (-5) "/x" true).
Proof.
  apply (flags_roundtrip (mkConfig (-5) "/x" true) default_config ["more"]).
  - split; vm_compute; [discriminate|reflexivity].
  - constructor; [reflexivity|constructor].
Defined.
