(* ===== verification/Chromium.v ===== *)
(** * Chromium readiness client: internal/chromium/chromium.go

    Polling Chromium's /json/version endpoint with exponential backoff until
    it answers or the context is done. *)

From S2P Require Import Prelude GoStrings OS Json.
Local Open Scope Z_scope.

Record VersionInfo := mkVersionInfo {
  Browser : string;
  ProtocolVersion : string;
  UserAgent : string;
  V8Version : string;
  WebKitVersion : string;
  WebSocketDebuggerURL : string;
}.

#[export] Instance VersionInfo_eq_dec : EqDecision VersionInfo.
Proof. solve_decision. Defined.

(** Durations in nanoseconds. *)
Definition Millisecond : Z := 1000000.
Definition Second : Z := 1000 * Millisecond.

Definition initial_delay : Z := 100 * Millisecond.
Definition attempt_timeout : Z := 500 * Millisecond.

(** [delay += delay / 2] on an [int64]; Go's division truncates. *)
Definition next_delay (delay : Z) : Z := wrap_i64 (delay + Z.quot delay 2).

(** ** One attempt *)

(** What sending the request gives: the request cannot be built, no response,
    or a response with its body.  The status of the response plays no role. *)
Inductive response := Unbuilt (e : error) | Unsent (e : error) | Body (f : file).

Definition version_fields : list string :=
  ["Browser"; "Protocol-Version"; "User-Agent"; "V8-Version"; "WebKit-Version"; "webSocketDebuggerUrl"].

Definition zero_version : VersionInfo := mkVersionInfo "" "" "" "" "" "".

Definition store_version (v : VersionInfo) (key : string) (j : json) : res VersionInfo :=
  let '(mkVersionInfo b p u v8 w d) := v in
  match find_field version_fields key with
  | Some f =>
      if bool_decide (f = "Browser") then
        b ← decode_string b j; Ok (mkVersionInfo b p u v8 w d)
      else if bool_decide (f = "Protocol-Version") then
        p ← decode_string p j; Ok (mkVersionInfo b p u v8 w d)
      else if bool_decide (f = "User-Agent") then
        u ← decode_string u j; Ok (mkVersionInfo b p u v8 w d)
      else if bool_decide (f = "V8-Version") then
        v8 ← decode_string v8 j; Ok (mkVersionInfo b p u v8 w d)
      else if bool_decide (f = "WebKit-Version") then
        w ← decode_string w j; Ok (mkVersionInfo b p u v8 w d)
      else
        d ← decode_string d j; Ok (mkVersionInfo b p u v8 w d)
  | None => Ok v
  end.

(** [Client.version], given what its request meets. *)
Definition version (r : response) : res VersionInfo :=
  match r with
  | Unbuilt e => Err (ErrWrap "building request: %w" [] e)
  | Unsent e => Err (ErrWrap "making request: %w" [] e)
  | Body f => wrap_err "decoding response body: %w" [] (v ← Decode f; decode_struct store_version zero_version v)
  end.

(** What a run of [Version] meets: the error of the context at a time; how
    long the request of attempt [i] takes and what it gives, from the time it
    is sent and the deadline [version] adds to the one of its context; and
    how long a sleep really lasts. *)
Record probe_env := mkProbe {
  ctx_err : Z -> option error;
  answer : nat -> Z -> Z -> Z * response;
  slept : nat -> Z -> Z;
}.

(** [Client.version] at time [t]. *)
Definition attempt (env : probe_env) (i : nat) (t : Z) : Z * res VersionInfo :=
  let '(took, r) := answer env i t (t + attempt_timeout) in (took, version r).

Definition exhausted (e : error) : error :=
  ErrWrap "retries exhausted trying to reach chromium: %w" [] e.

(** The retry loop, from time [t] and attempt [i]: the result, the time of
    the return and the number of attempts made.  [None]: out of fuel. *)
Fixpoint Version_loop (fuel : nat) (env : probe_env) (i : nat) (t delay : Z)
    : option (res VersionInfo * Z * nat) :=
  match fuel with
  | O => None
  | S fuel' =>
      match ctx_err env t with
      | Some e => Some (Err (exhausted e), t, i)
      | None =>
          let '(took, r) := attempt env i t in
          match r with
          | Ok v => Some (Ok v, t + took, S i)
          | Err _ =>
              Version_loop fuel' env (S i) (t + took + slept env i delay) (next_delay delay)
          end
      end
  end.

(** [Client.Version(ctx, address)] called at time [t]. *)
Definition Version (fuel : nat) (env : probe_env) (t : Z) : option (res VersionInfo * Z * nat) :=
  Version_loop fuel env 0 t initial_delay.

(** What [ctx.Err()] returns when a context is done. *)
Definition context_error (e : error) : Prop := e = ErrCanceled \/ e = ErrDeadlineExceeded.

(** A result [Version] can return under some environment. *)
Definition version_result (r : res VersionInfo) : Prop :=
  exists fuel env t t' n, (forall t e, ctx_err env t = Some e -> context_error e) /\
    Version fuel env t = Some (r, t', n).

(** ** The contract of the environment *)

Section probe.
Context (env : probe_env) (t0 budget : Z).

(** The context is done [budget] after [t0] at the latest, time does not
    run backwards, and [time.Sleep(d)] lasts at least [d]. *)
Record bounded_probe : Prop := {
  bp_deadline t : t0 + budget <= t -> is_Some (ctx_err env t);
  bp_took i t : 0 <= (attempt env i t).1;
  bp_slept i d : d <= slept env i d;
}.

(** Attempts respect the deadline of the context, which they inherit, and
    the sleeps are exact. *)
Record prompt_probe : Prop := {
  pp_took i t : t <= t0 + budget -> t + (attempt env i t).1 <= t0 + budget;
  pp_slept i d : slept env i d = d;
}.
End probe.

(** The wait before attempt [i]. *)
Fixpoint delay_at (i : nat) : Z :=
  match i with O => initial_delay | S i' => next_delay (delay_at i') end.

(** The sum of the waits before attempt [i]. *)
Fixpoint waited (i : nat) : Z :=
  match i with O => 0 | S i' => waited i' + delay_at i' end.

Lemma Version_loop_attempt env fuel i t d :
  ctx_err env t = None ->
  Version_loop (S fuel) env i t d =
    match (attempt env i t).2 with
    | Ok v => Some (Ok v, t + (attempt env i t).1, S i)
    | Err _ => Version_loop fuel env (S i) (t + (attempt env i t).1 + slept env i d) (next_delay d)
    end.
Proof. intros E. simpl. rewrite E. by destruct (attempt env i t). Qed.

(** The loop returns as soon as the waits alone exceed the budget. *)
Lemma Version_loop_returns env t0 budget k :
  bounded_probe env t0 budget ->
  forall fuel i t,
  (k <= fuel + i)%nat -> (i <= k)%nat -> (1 <= fuel)%nat ->
  budget <= waited k -> t0 + waited i <= t ->
  exists r t' n, Version_loop (S fuel) env i t (delay_at i) = Some (r, t', n) /\ (n <= k)%nat.
Proof.
  intros [Hd Ht Hs]. induction fuel as [|fuel IH]; intros i t Hk Hi Hf Hb Hw; [lia|].
  destruct (ctx_err env t) as [e|] eqn:E.
  { simpl. rewrite E. eauto. }
  assert (i <> k).
  { intros ->. destruct (Hd t); [lia|congruence]. }
  rewrite Version_loop_attempt by done.
  destruct (attempt env i t).2; [eexists _, _, _; split; [done|lia]|].
  specialize (Ht i t). specialize (Hs i (delay_at i)).
  destruct (decide (fuel = 0%nat)) as [->|].
  - assert (S i = k) by lia. subst k. simpl waited in *.
    destruct (Hd (t + (attempt env i t).1 + slept env i (delay_at i))) as [e' E']; [lia|].
    simpl. rewrite E'. eexists _, _, _; split; [done|lia].
  - change (next_delay (delay_at i)) with (delay_at (S i)).
    apply IH; simpl; lia.
Qed.

(** ** The contract of [Version] *)

(** When attempt [i] starts, if the attempts before it failed. *)
Fixpoint start (env : probe_env) (t0 : Z) (i : nat) : Z :=
  match i with
  | O => t0
  | S i' =>
      let t := start env t0 i' in
      t + (attempt env i' t).1 + slept env i' (delay_at i')
  end.

Definition failed_at (env : probe_env) (t0 : Z) (i : nat) : Prop :=
  exists e, (attempt env i (start env t0 i)).2 = Err e.

Lemma Version_loop_mono env fuel fuel' i t d x :
  Version_loop fuel env i t d = Some x -> (fuel <= fuel')%nat ->
  Version_loop fuel' env i t d = Some x.
Proof.
  revert fuel' i t d. induction fuel as [|fuel IH]; intros [|fuel'] i t d E Hle; [done|done|lia|].
  destruct (ctx_err env t) eqn:Hc; [simpl in *; by rewrite Hc in *|].
  rewrite Version_loop_attempt in E |- * by done.
  destruct (attempt env i t).2; [done|]. apply IH; [done|lia].
Qed.

(** Where the loop can stop, from the [i]-th attempt on. *)
Lemma Version_loop_outcome env t0 fuel i r t n :
  (forall j, (j < i)%nat -> failed_at env t0 j /\ ctx_err env (start env t0 j) = None) ->
  Version_loop fuel env i (start env t0 i) (delay_at i) = Some (r, t, n) ->
  match r with
  | Ok v => exists m, n = S m /\ (attempt env m (start env t0 m)).2 = Ok v /\
      t = start env t0 m + (attempt env m (start env t0 m)).1 /\
      ctx_err env (start env t0 m) = None /\
      (forall j, (j < m)%nat -> failed_at env t0 j)
  | Err e => t = start env t0 n /\ (exists c, ctx_err env t = Some c /\ e = exhausted c) /\
      (forall j, (j < n)%nat -> failed_at env t0 j /\ ctx_err env (start env t0 j) = None)
  end.
Proof.
  revert i. induction fuel as [|fuel IH]; intros i Hf E; [done|].
  destruct (ctx_err env (start env t0 i)) as [c|] eqn:Hc.
  { simpl in E. rewrite Hc in E. simplify_eq. eauto. }
  rewrite Version_loop_attempt in E by done.
  destruct (attempt env i (start env t0 i)).2 as [v|e] eqn:Ha.
  { simplify_eq. exists i. split_and!; try done. intros j Hj. by apply Hf. }
  apply (IH (S i)); [|done]. intros j Hj.
  destruct (decide (j = i)) as [->|]; [split; [by exists e|done]|]. apply Hf. lia.
Qed.

Lemma Version_loop_error fuel env i t d e t' n :
  Version_loop fuel env i t d = Some (Err e, t', n) -> exists c t1, e = exhausted c /\ ctx_err env t1 = Some c.
Proof.
  revert i t d. induction fuel as [|fuel IH]; intros i t d; [done|]. cbn [Version_loop].
  destruct (ctx_err env t) as [c|] eqn:E; [intros; simplify_eq; eauto|].
  destruct (attempt env i t) as [took [v|e']]; [done|apply IH].
Qed.

Lemma version_result_error e : version_result (Err e) -> exists c, e = exhausted c /\ context_error c.
Proof.
  intros (fuel & env & t & t' & n & Hc & (c & t1 & -> & E)%Version_loop_error). eauto.
Qed.

(** C29: [Version] returns the answer of the first attempt that succeeds, and
    only fails when the context is done; the error then wraps the cause, and
    every attempt it made was made before, and failed. *)
Theorem Version_outcome fuel env t0 r t n :
  Version fuel env t0 = Some (r, t, n) ->
  match r with
  | Ok v => exists m, n = S m /\ (attempt env m (start env t0 m)).2 = Ok v /\
      t = start env t0 m + (attempt env m (start env t0 m)).1 /\
      ctx_err env (start env t0 m) = None /\
      (forall j, (j < m)%nat -> failed_at env t0 j)
  | Err e => t = start env t0 n /\ (exists c, ctx_err env t = Some c /\ e = exhausted c) /\
      (forall j, (j < n)%nat -> failed_at env t0 j /\ ctx_err env (start env t0 j) = None)
  end.
Proof. intros E. apply (Version_loop_outcome env t0 fuel 0); [lia|done]. Qed.

(** C19: with the two-second budget its callers give it, [Version] always
    returns, after at most six attempts, however the attempts behave: the
    backoff alone exhausts the budget. *)
Theorem Version_terminates env t0 :
  bounded_probe env t0 (2 * Second) ->
  exists r t n, (n <= 6)%nat /\ forall fuel, (7 <= fuel)%nat -> Version fuel env t0 = Some (r, t, n).
Proof.
  intros Hb.
  destruct (Version_loop_returns env t0 (2 * Second) 6 Hb 6 0 t0) as (r & t & n & E & Hn).
  1-3: lia.
  { vm_compute. discriminate. }
  { change (waited 0) with 0. lia. }
  exists r, t, n. split; [done|]. intros fuel Hf. by apply (Version_loop_mono env 7).
Qed.

Lemma delay_at_le i : (i <= 5)%nat -> delay_at i <= delay_at 5.
Proof. intros Hi. do 6 (destruct i as [|i]; [vm_compute; discriminate|]). lia. Qed.

(** The loop never overruns the budget by more than one wait. *)
Lemma Version_loop_time env t0 budget k fuel i t r t' n :
  bounded_probe env t0 budget -> prompt_probe env t0 budget ->
  0 <= delay_at (k - 1) -> (forall j, (j < k)%nat -> delay_at j <= delay_at (k - 1)) ->
  budget <= waited k -> (i <= k)%nat ->
  t0 + waited i <= t <= t0 + budget + delay_at (k - 1) ->
  Version_loop fuel env i t (delay_at i) = Some (r, t', n) ->
  t' <= t0 + budget + delay_at (k - 1).
Proof.
  intros Hb Hp H0 Hd Hk. revert i t. induction fuel as [|fuel IH]; intros i t Hi Ht E; [done|].
  destruct (ctx_err env t) as [c|] eqn:Hc.
  { simpl in E. rewrite Hc in E. simplify_eq. lia. }
  assert (Hlt : t < t0 + budget).
  { destruct (decide (t0 + budget <= t)) as [Hle|]; [|lia].
    destruct (bp_deadline _ _ _ Hb t Hle) as [? E']. congruence. }
  assert (i <> k) by (intros ->; lia).
  rewrite Version_loop_attempt in E by done.
  pose proof (pp_took _ _ _ Hp i t ltac:(lia)). pose proof (bp_took _ _ _ Hb i t).
  specialize (Hd i ltac:(lia)).
  destruct (attempt env i t).2; [simplify_eq; lia|].
  rewrite (pp_slept _ _ _ Hp) in E.
  eapply (IH (S i)); [lia| |exact E]. simpl waited. lia.
Qed.

(** C30: [Version] keeps its time budget: if attempts respect the deadline of
    the context they inherit and sleeps are exact, it has returned by the
    deadline plus one last wait of 759.375 ms, during which the context is
    not looked at. *)
Theorem Version_time_bound fuel env t0 r t n :
  bounded_probe env t0 (2 * Second) -> prompt_probe env t0 (2 * Second) ->
  Version fuel env t0 = Some (r, t, n) -> t <= t0 + 2 * Second + 759375000.
Proof.
  intros Hb Hp E. change 759375000 with (delay_at (6 - 1)).
  apply (Version_loop_time env t0 (2 * Second) 6 fuel 0 t0 r t n Hb Hp).
  - vm_compute. discriminate.
  - intros j Hj. apply delay_at_le. lia.
  - vm_compute. discriminate.
  - lia.
  - change (delay_at (6 - 1)) with 759375000. change (waited 0) with 0.
    unfold Second, Millisecond. lia.
  - exact E.
Qed.

(** ** Witnesses *)

(** An environment in which Chromium never answers. *)
Definition refusing : probe_env :=
  mkProbe (fun t => if 2 * Second <=? t then Some ErrDeadlineExceeded else None)
    (fun _ _ _ => (0, Unsent (ErrNew "connection refused" []))) (fun _ d => d).

Lemma refusing_bounded : bounded_probe refusing 0 (2 * Second).
Proof.
  split; simpl; [|lia|lia]. intros t Ht. rewrite (proj2 (Z.leb_le _ _)) by lia. eauto.
Qed.

(** One in which Chromium accepts connections and says nothing: every attempt
    lasts until its own deadline, the last one until that of the context. *)
Definition silent : probe_env :=
  mkProbe (fun t => if 2 * Second <=? t then Some ErrDeadlineExceeded else None)
    (fun _ t d => (Z.min d (2 * Second) - t, Unsent ErrDeadlineExceeded)) (fun _ d => d).

Example silent_attempts :
  Version 7 silent 0 = Some (Err (exhausted ErrDeadlineExceeded), 2337500000, 4%nat).
Proof. vm_compute. reflexivity. Qed.

Lemma refusing_prompt : prompt_probe refusing 0 (2 * Second).
Proof. split; simpl; lia. Qed.

Lemma Version_outcome_witness :
  exists c, ctx_err refusing 2078125000 = Some c /\ exhausted ErrDeadlineExceeded = exhausted c.
Proof.
  pose proof (Version_outcome 7 refusing 0 (Err (exhausted ErrDeadlineExceeded)) 2078125000 6 eq_refl)
    as (_ & Hc & _).
  exact Hc.
Defined.

Lemma Version_terminates_witness :
  exists r t n, (n <= 6)%nat /\ forall fuel, (7 <= fuel)%nat -> Version fuel refusing 0 = Some (r, t, n).
Proof. apply Version_terminates, refusing_bounded. Defined.

Lemma Version_time_bound_witness : 2078125000 <= 0 + 2 * Second + 759375000.
Proof.
  apply (Version_time_bound 7 refusing 0 (Err (exhausted ErrDeadlineExceeded)) _ 6);
    [apply refusing_bounded|apply refusing_prompt|vm_compute; reflexivity].
Defined.
