(* ===== verification/TestUtil.v ===== *)
(** * The test utilities: internal/testutil

    The stand-ins for Chromium the tests use: an HTTP server that answers as
    Chromium does, and a script that writes a heartbeat until it is killed,
    with the code that counts which are alive. *)

From S2P Require Import Prelude GoStrings OS Json Url Mux Chromium.

(** ** chromium.go: the version server *)

(** [ChromiumVersionHandler]: the body it writes. *)
Definition ChromiumVersionHandler : string := quoted
"{
   'Browser': 'HeadlessChrome/124.0.6367.207',
   'Protocol-Version': '1.3',
   'User-Agent': 'Mozilla/5.0 (X11; Linux x86_64) AppleWebKit/537.36 (KHTML, like Gecko) HeadlessChrome/124.0.6367.207 Safari/537.36',
   'V8-Version': '12.4.254.15',
   'WebKit-Version': '537.36 (@a9001a6e39fbaa559510ca866052950457dd4e6b)',
   'webSocketDebuggerUrl': 'ws://foobar:9222/devtools/browser/a279f03c-3afc-4acc-92ba-7134f618fedf'
}".

(** [InternalServerErrorHandler]: status 500 and no body. *)
Definition InternalServerErrorHandler : string := EmptyString.

(** [net.SplitHostPort] of the listener's address. *)
Definition SplitHostPort (hostport : string) : res (string * string) :=
  match from_last hostport ":"%char with
  | None => Err (ErrNew "missing port in address" [hostport])
  | Some t =>
      let host := before_last hostport ":"%char in
      let port := drop_str 1 t in
      if has_prefix hostport "[" then
        match cut hostport "]"%char with
        | (_, None) => Err (ErrNew "missing ']' in address" [hostport])
        | (h, Some rest) =>
            if bool_decide (rest = t) then
              let h := drop_str 1 h in
              if mem_byte "[" h then Err (ErrNew "unexpected '[' in address" [hostport])
              else if mem_byte "]" rest then Err (ErrNew "unexpected ']' in address" [hostport])
              else Ok (h, port)
            else if bool_decide (rest = EmptyString) || negb (has_prefix rest ":")
            then Err (ErrNew "missing port in address" [hostport])
            else Err (ErrNew "too many colons in address" [hostport])
        end
      else if mem_byte ":" host then Err (ErrNew "too many colons in address" [hostport])
      else if mem_byte "[" hostport then Err (ErrNew "unexpected '[' in address" [hostport])
      else if mem_byte "]" hostport then Err (ErrNew "unexpected ']' in address" [hostport])
      else Ok (host, port)
  end.

(** The patterns of the server [HTTPInfo] starts. *)
Definition info_patterns : list (pattern unit) := [mkPattern (Some "GET") [Lit "json"; Lit "version"] tt].

(** The body the server sends, if a handler is reached. *)
Definition info_answer (handler : string) (method escaped : string) : option string :=
  match mux_dispatch info_patterns method escaped with Handled _ _ => Some handler | _ => None end.

(** [HTTPInfo]: the port the tests give the supervisor, or the end of the
    test; [addr] is the address of the listener. *)
Definition HTTPInfo (addr : string) : res string := hp ← SplitHostPort addr; Ok hp.2.

(** What [Client.version] meets at the server. *)
Definition info_response (handler : string) : response :=
  match info_answer handler "GET" "/json/version" with
  | Some body => Body (mkFile body None)
  | None => Body (mkFile ("404 page not found" +:+ str1 lf) None)
  end.

(** ** heartbeat.go: counting heartbeats *)

(** A file, with what reading it gives, or a directory with its entries in
    the order of [os.ReadDir]. *)
Inductive node :=
  | FileNode (contents : res string)
  | DirNode (entries : res (list (string * node))).

(** The seconds from year 1 to 1970: [time.Unix] adds them in 64 bits. *)
Definition unixToInternal : Z := 62135596800.

(** [time.Since(time.Unix(ts, 0))] at [now], in nanoseconds; it saturates. *)
Definition since (now ts : Z) : Z :=
  let internal := (wrap_i64 (ts + unixToInternal) - unixToInternal)%Z in
  Z.max (- 2 ^ 63) (Z.min (2 ^ 63 - 1) (now - internal * Second)).

(** The function [WalkDir] calls for a canary file. *)
Definition count_canary (now : Z) (contents : res string) (acc : nat * nat) : res (nat * nat) :=
  data ← wrap_err "reading hbFile: %v" [] contents;
  ts ← wrap_err "parsing timestamp from hbFile: %v" [] (parse_int (trim_space data));
  Ok (if (since now ts <? 2 * Second)%Z then (S acc.1, acc.2) else (acc.1, S acc.2)).

Definition is_canary (name : string) : bool := has_prefix name "canary-".

Section heartbeat.
Context (clock : nat -> Z).   (* the time when the n-th canary is read *)

(** [aliveDead]: the walk below the directory of the script.  An error ends
    the test. *)
Fixpoint aliveDead (name : string) (n : node) (acc : nat * nat) : res (nat * nat) :=
  match n with
  | FileNode contents =>
      if is_canary name then count_canary (clock (acc.1 + acc.2)) contents acc else Ok acc
  | DirNode (Err e) => Err (ErrWrap "walking canary files: %v" [] e)
  | DirNode (Ok entries) =>
      (fix walk (es : list (string * node)) (acc : nat * nat) : res (nat * nat) :=
         match es with
         | [] => Ok acc
         | (name, n) :: es' => acc ← aliveDead name n acc; walk es' acc
         end) entries acc
  end.

(** [AssertAliveDead], after its sleep: the test goes on ([None]) or ends. *)
Definition AssertAliveDead (dir : node) (alive dead : nat) : option error :=
  match aliveDead EmptyString dir (0, 0) with
  | Err e => Some e
  | Ok (a, d) =>
      if negb (alive =? a) then Some (ErrNew "Wanted %d alive processes, found %d/%d" [])
      else if negb (dead =? d) then Some (ErrNew "Wanted %d dead processes, found %d/%d" [])
      else None
  end.
End heartbeat.

(** ** heartbeat.sh *)

(** Where a running script is in its loop: before [date], with the temporary
    file truncated, with the timestamp in it. *)
Inductive beat := Sleeping | Truncated | Written.

Record beats := mkBeats { b_files : gmap string string; b_pids : gmap string beat }.

Definition tmp_name (pid : string) : string := ".canary-" +:+ pid +:+ ".tmp".
Definition canary_name (pid : string) : string := "canary-" +:+ pid.

(** The steps of the running scripts.  The rename is one step; a script may
    be killed at any time, and a process started with a new ID. *)
Inductive beat_step : beats -> beats -> Prop :=
  | bs_start pid b :
      b_pids b !! pid = None ->
      beat_step b (mkBeats (b_files b) (<[pid := Sleeping]> (b_pids b)))
  | bs_truncate pid b :
      b_pids b !! pid = Some Sleeping ->
      beat_step b (mkBeats (<[tmp_name pid := EmptyString]> (b_files b)) (<[pid := Truncated]> (b_pids b)))
  | bs_write pid t b :
      b_pids b !! pid = Some Truncated -> is_i64 t ->
      beat_step b (mkBeats (<[tmp_name pid := itoa t +:+ str1 lf]> (b_files b)) (<[pid := Written]> (b_pids b)))
  | bs_rename pid data b :
      b_pids b !! pid = Some Written -> b_files b !! tmp_name pid = Some data ->
      beat_step b (mkBeats (<[canary_name pid := data]> (delete (tmp_name pid) (b_files b)))
                     (<[pid := Sleeping]> (b_pids b)))
  | bs_kill pid b :
      beat_step b (mkBeats (b_files b) (delete pid (b_pids b))).

(** The directory of the script, as a walk finds it. *)
Definition dir_of (b : beats) : node :=
  DirNode (Ok ((fun f => (f.1, FileNode (Ok f.2))) <$> map_to_list (b_files b))).

(** [NewHeartbeat]: the path of the script and the directory it is in, or the
    end of the test; [open] and [write] are the errors of the two calls. *)
Definition NewHeartbeat (dir heartbeatSh : string) (open write : option error) : res (string * beats) :=
  match open, write with
  | Some e, _ => Err (ErrWrap "creating heartbeat script: %v" [] e)
  | None, Some e => Err (ErrWrap "writing heartbeat script contents: %v" [] e)
  | None, None => Ok (path_join [dir; "heartbeat.sh"], mkBeats {[ "heartbeat.sh" := heartbeatSh ]} ∅)
  end.

(** The states that scripts can lead to. *)
Inductive beating : beats -> Prop :=
  | be_start dir heartbeatSh open write path b :
      NewHeartbeat dir heartbeatSh open write = Ok (path, b) -> beating b
  | be_step b b' : beating b -> beat_step b b' -> beating b'.

(** ** What a walk counts *)

(** The timestamp in a file is less than two seconds old. *)
Definition fresh (now : Z) (data : string) : bool :=
  match parse_int (trim_space data) with Ok ts => (since now ts <? 2 * Second)%Z | Err _ => false end.

Definition canaries (b : beats) : list (string * string) :=
  List.filter (fun f => is_canary f.1) (map_to_list (b_files b)).

(** The running scripts that have written a timestamp. *)
Definition running (b : beats) : list string :=
  List.filter (fun pid => bool_decide (is_Some (b_files b !! canary_name pid))) (map_to_list (b_pids b)).*1.

Definition stamped (data : string) : Prop := exists t, is_i64 t /\ data = itoa t +:+ str1 lf.

Example fake_version :
  version (info_response ChromiumVersionHandler) =
    Ok (mkVersionInfo "HeadlessChrome/124.0.6367.207" "1.3"
      "Mozilla/5.0 (X11; Linux x86_64) AppleWebKit/537.36 (KHTML, like Gecko) HeadlessChrome/124.0.6367.207 Safari/537.36"
      "12.4.254.15" "537.36 (@a9001a6e39fbaa559510ca866052950457dd4e6b)"
      "ws://foobar:9222/devtools/browser/a279f03c-3afc-4acc-92ba-7134f618fedf").
Proof. vm_compute. reflexivity. Qed.

Example info_port : HTTPInfo <$> ["127.0.0.1:34567"; "[::1]:80"; "127.0.0.1"; "a:b:c"] =
  [Ok "34567"; Ok "80"; Err (ErrNew "missing port in address" ["127.0.0.1"]);
   Err (ErrNew "too many colons in address" ["a:b:c"])].
Proof. vm_compute. reflexivity. Qed.

(** A server that fails never looks ready. *)
Example failing_server : is_ok (version (info_response InternalServerErrorHandler)) = false.
Proof. vm_compute. reflexivity. Qed.

Lemma stamped_parses data : stamped data -> exists t, is_i64 t /\ parse_int (trim_space data) = Ok t.
Proof.
  intros (t & Ht & ->). exists t. split; [done|].
  rewrite trim_space_line by auto using itoa_visible, itoa_nonempty. by apply parse_int_itoa.
Qed.

Lemma since_mono now now' ts : (now <= now')%Z -> (since now ts <= since now' ts)%Z.
Proof. unfold since. lia. Qed.

(** Within the range of a [time.Duration], the age is the difference. *)
Lemma since_exact now t :
  is_i64 (t + unixToInternal) -> is_i64 (now - t * Second) -> since now t = (now - t * Second)%Z.
Proof.
  intros Ht Hn. unfold since. rewrite wrap_i64_id by done. unfold is_i64, unixToInternal in *. lia.
Qed.

Lemma fresh_mono now now' data : (now <= now')%Z -> fresh now' data = true -> fresh now data = true.
Proof.
  intros Hle. unfold fresh. destruct (parse_int _) as [ts|]; [|done]. rewrite !Z.ltb_lt.
  pose proof (since_mono now now' ts Hle). lia.
Qed.

Lemma count_canary_stamped now data acc :
  stamped data ->
  count_canary now (Ok data) acc = Ok (if fresh now data then (S acc.1, acc.2) else (acc.1, S acc.2)).
Proof.
  intros (t & _ & Hp)%stamped_parses. unfold count_canary, fresh. cbn [wrap_err mbind res_bind].
  by rewrite Hp.
Qed.

Definition entry (f : string * string) : string * node := (f.1, FileNode (Ok f.2)).

Lemma walk_cons clock name f fs acc :
  aliveDead clock name (DirNode (Ok (entry <$> f :: fs))) acc =
    (acc ← (if is_canary f.1 then count_canary (clock (acc.1 + acc.2)) (Ok f.2) acc else Ok acc); aliveDead clock name (DirNode (Ok (entry <$> fs))) acc).
Proof. reflexivity. Qed.

Lemma walk_counts clock lo hi name fs acc :
  (forall n, (lo <= clock n <= hi)%Z) ->
  Forall (fun f => is_canary f.1 = true -> stamped f.2) fs ->
  exists a d,
    aliveDead clock name (DirNode (Ok (entry <$> fs))) acc = Ok (acc.1 + a, acc.2 + d) /\
    a + d = length (List.filter (fun f => is_canary f.1) fs) /\
    length (List.filter (fun f => is_canary f.1 && fresh hi f.2) fs) <= a /\
    a <= length (List.filter (fun f => is_canary f.1 && fresh lo f.2) fs).
Proof.
  intros Hclock Hfs. revert acc. induction Hfs as [|f fs Hf Hfs IH]; intros acc.
  { exists 0, 0. simpl. rewrite !Nat.add_0_r. by destruct acc. }
  rewrite walk_cons. cbn [List.filter].
  destruct (is_canary f.1); cbn [andb]; [|cbn [mbind res_bind]; apply IH].
  rewrite count_canary_stamped by auto. cbn [mbind res_bind].
  specialize (Hclock (acc.1 + acc.2)).
  pose proof (fresh_mono lo (clock (acc.1 + acc.2)) f.2 ltac:(lia)) as Hlo.
  pose proof (fresh_mono (clock (acc.1 + acc.2)) hi f.2 ltac:(lia)) as Hhi.
  destruct (fresh (clock (acc.1 + acc.2)) f.2); cbv iota.
  - destruct (IH (S acc.1, acc.2)) as (a & d & -> & Hn & H1 & H2). exists (S a), d.
    rewrite Hlo by done. cbn [fst snd length]. split; [by rewrite <- plus_n_Sm|].
    destruct (fresh hi f.2); cbn [length]; lia.
  - destruct (IH (acc.1, S acc.2)) as (a & d & -> & Hn & H1 & H2). exists a, (S d).
    destruct (fresh hi f.2); [by discriminate Hhi|].
    cbn [fst snd length]. split; [by rewrite <- plus_n_Sm|].
    destruct (fresh lo f.2); cbn [length]; lia.
Qed.

(** ** What the scripts leave in the directory *)

Lemma tmp_not_canary pid : is_canary (tmp_name pid) = false.
Proof. done. Qed.
Lemma canary_is_canary pid : is_canary (canary_name pid) = true.
Proof. apply has_prefix_app. Qed.
Lemma is_canary_inv name : is_canary name = true -> exists pid, name = canary_name pid.
Proof. intros H%has_prefix_inv. eauto. Qed.

#[export] Instance canary_name_inj : Inj (=) (=) canary_name.
Proof. intros a b [=]. done. Qed.
#[export] Instance tmp_name_inj : Inj (=) (=) tmp_name.
Proof.
  intros a b E. apply (f_equal (drop_str 8)) in E. change (a +:+ ".tmp" = b +:+ ".tmp") in E.
  pose proof (f_equal String.length E) as Hl. rewrite !length_string_app in Hl.
  assert (Hab : String.length a = String.length b) by lia.
  rewrite <- (take_str_app a ".tmp"), E, Hab. apply take_str_app.
Qed.

(** A canary always holds a whole timestamp: a reader never meets the empty
    file between the truncation and the write. *)
Record beats_inv (b : beats) : Prop := {
  canaries_stamped : forall name data, b_files b !! name = Some data -> is_canary name = true -> stamped data;
  written_stamped : forall pid data, b_pids b !! pid = Some Written -> b_files b !! tmp_name pid = Some data -> stamped data
}.

Lemma beating_inv b : beating b -> beats_inv b.
Proof.
  induction 1 as [dir script open write path b Hn|b b' _ [Hc Hw] Hstep].
  { unfold NewHeartbeat in Hn. destruct open, write; simplify_eq. split; cbn [b_files b_pids]; intros name data Hf Hx; by simplify_map_eq. }
  destruct Hstep as [pid b Hp|pid b Hp|pid t b Hp Ht|pid data b Hp Hf|pid b]; split; cbn [b_files b_pids]; intros.
  all: repeat match goal with
         | H : <[_ := _]> _ !! _ = Some _ |- _ => apply lookup_insert_Some in H as [[? ?]|[? ?]]; simplify_eq
         | H : delete _ _ !! _ = Some _ |- _ => apply lookup_delete_Some in H as [? ?]
         end; try done; try (by eexists); eauto.
Qed.

(** ** What a walk finds *)

Lemma dir_of_entries b : dir_of b = DirNode (Ok (entry <$> map_to_list (b_files b))).
Proof. done. Qed.

(** The canaries of running scripts, and the others, in a directory where
    the running scripts have written lately and the others have not. *)
Lemma fresh_canaries now b :
  (forall pid data, b_files b !! canary_name pid = Some data ->
     fresh now data = bool_decide (is_Some (b_pids b !! pid))) ->
  length (List.filter (fun f => is_canary f.1 && fresh now f.2) (map_to_list (b_files b))) = length (running b).
Proof.
  intros Hfresh. unfold running.
  set (l := List.filter _ (map_to_list (b_files b))). set (pids := List.filter _ _).
  enough (Hp : l.*1 ≡ₚ canary_name <$> pids).
  { apply Permutation_length in Hp. by rewrite !length_fmap in Hp. }
  assert (Hin : forall name data, (name, data) ∈ l <->
            b_files b !! name = Some data /\ is_canary name = true /\ fresh now data = true).
  { intros name data. unfold l. rewrite list_elem_of_In, List.filter_In, <- list_elem_of_In, elem_of_map_to_list.
    cbn [fst snd]. by rewrite andb_true_iff. }
  assert (Hpid : forall pid, pid ∈ pids <-> is_Some (b_pids b !! pid) /\ is_Some (b_files b !! canary_name pid)).
  { intros pid. unfold pids. rewrite list_elem_of_In, List.filter_In, <- list_elem_of_In, bool_decide_eq_true.
    rewrite list_elem_of_fmap. split.
    - intros [([? beat] & -> & ?%elem_of_map_to_list) ?]. eauto.
    - intros [[beat Hp] ?]. split; [|done]. exists (pid, beat). by rewrite elem_of_map_to_list. }
  apply NoDup_Permutation.
  - apply NoDup_fmap_fst; [intros ? ? ? [? _]%Hin [? _]%Hin; congruence|]. apply NoDup_ListNoDup, List.NoDup_filter, NoDup_ListNoDup, NoDup_map_to_list.
  - apply (NoDup_fmap_2 canary_name), NoDup_ListNoDup, List.NoDup_filter, NoDup_ListNoDup, NoDup_fst_map_to_list.
  - intros name. rewrite !list_elem_of_fmap. split.
    + intros ([? data] & -> & (Hf & [pid ->]%is_canary_inv & Hn)%Hin). exists pid. split; [done|].
      apply Hpid. rewrite (Hfresh pid data Hf) in Hn. apply bool_decide_eq_true in Hn. eauto.
    + intros (pid & -> & ([beat Hp] & [data Hf])%Hpid). exists (canary_name pid, data). split; [done|].
      apply Hin. split; [done|]. rewrite (Hfresh pid data Hf). by rewrite canary_is_canary, bool_decide_true by eauto.
Qed.

(** C38: The helper counts processes, whatever moment of their loops it finds
    them in.  Take any state that scripts started, beating and killed can lead
    to, in which the running scripts have written a timestamp less than two
    seconds before the end of the walk and the others have not written one less
    than two seconds before its start.  Then reading the directory never fails
    (no canary is ever empty or half written) and [AssertAliveDead] lets the
    test go on exactly when it is asked for the number of running scripts that
    have beaten and the number of canaries of scripts that were killed. *)
Theorem heartbeats_count_processes clock start finish b alive dead :
  beating b ->
  (forall n, (start <= clock n <= finish)%Z) ->
  (forall pid data, b_files b !! canary_name pid = Some data ->
     if bool_decide (is_Some (b_pids b !! pid)) then fresh finish data = true else fresh start data = false) ->
  AssertAliveDead clock (dir_of b) alive dead = None <->
    alive = length (running b) /\ alive + dead = length (canaries b).
Proof.
  intros [Hc _]%beating_inv Hclock Hb.
  assert (Hage : forall now, (start <= now <= finish)%Z -> forall pid data, b_files b !! canary_name pid = Some data ->
            fresh now data = bool_decide (is_Some (b_pids b !! pid))).
  { intros now Hnow pid data Hf. specialize (Hb pid data Hf). case_bool_decide.
    - by apply (fresh_mono now finish); [lia|].
    - destruct (fresh now data) eqn:E; [|done]. by rewrite (fresh_mono start now data) in Hb by (lia || done). }
  assert (start <= finish)%Z by (specialize (Hclock 0); lia).
  destruct (walk_counts clock start finish EmptyString (map_to_list (b_files b)) (0, 0) Hclock)
    as (a & d & Hw & Hn & H1 & H2).
  { apply Forall_forall. intros [name data] ?%elem_of_map_to_list. eauto. }
  rewrite !fresh_canaries in * by (apply Hage; lia). fold (canaries b) in Hn.
  unfold AssertAliveDead. rewrite dir_of_entries, Hw. cbn [fst snd Nat.add].
  assert (a = length (running b)) as -> by lia. rewrite <- Hn.
  destruct (Nat.eqb_spec alive (length (running b))); [|split; [done|intros [? ?]; done]].
  destruct (Nat.eqb_spec dead d); split; intros; (done || lia).
Qed.

Tactic Notation "beat" uconstr(step) :=
  lazymatch goal with
  | H : beating _ |- _ =>
      let H' := fresh in unshelve epose proof (be_step _ _ H step) as H'; [reflexivity..|clear H; rename H' into H]
  end.

(** Three scripts, one of which has not beaten yet and one of which is dead. *)
Lemma heartbeats_count_processes_witness :
  let b := mkBeats {[ "heartbeat.sh" := "#!"; "canary-7" := itoa 1000 +:+ str1 lf;
                      "canary-8" := itoa 1010 +:+ str1 lf; ".canary-9.tmp" := EmptyString ]}
                   {[ "8" := Sleeping; "9" := Truncated ]} in
  let now := (1011 * Second)%Z in
  AssertAliveDead (fun _ => now) (dir_of b) 1 1 = None <->
    1 = length (running b) /\ 1 + 1 = length (canaries b).
Proof.
  intros b now. apply (heartbeats_count_processes (fun _ => now) now now).
  - assert (is_i64 1000 /\ is_i64 1010) as [T1 T2] by (unfold is_i64; lia).
    pose proof (be_start "/tmp/x" "#!" None None _ _ eq_refl) as H.
    beat (bs_start "7" _ _).
    beat (bs_truncate "7" _ _).
    beat (bs_write "7" 1000 _ _ T1).
    beat (bs_rename "7" (itoa 1000 +:+ str1 lf) _ _ _).
    beat (bs_kill "7" _).
    beat (bs_start "8" _ _).
    beat (bs_truncate "8" _ _).
    beat (bs_write "8" 1010 _ _ T2).
    beat (bs_rename "8" (itoa 1010 +:+ str1 lf) _ _ _).
    beat (bs_start "9" _ _).
    beat (bs_truncate "9" _ _).
    refine (eq_ind _ beating H b _). vm_compute. reflexivity.
  - intros n. lia.
  - assert (Hall : map_Forall (fun name data => is_canary name = true ->
              fresh now data = bool_decide (is_Some (b_pids b !! drop_str 7 name))) (b_files b)).
    { apply (bool_decide_unpack _). vm_compute. exact I. }
    intros pid data Hf. specialize (Hall _ _ Hf (canary_is_canary pid)).
    change (drop_str 7 (canary_name pid)) with pid in Hall. by case_bool_decide.
Defined.

(** *** The age limit and the rhythm of the script

    [date] writes whole seconds and the script sleeps for one second between
    two beats, so just before its next beat a script that started the last one
    late in a second has a timestamp more than two seconds old: it is counted
    as dead. *)
Example slow_beat_is_dead :
  let beat := 999999999%Z in let next := (beat + Second + 2000000)%Z in
  fresh (next - 1) (itoa (beat / Second) +:+ str1 lf) = false.
Proof. vm_compute. reflexivity. Qed.
