(* ===== verification/BuildVersion.v ===== *)
(** * Build version: internal/version/version.go

    The version string of the binary and the version-control settings the
    toolchain recorded: sorting the settings once and searching them by key. *)

From S2P Require Import Prelude GoStrings.

Definition revisionKey : string := "vcs.revision".
Definition timeKey : string := "vcs.time".

(** [debug.BuildSetting] and the parts of [debug.BuildInfo] the code reads. *)
Record BuildSetting := mkSetting { Key : string; Value : string }.
Record BuildInfo := mkBuildInfo { Main_Version : string; Settings : list BuildSetting }.

#[export] Instance BuildSetting_eq_dec : EqDecision BuildSetting.
Proof. solve_decision. Defined.

Definition cmpBuildSettings (a b : BuildSetting) : Z :=
  let v := compare (Key a) (Key b) in
  if negb (v =? 0)%Z then v else compare (Value a) (Value b).

Definition isKey (a : BuildSetting) (key : string) : Z := compare (Key a) key.

(** [slices.SortFunc] with [cmpBuildSettings]: the comparison only ties equal
    settings, so the sorted list does not depend on the algorithm
    ([sorted_unique] below). *)
Fixpoint insert_sorted (x : BuildSetting) (l : list BuildSetting) : list BuildSetting :=
  match l with
  | [] => [x]
  | y :: l' => if (cmpBuildSettings x y <=? 0)%Z then x :: l else y :: insert_sorted x l'
  end.
Definition SortFunc (l : list BuildSetting) : list BuildSetting := foldr insert_sorted [] l.

(** The loop of [slices.BinarySearchFunc]: [i], [j] are the bounds.  Fuel:
    the length of the slice; each turn shortens the interval. *)
Fixpoint search_loop (fuel : nat) (x : list BuildSetting) (target : string) (i j : nat) : option nat :=
  match fuel with
  | O => if i <? j then None else Some i
  | S fuel' =>
      if i <? j then
        let h := (i + j) / 2 in
        match x !! h with
        | Some y => if (isKey y target <? 0)%Z then search_loop fuel' x target (S h) j
                    else search_loop fuel' x target i h
        | None => None   (* out of range *)
        end
      else Some i
  end.

Definition BinarySearchFunc (x : list BuildSetting) (target : string) : option (nat * bool) :=
  i ← search_loop (length x) x target 0 (length x);
  Some (i, match x !! i with Some y => (isKey y target =? 0)%Z | None => false end).

(** A call that may dereference a nil pointer. *)
Inductive outcome (A : Type) := Returns (a : A) | Panics.
Arguments Returns {A} a.
Arguments Panics {A}.

(** [version] is the string the linker wrote; [read] is what
    [debug.ReadBuildInfo()] gives. *)
Section version.
Context (version : string) (read : option BuildInfo).

(** [getBuildInfo()]; the once-wrapper makes every call return this. *)
Definition getBuildInfo : option BuildInfo :=
  (fun bi => mkBuildInfo (Main_Version bi) (SortFunc (Settings bi))) <$> read.

Definition Short : outcome string :=
  if negb (bool_decide (version = EmptyString)) then Returns version
  else match getBuildInfo with
       | Some bi => Returns (Main_Version bi)
       | None => Panics
       end.

(** Running out of fuel or of the slice would be a panic. *)
Definition getBuildInfoByKey (key : string) : outcome string :=
  match getBuildInfo with
  | None => Returns "invalid"
  | Some bi =>
      match BinarySearchFunc (Settings bi) key with
      | Some (idx, true) =>
          match Settings bi !! idx with Some y => Returns (Value y) | None => Panics end
      | Some (_, false) => Returns "unknown"
      | None => Panics
      end
  end.

Definition Commit : outcome string := getBuildInfoByKey revisionKey.
Definition Buildstamp : outcome string := getBuildInfoByKey timeKey.
End version.

(** ** The order *)

Lemma N_of_ascii_inj a b : N_of_ascii a = N_of_ascii b -> a = b.
Proof. intros E. by rewrite <- (ascii_N_embedding a), E, ascii_N_embedding. Qed.

Lemma compare_refl s : compare s s = 0%Z.
Proof. induction s as [|c s IH]; simpl; [done|]. by rewrite N.compare_refl. Qed.

Lemma compare_eq a b : compare a b = 0%Z <-> a = b.
Proof.
  split; [|by intros ->; apply compare_refl].
  revert b. induction a as [|x a IH]; intros [|y b]; simpl; try done.
  destruct (N.compare_spec (N_of_ascii x) (N_of_ascii y)) as [E|E|E]; try done.
  intros Hc. apply N_of_ascii_inj in E as ->. by rewrite (IH b).
Qed.

Lemma compare_opp a b : compare b a = (- compare a b)%Z.
Proof.
  revert b. induction a as [|x a IH]; intros [|y b]; simpl; try done.
  rewrite N.compare_antisym. destruct (N.compare _ _); simpl; [apply IH|done..].
Qed.

Lemma compare_trans a b c : (compare a b <= 0)%Z -> (compare b c <= 0)%Z -> (compare a c <= 0)%Z.
Proof.
  revert b c. induction a as [|x a IH]; intros [|y b] [|z c]; simpl; try lia.
  destruct (N.compare_spec (N_of_ascii x) (N_of_ascii y)) as [E1|E1|E1]; [|intros _|lia].
  all: destruct (N.compare_spec (N_of_ascii y) (N_of_ascii z)) as [E2|E2|E2]; try lia.
  all: destruct (N.compare_spec (N_of_ascii x) (N_of_ascii z)) as [E3|E3|E3]; try lia.
  apply IH.
Qed.

Definition le (a b : BuildSetting) : Prop := (cmpBuildSettings a b <= 0)%Z.

Lemma le_spec a b :
  le a b <-> (compare (Key a) (Key b) < 0)%Z \/ (Key a = Key b /\ (compare (Value a) (Value b) <= 0)%Z).
Proof.
  unfold le, cmpBuildSettings. destruct (_ =? 0)%Z eqn:E; simpl; to_prop.
  - rewrite E. apply compare_eq in E. rewrite E. split; [by right|]. intros [?|[_ ?]]; [lia|done].
  - split; [left; lia|]. intros [?|[Hk _]]; [lia|]. by rewrite Hk, compare_refl in E.
Qed.

#[export] Instance le_total : Total le.
Proof.
  intros a b. rewrite !le_spec. rewrite (compare_opp (Key a) (Key b)), (compare_opp (Value a) (Value b)).
  destruct (decide (compare (Key a) (Key b) = 0%Z)) as [E|]; [|lia].
  apply compare_eq in E. rewrite E, compare_refl.
  destruct (decide (compare (Value a) (Value b) <= 0)%Z); [left|right]; right; split; try done; lia.
Qed.

#[export] Instance le_trans : Transitive le.
Proof.
  intros a b c. rewrite !le_spec. intros H1 H2.
  assert (Hk : (compare (Key a) (Key c) <= 0)%Z).
  { apply (compare_trans _ (Key b)); [destruct H1 as [?|[-> _]]|destruct H2 as [?|[-> _]]];
      rewrite ?compare_refl; lia. }
  destruct (decide (compare (Key a) (Key c) = 0%Z)) as [E|]; [|left; lia]. right.
  apply compare_eq in E. split; [done|].
  destruct H1 as [H1|[E1 H1]], H2 as [H2|[E2 H2]]; rewrite ?E, ?E1, ?E2 in *;
    rewrite ?compare_refl in *; try lia.
  - rewrite (compare_opp (Key c) (Key b)) in H2. lia.
  - by apply (compare_trans _ (Value b)).
Qed.

#[export] Instance le_antisymm : AntiSymm (=) le.
Proof.
  intros a b. rewrite !le_spec, (compare_opp (Key a) (Key b)), (compare_opp (Value a) (Value b)).
  intros H1 H2. destruct a as [k v], b as [k' v']. simpl in *.
  destruct H1 as [H1|[-> H1]].
  { destruct H2 as [?|[-> _]]; [lia|]. rewrite compare_refl in H1. lia. }
  destruct H2 as [H2|[_ H2]]; [rewrite compare_refl in H2; lia|].
  f_equal. apply compare_eq. lia.
Qed.

(** *** Sorting *)

Lemma insert_sorted_perm x l : insert_sorted x l ≡ₚ x :: l.
Proof.
  induction l as [|y l IH]; simpl; [done|]. destruct (_ <=? _)%Z; [done|].
  rewrite IH. apply perm_swap.
Qed.

Lemma SortFunc_perm l : SortFunc l ≡ₚ l.
Proof. induction l as [|x l IH]; simpl; [done|]. by rewrite insert_sorted_perm, IH. Qed.

Lemma insert_sorted_sorted x l : StronglySorted le l -> StronglySorted le (insert_sorted x l).
Proof.
  induction 1 as [|y l Hl IH Hy]; simpl; [by repeat constructor|].
  destruct (cmpBuildSettings x y <=? 0)%Z eqn:E; to_prop.
  - constructor; [by constructor|]. constructor; [done|].
    eapply Forall_impl; [exact Hy|]. intros z. by apply le_trans.
  - constructor; [done|]. rewrite insert_sorted_perm. constructor; [|done].
    destruct (le_total x y); [unfold le in *; lia|done].
Qed.

Lemma SortFunc_sorted l : StronglySorted le (SortFunc l).
Proof. induction l as [|x l IH]; simpl; [constructor|]. by apply insert_sorted_sorted. Qed.

(** There is one sorted arrangement: any sorting algorithm finds it. *)
Lemma sorted_unique l l' : l' ≡ₚ l -> StronglySorted le l' -> l' = SortFunc l.
Proof.
  intros Hp Hs. apply (StronglySorted_unique le); [done|apply SortFunc_sorted|].
  by rewrite SortFunc_perm.
Qed.

(** *** Searching *)

Lemma compare_lt_trans a b c : (compare a b <= 0)%Z -> (compare b c < 0)%Z -> (compare a c < 0)%Z.
Proof.
  intros H1 H2. pose proof (compare_trans a b c H1 ltac:(lia)).
  destruct (decide (compare a c = 0%Z)) as [E|]; [|lia].
  apply compare_eq in E as ->. rewrite compare_opp in H2. lia.
Qed.

Lemma le_refl a : le a a.
Proof. by destruct (le_total a a). Qed.

Lemma sorted_le l i j a b :
  StronglySorted le l -> (i <= j)%nat -> l !! i = Some a -> l !! j = Some b -> le a b.
Proof.
  intros Hs. revert i j. induction Hs as [|x l _ IH Hx]; intros [|i] [|j] Hij Ha Hb; simplify_eq/=; try lia.
  - apply le_refl.
  - rewrite Forall_lookup in Hx. by apply (Hx j b).
  - apply (IH i j); [lia|done..].
Qed.

Lemma sorted_keys l i j a b :
  StronglySorted le l -> (i <= j)%nat -> l !! i = Some a -> l !! j = Some b ->
  (compare (Key a) (Key b) <= 0)%Z.
Proof.
  intros Hs Hij Ha Hb. destruct (proj1 (le_spec a b) (sorted_le l i j a b Hs Hij Ha Hb)) as [?|[-> _]];
    [lia|]. rewrite compare_refl. lia.
Qed.

(** The position the search ends at: keys below the target on its left. *)
Definition partitioned (l : list BuildSetting) (target : string) (p : nat) : Prop :=
  (p <= length l)%nat /\
  forall k a, l !! k = Some a -> (k < p)%nat <-> (isKey a target < 0)%Z.

Lemma search_loop_spec l target fuel i j :
  StronglySorted le l -> (j - i <= fuel)%nat -> (i <= j)%nat -> (j <= length l)%nat ->
  (forall k a, l !! k = Some a -> (k < i)%nat -> (isKey a target < 0)%Z) ->
  (forall k a, l !! k = Some a -> (j <= k)%nat -> (0 <= isKey a target)%Z) ->
  exists p, search_loop fuel l target i j = Some p /\ partitioned l target p.
Proof.
  intros Hs. revert i j. induction fuel as [|fuel IH]; intros i j Hf Hij Hj Hlo Hhi;
    cbn [search_loop]; destruct (i <? j)%nat eqn:E; to_prop; try lia.
  1,3: assert (i = j) as -> by lia; exists j; split; [done|]; split; [done|]; intros k a Hk;
    specialize (Hlo k a Hk); specialize (Hhi k a Hk); lia.
  pose proof (Nat.div_mod_eq (i + j) 2). pose proof (Nat.mod_upper_bound (i + j) 2 ltac:(lia)).
  set (h := ((i + j) / 2)%nat) in *.
  destruct (lookup_lt_is_Some_2 l h) as [y Hy]; [lia|]. rewrite Hy.
  destruct (isKey y target <? 0)%Z eqn:Ey; to_prop; apply IH; try lia; try done.
  - intros k a Hk Hlt. apply (compare_lt_trans _ (Key y)); [|done].
    apply (sorted_keys l k h); [done|lia|done..].
  - intros k a Hk Hle. destruct (decide (0 <= isKey a target)%Z) as [|Hn]; [done|].
    assert (isKey y target < 0)%Z; [|lia]. apply (compare_lt_trans _ (Key a)); [|unfold isKey in Hn; lia].
    apply (sorted_keys l h k); [done|lia|done..].
Qed.

Lemma BinarySearchFunc_spec l target :
  StronglySorted le l ->
  exists p, BinarySearchFunc l target =
    Some (p, match l !! p with Some y => (isKey y target =? 0)%Z | None => false end) /\
  partitioned l target p.
Proof.
  intros Hs. destruct (search_loop_spec l target (length l) 0 (length l) Hs) as (p & E & Hp); try lia.
  { intros k a Hk. apply lookup_lt_Some in Hk. lia. }
  exists p. split; [|done]. unfold BinarySearchFunc. by rewrite E.
Qed.

(** C40: looking a key up in the build settings never goes out of range:
    without build information it answers "invalid", without a setting of that
    key "unknown", and otherwise the value of a setting of that key, the
    least one if the key is repeated, in whatever order the toolchain
    recorded the settings. *)
Theorem getBuildInfoByKey_spec read key :
  match read with
  | None => getBuildInfoByKey read key = Returns "invalid"
  | Some bi =>
      (getBuildInfoByKey read key = Returns "unknown" /\ key ∉ (Key <$> Settings bi)) \/
      (exists st, st ∈ Settings bi /\ Key st = key /\ getBuildInfoByKey read key = Returns (Value st) /\
         forall st', st' ∈ Settings bi -> Key st' = key -> (compare (Value st) (Value st') <= 0)%Z)
  end.
Proof.
  destruct read as [bi|]; [|done]. unfold getBuildInfoByKey. simpl.
  pose proof (SortFunc_sorted (Settings bi)) as Hs. pose proof (SortFunc_perm (Settings bi)) as Hp.
  set (l := SortFunc (Settings bi)) in *. clearbody l.
  destruct (BinarySearchFunc_spec l key Hs) as (p & -> & Hle & Hpart).
  assert (Hge : forall k a, l !! k = Some a -> Key a = key -> (p <= k)%nat).
  { intros k a Hk <-. destruct (Hpart k a Hk) as [Hlt _]. unfold isKey in Hlt. rewrite compare_refl in Hlt. lia. }
  destruct (l !! p) as [st|] eqn:E.
  - destruct (isKey st key =? 0)%Z eqn:Ek; to_prop; unfold isKey in Ek.
    + right. apply compare_eq in Ek. exists st. split_and!; [|done|done|].
      * rewrite <- Hp. by apply list_elem_of_lookup_2 in E.
      * intros st' Hin Hk. rewrite <- Hp in Hin. apply list_elem_of_lookup_1 in Hin as [k Hlk].
        pose proof (Hge k st' Hlk Hk).
        assert (Hst : le st st') by (by apply (sorted_le l p k)).
        apply le_spec in Hst as [Hlt|[_ ?]]; [|done]. rewrite Ek, Hk, compare_refl in Hlt. lia.
    + left. split; [done|]. rewrite <- Hp. intros (a & Ha & Hin)%list_elem_of_fmap.
      apply list_elem_of_lookup_1 in Hin as [k Hk]. pose proof (Hge k a Hk (eq_sym Ha)).
      pose proof (sorted_keys l p k st a Hs ltac:(done) E Hk) as Hle'. rewrite <- Ha in Hle'.
      destruct (Hpart p st E) as [_ Hlt]. unfold isKey in Hlt. lia.
  - left. split; [done|]. rewrite <- Hp. intros (a & Ha & Hin)%list_elem_of_fmap.
    apply list_elem_of_lookup_1 in Hin as [k Hk]. pose proof (Hge k a Hk (eq_sym Ha)).
    apply lookup_lt_Some in Hk. apply lookup_ge_None in E. lia.
Qed.

(** [Short] dereferences a nil pointer exactly when the linker injected no
    version and the binary has no build information. *)
Lemma Short_panics version read :
  Short version read = Panics <-> version = EmptyString /\ read = None.
Proof. unfold Short, getBuildInfo. case_bool_decide; destruct read; naive_solver. Qed.
