(* ===== verification/Supervisor.v ===== *)
(** * The supervisor: internal/crocochrome/crocochrome.go

    The state of [Supervisor] and its operations, as functions on the state
    of the running program: the supervisor itself, the contexts it created
    with the goroutines that hang off them, and the log.  [create] is cut in
    two at the call of [Version], the only place where it waits while it
    holds the lock. *)

From S2P Require Import Prelude GoStrings OS Json Metrics Chromium Cgroup Proc.

(** ** Data *)

Record Options := mkOptions {
  ChromiumPath : string;
  ChromiumPort : string;
  SessionTimeout_ : Z;
  UserGroup : Z;
  TempDir : string;
  Registry : option nat;    (* a registerer, by identity; [None] is nil *)
  ExtraUATerms : string;
  CgroupMemoryEventsPath : string;
  EnableProcessMetrics : bool;
  ProcFSRoot : string;
}.

Definition defaultChromiumPort : string := "5222".
Definition defaultSessionTimeout : Z := (300 * Second)%Z.
Definition allowedLabels : list string := ["regionID"; "tenantID"; "id"].

(** The value of a log attribute. *)
Inductive any :=
  | AString (s : string)
  | AInt (n : Z)
  | AError (e : error)
  | AJson (j : json)
  | ARusage (maxrss : option Z).   (* what SysUsage() returned *)

Abbreviation attr := (string * any)%type.

(** A [slog.Logger] is the attributes every record of it carries. *)
Abbreviation logger := (list attr).
Definition With (l : logger) (a : attr) : logger := l ++ [a].

Inductive level := LevelDebug | LevelInfo | LevelWarn | LevelError.

Record record := mkRecord { r_level : level; r_msg : string; r_attrs : list attr }.

(** [logger.LogAttrs(_, level, msg, attrs...)]. *)
Definition record_of (l : logger) (lv : level) (msg : string) (attrs : list attr) : record :=
  mkRecord lv msg (l ++ attrs).

Record CheckInfo := mkCheckInfo { CI_Type : string; Metadata : gmap string json }.

Record SessionInfo := mkSessionInfo { ID : string; ChromiumVersion : VersionInfo }.

(** The cancel function of a session is the identity of its context. *)
Record session := mkSession { info : SessionInfo; cancel : nat; slogger : logger }.

(** A context made by [context.WithTimeout]; the callback registered with
    [context.AfterFunc] and the launch goroutine belong to it. *)
Inductive after_state := AfterWaiting | AfterStarted | AfterDone.
Inductive launch_state := LaunchRunning | LaunchReturned.

#[export] Instance after_state_eq_dec : EqDecision after_state.
Proof. solve_decision. Defined.
#[export] Instance launch_state_eq_dec : EqDecision launch_state.
Proof. solve_decision. Defined.

Record ctx := mkCtx {
  cx_id : string;               (* the session ID its closures captured *)
  cx_logger : logger;
  cx_deadline : Z;
  cx_err : option error;        (* ctx.Err() *)
  cx_after : after_state;
  cx_oom : res Z;               (* oomBefore, oomBeforeErr *)
  cx_launch : launch_state;
}.

(** A [create] that waits for Chromium and holds the lock. *)
Record creating := mkCreating { cr_id : string; cr_ctx : nat; cr_logger : logger }.

Record Supervisor := mkSupervisor {
  opts : Options;
  sup_logger : logger;
  sessions : gmap string session;
  sessionsMtx : option creating;
  metrics : SupervisorMetrics;
  userAgent : string;
  wg : Z;
  draining : bool;
}.

(** The program: the supervisor, its contexts in creation order, the clock,
    the log, latest record last, and the session directories that exist. *)
Record prog := mkProg {
  sup : Supervisor;
  ctxs : list ctx;
  now : Z;
  logs : list record;
  tmpdirs : gset string;
}.

(** ** Field updates *)

Definition set_sup (f : Supervisor -> Supervisor) (s : prog) : prog :=
  mkProg (f (sup s)) (ctxs s) (now s) (logs s) (tmpdirs s).
Definition set_ctxs (f : list ctx -> list ctx) (s : prog) : prog :=
  mkProg (sup s) (f (ctxs s)) (now s) (logs s) (tmpdirs s).
Definition log (r : record) (s : prog) : prog :=
  mkProg (sup s) (ctxs s) (now s) (logs s ++ [r]) (tmpdirs s).
Definition set_tmpdirs (d : gset string) (s : prog) : prog :=
  mkProg (sup s) (ctxs s) (now s) (logs s) d.
Definition pass_time (d : Z) (s : prog) : prog :=
  mkProg (sup s) (ctxs s) (now s + d) (logs s) (tmpdirs s).

Definition set_sessions (f : gmap string session -> gmap string session) (p : Supervisor) : Supervisor :=
  mkSupervisor (opts p) (sup_logger p) (f (sessions p)) (sessionsMtx p) (metrics p)
    (userAgent p) (wg p) (draining p).
Definition set_lock (l : option creating) (p : Supervisor) : Supervisor :=
  mkSupervisor (opts p) (sup_logger p) (sessions p) l (metrics p) (userAgent p) (wg p) (draining p).
Definition set_metrics (f : SupervisorMetrics -> SupervisorMetrics) (p : Supervisor) : Supervisor :=
  mkSupervisor (opts p) (sup_logger p) (sessions p) (sessionsMtx p) (f (metrics p))
    (userAgent p) (wg p) (draining p).
Definition set_userAgent (ua : string) (p : Supervisor) : Supervisor :=
  mkSupervisor (opts p) (sup_logger p) (sessions p) (sessionsMtx p) (metrics p) ua (wg p) (draining p).
Definition add_wg (n : Z) (p : Supervisor) : Supervisor :=
  mkSupervisor (opts p) (sup_logger p) (sessions p) (sessionsMtx p) (metrics p) (userAgent p)
    (wg p + n) (draining p).
Definition set_draining (p : Supervisor) : Supervisor :=
  mkSupervisor (opts p) (sup_logger p) (sessions p) (sessionsMtx p) (metrics p) (userAgent p)
    (wg p) true.

Definition set_err (e : error) (cx : ctx) : ctx :=
  mkCtx (cx_id cx) (cx_logger cx) (cx_deadline cx) (Some e) AfterStarted (cx_oom cx) (cx_launch cx).
Definition set_after (a : after_state) (cx : ctx) : ctx :=
  mkCtx (cx_id cx) (cx_logger cx) (cx_deadline cx) (cx_err cx) a (cx_oom cx) (cx_launch cx).
Definition set_launch (l : launch_state) (cx : ctx) : ctx :=
  mkCtx (cx_id cx) (cx_logger cx) (cx_deadline cx) (cx_err cx) (cx_after cx) (cx_oom cx) l.

(** Ending a context: the first cause sticks, and starts the goroutine of
    the registered callback; later calls do nothing. *)
Definition end_ctx (e : error) (cx : ctx) : ctx :=
  match cx_err cx with Some _ => cx | None => set_err e cx end.

Definition end_context (e : error) (c : nat) (s : prog) : prog := set_ctxs (alter (end_ctx e) c) s.

(** Calling a [context.CancelFunc]. *)
Definition call_cancel (c : nat) (s : prog) : prog := end_context ErrCanceled c s.

(** ** Construction *)

Section options.
Context `{ProcFS}.

(** [Options.withDefaults]; [tmp] is [os.TempDir()], [reg] a new registry. *)
Definition withDefaults (tmp : string) (reg : nat) (o : Options) : IO Options :=
  let port := if bool_decide (ChromiumPort o = EmptyString)
              then defaultChromiumPort else ChromiumPort o in
  let timeout := if (SessionTimeout_ o =? 0)%Z
                 then defaultSessionTimeout else SessionTimeout_ o in
  let tempdir := if bool_decide (TempDir o = EmptyString) then tmp else TempDir o in
  let registry := match Registry o with None => Some reg | r => r end in
  let procroot := if bool_decide (ProcFSRoot o = EmptyString) then "/proc" else ProcFSRoot o in
  events ← (if bool_decide (CgroupMemoryEventsPath o = EmptyString)
            then detectCgroupMemoryEventsPath procroot
            else mret (CgroupMemoryEventsPath o));
  mret (mkOptions (ChromiumPath o) port timeout (UserGroup o) tempdir registry
          (ExtraUATerms o) events (EnableProcessMetrics o) procroot).

(** [New(logger, opts)], and the program that has just called it. *)
Definition New (tmp : string) (reg : nat) (l : logger) (o : Options) : IO Supervisor :=
  o' ← withDefaults tmp reg o;
  mret (mkSupervisor o' l ∅ None newSupervisorMetrics EmptyString 0 false).
End options.

Definition init_prog (p : Supervisor) (t : Z) : prog := mkProg p [] t [] ∅.

(** ** Metrics of the session state *)

Definition setSessionActive : Supervisor -> Supervisor :=
  set_metrics (inc_created ∘ set_active 1).

Definition setSessionInactive (reason : string) : Supervisor -> Supervisor :=
  set_metrics (inc_terminated reason ∘ set_active 0).

(** ** Queries *)

Definition Session (id : string) (s : prog) : option SessionInfo :=
  info <$> sessions (sup s) !! id.

(** The orders in which Go may iterate over the keys of a map. *)
Definition keys {A} (m : gmap string A) : list string := (map_to_list m).*1.
Definition key_order {A} (m : gmap string A) (order : list string) : Prop := order ≡ₚ keys m.

(** [Sessions()]; the order of the list is the one of a map iteration. *)
Definition Sessions (s : prog) : list string := keys (sessions (sup s)).

Definition SessionTimeout (p : Supervisor) : Z := SessionTimeout_ (opts p).

(** ** Removing sessions *)

(** [delete], with the lock held by the caller. *)
Definition delete_ (id : string) (s : prog) : bool * prog :=
  match sessions (sup s) !! id with
  | Some sess =>
      let s := log (record_of (sup_logger (sup s)) LevelDebug
                      "cancelling context and deleting session" [("sessionID", AString id)]) s in
      let s := call_cancel (cancel sess) s in
      let s := set_sup (set_sessions (delete id)) s in
      (true, set_sup (setSessionInactive TerminationReasonReplaced) s)
  | None => (false, s)
  end.

(** One iteration of [killExisting]. *)
Definition kill_one (s : prog) (id : string) : prog :=
  let s := log (record_of (sup_logger (sup s)) LevelError
                  "existing session found, killing" [("sessionID", AString id)]) s in
  (delete_ id s).2.

(** [killExisting], in the order the map iteration gives. *)
Definition killExisting (order : list string) (s : prog) : prog := foldl kill_one s order.

(** [takeSession], with the lock free when it is called. *)
Definition takeSession (id reason : string) (s : prog) : option session * prog :=
  match sessions (sup s) !! id with
  | None => (None, s)
  | Some sess =>
      let s := set_sup (set_sessions (delete id)) s in
      let s := set_sup (setSessionInactive reason) s in
      (Some sess, call_cancel (cancel sess) s)
  end.

Section teardown.
Context `{ProcFS}.

Definition process_record (l : logger) (p : processInfo) : record :=
  record_of l LevelInfo "chromium process memory"
    [("pid", AInt (PID p)); ("processType", AString (Type_ p));
     ("rss", AInt (RSS p)); ("peakRSS", AInt (PeakRSS p))].

(** The records [emitTeardownObservability] writes. *)
Definition emitTeardownObservability (o : Options) (sess : session) : IO (list record) :=
  if negb (EnableProcessMetrics o) then mret []
  else
    r ← collectProcessMetrics (CgroupMemoryEventsPath o) (ProcFSRoot o);
    let '(processes, cgroupRSS, procErr) := r in
    mret (match procErr with
          | Some e => [record_of (slogger sess) LevelDebug "could not collect process metrics"
                         [("err", AError e)]]
          | None => []
          end
          ++ (process_record (slogger sess) <$> processes)
          ++ [record_of (slogger sess) LevelInfo "chromium session memory"
                [("cgroupRSS", AInt cgroupRSS);
                 ("processCount", AInt (Z.of_nat (length processes)))]]).

(** [deleteWithReason]; [w] is what the reads of the teardown observe. *)
Definition deleteWithReason (w : world) (id reason : string) (s : prog) : bool * prog :=
  match takeSession id reason s with
  | (None, s) => (false, s)
  | (Some sess, s) =>
      (true, foldl (flip log) s (run_io (emitTeardownObservability (opts (sup s)) sess) w))
  end.

Definition Delete (w : world) (id : string) (s : prog) : bool * prog :=
  deleteWithReason w id TerminationReasonDeleted s.
End teardown.

(** ** Draining *)

Definition Drain (s : prog) : prog := set_sup set_draining s.

(** [Wait] returns when the counter of the wait group is zero. *)
Definition Wait_returns (s : prog) : Prop := wg (sup s) = 0%Z.

(** ** Session IDs *)

Definition hex_digit (n : N) : ascii :=
  Ascii.ascii_of_N (if (n <? 10)%N then 48 + n else 87 + n)%N.

(** [hex.EncodeToString]. *)
Fixpoint hex_encode (bs : list ascii) : string :=
  match bs with
  | [] => EmptyString
  | b :: bs' =>
      String (hex_digit (N_of_ascii b / 16)) (String (hex_digit (N_of_ascii b mod 16)) (hex_encode bs'))
  end.

Definition IDLen : nat := 12.

(** [randString], given the bytes [rand.Read] filled in ([crypto/rand.Read]
    never fails). *)
Definition randString (idBytes : list ascii) : string := hex_encode idBytes.

(** ** Creating a session *)

(** What one call of [create] meets outside the supervisor: the random bytes,
    the orders of its two map iterations, and what its file reads observe. *)
Record create_env := mkCreateEnv {
  e_rand : list ascii;
  e_kill_order : list string;
  e_meta_order : list string;
  e_world : world;
}.

(** The loop over [checkInfo.Metadata]. *)
Definition add_labels (md : gmap string json) (order : list string) (l : logger) : logger :=
  foldl (fun l k =>
    match md !! k with
    | Some v => if bool_decide (k ∈ allowedLabels) then With l (k, AJson v) else l
    | None => l
    end) l order.

(** [create] up to the call of [Version]: an error, or the lock held and the
    goroutines of the new session running. *)
Definition create_begin (env : create_env) (checkInfo : CheckInfo) (ifFree : bool) (s : prog)
    : res creating * prog :=
  if draining (sup s) then (Err ErrDraining, s)
  else if ifFree && (0 <? size (sessions (sup s))) then (Err ErrSessionExists, s)
  else
    let s := killExisting (e_kill_order env) s in
    let id := randString (e_rand env) in
    let l := With (sup_logger (sup s)) ("sessionID", AString id) in
    let l := add_labels (Metadata checkInfo) (e_meta_order env) l in
    let c := length (ctxs s) in
    let oom := run_io (readOOMKillCount (CgroupMemoryEventsPath (opts (sup s)))) (e_world env) in
    let s := match oom with
             | Err e => log (record_of l LevelWarn
                 "could not read cgroup OOM kill count before session" [("err", AError e)]) s
             | Ok _ => s
             end in
    let s := set_sup (add_wg 1) s in
    let cx := mkCtx id l (now s + SessionTimeout_ (opts (sup s)))%Z None AfterWaiting oom
                LaunchRunning in
    let s := set_ctxs (fun cs => cs ++ [cx]) s in
    let cr := mkCreating id c l in
    (Ok cr, set_sup (set_lock (Some cr)) s).

(** The rest of [create], once [Version] has returned [r]; the deferred
    unlock comes last. *)
Definition create_end (cr : creating) (r : res VersionInfo) (s : prog) : res SessionInfo * prog :=
  match r with
  | Err e =>
      let s := log (record_of (cr_logger cr) LevelError
                 "could not get chromium info, cancelling session" [("err", AError e)]) s in
      let s := call_cancel (cr_ctx cr) s in
      (Err e, set_sup (set_lock None) s)
  | Ok version =>
      let si := mkSessionInfo (cr_id cr) version in
      let s := set_sup (set_sessions
                 (<[cr_id cr := mkSession si (cr_ctx cr) (cr_logger cr)]>)) s in
      let s := set_sup setSessionActive s in
      (Ok si, set_sup (set_lock None) s)
  end.

(** [create] when nothing else happens while it waits for [Version]. *)
Definition create (env : create_env) (version : res VersionInfo) (checkInfo : CheckInfo)
    (ifFree : bool) (s : prog) : res SessionInfo * prog :=
  match create_begin env checkInfo ifFree s with
  | (Err e, s) => (Err e, s)
  | (Ok cr, s) => create_end cr version s
  end.

Definition Create env version checkInfo s := create env version checkInfo false s.
Definition CreateIfFree env version checkInfo s := create env version checkInfo true s.

(** ** Facts about single operations *)

Lemma fmap_alter_same {A B} (g : A -> B) (f : A -> A) i (l : list A) :
  (forall x, g (f x) = g x) -> g <$> alter f i l = g <$> l.
Proof.
  intros Hg. apply list_eq. intros j. rewrite !list_lookup_fmap.
  destruct (decide (i = j)) as [->|].
  - rewrite list_lookup_alter_eq. destruct (l !! j); simpl; [by rewrite Hg|done].
  - by rewrite list_lookup_alter_ne.
Qed.

Lemma end_ctx_ended e cx : is_Some (cx_err (end_ctx e cx)).
Proof. unfold end_ctx. destruct (cx_err cx) eqn:E; simpl; eauto. Qed.

Lemma end_ctx_idem e e' cx : end_ctx e (end_ctx e' cx) = end_ctx e' cx.
Proof. unfold end_ctx at 1. by destruct (end_ctx_ended e' cx) as [? ->]. Qed.

Lemma end_ctx_noop e cx : is_Some (cx_err cx) -> end_ctx e cx = cx.
Proof. unfold end_ctx. by intros [? ->]. Qed.

Lemma end_ctx_id e cx : cx_id (end_ctx e cx) = cx_id cx.
Proof. unfold end_ctx. by case_match. Qed.

Lemma end_ctx_launch e cx : cx_launch (end_ctx e cx) = cx_launch cx.
Proof. unfold end_ctx. by case_match. Qed.

Lemma end_ctx_deadline e cx : cx_deadline (end_ctx e cx) = cx_deadline cx.
Proof. unfold end_ctx. by case_match. Qed.

Lemma key_order_cons {A} (m : gmap string A) id rest :
  key_order m (id :: rest) -> is_Some (m !! id) /\ key_order (delete id m) rest.
Proof.
  unfold key_order, keys. intros Hp.
  assert (Hin : id ∈ (map_to_list m).*1) by (rewrite <- Hp; left).
  apply list_elem_of_fmap in Hin as ([i x] & -> & Hin%elem_of_map_to_list). simpl in *.
  split; [eauto|].
  rewrite <- (map_to_list_delete m i x Hin) in Hp. simpl in Hp.
  by apply Permutation.Permutation_cons_inv in Hp.
Qed.

Lemma key_order_nil {A} (m : gmap string A) : key_order m [] -> m = ∅.
Proof.
  unfold key_order, keys. intros Hp%Permutation.Permutation_nil.
  by apply fmap_nil_inv, map_to_list_empty_iff in Hp.
Qed.

(** The cancelled context is ended, every other one is as it was. *)
Lemma lookup_call_cancel c c' s :
  ctxs (call_cancel c s) !! c' =
    if decide (c = c') then end_ctx ErrCanceled <$> ctxs s !! c' else ctxs s !! c'.
Proof.
  unfold call_cancel, end_context, set_ctxs. simpl. case_decide.
  - subst. by rewrite list_lookup_alter_eq.
  - by rewrite list_lookup_alter_ne.
Qed.

(** What [kill_one] does for a session that exists. *)
Lemma kill_one_fields id sess s :
  sessions (sup s) !! id = Some sess ->
  let s' := kill_one s id in
  sup s' = setSessionInactive TerminationReasonReplaced (set_sessions (delete id) (sup s)) /\
  ctxs s' = alter (end_ctx ErrCanceled) (cancel sess) (ctxs s) /\
  now s' = now s /\ tmpdirs s' = tmpdirs s.
Proof. intros E. unfold kill_one, delete_. simpl. by rewrite E. Qed.

(** The effect of [killExisting], whatever the number of sessions and the
    order of the iteration. *)
Record killed (s s' : prog) : Prop := {
  kd_sessions : sessions (sup s') = ∅;
  kd_lock : sessionsMtx (sup s') = sessionsMtx (sup s);
  kd_opts : opts (sup s') = opts (sup s);
  kd_wg : wg (sup s') = wg (sup s);
  kd_draining : draining (sup s') = draining (sup s);
  kd_now : now s' = now s;
  kd_ids : cx_id <$> ctxs s' = cx_id <$> ctxs s;
  kd_launch : cx_launch <$> ctxs s' = cx_launch <$> ctxs s;
  kd_deadline : cx_deadline <$> ctxs s' = cx_deadline <$> ctxs s;
  kd_owned id sess : sessions (sup s) !! id = Some sess ->
    ctxs s' !! cancel sess = end_ctx ErrCanceled <$> ctxs s !! cancel sess;
  kd_other c : (forall id sess, sessions (sup s) !! id = Some sess -> cancel sess <> c) ->
    ctxs s' !! c = ctxs s !! c;
  kd_gauge : SessionActive (metrics (sup s')) =
    if decide (sessions (sup s) = ∅) then SessionActive (metrics (sup s)) else 0%Z;
  kd_created : SessionsCreated (metrics (sup s')) = SessionsCreated (metrics (sup s));
  kd_replaced : default 0%Z (SessionsTerminated (metrics (sup s')) !! TerminationReasonReplaced) =
    (default 0%Z (SessionsTerminated (metrics (sup s)) !! TerminationReasonReplaced) +
     Z.of_nat (size (sessions (sup s))))%Z;
  kd_reason r : r <> TerminationReasonReplaced ->
    SessionsTerminated (metrics (sup s')) !! r = SessionsTerminated (metrics (sup s)) !! r;
  kd_total : vec_total (SessionsTerminated (metrics (sup s'))) =
    (vec_total (SessionsTerminated (metrics (sup s))) + Z.of_nat (size (sessions (sup s))))%Z;
}.

Lemma killed_refl s : sessions (sup s) = ∅ -> killed s s.
Proof.
  intros E. split; try done; rewrite ?E, ?map_size_empty; try lia.
  - intros ? ?. by rewrite lookup_empty.
  - by rewrite decide_True.
Qed.

(** Cancelling a context twice is cancelling it once. *)
Lemma end_ctx_twice (l : list ctx) c c' e :
  end_ctx e <$> alter (end_ctx e) c l !! c' = end_ctx e <$> l !! c'.
Proof.
  destruct (decide (c = c')) as [->|]; [|by rewrite list_lookup_alter_ne].
  rewrite list_lookup_alter_eq, <- option_fmap_compose.
  apply option_fmap_ext. intros. apply end_ctx_idem.
Qed.

(** One more session killed. *)
Lemma killed_kill_one id sess s s' :
  sessions (sup s) !! id = Some sess -> killed (kill_one s id) s' -> killed s s'.
Proof.
  intros E. destruct (kill_one_fields id sess s E) as (Hsup & Hctx & Hnow & _).
  set (s1 := kill_one s id) in *. clearbody s1.
  assert (Hsess : sessions (sup s1) = delete id (sessions (sup s))) by by rewrite Hsup.
  assert (Hsize : size (sessions (sup s)) = S (size (delete id (sessions (sup s))))).
  { rewrite <- (insert_delete_id _ id sess E) at 1.
    rewrite map_size_insert_None by apply lookup_delete_eq; done. }
  intros [? Hlock Hopts Hwg Hdr Hn Hids Hla Hdl Hown Hoth Hg Hc Hr Hor Ht].
  split; rewrite ?Hlock, ?Hopts, ?Hwg, ?Hdr, ?Hn, ?Hids, ?Hla, ?Hdl, ?Hc, ?Hr, ?Ht, ?Hsup, ?Hctx;
    simpl; try done.
  - by rewrite fmap_alter_same by apply end_ctx_id.
  - by rewrite fmap_alter_same by apply end_ctx_launch.
  - by rewrite fmap_alter_same by apply end_ctx_deadline.
  - intros id' sess' E'.
    destruct (decide (map_Exists (fun _ x => cancel x = cancel sess') (sessions (sup s1))))
      as [(j & x & Hx & <-)|Hno].
    + by rewrite (Hown j x Hx), Hctx, end_ctx_twice.
    + rewrite Hoth, Hctx by (intros j x Hx Heq; apply Hno; by exists j, x).
      destruct (decide (id' = id)) as [->|]; [simplify_eq; apply list_lookup_alter_eq|].
      destruct Hno. exists id', sess'. by rewrite Hsess, lookup_delete_ne.
  - intros c Hcc. rewrite Hoth.
    + rewrite Hctx, list_lookup_alter_ne; [done|]. by eapply Hcc.
    + intros id' sess'. rewrite Hsess. intros [_ ?]%lookup_delete_Some. by eapply Hcc.
  - rewrite decide_False by (intros Hz; by rewrite Hz, lookup_empty in E).
    rewrite Hg. case_decide; [|done]. by rewrite Hsup.
  - rewrite inc_label_same. simpl. lia.
  - intros r Hne. rewrite Hor, Hsup by done. simpl. by rewrite inc_label_other.
  - rewrite vec_total_inc. lia.
Qed.

Lemma killExisting_killed order s :
  key_order (sessions (sup s)) order -> killed s (killExisting order s).
Proof.
  revert s. induction order as [|id order IH]; intros s Ho.
  { apply killed_refl, key_order_nil, Ho. }
  apply key_order_cons in Ho as [[sess E] Ho].
  apply (killed_kill_one id sess); [done|]. apply (IH (kill_one s id)).
  destruct (kill_one_fields id sess s E) as [-> _]. done.
Qed.

Lemma killed_length s s' : killed s s' -> length (ctxs s') = length (ctxs s).
Proof. intros K. by rewrite <- (length_fmap cx_id), (kd_ids _ _ K), length_fmap. Qed.

(** Every context survives, as it was or cancelled. *)
Lemma killed_ctx s s' c cx' :
  killed s s' -> ctxs s' !! c = Some cx' ->
  exists cx, ctxs s !! c = Some cx /\
    ((cx' = cx /\ forall id sess, sessions (sup s) !! id = Some sess -> cancel sess <> c) \/
     (cx' = end_ctx ErrCanceled cx /\
      exists id sess, sessions (sup s) !! id = Some sess /\ cancel sess = c)).
Proof.
  intros K Hc.
  destruct (decide (map_Exists (fun _ x => cancel x = c) (sessions (sup s))))
    as [(id & sess & E & <-)|Hno].
  - rewrite (kd_owned _ _ K id sess E) in Hc. apply fmap_Some in Hc as (cx & E' & ->).
    exists cx. eauto 10.
  - assert (forall id sess, sessions (sup s) !! id = Some sess -> cancel sess <> c).
    { intros id sess E Hcc. apply Hno. by exists id, sess. }
    rewrite (kd_other _ _ K) in Hc by done. eauto.
Qed.

(** A [create] that gets as far as calling [Version]. *)
Record begun (env : create_env) (ifFree : bool) (s s' : prog) (cr : creating) : Prop := {
  bg_draining : draining (sup s) = false;
  bg_free : ifFree = true -> sessions (sup s) = ∅;
  bg_id : cr_id cr = randString (e_rand env);
  bg_ctx : cr_ctx cr = length (ctxs s);
  bg_state : exists s1 cx, killed s s1 /\
    ctxs s' = ctxs s1 ++ [cx] /\
    sup s' = set_lock (Some cr) (add_wg 1 (sup s1)) /\
    now s' = now s /\
    cx_id cx = cr_id cr /\ cx_err cx = None /\ cx_after cx = AfterWaiting /\
    cx_launch cx = LaunchRunning /\
    cx_deadline cx = (now s + SessionTimeout_ (opts (sup s)))%Z;
}.

Lemma size_nonzero_false {A} (m : gmap string A) : (0 <? size m) = false -> m = ∅.
Proof. intros H%Nat.ltb_ge. apply map_size_empty_iff. lia. Qed.

Lemma create_begin_begun env ci ifFree s cr s' :
  key_order (sessions (sup s)) (e_kill_order env) ->
  create_begin env ci ifFree s = (Ok cr, s') -> begun env ifFree s s' cr.
Proof.
  unfold create_begin. intros Ho Hb.
  destruct (draining (sup s)) eqn:Hd; [done|].
  destruct (ifFree && (0 <? size (sessions (sup s)))) eqn:Hf; [done|].
  pose proof (killExisting_killed _ s Ho) as K. set (s1 := killExisting _ s) in *. clearbody s1.
  destruct (run_io _ _) eqn:Eo; simplify_eq/=; (split; [done| |done| |]).
  1,4: intros ->; by apply size_nonzero_false.
  1,3: by rewrite (killed_length _ _ K).
  all: eexists s1, _; split; [done|]; split; [done|].
  all: rewrite ?(kd_now _ _ K), ?(kd_opts _ _ K); simpl; by rewrite ?(kd_now _ _ K).
Qed.

(** A rejected [create] changes nothing. *)
Lemma create_begin_rejected env ci ifFree s e s' :
  create_begin env ci ifFree s = (Err e, s') ->
  s' = s /\
  ((e = ErrDraining /\ draining (sup s) = true) \/
   (e = ErrSessionExists /\ draining (sup s) = false /\ ifFree = true /\ sessions (sup s) <> ∅)).
Proof.
  unfold create_begin. intros Hb.
  destruct (draining (sup s)) eqn:Hd; simplify_eq; [eauto|].
  destruct (ifFree && (0 <? size (sessions (sup s)))) eqn:Hf; simplify_eq/=.
  to_prop. split; [done|]. right. repeat split; try done.
  intros E. rewrite E, map_size_empty in *. lia.
Qed.

(** ** Programs that agree on the session state

    Log records, session directories, launch metrics and the user agent do
    not take part in the session protocol: two programs are equivalent when
    they agree on everything else. *)

Definition core (s : prog) :=
  (sessions (sup s), sessionsMtx (sup s), opts (sup s), wg (sup s), draining (sup s),
   SessionActive (metrics (sup s)), SessionsCreated (metrics (sup s)),
   SessionsTerminated (metrics (sup s)), ctxs s, now s).

Record same_core (s s' : prog) : Prop := { core_eq : core s = core s' }.

#[export] Instance prog_equiv : Equiv prog := same_core.

#[export] Instance prog_equivalence : Equivalence (≡@{prog}).
Proof.
  split.
  - by intros s.
  - by intros s s' [].
  - intros s1 s2 s3 [] []. split. congruence.
Qed.

Lemma log_equiv r s : log r s ≡ s.
Proof. done. Qed.

Lemma logs_equiv rs s : foldl (flip log) s rs ≡ s.
Proof. revert s. induction rs as [|r rs IH]; intros s; [done|]. by etransitivity; [apply IH|]. Qed.

#[export] Instance set_ctxs_proper f : Proper ((≡) ==> (≡)) (set_ctxs f).
Proof. intros s s' [E]. split. unfold core in *. simpl. congruence. Qed.

#[export] Instance log_proper r : Proper ((≡) ==> (≡)) (log r).
Proof. intros s s' E. by rewrite !log_equiv. Qed.

(** [takeSession] in terms of the fields. *)
Lemma takeSession_found id reason s sess :
  sessions (sup s) !! id = Some sess ->
  takeSession id reason s =
    (Some sess, call_cancel (cancel sess)
       (set_sup (setSessionInactive reason ∘ set_sessions (delete id)) s)).
Proof. intros E. unfold takeSession. by rewrite E. Qed.

Lemma takeSession_missing id reason s :
  sessions (sup s) !! id = None -> takeSession id reason s = (None, s).
Proof. intros E. unfold takeSession. by rewrite E. Qed.

(** Removing a session, without the teardown records. *)
Definition removed (id reason : string) (sess : session) (s : prog) : prog :=
  call_cancel (cancel sess) (set_sup (setSessionInactive reason ∘ set_sessions (delete id)) s).

Section teardown_facts.
Context `{ProcFS}.

Lemma deleteWithReason_found w id reason s sess :
  sessions (sup s) !! id = Some sess ->
  (deleteWithReason w id reason s).1 = true /\
  (deleteWithReason w id reason s).2 ≡ removed id reason sess s.
Proof.
  intros E. unfold deleteWithReason. rewrite (takeSession_found _ _ _ _ E).
  split; [done|]. apply logs_equiv.
Qed.

Lemma deleteWithReason_missing w id reason s :
  sessions (sup s) !! id = None -> deleteWithReason w id reason s = (false, s).
Proof. intros E. unfold deleteWithReason. by rewrite takeSession_missing. Qed.
End teardown_facts.
