(* ===== verification/Launch.v ===== *)
(** * Launching Chromium: [launch], [mkdirTemp] and [ComputeUserAgent] of
    internal/crocochrome/crocochrome.go *)

From S2P Require Import Prelude GoStrings OS Json Metrics Chromium Cgroup Supervisor.

(** ** The session directory *)

(** What [mkdirTemp] meets: the results of its four system calls. *)
Record mkdir_env := mkMkdirEnv {
  me_stat : option error;       (* os.Stat(TempDir) *)
  me_mkdirall : option error;   (* os.MkdirAll(TempDir, 0o755) *)
  me_mkdirtemp : res string;    (* os.MkdirTemp(TempDir, "") *)
  me_chown : option error;      (* os.Chown(tmpDir, ug, ug) *)
}.

Definition is_not_exist (e : option error) : bool :=
  match e with Some e => errors_is e ErrNotExist | None => false end.

Definition mkdirTemp (env : mkdir_env) (s : prog) : res string * prog :=
  let o := opts (sup s) in
  let missing := is_not_exist (me_stat env) in
  let s := if missing
           then log (record_of (sup_logger (sup s)) LevelWarn
                  "Specified TempDir does not exist, is it mounted? Falling back to creating it."
                  [("TempDir", AString (TempDir o))]) s
           else s in
  match (if missing then me_mkdirall env else None) with
  | Some e => (Err (ErrWrap "tmpdir does not exist and couldn't be created: %w" [] e), s)
  | None =>
      match me_mkdirtemp env with
      | Err e => (Err e, s)
      | Ok tmpDir =>
          let s := set_tmpdirs ({[tmpDir]} ∪ tmpdirs s) s in
          if (UserGroup o =? 0)%Z then (Ok tmpDir, s)
          else match me_chown env with
               | Some e => (Err (ErrWrap "chowning temporary dir: %w" [] e), s)
               | None => (Ok tmpDir, s)
               end
      end
  end.

(** ** The command *)

Record command := mkCommand {
  c_path : string;
  c_args : list string;
  c_env : list string;
  c_credential : option (Z * Z);   (* uid, gid *)
}.

Definition fixed_args (port : string) : list string :=
  ["--headless";
   "--remote-debugging-address=0.0.0.0";
   "--remote-debugging-port=" +:+ port;
   "--no-sandbox";
   "--disable-dev-shm-usage";
   "--disable-breakpad"; "--disable-crash-reporter";
   "--disable-3d-apis";
   "--disable-audio-input"; "--disable-audio-output";
   "--disable-default-apps";
   "--disable-extensions";
   "--disable-file-system";
   "--disable-first-run-ui";
   "--disable-notifications";
   "--disable-smooth-scrolling";
   "--disable-features=WebUIOmniboxPopup,WebUIOmniboxAimPopup,AvoidCorsURLLoaderRestartOnRedirect"].

Definition launch_args (p : Supervisor) : list string :=
  fixed_args (ChromiumPort (opts p)) ++
  (if bool_decide (userAgent p = EmptyString) then []
   else ["--user-agent=" +:+ userAgent p]).

Definition launch_command (p : Supervisor) (tmpDir : string) : command :=
  mkCommand (ChromiumPath (opts p)) (launch_args p) ["TMPDIR=" +:+ tmpDir]
    (if (UserGroup (opts p) =? 0)%Z then None
     else Some (wrap_u32 (UserGroup (opts p)), wrap_u32 (UserGroup (opts p)))).

(** [cmd.ProcessState]; [ps_maxrss] is [None] when [SysUsage] is not a
    [*syscall.Rusage] or is nil. *)
Record process_state := mkProcessState {
  ps_pid : Z;
  ps_exit_code : Z;
  ps_string : string;
  ps_system_time : Z;
  ps_user_time : Z;
  ps_maxrss : option Z;   (* KiB *)
}.

(** The outcome of [cmd.Run()]. *)
Record run_result := mkRunResult {
  run_err : option error;
  run_process : option process_state;
  run_stdout : string;
  run_stderr : string;
  run_elapsed : Z;
}.

Record launch_env := mkLaunchEnv {
  le_mkdir : mkdir_env;
  le_run : command -> run_result;
  le_world : world;                (* the reads of the OOM counter *)
  le_ctx_err : option error;       (* ctx.Err() after the run *)
  le_debug : bool;                 (* logger.Enabled(ctx, LevelDebug) *)
  le_remove : option error;        (* os.RemoveAll(tmpDir) *)
}.

(** A call of [launch] returns, or panics when the directory cannot be
    removed. *)
Inductive launch_result := LaunchRet (e : option error) | LaunchPanic (e : error).

(** ** OOM accounting *)

(** Comparing the counter after the run with the baseline; [None] baseline:
    the read before the session failed. *)
Definition account_oom (l : logger) (before : res Z) (after : res Z) (s : prog) : prog :=
  match before with
  | Err _ => s
  | Ok oomBefore =>
      match after with
      | Err e => log (record_of l LevelWarn
          "could not read cgroup OOM kill count after session" [("err", AError e)]) s
      | Ok oomAfter =>
          if (oomAfter <? oomBefore)%Z then
            log (record_of l LevelWarn
              "cgroup OOM kill counter decreased unexpectedly (counter reset or cgroup recreated?)"
              [("before", AInt oomBefore); ("after", AInt oomAfter)]) s
          else
            let delta := wrap_u64 (oomAfter - oomBefore) in
            if (0 <? delta)%Z then
              let s := log (record_of l LevelWarn "OOM kill(s) detected during session"
                              [("oomKills", AInt delta)]) s in
              set_sup (set_metrics (add_oom_kills (float64_of_int delta))) s
            else s
      end
  end.

(** ** The end of a run *)

Definition process_attrs (ps : process_state) : list attr :=
  [("pid", AInt (ps_pid ps)); ("exitCode", AInt (ps_exit_code ps));
   ("processState", AString (ps_string ps)); ("systemTime", AInt (ps_system_time ps));
   ("userTime", AInt (ps_user_time ps)); ("sysUsage", ARusage (ps_maxrss ps))].

Definition output_attrs (r : run_result) : list attr :=
  [("stdout", AString (run_stdout r)); ("stderr", AString (run_stderr r))].

Definition err_attrs (e : option error) : list attr :=
  match e with Some e => [("err", AError e)] | None => [] end.

(** The resident set size in bytes, as an [int64]. *)
Definition maxrss_bytes (kib : Z) : Z := wrap_i64 (kib * 1024).

Definition observe_process (ps : option process_state) (s : prog) : prog :=
  match ps ≫= ps_maxrss with
  | Some kib => set_sup (set_metrics (observe_rss (float64_of_int (maxrss_bytes kib)))) s
  | None => s
  end.

Definition is_canceled (e : option error) : bool :=
  match e with Some e => errors_is e ErrCanceled | None => false end.

(** From the check of the run's error to the return. *)
Definition conclude (env : launch_env) (l : logger) (r : run_result) (s : prog)
    : option error * prog :=
  let attrs := err_attrs (run_err r) ++
               match run_process r with Some ps => process_attrs ps | None => [] end in
  if bool_decide (is_Some (run_err r)) && negb (is_canceled (le_ctx_err env)) then
    let s := set_sup (set_metrics (inc_execution ExecutionStateFailed)) s in
    (run_err r, log (record_of l LevelError "chromium process finished" (attrs ++ output_attrs r)) s)
  else
    let s := set_sup (set_metrics (inc_execution ExecutionStateFinished)) s in
    (None, log (record_of l LevelInfo "chromium process finished"
             (attrs ++ if le_debug env then output_attrs r else [])) s).

(** [launch(ctx, logger, oomBefore, oomBeforeErr)]; the deferred calls run in
    reverse order: the duration is observed, then the directory removed. *)
Definition launch (env : launch_env) (l : logger) (oomBefore : res Z) (s : prog)
    : launch_result * prog :=
  let s := log (record_of l LevelDebug "starting session" []) s in
  match mkdirTemp (le_mkdir env) s with
  | (Err e, s) =>
      (LaunchRet (Some (ErrWrap "creating temporary directory: %w" [] e)), s)
  | (Ok tmpDir, s) =>
      let r := le_run env (launch_command (sup s) tmpDir) in
      let oomAfter := run_io (readOOMKillCount (CgroupMemoryEventsPath (opts (sup s))))
                        (le_world env) in
      let s := account_oom l oomBefore oomAfter s in
      let s := observe_process (run_process r) s in
      let '(err, s) := conclude env l r s in
      let s := set_sup (set_metrics (observe_duration (run_elapsed r))) s in
      match le_remove env with
      | Some e => (LaunchPanic (ErrWrap "deleting tmpdir, bug or sandbox compromised: %w" [] e), s)
      | None => (LaunchRet err, set_tmpdirs (tmpdirs s ∖ {[tmpDir]}) s)
      end
  end.

(** The goroutine [create] starts around [launch], up to [wg.Done()]. *)
Definition launch_goroutine (env : launch_env) (l : logger) (oomBefore : res Z) (s : prog)
    : option error * prog :=
  match launch env l oomBefore s with
  | (LaunchPanic e, s) => (Some e, s)
  | (LaunchRet err, s) =>
      let s := match err with
               | Some e => log (record_of l LevelError "launching chromium" [("err", AError e)]) s
               | None => s
               end in
      (None, set_sup (add_wg (-1)) s)
  end.

(** ** The user agent *)

Definition patch_user_agent (ua extra : string) : string :=
  let patched := replace_all ua "Headless" "" in
  if bool_decide (extra = EmptyString) then patched else patched +:+ " " +:+ extra.

Definition skipOOMSampling : error := ErrNew "skip OOM sampling" [].

(** The goroutine of [ComputeUserAgent]; it outlives the call and is not
    counted by the wait group. *)
Definition ua_goroutine (env : launch_env) (s : prog) : option error * prog :=
  let l := With (sup_logger (sup s)) ("sessionID", AString "compute-user-agent") in
  match launch env l (Err skipOOMSampling) s with
  | (LaunchPanic e, s) => (Some e, s)
  | (LaunchRet (Some e), s) =>
      (None, log (record_of (sup_logger (sup s)) LevelError
                "ComputeUserAgent launching chromium" [("err", AError e)]) s)
  | (LaunchRet None, s) => (None, s)
  end.

(** [ComputeUserAgent(ctx)] once [Version] has returned. *)
Definition ComputeUserAgent (version : res VersionInfo) (s : prog) : option error * prog :=
  match version with
  | Err e => (Some (ErrWrap "contacting chromium: %w" [] e), s)
  | Ok v =>
      let l := sup_logger (sup s) in
      let s := log (record_of l LevelDebug "Found default user agent"
                      [("defaultUA", AString (UserAgent v))]) s in
      let ua := patch_user_agent (UserAgent v) (ExtraUATerms (opts (sup s))) in
      let s := set_sup (set_userAgent ua) s in
      (None, log (record_of l LevelInfo "Computed new user agent" [("UA", AString ua)]) s)
  end.

(** ** What launching touches *)

(** The parts [launch] leaves alone: equivalent programs, same user agent. *)
Definition launch_frame (s s' : prog) : Prop := s' ≡ s /\ userAgent (sup s') = userAgent (sup s).

#[export] Instance launch_frame_preorder : PreOrder (fun s s' => launch_frame s s').
Proof.
  split; [by intros s; split|]. intros s1 s2 s3 [E1 U1] [E2 U2]. split; [|congruence].
  by rewrite E2.
Qed.

Ltac frame_cases := repeat case_match; (split; [by split|done]).

Lemma frame_mkdirTemp env s : launch_frame s (mkdirTemp env s).2.
Proof. unfold mkdirTemp. frame_cases. Qed.

Lemma frame_account_oom l b a s : launch_frame s (account_oom l b a s).
Proof. unfold account_oom. frame_cases. Qed.

Lemma frame_observe_process ps s : launch_frame s (observe_process ps s).
Proof. unfold observe_process. frame_cases. Qed.

Lemma frame_conclude env l r s : launch_frame s (conclude env l r s).2.
Proof. unfold conclude. frame_cases. Qed.

Lemma frame_launch env l oom s : launch_frame s (launch env l oom s).2.
Proof.
  unfold launch. set (s0 := log _ s).
  assert (F0 : launch_frame s s0) by frame_cases.
  pose proof (frame_mkdirTemp (le_mkdir env) s0) as F.
  destruct (mkdirTemp _ s0) as [[dir|e] s1]; simpl in *; [|by transitivity s0].
  set (r := le_run _ _). set (after := run_io _ _).
  pose proof (frame_account_oom l oom after s1) as F1. set (s2 := account_oom _ _ _ s1) in *.
  pose proof (frame_observe_process (run_process r) s2) as F2.
  set (s3 := observe_process _ s2) in *.
  pose proof (frame_conclude env l r s3) as F3.
  destruct (conclude env l r s3) as [err s4]. simpl in *. clearbody s2 s3.
  assert (Hf : launch_frame s s4).
  { etransitivity; [|exact F3]. etransitivity; [|exact F2]. etransitivity; [|exact F1]. by transitivity s0. }
  destruct (le_remove env); simpl; (etransitivity; [exact Hf|]); frame_cases.
Qed.

Lemma frame_launch_goroutine env l oom s s' :
  launch_goroutine env l oom s = (None, s') ->
  s' ≡ set_sup (add_wg (-1)) s.
Proof.
  unfold launch_goroutine. pose proof (frame_launch env l oom s) as [E _].
  destruct (launch env l oom s) as [[[e|]|e] s1]; intros; simplify_eq.
  all: destruct E as [E]; split; unfold core in *; simpl in *; congruence.
Qed.

Lemma frame_ua_goroutine env s s' : ua_goroutine env s = (None, s') -> s' ≡ s.
Proof.
  unfold ua_goroutine. set (l := With _ _).
  pose proof (frame_launch env l (Err skipOOMSampling) s) as [E _].
  destruct (launch env l _ s) as [[[e|]|e] s1]; intros; simplify_eq; [by rewrite log_equiv|done].
Qed.
