(* ===== verification/System.v ===== *)
(** * The running program

    The goroutines of a crocochrome process as a transition system on
    [prog]: the callers of the supervisor's methods, the timers of the
    session contexts, the [AfterFunc] callbacks and the launch goroutines.
    Every step between two acquisitions of [sessionsMtx] is atomic; a step
    that takes the lock needs it free; a [create] that waits for Chromium
    holds it, and everything that does not need the lock may happen
    meanwhile. *)

From S2P Require Import Prelude GoStrings OS Json Metrics Chromium Cgroup Proc Supervisor Launch.

(** What an observer of the program sees of a step. *)
Inductive event :=
  | EvReject (ifFree : bool) (e : error)         (* create returned at once *)
  | EvStart (ifFree : bool) (id : string)        (* create called Version *)
  | EvReady (r : res SessionInfo)                (* create returned *)
  | EvDelete (id : string) (found : bool)        (* Delete returned *)
  | EvReap (id : string) (found : bool)          (* an AfterFunc callback ran *)
  | EvSession (id : string) (r : option SessionInfo)
  | EvSessions (ids : list string)
  | EvDrain
  | EvWait                                       (* Wait returned *)
  | EvExpire (c : nat)                           (* a session deadline fired *)
  | EvExit (c : nat)                             (* a launch goroutine returned *)
  | EvUA                                         (* the goroutine of ComputeUserAgent ended *)
  | EvLog                                        (* a record of main or of the HTTP server *)
  | EvTick (d : Z).

Definition unlocked (s : prog) : Prop := sessionsMtx (sup s) = None.

(** The debug record of the [AfterFunc] callback. *)
Definition reap_record (l : logger) : record :=
  record_of l LevelDebug "context cancelled, removing session from the map" [].

Section system.
Context `{ProcFS}.

Inductive step : prog -> event -> prog -> Prop :=
  | step_reject env ci ifFree s e s' :
      unlocked s ->
      create_begin env ci ifFree s = (Err e, s') ->
      step s (EvReject ifFree e) s'
  | step_start env ci ifFree s cr s' :
      unlocked s ->
      key_order (sessions (sup s)) (e_kill_order env) ->
      key_order (Metadata ci) (e_meta_order env) ->
      length (e_rand env) = IDLen / 2 ->
      create_begin env ci ifFree s = (Ok cr, s') ->
      step s (EvStart ifFree (cr_id cr)) s'
  | step_ready cr r s x s' :
      sessionsMtx (sup s) = Some cr ->
      version_result r ->
      create_end cr r s = (x, s') ->
      step s (EvReady x) s'
  | step_delete w id s found s' :
      unlocked s ->
      Delete w id s = (found, s') ->
      step s (EvDelete id found) s'
  | step_reap w c cx s found s' :
      unlocked s ->
      ctxs s !! c = Some cx -> cx_after cx = AfterStarted ->
      deleteWithReason w (cx_id cx) TerminationReasonTimeout
        (log (reap_record (cx_logger cx)) s) = (found, s') ->
      step s (EvReap (cx_id cx) found) (set_ctxs (alter (set_after AfterDone) c) s')
  | step_session id s :
      unlocked s -> step s (EvSession id (Session id s)) s
  | step_sessions ids s :
      unlocked s -> ids ≡ₚ Sessions s -> step s (EvSessions ids) s
  | step_drain s :
      unlocked s -> step s EvDrain (Drain s)
  | step_wait s :
      Wait_returns s -> step s EvWait s
  | step_expire c cx s :
      ctxs s !! c = Some cx -> cx_err cx = None -> (cx_deadline cx <= now s)%Z ->
      step s (EvExpire c) (end_context ErrDeadlineExceeded c s)
  | step_exit env c cx s s' :
      ctxs s !! c = Some cx -> cx_launch cx = LaunchRunning ->
      le_ctx_err env = cx_err cx ->
      launch_goroutine env (cx_logger cx) (cx_oom cx) s = (None, s') ->
      step s (EvExit c) (set_ctxs (alter (set_launch LaunchReturned) c) s')
  | step_ua env s s' :
      ua_goroutine env s = (None, s') ->
      step s EvUA s'
  | step_log r s :
      step s EvLog (log r s)
  | step_tick d s :
      (0 <= d)%Z -> step s (EvTick d) (pass_time d s).

(** Sequences of steps. *)
Inductive steps : prog -> list event -> prog -> Prop :=
  | steps_nil s : steps s [] s
  | steps_cons s e s' es s'' : step s e s' -> steps s' es s'' -> steps s (e :: es) s''.

(** The program after [New]. *)
Definition initial (s : prog) : Prop :=
  sessions (sup s) = ∅ /\ sessionsMtx (sup s) = None /\
  metrics (sup s) = newSupervisorMetrics /\ wg (sup s) = 0%Z /\
  draining (sup s) = false /\ ctxs s = [].

Definition reachable (s : prog) : Prop := exists s0 es, initial s0 /\ steps s0 es s.

Lemma steps_app s es s' es' s'' :
  steps s es s' -> steps s' es' s'' -> steps s (es ++ es') s''.
Proof. induction 1; [done|]. intros. econstructor; eauto. Qed.

Lemma steps_snoc s es s' e s'' :
  steps s es s' -> step s' e s'' -> steps s (es ++ [e]) s''.
Proof. intros. eapply steps_app; [done|]. econstructor; [done|constructor]. Qed.

Lemma reachable_step s e s' : reachable s -> step s e s' -> reachable s'.
Proof. intros (s0 & es & Hi & Hs) ?. exists s0, (es ++ [e]). eauto using steps_snoc. Qed.

(** An invariant of the steps holds in every reachable program. *)
Lemma reachable_ind' (P : prog -> Prop) :
  (forall s, initial s -> P s) ->
  (forall s e s', reachable s -> P s -> step s e s' -> P s') ->
  forall s, reachable s -> P s.
Proof.
  intros Hi Hs s (s0 & es & H0 & Hst).
  assert (Hr : reachable s0) by (exists s0, []; split; [done|constructor]).
  specialize (Hi s0 H0). clear H0. induction Hst as [|s e s' es s'' Hst _ IH]; [done|].
  apply IH; eauto using reachable_step.
Qed.
End system.
