(* ===== verification/Invariant.v ===== *)
(** * The invariant of the running program

    What holds between any two steps of [System.step]: at most one session,
    the metrics that mirror the session map, the wait group that counts the
    launch goroutines, and the ownership of contexts: every context that is
    not done belongs to the session in the map or to the [create] in
    progress, and every session still has a callback to remove it. *)

From S2P Require Import Prelude GoStrings OS Json Metrics Chromium Cgroup Proc Supervisor Launch System.

(** The number of launch goroutines. *)
Definition running (cs : list ctx) : nat :=
  length (filter (fun l => l = LaunchRunning) (cx_launch <$> cs)).

(** A context whose callback will still run, and that was not cancelled. *)
Definition armed (cx : ctx) : Prop :=
  cx_after cx <> AfterDone /\ (cx_err cx = None \/ cx_err cx = Some ErrDeadlineExceeded).

(** Context [c] belongs to a session or to the [create] in progress. *)
Definition owned (s : prog) (c : nat) : Prop :=
  (exists id sess, sessions (sup s) !! id = Some sess /\ cancel sess = c) \/
  (exists cr, sessionsMtx (sup s) = Some cr /\ cr_ctx cr = c).

(** Context [c] was made for session ID [id] and is armed. *)
Definition armed_for (s : prog) (c : nat) (id : string) : Prop :=
  exists cx, ctxs s !! c = Some cx /\ cx_id cx = id /\ armed cx.

Record inv (s : prog) : Prop := {
  inv_single : (size (sessions (sup s)) <= 1)%nat;
  inv_creating cr : sessionsMtx (sup s) = Some cr ->
    sessions (sup s) = ∅ /\ draining (sup s) = false /\ armed_for s (cr_ctx cr) (cr_id cr);
  inv_gauge : SessionActive (metrics (sup s)) = if decide (sessions (sup s) = ∅) then 0%Z else 1%Z;
  inv_count : SessionsCreated (metrics (sup s)) =
    (vec_total (SessionsTerminated (metrics (sup s))) + Z.of_nat (size (sessions (sup s))))%Z;
  inv_wg : wg (sup s) = Z.of_nat (running (ctxs s));
  inv_session id sess : sessions (sup s) !! id = Some sess ->
    ID (info sess) = id /\ armed_for s (cancel sess) id;
  inv_live c cx : ctxs s !! c = Some cx -> cx_err cx = None -> owned s c;
  inv_after c cx : ctxs s !! c = Some cx -> (cx_err cx = None <-> cx_after cx = AfterWaiting);
}.

#[export] Instance inv_proper : Proper ((≡) ==> iff) inv.
Proof.
  assert (forall s s', s ≡ s' -> inv s -> inv s') as Hw.
  { intros s s' [E] I. unfold core in E.
    injection E as E1 E2 E3 E4 E5 E6 E7 E8 E9 E10. destruct I.
    unfold owned, armed_for in *.
    split; unfold owned, armed_for; rewrite <- ?E1, <- ?E2, <- ?E4, <- ?E5, <- ?E6, <- ?E7, <- ?E8, <- ?E9;
      done. }
  intros s s' E. split; apply Hw; [done|]. by symmetry.
Qed.

(** ** Counting launch goroutines *)

Lemma running_cons cx cs :
  running (cx :: cs) = ((if decide (cx_launch cx = LaunchRunning) then 1 else 0) + running cs)%nat.
Proof. unfold running. rewrite fmap_cons, filter_cons. by case_decide. Qed.

Lemma running_app cs cx :
  running (cs ++ [cx]) =
    (running cs + if decide (cx_launch cx = LaunchRunning) then 1 else 0)%nat.
Proof.
  unfold running. rewrite fmap_app, filter_app, length_app. simpl.
  rewrite filter_cons, filter_nil. by case_decide.
Qed.

Lemma running_same cs cs' : cx_launch <$> cs' = cx_launch <$> cs -> running cs' = running cs.
Proof. unfold running. by intros ->. Qed.

Lemma running_alter f c cs :
  (forall cx, cx_launch (f cx) = cx_launch cx) -> running (alter f c cs) = running cs.
Proof. intros. by apply running_same, fmap_alter_same. Qed.

Lemma running_return c cx cs :
  cs !! c = Some cx -> cx_launch cx = LaunchRunning ->
  running cs = S (running (alter (set_launch LaunchReturned) c cs)).
Proof.
  revert c. induction cs as [|cx' cs IH]; intros [|c] E El; simplify_eq/=.
  - rewrite !running_cons, El. by rewrite decide_True, decide_False by done.
  - change (list_alter _ c cs) with (alter (set_launch LaunchReturned) c cs).
    rewrite !running_cons, (IH c E El). lia.
Qed.

(** ** Cancelling and removing *)

Lemma end_ctx_after e cx :
  (cx_err cx = None <-> cx_after cx = AfterWaiting) ->
  (cx_err (end_ctx e cx) = None <-> cx_after (end_ctx e cx) = AfterWaiting).
Proof. unfold end_ctx. destruct (cx_err cx) eqn:E; simpl; [by rewrite E|done]. Qed.

Lemma single_unique {A} (m : gmap string A) i j x y :
  (size m <= 1)%nat -> m !! i = Some x -> m !! j = Some y -> i = j /\ x = y.
Proof.
  intros Hs Hi Hj. destruct (decide (i = j)) as [->|Hne]; [naive_solver|].
  rewrite <- (insert_delete_id m i x Hi), map_size_insert_None in Hs by apply lookup_delete_eq.
  assert (Hd : delete i m !! j = Some y) by by rewrite lookup_delete_ne.
  assert (delete i m = ∅) as Hem by (apply map_size_empty_iff; lia).
  by rewrite Hem, lookup_empty in Hd.
Qed.

Lemma single_delete {A} (m : gmap string A) i x :
  (size m <= 1)%nat -> m !! i = Some x -> delete i m = ∅ /\ size m = 1%nat.
Proof.
  intros Hs Hi. rewrite <- (insert_delete_id m i x Hi) in Hs.
  rewrite map_size_insert_None in Hs by apply lookup_delete_eq.
  assert (delete i m = ∅) as Hem by (apply map_size_empty_iff; lia).
  split; [done|]. rewrite <- (insert_delete_id m i x Hi), Hem.
  by rewrite map_size_insert_None by apply lookup_empty.
Qed.

Lemma inv_removed id reason sess s :
  unlocked s -> sessions (sup s) !! id = Some sess -> inv s ->
  inv (removed id reason sess s) /\ sessions (sup (removed id reason sess s)) = ∅.
Proof.
  intros Hu E I. destruct (single_delete _ _ _ (inv_single s I) E) as [Hd Hsz].
  unfold removed. split; [|done]. unfold unlocked in Hu. split; simpl.
  - rewrite Hd, map_size_empty. lia.
  - by rewrite Hu.
  - by rewrite decide_True.
  - rewrite vec_total_inc, Hd, map_size_empty, (inv_count s I), Hsz. lia.
  - rewrite (inv_wg s I), running_alter; [done|apply end_ctx_launch].
  - intros ? ?. by rewrite Hd, lookup_empty.
  - intros c cx Hc He. exfalso.
    change (ctxs (call_cancel (cancel sess) s) !! c = Some cx) in Hc.
    rewrite lookup_call_cancel in Hc. case_decide as Hcc.
    + apply fmap_Some in Hc as (cx0 & _ & ->). destruct (end_ctx_ended ErrCanceled cx0). congruence.
    + destruct (inv_live s I c cx Hc He) as [(id' & sess' & E' & <-)|(cr & E' & _)].
      * by destruct (single_unique _ _ _ _ _ (inv_single s I) E E') as [_ ->].
      * congruence.
  - intros c cx Hc.
    change (ctxs (call_cancel (cancel sess) s) !! c = Some cx) in Hc.
    rewrite lookup_call_cancel in Hc. case_decide as Hcc.
    + apply fmap_Some in Hc as (cx0 & Hc & ->). apply end_ctx_after, (inv_after s I c cx0 Hc).
    + by apply (inv_after s I c cx).
Qed.

(** ** Each step preserves the invariant *)

Lemma inv_initial s : initial s -> inv s.
Proof.
  intros (Es & El & Em & Ew & Ed & Ec). split; rewrite ?Es, ?El, ?Em, ?Ew, ?Ec; try done.
  rewrite map_size_empty. lia.
Qed.

(** An operation on the contexts that keeps the identities of closures and
    the launches, and neither revives nor disarms a context. *)
Record ctx_update (f : ctx -> ctx) : Prop := {
  cu_id cx : cx_id (f cx) = cx_id cx;
  cu_launch cx : cx_launch (f cx) = cx_launch cx;
  cu_err cx : cx_err (f cx) = None -> cx_err cx = None;
  cu_armed cx : armed cx -> armed (f cx);
  cu_after cx : (cx_err cx = None <-> cx_after cx = AfterWaiting) ->
    (cx_err (f cx) = None <-> cx_after (f cx) = AfterWaiting);
}.

Lemma inv_ctx_update f c s : ctx_update f -> inv s -> inv (set_ctxs (alter f c) s).
Proof.
  intros F I.
  assert (Harm : forall c' id, armed_for s c' id -> armed_for (set_ctxs (alter f c) s) c' id).
  { intros c' id (cx & Hc & <- & Ha). unfold armed_for. simpl.
    destruct (decide (c = c')) as [->|].
    - rewrite list_lookup_alter_eq, Hc. exists (f cx). by rewrite (cu_id f F); eauto using cu_armed.
    - rewrite list_lookup_alter_ne by done. eauto. }
  split; simpl.
  - apply (inv_single s I).
  - intros cr E. destruct (inv_creating s I cr E) as (? & ? & ?). eauto.
  - apply (inv_gauge s I).
  - apply (inv_count s I).
  - rewrite running_alter by apply F. apply (inv_wg s I).
  - intros id sess E. destruct (inv_session s I id sess E) as (? & ?). eauto.
  - intros c' cx Hc He. destruct (decide (c = c')) as [->|].
    + rewrite list_lookup_alter_eq in Hc. apply fmap_Some in Hc as (cx0 & Hc & ->).
      apply (inv_live s I c' cx0); eauto using cu_err.
    + rewrite list_lookup_alter_ne in Hc by done. by apply (inv_live s I c' cx).
  - intros c' cx Hc. destruct (decide (c = c')) as [->|].
    + rewrite list_lookup_alter_eq in Hc. apply fmap_Some in Hc as (cx0 & Hc & ->).
      by apply (cu_after f F), (inv_after s I c').
    + rewrite list_lookup_alter_ne in Hc by done. by apply (inv_after s I c' cx).
Qed.

Lemma expire_update : ctx_update (end_ctx ErrDeadlineExceeded).
Proof.
  split.
  - apply end_ctx_id.
  - apply end_ctx_launch.
  - intros cx E. destruct (end_ctx_ended ErrDeadlineExceeded cx). congruence.
  - intros cx [Ha He]. unfold end_ctx. destruct (cx_err cx) eqn:E; unfold armed; simpl.
    + by rewrite E.
    + auto.
  - apply end_ctx_after.
Qed.

(** Marking the callback of a finished context as done, once no session has
    its ID any more. *)
Lemma inv_after_done c cx s :
  unlocked s -> inv s ->
  ctxs s !! c = Some cx -> cx_after cx = AfterStarted ->
  sessions (sup s) !! cx_id cx = None ->
  inv (set_ctxs (alter (set_after AfterDone) c) s).
Proof.
  intros Hu I Hc Ha Hn. unfold unlocked in Hu. split; simpl.
  - apply (inv_single s I).
  - by rewrite Hu.
  - apply (inv_gauge s I).
  - apply (inv_count s I).
  - rewrite running_alter by done. apply (inv_wg s I).
  - intros id sess E. destruct (inv_session s I id sess E) as (Hid & cx' & Hc' & Hi' & Harm).
    split; [done|]. exists cx'. simpl. split; [|done].
    rewrite list_lookup_alter_ne; [done|]. intros ->. congruence.
  - intros c' cx' Hc' He. destruct (decide (c = c')) as [->|].
    + rewrite list_lookup_alter_eq, Hc in Hc'. simplify_eq/=. by apply (inv_live s I c' cx).
    + rewrite list_lookup_alter_ne in Hc' by done. by apply (inv_live s I c' cx').
  - intros c' cx' Hc'. destruct (decide (c = c')) as [->|].
    + rewrite list_lookup_alter_eq, Hc in Hc'. simplify_eq/=.
      pose proof (inv_after s I c' cx Hc) as Hx. rewrite Ha in Hx. naive_solver.
    + rewrite list_lookup_alter_ne in Hc' by done. by apply (inv_after s I c' cx').
Qed.

Lemma inv_exit c cx s :
  inv s -> ctxs s !! c = Some cx -> cx_launch cx = LaunchRunning ->
  inv (set_ctxs (alter (set_launch LaunchReturned) c) (set_sup (add_wg (-1)) s)).
Proof.
  intros I Hc Hl.
  assert (Harm : forall c' id, armed_for s c' id ->
    armed_for (set_ctxs (alter (set_launch LaunchReturned) c) (set_sup (add_wg (-1)) s)) c' id).
  { intros c' id (cx' & Hc' & <- & Ha). unfold armed_for. simpl.
    destruct (decide (c = c')) as [->|].
    - rewrite list_lookup_alter_eq, Hc'. by eexists.
    - rewrite list_lookup_alter_ne by done. eauto. }
  split; simpl.
  - apply (inv_single s I).
  - intros cr E. destruct (inv_creating s I cr E) as (? & ? & ?). eauto.
  - apply (inv_gauge s I).
  - apply (inv_count s I).
  - rewrite (inv_wg s I), (running_return c cx) by done. lia.
  - intros id sess E. destruct (inv_session s I id sess E) as (? & ?). eauto.
  - intros c' cx' Hc' He. destruct (decide (c = c')) as [->|].
    + rewrite list_lookup_alter_eq, Hc in Hc'. simplify_eq/=. by apply (inv_live s I c' cx).
    + rewrite list_lookup_alter_ne in Hc' by done. by apply (inv_live s I c' cx').
  - intros c' cx' Hc'. destruct (decide (c = c')) as [->|].
    + rewrite list_lookup_alter_eq, Hc in Hc'. simplify_eq/=. by apply (inv_after s I c' cx).
    + rewrite list_lookup_alter_ne in Hc' by done. by apply (inv_after s I c' cx').
Qed.

Lemma inv_begun env ifFree s s' cr :
  unlocked s -> inv s -> begun env ifFree s s' cr -> inv s'.
Proof.
  intros Hu I [Hd Hf Hid Hc (s1 & cx & K & Ec & Es & En & Ei & Ee & Ea & El & _)].
  unfold unlocked in Hu.
  assert (Hnew : ctxs s' !! cr_ctx cr = Some cx).
  { rewrite Ec, lookup_app_r, Hc, (killed_length _ _ K), Nat.sub_diag; [done|].
    by rewrite Hc, (killed_length _ _ K). }
  split; rewrite ?Es; simpl.
  - rewrite (kd_sessions _ _ K), map_size_empty. lia.
  - intros cr' ?; simplify_eq. split; [apply (kd_sessions _ _ K)|].
    split; [by rewrite (kd_draining _ _ K)|]. exists cx. unfold armed. rewrite Ea. auto.
  - pose proof (kd_sessions _ _ K). rewrite (kd_gauge _ _ K), (inv_gauge s I).
    by repeat case_decide.
  - rewrite (kd_created _ _ K), (kd_total _ _ K), (kd_sessions _ _ K), map_size_empty, (inv_count s I).
    lia.
  - rewrite (kd_wg _ _ K), (inv_wg s I), Ec, running_app, decide_True by done.
    rewrite (running_same _ _ (kd_launch _ _ K)). lia.
  - intros ? ?. by rewrite (kd_sessions _ _ K), lookup_empty.
  - intros c cx' Hc' He. right. exists cr. rewrite Es. split; [done|].
    rewrite Ec in Hc'. apply lookup_app_Some in Hc' as [Hc'|[Hlen Hc']].
    + exfalso. destruct (killed_ctx _ _ _ _ K Hc') as (cx0 & Hc0 & [[-> Hno]|[-> _]]).
      * destruct (inv_live s I c cx0 Hc0 He) as [(id & sess & E & <-)|(? & ? & _)]; [|congruence].
        by eapply Hno.
      * destruct (end_ctx_ended ErrCanceled cx0). congruence.
    + apply list_lookup_singleton_Some in Hc' as [Hc' _].
      rewrite (killed_length _ _ K) in *. lia.
  - intros c cx' Hc'. rewrite Ec in Hc'. apply lookup_app_Some in Hc' as [Hc'|[_ Hc']].
    + destruct (killed_ctx _ _ _ _ K Hc') as (cx0 & Hc0 & [[-> _]|[-> _]]).
      * by apply (inv_after s I c).
      * by apply end_ctx_after, (inv_after s I c).
    + apply list_lookup_singleton_Some in Hc' as [_ <-]. by rewrite Ee, Ea.
Qed.

Lemma inv_ready cr version s :
  sessionsMtx (sup s) = Some cr -> inv s -> inv (create_end cr (Ok version) s).2.
Proof.
  intros Hl I. destruct (inv_creating s I cr Hl) as (Hem & Hd & Harm).
  split; simpl; rewrite ?Hem, ?insert_empty.
  - rewrite map_size_singleton. lia.
  - done.
  - rewrite decide_False; [done|apply map_non_empty_singleton].
  - rewrite map_size_singleton, (inv_count s I), Hem, map_size_empty. lia.
  - apply (inv_wg s I).
  - intros id sess [<- <-]%lookup_singleton_Some. done.
  - intros c cx Hc He. left. destruct (inv_live s I c cx Hc He) as [(id & sess & E & _)|(cr' & E & <-)].
    + by rewrite Hem, lookup_empty in E.
    + rewrite Hl in E. injection E as <-. eexists (cr_id cr), _. simpl.
      by rewrite Hem, insert_empty, lookup_singleton_eq.
  - apply (inv_after s I).
Qed.

Lemma inv_unready cr e s :
  sessionsMtx (sup s) = Some cr -> inv s -> inv (create_end cr (Err e) s).2.
Proof.
  intros Hl I. destruct (inv_creating s I cr Hl) as (Hem & Hd & _).
  split; simpl; rewrite ?Hem.
  - rewrite map_size_empty. lia.
  - done.
  - by rewrite (inv_gauge s I), Hem.
  - by rewrite (inv_count s I), Hem.
  - rewrite running_alter by apply end_ctx_launch. apply (inv_wg s I).
  - intros ? ?. by rewrite lookup_empty.
  - intros c cx Hc He. exfalso.
    change (ctxs (call_cancel (cr_ctx cr) s) !! c = Some cx) in Hc.
    rewrite lookup_call_cancel in Hc. case_decide as Hcc.
    + apply fmap_Some in Hc as (cx0 & _ & ->). destruct (end_ctx_ended ErrCanceled cx0). congruence.
    + destruct (inv_live s I c cx Hc He) as [(id & sess & E & _)|(cr' & E & <-)]; [|congruence].
      by rewrite Hem, lookup_empty in E.
  - intros c cx Hc.
    change (ctxs (call_cancel (cr_ctx cr) s) !! c = Some cx) in Hc.
    rewrite lookup_call_cancel in Hc. case_decide as Hcc.
    + apply fmap_Some in Hc as (cx0 & Hc & ->). apply end_ctx_after, (inv_after s I c cx0 Hc).
    + by apply (inv_after s I c cx).
Qed.

Lemma inv_drain s : unlocked s -> inv s -> inv (Drain s).
Proof. unfold unlocked. intros Hu []. split; try done. simpl. by rewrite Hu. Qed.

Lemma inv_tick d s : inv s -> inv (pass_time d s).
Proof. intros []. by split. Qed.

Section preservation.
Context `{ProcFS}.

Lemma inv_deleteWithReason w id reason s :
  unlocked s -> inv s ->
  inv (deleteWithReason w id reason s).2 /\
  unlocked (deleteWithReason w id reason s).2 /\
  ctxs (deleteWithReason w id reason s).2 =
    match sessions (sup s) !! id with
    | Some sess => alter (end_ctx ErrCanceled) (cancel sess) (ctxs s)
    | None => ctxs s
    end /\
  sessions (sup (deleteWithReason w id reason s).2) !! id = None.
Proof.
  intros Hu I. destruct (sessions (sup s) !! id) as [sess|] eqn:E.
  - destruct (deleteWithReason_found w id reason s sess E) as [_ Eq].
    destruct (inv_removed id reason sess s Hu E I) as [I' Hem].
    split; [by rewrite Eq|]. destruct Eq as [Eq]. unfold core in Eq.
    injection Eq as E1 E2 E3 E4 E5 E6 E7 E8 E9 E10. unfold unlocked.
    rewrite E1, E2, E9. split; [done|]. split; [done|].
    change (delete id (sessions (sup s)) = ∅) in Hem. by rewrite Hem, lookup_empty.
  - rewrite (deleteWithReason_missing w id reason s E). done.
Qed.

(** A context that is done is not touched by removals. *)
Lemma done_ctx_kept w id reason c cx s :
  unlocked s -> inv s -> ctxs s !! c = Some cx -> cx_after cx = AfterStarted ->
  ctxs (deleteWithReason w id reason s).2 !! c = Some cx.
Proof.
  intros Hu I Hc Ha. destruct (inv_deleteWithReason w id reason s Hu I) as (_ & _ & -> & _).
  assert (He : is_Some (cx_err cx)).
  { pose proof (inv_after s I c cx Hc) as Hx. rewrite Ha in Hx.
    destruct (cx_err cx); [eauto|]. discriminate (proj1 Hx eq_refl). }
  destruct (sessions (sup s) !! id) as [sess|]; [|done].
  destruct (decide (cancel sess = c)) as [->|].
  - by rewrite list_lookup_alter_eq, Hc; simpl; rewrite end_ctx_noop.
  - by rewrite list_lookup_alter_ne.
Qed.

Theorem inv_step s e s' : inv s -> step s e s' -> inv s'.
Proof.
  intros I Hst. destruct Hst.
  - by destruct (create_begin_rejected _ _ _ _ _ _ H1) as [-> _].
  - eapply inv_begun; [done|done|]. by eapply create_begin_begun.
  - destruct r as [v|err]; simplify_eq.
    + pose proof (inv_ready cr v s H0 I). by destruct (create_end cr (Ok v) s); simplify_eq/=.
    + pose proof (inv_unready cr err s H0 I). by destruct (create_end cr (Err err) s); simplify_eq/=.
  - pose proof (inv_deleteWithReason w id TerminationReasonDeleted s H0 I) as [I' _].
    unfold Delete in *. by rewrite H1 in I'.
  - assert (I1 : inv (log (reap_record (cx_logger cx)) s)) by by rewrite log_equiv.
    set (s1 := log _ s) in *.
    pose proof (inv_deleteWithReason w (cx_id cx) TerminationReasonTimeout s1 H0 I1)
      as (I' & Hu & _ & Hn).
    pose proof (done_ctx_kept w (cx_id cx) TerminationReasonTimeout c cx s1 H0 I1 H1 H2) as Hc.
    rewrite H3 in *. simpl in *. by eapply (inv_after_done c cx).
  - done.
  - done.
  - by apply inv_drain.
  - done.
  - apply inv_ctx_update; [apply expire_update|done].
  - pose proof (frame_launch_goroutine _ _ _ _ _ H3) as Eq.
    assert (inv (set_ctxs (alter (set_launch LaunchReturned) c) (set_sup (add_wg (-1)) s))) as I'
      by by eapply inv_exit.
    by rewrite Eq.
  - by rewrite (frame_ua_goroutine env s s').
  - by rewrite log_equiv.
  - by apply inv_tick.
Qed.
End preservation.
