(* ===== verification/Lease.v ===== *)
(** * The contract of the supervisor: a lease on one browser

    What clients of the supervisor may rely on, stated without maps,
    contexts or goroutines: the browser is free, being started for a session
    or held by one, and the supervisor may be closed to new sessions.
    [Refinement] shows that the program implements it. *)

From S2P Require Import Prelude Supervisor System.

Inductive holder :=
  | Free
  | Starting (id : string)
  | Busy (id : string).

#[export] Instance holder_eq_dec : EqDecision holder.
Proof. solve_decision. Defined.

Record lease := mkLease { held : holder; closed : bool }.

(** No session is being started. *)
Definition idle (h : holder) : Prop := match h with Starting _ => False | _ => True end.

Definition holder_ids (h : holder) : list string := match h with Busy id => [id] | _ => [] end.

Inductive lease_step : lease -> event -> lease -> Prop :=
  | ls_reject_closed h ifFree :
      idle h -> lease_step (mkLease h true) (EvReject ifFree ErrDraining) (mkLease h true)
  | ls_reject_busy id :
      lease_step (mkLease (Busy id) false) (EvReject true ErrSessionExists) (mkLease (Busy id) false)
  | ls_acquire ifFree id :
      lease_step (mkLease Free false) (EvStart ifFree id) (mkLease (Starting id) false)
  | ls_replace old id :
      lease_step (mkLease (Busy old) false) (EvStart false id) (mkLease (Starting id) false)
  | ls_ready id si :
      ID si = id ->
      lease_step (mkLease (Starting id) false) (EvReady (Ok si)) (mkLease (Busy id) false)
  | ls_fail id e :
      lease_step (mkLease (Starting id) false) (EvReady (Err e)) (mkLease Free false)
  | ls_delete id b :
      lease_step (mkLease (Busy id) b) (EvDelete id true) (mkLease Free b)
  | ls_delete_missing h id b :
      idle h -> h <> Busy id -> lease_step (mkLease h b) (EvDelete id false) (mkLease h b)
  | ls_reap id b :
      lease_step (mkLease (Busy id) b) (EvReap id true) (mkLease Free b)
  | ls_reap_missing h id b :
      idle h -> h <> Busy id -> lease_step (mkLease h b) (EvReap id false) (mkLease h b)
  | ls_session h id r b :
      idle h -> (is_Some r <-> h = Busy id) -> (forall si, r = Some si -> ID si = id) ->
      lease_step (mkLease h b) (EvSession id r) (mkLease h b)
  | ls_sessions h b :
      idle h -> lease_step (mkLease h b) (EvSessions (holder_ids h)) (mkLease h b)
  | ls_drain h b :
      idle h -> lease_step (mkLease h b) EvDrain (mkLease h true)
  | ls_wait a : lease_step a EvWait a
  | ls_expire c a : lease_step a (EvExpire c) a
  | ls_exit c a : lease_step a (EvExit c) a
  | ls_ua a : lease_step a EvUA a
  | ls_log a : lease_step a EvLog a
  | ls_tick d a : lease_step a (EvTick d) a.

Inductive lease_steps : lease -> list event -> lease -> Prop :=
  | lss_nil a : lease_steps a [] a
  | lss_cons a e a' es a'' :
      lease_step a e a' -> lease_steps a' es a'' -> lease_steps a (e :: es) a''.

(** ** Consequences of the contract *)

(** The events that end the session [id] while it holds the browser. *)
Definition ends (id : string) (e : event) : bool :=
  match e with
  | EvDelete id' true | EvReap id' true => bool_decide (id' = id)
  | EvStart false _ => true
  | _ => false
  end.

(** A session a client was given. *)
Definition is_grant (e : event) : bool :=
  match e with EvReady (Ok _) => true | _ => false end.

(** The events that take the browser away from whatever session holds it. *)
Definition is_end (e : event) : bool :=
  match e with
  | EvDelete _ true | EvReap _ true | EvStart false _ => true
  | _ => false
  end.

Definition count (p : event -> bool) (es : list event) : nat := length (List.filter p es).

Lemma lease_kept a es a' id :
  lease_steps a es a' -> held a = Busy id -> forallb (fun e => negb (ends id e)) es = true ->
  held a' = Busy id.
Proof.
  induction 1 as [|a e a1 es a2 Hst _ IH]; [done|]. intros Hb Hes. simpl in Hes. to_prop.
  apply IH; [|done]. destruct Hst; simplify_eq/=; try done; by rewrite bool_decide_true in *.
Qed.

Lemma lease_closed_step a e a' :
  lease_step a e a' -> closed a = true -> idle (held a) ->
  closed a' = true /\ idle (held a') /\ (held a' = held a \/ held a' = Free) /\
  is_grant e = false /\ (forall b id, e <> EvStart b id).
Proof. destruct 1; intros; simplify_eq/=; naive_solver. Qed.

Lemma lease_closed a es a' :
  lease_steps a es a' -> closed a = true -> idle (held a) ->
  closed a' = true /\ (held a' = held a \/ held a' = Free) /\ count is_grant es = 0.
Proof.
  induction 1 as [|a e a1 es a2 Hst _ IH]; [auto|]. intros Hc Hi.
  destruct (lease_closed_step _ _ _ Hst Hc Hi) as (Hc1 & Hi1 & Hh & Hg & _).
  destruct (IH Hc1 Hi1) as (? & Hh2 & Hn). split; [done|]. split.
  - destruct Hh2 as [->| ->]; [done|by right].
  - unfold count in *. simpl. by rewrite Hg.
Qed.

(** Grants outnumber ends by at most the session held: leases do not overlap. *)
Lemma lease_exclusive a es a' :
  lease_steps a es a' ->
  count is_grant es + length (holder_ids (held a)) <=
  count is_end es + length (holder_ids (held a')).
Proof.
  induction 1 as [a|a e a1 es a2 Hst _ IH]; [done|].
  assert (count is_grant (e :: es) = (if is_grant e then 1 else 0) + count is_grant es) as ->.
  { unfold count. simpl. by destruct (is_grant e). }
  assert (count is_end (e :: es) = (if is_end e then 1 else 0) + count is_end es) as ->.
  { unfold count. simpl. by destruct (is_end e). }
  destruct Hst; simpl in *; try lia; repeat case_match; simpl in *; lia.
Qed.
