(* ===== verification/Refinement.v ===== *)
(** * The program implements the lease

    The abstraction function from the running program to [Lease.lease], the
    refinement theorem, and the consequences for the program's traces. *)

From S2P Require Import Prelude GoStrings OS Json Metrics Chromium Cgroup Proc Supervisor Launch System Invariant Lease.

Definition abs (s : prog) : lease :=
  mkLease
    match sessionsMtx (sup s) with
    | Some cr => Starting (cr_id cr)
    | None => match keys (sessions (sup s)) with [] => Free | id :: _ => Busy id end
    end
    (draining (sup s)).

#[export] Instance abs_proper : Proper ((≡) ==> (=)) abs.
Proof. intros s s' [E]. unfold core in E. injection E as E1 E2 _ _ E3 _. unfold abs. by rewrite E1, E2, E3. Qed.

Lemma single_cases {A} (m : gmap string A) :
  (size m <= 1)%nat -> m = ∅ \/ exists id x, m = {[id := x]}.
Proof.
  intros Hs. destruct (decide (m = ∅)) as [->|Hne]; [by left|right].
  apply map_choose in Hne as (i & x & Hi). exists i, x.
  destruct (single_delete m i x Hs Hi) as [Hd _].
  by rewrite <- (insert_delete_id m i x Hi), Hd, insert_empty.
Qed.

(** The abstraction of an unlocked program, by the content of the map. *)
Lemma abs_cases s :
  unlocked s -> inv s ->
  (sessions (sup s) = ∅ /\ abs s = mkLease Free (draining (sup s))) \/
  (exists id sess, sessions (sup s) = {[id := sess]} /\ ID (info sess) = id /\
     abs s = mkLease (Busy id) (draining (sup s))).
Proof.
  unfold unlocked, abs, keys. intros Hu I. rewrite Hu.
  destruct (single_cases _ (inv_single s I)) as [Hm|(id & sess & Hm)]; [left|right].
  - by rewrite Hm, map_to_list_empty.
  - exists id, sess. split; [done|]. split.
    + apply (inv_session s I id sess). by rewrite Hm, lookup_singleton_eq.
    + by rewrite Hm, map_to_list_singleton.
Qed.

Lemma abs_idle s : unlocked s -> inv s -> idle (held (abs s)).
Proof. intros Hu I. by destruct (abs_cases s Hu I) as [(_ & ->)|(? & ? & _ & _ & ->)]. Qed.

Lemma abs_busy s id :
  unlocked s -> inv s -> (held (abs s) = Busy id <-> is_Some (sessions (sup s) !! id)).
Proof.
  intros Hu I. destruct (abs_cases s Hu I) as [(-> & ->)|(id' & sess & -> & _ & ->)]; simpl.
  - rewrite lookup_empty. split; [done|]. by intros [].
  - rewrite lookup_singleton_is_Some. naive_solver.
Qed.

Lemma lease_eta a : a = mkLease (held a) (closed a).
Proof. by destruct a. Qed.

(** Removing the session [id] if it is there, as the lease sees it. *)
Lemma abs_delete `{ProcFS} w id reason s :
  unlocked s -> inv s ->
  let '(found, s') := deleteWithReason w id reason s in
  (found = true /\ abs s = mkLease (Busy id) (draining (sup s)) /\
   abs s' = mkLease Free (draining (sup s))) \/
  (found = false /\ held (abs s) <> Busy id /\ abs s' = abs s).
Proof.
  intros Hu I. destruct (sessions (sup s) !! id) as [sess|] eqn:E.
  - destruct (deleteWithReason_found w id reason s sess E) as [Hf Eq].
    destruct (deleteWithReason w id reason s) as [found s']. simpl in *. left.
    split; [done|].
    assert (held (abs s) = Busy id) by (apply abs_busy; eauto).
    destruct (abs_cases s Hu I) as [(Hm & Ha)|(id' & sess' & Hm & _ & Ha)].
    + by rewrite Hm, lookup_empty in E.
    + rewrite Ha in *. simplify_eq/=. split; [done|]. rewrite Eq.
      unfold abs, removed, keys. simpl. unfold unlocked in Hu. rewrite Hu, Hm.
      by rewrite delete_singleton_eq, map_to_list_empty.
  - rewrite (deleteWithReason_missing w id reason s E). right. split; [done|]. split; [|done].
    rewrite abs_busy by done. rewrite E. by intros [].
Qed.

(** ** The refinement *)

Section refinement.
Context `{ProcFS}.

Lemma abs_begun env ifFree s s' cr :
  unlocked s -> inv s -> begun env ifFree s s' cr ->
  lease_step (abs s) (EvStart ifFree (cr_id cr)) (abs s').
Proof.
  intros Hu I [Hd Hf _ _ (s1 & cx & K & _ & Es & _)].
  assert (abs s' = mkLease (Starting (cr_id cr)) false) as ->.
  { unfold abs. rewrite Es. simpl. by rewrite (kd_draining _ _ K), Hd. }
  destruct (abs_cases s Hu I) as [(_ & ->)|(id & sess & Hm & _ & ->)]; rewrite Hd.
  - constructor.
  - destruct ifFree; [|constructor]. rewrite Hf in Hm by done.
    by apply symmetry, map_non_empty_singleton in Hm.
Qed.

Lemma abs_rejected env ci ifFree s e s' :
  unlocked s -> inv s -> create_begin env ci ifFree s = (Err e, s') ->
  lease_step (abs s) (EvReject ifFree e) (abs s').
Proof.
  intros Hu I Hb.
  destruct (create_begin_rejected _ _ _ _ _ _ Hb) as [-> [[-> Hd]|(-> & Hd & -> & Hne)]].
  - pose proof (abs_idle s Hu I). rewrite (lease_eta (abs s)) in *. simpl. rewrite Hd.
    by constructor.
  - destruct (abs_cases s Hu I) as [(? & _)|(id & sess & _ & _ & ->)]; [done|].
    rewrite Hd. constructor.
Qed.

Lemma abs_ended cr r s x s' :
  sessionsMtx (sup s) = Some cr -> inv s -> create_end cr r s = (x, s') ->
  lease_step (abs s) (EvReady x) (abs s').
Proof.
  intros Hl I Hc. destruct (inv_creating s I cr Hl) as (Hem & Hd & _).
  assert (abs s = mkLease (Starting (cr_id cr)) false) as -> by (unfold abs; by rewrite Hl, Hd).
  destruct r; simplify_eq/=; unfold abs, keys; simpl; rewrite Hem, Hd.
  - rewrite insert_empty, map_to_list_singleton. by constructor.
  - rewrite map_to_list_empty. constructor.
Qed.

Theorem step_lease s e s' : inv s -> step s e s' -> lease_step (abs s) e (abs s').
Proof.
  intros I Hst. destruct Hst.
  - by eapply abs_rejected.
  - by eapply abs_begun, create_begin_begun.
  - by eapply abs_ended.
  - pose proof (abs_delete w id TerminationReasonDeleted s H0 I) as Hd.
    unfold Delete in *. rewrite H1 in Hd. destruct Hd as [(-> & -> & ->)|(-> & Hn & ->)].
    + constructor.
    + rewrite (lease_eta (abs s)) in *. constructor; [by apply abs_idle|done].
  - set (s1 := log _ s) in *. change (abs s) with (abs s1).
    assert (I1 : inv s1) by by eapply (inv_proper s1 s).
    pose proof (abs_delete w (cx_id cx) TerminationReasonTimeout s1 H0 I1) as Hd.
    rewrite H3 in Hd. change (abs (set_ctxs _ s')) with (abs s').
    destruct Hd as [(-> & -> & ->)|(-> & Hn & ->)].
    + constructor.
    + rewrite (lease_eta (abs s1)) in *. constructor; [by apply abs_idle|done].
  - pose proof (abs_busy s id H0 I) as Hb. pose proof (abs_idle s H0 I).
    rewrite (lease_eta (abs s)) in *. constructor; [done| |].
    + unfold Session. rewrite fmap_is_Some. by rewrite Hb.
    + intros si. unfold Session. intros (sess & E & ->)%fmap_Some.
      symmetry. symmetry. by apply (inv_session s I).
  - destruct (abs_cases s H0 I) as [(Hm & ->)|(id & sess & Hm & _ & ->)];
      unfold Sessions, keys in *; rewrite Hm in *.
    + rewrite map_to_list_empty in *. apply Permutation_nil_r in H1 as ->. by constructor.
    + rewrite map_to_list_singleton in *. apply Permutation_singleton_r in H1 as ->. by constructor.
  - pose proof (abs_idle s H0 I).
    change (abs (Drain s)) with (mkLease (held (abs s)) true).
    rewrite (lease_eta (abs s)) in *. by constructor.
  - constructor.
  - constructor.
  - pose proof (frame_launch_goroutine _ _ _ _ _ H3) as Eq.
    change (abs (set_ctxs _ s')) with (abs s'). rewrite Eq. constructor.
  - rewrite (frame_ua_goroutine _ _ _ H0). constructor.
  - constructor.
  - constructor.
Qed.

Lemma reachable_inv s : reachable s -> inv s.
Proof. apply reachable_ind'; eauto using inv_initial, inv_step. Qed.

Lemma steps_inv s es s' : inv s -> steps s es s' -> inv s'.
Proof. induction 2; eauto using inv_step. Qed.

Lemma steps_lease s es s' : inv s -> steps s es s' -> lease_steps (abs s) es (abs s').
Proof.
  intros I Hst. induction Hst as [s|s e s' es s'' Hst _ IH]; [constructor|].
  econstructor; [by apply step_lease|]. apply IH. by eapply inv_step.
Qed.

Lemma abs_initial s : initial s -> abs s = mkLease Free false.
Proof. intros (Es & El & _ & _ & Ed & _). unfold abs, keys. by rewrite El, Es, Ed, map_to_list_empty. Qed.
End refinement.
