(* ===== verification/Scenario.v ===== *)
(** * A concrete run

    A run of the program on the machine of [Machine]: the input at which the
    theorems about runs are exercised. *)

From S2P Require Import Prelude GoStrings OS Machine Json Metrics Chromium Cgroup Proc Supervisor Launch System.

Definition options0 : Options :=
  mkOptions "chromium" "5222" defaultSessionTimeout 65534 "/chromium-tmp" (Some 1)
    "GrafanaSyntheticMonitoring" "/cg/memory.events" true "/proc".

Definition prog0 : prog :=
  init_prog (mkSupervisor options0 [] ∅ None newSupervisorMetrics EmptyString 0 false) 0.

Definition version0 : VersionInfo :=
  mkVersionInfo "HeadlessChrome/124.0.6367.207" "1.3" "Mozilla/5.0 HeadlessChrome/124.0.6367.207"
    "12.4.254.15" "537.36" "ws://127.0.0.1:5222/devtools/browser/a279f03c".

(** The document Chromium serves it as. *)
Definition version0_text : string := quoted
  "{'Browser': 'HeadlessChrome/124.0.6367.207', 'Protocol-Version': '1.3',
    'User-Agent': 'Mozilla/5.0 HeadlessChrome/124.0.6367.207', 'V8-Version': '12.4.254.15',
    'WebKit-Version': '537.36', 'Android-Package': null,
    'webSocketDebuggerUrl': 'ws://127.0.0.1:5222/devtools/browser/a279f03c'}".

Definition check0 : CheckInfo := mkCheckInfo "browser" ∅.

(** Calls of [create] that find the map empty, with the given random bytes. *)
Definition env_of (bs : list nat) : create_env :=
  mkCreateEnv (Ascii.ascii_of_nat <$> bs) [] [] (still machine).
Definition env1 : create_env := env_of [161; 178; 195; 212; 229; 246].
Definition env2 : create_env := env_of [1; 2; 3; 4; 5; 6].
(** A call that finds the session of [env1]. *)
Definition env2_replacing : create_env :=
  mkCreateEnv (e_rand env2) [randString (e_rand env1)] [] (still machine).

(** An environment in which Chromium answers the first attempt. *)
Definition answering : probe_env :=
  mkProbe (fun t => if (2 * Second <=? t)%Z then Some ErrDeadlineExceeded else None)
    (fun _ _ _ => (Millisecond, Body (mkFile version0_text None))) (fun _ d => d).

Lemma answers : version_result (Ok version0).
Proof.
  exists 1, answering, 0%Z. eexists _, _. split; [|vm_compute; reflexivity].
  intros t e. simpl. case_match; [|done]. intros. simplify_eq. by right.
Qed.

Lemma refuses : version_result (Err (exhausted ErrDeadlineExceeded)).
Proof.
  exists 9, refusing, 0%Z. eexists _, _. split; [|vm_compute; reflexivity].
  intros t e. simpl. case_match; [|done]. intros. simplify_eq. by right.
Qed.

(** The run: a session is acquired, a second acquire is refused, the session
    is deleted and its callback runs. *)
Definition started : prog := (create_begin env1 check0 true prog0).2.
Definition creating1 : creating := mkCreating (randString (e_rand env1)) 0
  [("sessionID", AString (randString (e_rand env1)))].
Definition busy : prog := (create_end creating1 (Ok version0) started).2.
Definition id1 : string := "a1b2c3d4e5f6".
Definition freed : prog := (Delete (still machine) id1 busy).2.
Definition reaped : prog :=
  set_ctxs (alter (set_after AfterDone) 0)
    (deleteWithReason (still machine) id1 TerminationReasonTimeout
       (log (reap_record (cr_logger creating1)) freed)).2.

Definition info1 : SessionInfo := mkSessionInfo id1 version0.

Lemma initial0 : initial prog0.
Proof. done. Qed.

Lemma step_started : step prog0 (EvStart true id1) started.
Proof.
  change id1 with (cr_id creating1).
  apply (step_start env1 check0); try done.
  all: vm_compute; constructor.
Qed.

Lemma step_busy : step started (EvReady (Ok info1)) busy.
Proof. by apply (step_ready creating1 (Ok version0)); [|apply answers|]. Qed.

Lemma run_busy : steps prog0 [EvStart true id1; EvReady (Ok info1)] busy.
Proof. eauto using steps, step_started, step_busy. Qed.

Lemma step_refused : step busy (EvReject true ErrSessionExists) busy.
Proof. apply (step_reject env2 check0); [done|]. vm_compute. reflexivity. Qed.

Lemma step_freed : step busy (EvDelete id1 true) freed.
Proof. apply (step_delete (still machine)); [done|]. vm_compute. reflexivity. Qed.

Lemma run_freed :
  steps prog0 [EvStart true id1; EvReady (Ok info1); EvReject true ErrSessionExists;
               EvDelete id1 true] freed.
Proof. eauto using steps, step_started, step_busy, step_refused, step_freed. Qed.
