(* ===== verification/Operations.v ===== *)
(** * The operations of the supervisor, one by one

    What each method does to the state, on every branch: creation, deletion,
    the iteration orders, the log labels, the session IDs, the defaults. *)

From S2P Require Import Prelude GoStrings OS Machine Json Metrics Chromium Cgroup Proc Supervisor Launch System Scenario.

(** ** The order of map iterations *)

#[export] Instance kill_one_proper : Proper ((≡) ==> (=) ==> (≡)) kill_one.
Proof.
  intros s s' [E] id ? <-. unfold core in E. injection E as E1 E2 E3 E4 E5 E6 E7 E8 E9 E10.
  unfold kill_one, delete_. simpl. rewrite <- E1.
  destruct (sessions (sup s) !! id); split; unfold core; simpl; congruence.
Qed.

Lemma kill_one_missing id s : sessions (sup s) !! id = None -> kill_one s id ≡ s.
Proof. intros E. unfold kill_one, delete_. simpl. by rewrite E. Qed.

Lemma end_ctx_alter_comm c c' (cs : list ctx) :
  alter (end_ctx ErrCanceled) c (alter (end_ctx ErrCanceled) c' cs) =
  alter (end_ctx ErrCanceled) c' (alter (end_ctx ErrCanceled) c cs).
Proof.
  destruct (decide (c = c')) as [->|]; [done|]. by apply list_alter_alter_ne.
Qed.

Lemma kill_one_comm id id' s : kill_one (kill_one s id) id' ≡ kill_one (kill_one s id') id.
Proof.
  destruct (decide (id = id')) as [->|Hne]; [done|].
  destruct (sessions (sup s) !! id) as [x|] eqn:E.
  2:{ rewrite (kill_one_missing id s) by done.
      rewrite (kill_one_missing id (kill_one s id')); [done|].
      unfold kill_one, delete_. simpl. destruct (sessions (sup s) !! id') eqn:E'; [|done].
      simpl. by rewrite lookup_delete_ne. }
  destruct (sessions (sup s) !! id') as [y|] eqn:E'.
  2:{ rewrite (kill_one_missing id' s) by done.
      rewrite (kill_one_missing id' (kill_one s id)); [done|].
      unfold kill_one, delete_. simpl. rewrite E. simpl. by rewrite lookup_delete_ne. }
  unfold kill_one, delete_. simpl. rewrite E, E'. simpl.
  rewrite !lookup_delete_ne, E, E' by done.
  split. unfold core. simpl. by rewrite delete_delete, (end_ctx_alter_comm (cancel y)).
Qed.

(** The order in which Go iterates over the session map does not matter
    to [killExisting]: any two orders of the same keys leave the same
    sessions, contexts and counters. *)
Theorem killExisting_order_irrelevant order order' s :
  order ≡ₚ order' -> killExisting order s ≡ killExisting order' s.
Proof.
  intros Hp.
  enough (forall s', s ≡ s' -> killExisting order s ≡ killExisting order' s') by auto.
  revert s. unfold killExisting.
  induction Hp as [|id o o' _ IH|id id' o|o1 o2 o3 _ IH1 _ IH2]; intros s s' E; simpl; [done| | |].
  - apply IH. by rewrite E.
  - assert (Hf : forall o t t', t ≡ t' -> foldl kill_one t o ≡ foldl kill_one t' o).
    { intros o'. induction o' as [|i o' IHo]; intros t t' Et; simpl; [done|]. apply IHo. by rewrite Et. }
    apply Hf. by rewrite kill_one_comm, E.
  - etransitivity; [by apply IH1|by apply IH2].
Qed.

(** ** Creating *)

(** The session that [create] puts in the map. *)
Definition created_session (env : create_env) (ci : CheckInfo) (v : VersionInfo) (s : prog) : session :=
  mkSession (mkSessionInfo (randString (e_rand env)) v) (length (ctxs s))
    (add_labels (Metadata ci) (e_meta_order env)
       (With (sup_logger (sup s)) ("sessionID", AString (randString (e_rand env))))).

Lemma killExisting_logger order s : sup_logger (sup (killExisting order s)) = sup_logger (sup s).
Proof.
  unfold killExisting. revert s. induction order as [|id o IH]; intros s; [done|]. simpl. rewrite IH.
  unfold kill_one, delete_. simpl. by destruct (_ !! id).
Qed.

Lemma create_begin_cr env ci ifFree s cr s' :
  key_order (sessions (sup s)) (e_kill_order env) ->
  create_begin env ci ifFree s = (Ok cr, s') ->
  cr_id cr = randString (e_rand env) /\
  forall v, mkSession (mkSessionInfo (cr_id cr) v) (cr_ctx cr) (cr_logger cr) = created_session env ci v s.
Proof.
  intros Ho. unfold create_begin, created_session.
  destruct (draining _); [by intros|]. destruct (ifFree && _); [by intros|].
  intros. simplify_eq/=. by rewrite (killed_length s), killExisting_logger by (by apply killExisting_killed).
Qed.

(** The contexts of replaced sessions are done. *)
Lemma replaced_done s s1 cx i x cx' :
  killed s s1 -> sessions (sup s) !! i = Some x -> (cancel x < length (ctxs s))%nat ->
  (ctxs s1 ++ [cx]) !! cancel x = Some cx' -> is_Some (cx_err cx').
Proof.
  intros K Hx Hlt. rewrite lookup_app_l by (by rewrite (killed_length _ _ K)).
  rewrite (kd_owned _ _ K i x Hx). intros (cx0 & _ & ->)%fmap_Some. apply end_ctx_ended.
Qed.

(** C6: what [create] does, on every branch.  A draining supervisor and, for
    [CreateIfFree], one that has a session refuse at once and change
    nothing.  Otherwise every existing session is removed, counted as
    replaced and its context cancelled; if Chromium answers, the new session
    is the only one, is returned and can be looked up, and is counted; if it
    does not, the error is returned, no session is left and the context of
    the failed one is cancelled. *)
Theorem create_spec env v ci ifFree s :
  key_order (sessions (sup s)) (e_kill_order env) ->
  let '(r, s') := create env v ci ifFree s in
  let id := randString (e_rand env) in
  if draining (sup s) then r = Err ErrDraining /\ s' = s
  else if decide (ifFree = true /\ sessions (sup s) <> ∅) then r = Err ErrSessionExists /\ s' = s
  else
    sessionsMtx (sup s') = None /\ wg (sup s') = (wg (sup s) + 1)%Z /\
    length (ctxs s') = S (length (ctxs s)) /\
    (forall i x, sessions (sup s) !! i = Some x ->
       forall cx, ctxs s' !! cancel x = Some cx -> (cancel x < length (ctxs s))%nat -> is_Some (cx_err cx)) /\
    default 0%Z (SessionsTerminated (metrics (sup s')) !! TerminationReasonReplaced) =
      (default 0%Z (SessionsTerminated (metrics (sup s)) !! TerminationReasonReplaced) +
       Z.of_nat (size (sessions (sup s))))%Z /\
    match v with
    | Ok version =>
        r = Ok (mkSessionInfo id version) /\
        sessions (sup s') = {[ id := created_session env ci version s ]} /\
        Session id s' = Some (mkSessionInfo id version) /\
        SessionActive (metrics (sup s')) = 1%Z /\
        SessionsCreated (metrics (sup s')) = (SessionsCreated (metrics (sup s)) + 1)%Z /\
        cx_err <$> ctxs s' !! length (ctxs s) = Some None
    | Err e =>
        r = Err e /\ sessions (sup s') = ∅ /\
        SessionsCreated (metrics (sup s')) = SessionsCreated (metrics (sup s)) /\
        cx_err <$> ctxs s' !! length (ctxs s) = Some (Some ErrCanceled)
    end.
Proof.
  intros Ho. unfold create.
  destruct (create_begin env ci ifFree s) as [[cr|e] s0] eqn:Eb.
  2:{ apply create_begin_rejected in Eb as [-> [[-> ->]|(-> & ? & -> & ?)]]; [done|].
      destruct (draining (sup s)); [done|]. by rewrite decide_True. }
  destruct (create_begin_cr _ _ _ _ _ _ Ho Eb) as [Hid Hcr].
  apply create_begin_begun in Eb as [Hd Hf _ Hc (s1 & cx & K & Hcs & Hsup & _ & _ & Herr & _)]; [|done].
  assert (Hnew : (ctxs s1 ++ [cx]) !! length (ctxs s) = Some cx).
  { rewrite <- (killed_length _ _ K). by rewrite list_lookup_middle. }
  assert (Hlen : length (ctxs s1 ++ [cx]) = S (length (ctxs s))).
  { rewrite length_app, (killed_length _ _ K). simpl. lia. }
  destruct v as [version|e]; unfold create_end; cbv zeta; simpl.
  all: rewrite Hd, decide_False by (intros [? ?]; auto).
  all: rewrite Hsup, Hcs; simpl; rewrite ?(kd_wg _ _ K), ?(kd_replaced _ _ K), ?(kd_sessions _ _ K),
    ?(kd_created _ _ K), ?length_alter, ?Hid, ?Hc.
  - rewrite insert_empty, <- (Hcr version), Hid, Hc, Hnew.
    split_and!; try done; [by intros; eapply replaced_done| |by simpl; rewrite Herr].
    unfold Session. simpl. rewrite Hsup. simpl.
    by rewrite (kd_sessions _ _ K), insert_empty, lookup_singleton_eq.
  - rewrite list_lookup_alter_eq, Hnew. split_and!; try done.
    + intros i x Hx cx' Hcx Hlt. rewrite list_lookup_alter_ne in Hcx by lia. by eapply replaced_done.
    + simpl. unfold end_ctx. by rewrite Herr.
Qed.

(** ** Deleting *)

Section deleting.
Context `{ProcFS}.

(** [Delete] removes exactly the session it is given, cancels its
    context, counts it once as deleted and reports that it found it; for an
    unknown ID it changes nothing and reports so, in particular when it is
    called a second time. *)
Theorem Delete_spec w id s :
  let '(found, s') := Delete w id s in
  found = bool_decide (is_Some (sessions (sup s) !! id)) /\
  sessions (sup s') = delete id (sessions (sup s)) /\
  (forall w', Delete w' id s' = (false, s')) /\
  match sessions (sup s) !! id with
  | None => s' = s
  | Some sess =>
      ctxs s' = alter (end_ctx ErrCanceled) (cancel sess) (ctxs s) /\
      SessionActive (metrics (sup s')) = 0%Z /\
      SessionsCreated (metrics (sup s')) = SessionsCreated (metrics (sup s)) /\
      SessionsTerminated (metrics (sup s')) =
        inc_label TerminationReasonDeleted (SessionsTerminated (metrics (sup s))) /\
      draining (sup s') = draining (sup s) /\ wg (sup s') = wg (sup s)
  end.
Proof.
  unfold Delete. destruct (sessions (sup s) !! id) as [sess|] eqn:E.
  - destruct (deleteWithReason_found w id TerminationReasonDeleted s sess E) as [Hf Hs].
    destruct (deleteWithReason w id _ s) as [found s'] eqn:Ed. simpl in Hf, Hs. subst found.
    destruct Hs as [Hs]. unfold core in Hs. simpl in Hs.
    injection Hs as E1 E2 E3 E4 E5 E6 E7 E8 E9 E10.
    split_and!; try done.
    intros w'. apply deleteWithReason_missing. rewrite E1. apply lookup_delete_eq.
  - rewrite deleteWithReason_missing by done. split_and!; try done.
    + by rewrite delete_id.
    + intros w'. by apply deleteWithReason_missing.
Qed.
End deleting.

(** ** Labels *)

Definition label_of (md : gmap string json) (k : string) : option attr :=
  v ← md !! k; if bool_decide (k ∈ allowedLabels) then Some (k, AJson v) else None.

Lemma add_labels_omap md order l : add_labels md order l = l ++ omap (label_of md) order.
Proof.
  unfold add_labels. revert l. induction order as [|k order IH]; intros l; simpl; [by rewrite app_nil_r|].
  unfold label_of at 1. rewrite IH. destruct (md !! k) as [v|]; simpl; [|done].
  case_bool_decide; [|done]. unfold With. by rewrite <- app_assoc.
Qed.

(** The labels of a session's logger: whatever metadata the client sends
    and in whatever order the map is iterated, exactly the allow-listed keys
    that are present are added, each once, with its value. *)
Theorem add_labels_spec md order l :
  key_order md order ->
  exists added, add_labels md order l = l ++ added /\ NoDup added.*1 /\
    forall k v, (k, v) ∈ added <-> k ∈ allowedLabels /\ exists j, md !! k = Some j /\ v = AJson j.
Proof.
  intros Ho. exists (omap (label_of md) order). split; [apply add_labels_omap|].
  assert (Hk : forall k a, label_of md k = Some a <->
    a.1 = k /\ k ∈ allowedLabels /\ exists j, md !! k = Some j /\ a.2 = AJson j).
  { intros k [k' v]. unfold label_of. destruct (md !! k) as [j|]; simpl; [|naive_solver].
    case_bool_decide; naive_solver. }
  assert (Hnd : NoDup order).
  { unfold key_order, keys in Ho. rewrite Ho. apply NoDup_fst_map_to_list. }
  assert (Hin : forall k, is_Some (md !! k) -> k ∈ order).
  { intros k [j Hj]. unfold key_order, keys in Ho. rewrite Ho. apply list_elem_of_fmap.
    exists (k, j). split; [done|]. by apply elem_of_map_to_list. }
  split.
  - clear Ho Hin. induction Hnd as [|k o Hni Hnd IH]; simpl; [constructor|].
    destruct (label_of md k) as [a|] eqn:E; [|done]. simpl. constructor; [|done].
    apply Hk in E as (-> & _). intros (b & -> & Hb)%list_elem_of_fmap.
    apply list_elem_of_omap in Hb as (k' & Hk' & (E & _)%Hk). congruence.
  - intros k v. rewrite list_elem_of_omap. setoid_rewrite Hk. simpl. split.
    + by intros (k' & ? & -> & ? & ?).
    + intros (? & j & ? & ?). exists k. split_and!; eauto.
Qed.

(** ** Session IDs *)

Definition hex_alphabet : string := "0123456789abcdef".
Definition hex_value (c : ascii) : N := let n := N_of_ascii c in if (n <? 58)%N then n - 48 else n - 87.

Lemma hex_digit_spec n :
  (n < 16)%N -> hex_value (hex_digit n) = n /\ mem_byte (hex_digit n) hex_alphabet = true.
Proof.
  intros Hn.
  assert (Forall (fun n => hex_value (hex_digit n) = n /\ mem_byte (hex_digit n) hex_alphabet = true)
    (N.of_nat <$> seq 0 16)) as Hall by (repeat constructor).
  rewrite Forall_forall in Hall. apply Hall, list_elem_of_fmap.
  exists (N.to_nat n). split; [lia|]. apply elem_of_seq. lia.
Qed.

Lemma byte_halves b : (N_of_ascii b / 16 < 16)%N /\ (N_of_ascii b mod 16 < 16)%N.
Proof.
  pose proof (N_ascii_bounded b). split; [apply N.Div0.div_lt_upper_bound; lia|by apply N.mod_lt].
Qed.

Lemma hex_encode_length bs : String.length (hex_encode bs) = 2 * length bs.
Proof. induction bs as [|b bs IH]; simpl; lia. Qed.

Lemma hex_encode_alphabet bs c : mem_byte c (hex_encode bs) = true -> mem_byte c hex_alphabet = true.
Proof.
  induction bs as [|b bs IH]; [done|].
  cbn [hex_encode mem_byte]. destruct (byte_halves b) as [H1 H2].
  destruct (hex_digit_spec _ H1) as [_ M1], (hex_digit_spec _ H2) as [_ M2].
  intros [->%Ascii.eqb_eq|[->%Ascii.eqb_eq|?]%orb_true_iff]%orb_true_iff; auto.
Qed.

Lemma hex_encode_inj bs bs' : hex_encode bs' = hex_encode bs -> bs' = bs.
Proof.
  revert bs'. induction bs as [|b bs IH]; intros [|b' bs']; cbn [hex_encode]; try done.
  intros E. injection E as E1 E2 E3.
  apply (f_equal hex_value) in E1, E2.
  destruct (byte_halves b) as [H1 H2], (byte_halves b') as [H1' H2'].
  rewrite !(fun n Hn => proj1 (hex_digit_spec n Hn)) in E1, E2 by done.
  f_equal; [|by apply IH].
  rewrite <- (ascii_N_embedding b), <- (ascii_N_embedding b').
  rewrite (N.div_mod' (N_of_ascii b) 16), (N.div_mod' (N_of_ascii b') 16). by rewrite E1, E2.
Qed.

(** Session IDs are twelve lower-case hexadecimal digits, and different
    random bytes give different IDs. *)
Theorem randString_spec bs :
  length bs = IDLen / 2 ->
  String.length (randString bs) = IDLen /\
  (forall c, mem_byte c (randString bs) = true -> mem_byte c hex_alphabet = true) /\
  (forall bs', randString bs' = randString bs -> bs' = bs).
Proof.
  intros Hl. split_and!; [|apply hex_encode_alphabet|apply hex_encode_inj].
  unfold randString. by rewrite hex_encode_length, Hl.
Qed.

(** ** Defaults *)

Definition or_default (s d : string) : string := if bool_decide (s = EmptyString) then d else s.

Lemma or_default_nonempty s d : d <> EmptyString -> or_default s d <> EmptyString.
Proof. unfold or_default. by case_bool_decide. Qed.

Lemma or_default_id s d : s <> EmptyString -> or_default s d = s.
Proof. intros. unfold or_default. by rewrite bool_decide_false. Qed.

Lemma or_default_idem s d : or_default (or_default s d) d = or_default s d.
Proof. unfold or_default. repeat case_bool_decide; congruence. Qed.

Lemma withDefaults_still `{ProcFS} fs tmp reg o :
  let procroot := or_default (ProcFSRoot o) "/proc" in
  run_io (withDefaults tmp reg o) (still fs) =
    mkOptions (ChromiumPath o) (or_default (ChromiumPort o) defaultChromiumPort)
      (if (SessionTimeout_ o =? 0)%Z then defaultSessionTimeout else SessionTimeout_ o)
      (UserGroup o) (or_default (TempDir o) tmp) (Some (default reg (Registry o))) (ExtraUATerms o)
      (or_default (CgroupMemoryEventsPath o)
         (run_io (detectCgroupMemoryEventsPath procroot) (still fs)))
      (EnableProcessMetrics o) procroot.
Proof.
  unfold withDefaults, run_io, mbind, io_bind, or_default. cbv zeta.
  destruct (Registry o); simpl; case_bool_decide; simpl; try done;
    by destruct (detectCgroupMemoryEventsPath _ _ _).
Qed.

(** [withDefaults] leaves no option unset, keeps what the caller set, and
    applying it again changes nothing. *)
Theorem withDefaults_spec `{ProcFS} fs tmp reg o :
  tmp <> EmptyString ->
  let o' := run_io (withDefaults tmp reg o) (still fs) in
  ChromiumPort o' <> EmptyString /\ SessionTimeout_ o' <> 0%Z /\ TempDir o' <> EmptyString /\
  is_Some (Registry o') /\ ProcFSRoot o' <> EmptyString /\
  (CgroupMemoryEventsPath o <> EmptyString -> CgroupMemoryEventsPath o' = CgroupMemoryEventsPath o) /\
  (SessionTimeout_ o <> 0%Z -> SessionTimeout_ o' = SessionTimeout_ o) /\
  (forall reg', run_io (withDefaults tmp reg' o') (still fs) = o').
Proof.
  intros Htmp. cbv zeta.
  assert (Ht : (if (SessionTimeout_ o =? 0)%Z then defaultSessionTimeout else SessionTimeout_ o) <> 0%Z).
  { destruct (_ =? 0)%Z eqn:E; [done|]. by apply Z.eqb_neq. }
  pose proof (or_default_nonempty (ProcFSRoot o) "/proc" ltac:(done)) as Hroot.
  pose proof (or_default_nonempty (ChromiumPort o) defaultChromiumPort ltac:(done)) as Hport.
  pose proof (or_default_nonempty (TempDir o) tmp Htmp) as Hdir.
  rewrite (withDefaults_still fs tmp reg o). simpl.
  split_and!; try done; [by intros; apply or_default_id| |].
  { intros Hs. by rewrite (proj2 (Z.eqb_neq _ _) Hs). }
  intros reg'. rewrite withDefaults_still. simpl.
  rewrite (proj2 (Z.eqb_neq _ _) Ht).
  by rewrite (or_default_idem (ProcFSRoot o)), !or_default_idem.
Qed.

(** ** Witnesses *)

Lemma killExisting_order_irrelevant_witness :
  killExisting [id1; "x"] busy ≡ killExisting ["x"; id1] busy.
Proof. apply killExisting_order_irrelevant. apply perm_swap. Defined.

Lemma busy_key_order : key_order (sessions (sup busy)) (e_kill_order env2_replacing).
Proof.
  unfold key_order.
  assert (keys (sessions (sup busy)) = [id1]) as -> by (vm_compute; reflexivity).
  assert (e_kill_order env2_replacing = [id1]) as -> by (vm_compute; reflexivity).
  reflexivity.
Qed.

Lemma create_spec_witness :
  let '(r, s') := create env2_replacing (Ok version0) check0 false busy in
  r = Ok (mkSessionInfo "010203040506" version0) /\
  sessions (sup s') !! id1 = None.
Proof.
  pose proof busy_key_order as Ho.
  pose proof (create_spec env2_replacing (Ok version0) check0 false busy Ho) as Hs.
  destruct (create env2_replacing (Ok version0) check0 false busy) as [r s'] eqn:E.
  change (draining (sup busy)) with false in Hs. cbv zeta iota in Hs.
  rewrite decide_False in Hs by (by intros [? _]).
  destruct Hs as (_ & _ & _ & _ & _ & -> & -> & _). split; [done|]. vm_compute. reflexivity.
Defined.

Lemma add_labels_spec_witness :
  exists added,
    add_labels {["tenantID" := JString "7"; "secret" := JString "x"]} ["secret"; "tenantID"] [] = [] ++ added /\
    ("tenantID", AJson (JString "7")) ∈ added /\ forall v, ("secret", v) ∉ added.
Proof.
  destruct (add_labels_spec {["tenantID" := JString "7"; "secret" := JString "x"]}
              ["secret"; "tenantID"] []) as (added & E & _ & Hin).
  { unfold key_order.
    assert (keys {["tenantID" := JString "7"; "secret" := JString "x"]} = ["secret"; "tenantID"]) as ->
      by (vm_compute; reflexivity).
    reflexivity. }
  exists added. split_and!; [done| |].
  - apply Hin. split; [by vm_compute; right; left|]. exists (JString "7"). done.
  - intros v [Hn _]%Hin. unfold allowedLabels in Hn. set_solver.
Defined.

Lemma randString_spec_witness : String.length (randString (e_rand env1)) = 12.
Proof. by apply (randString_spec (e_rand env1)). Defined.

Lemma withDefaults_spec_witness :
  ChromiumPort (run_io (withDefaults "/tmp" 0 (mkOptions "chromium" "" 0 0 "" None "" "" false "")) (still machine)) <> EmptyString.
Proof. by apply (withDefaults_spec machine "/tmp" 0). Defined.
