(* ===== verification/Typing.v ===== *)
(** * The typing of a running program

    What the values the supervisor keeps and hands out look like, in every
    state and at every step: session IDs, loggers, the bookkeeping between the
    session map, the contexts and the lock, and the series of the metrics. *)

From S2P Require Import Prelude GoStrings OS Machine Json Metrics Chromium Cgroup Proc Supervisor Launch System Scenario Operations.

(** ** Types of values *)

(** Twelve lower-case hexadecimal digits. *)
Definition session_id (id : string) : Prop :=
  String.length id = IDLen /\ all_bytes (fun c => mem_byte c hex_alphabet) id = true.

(** The labels of [allowedLabels], each at most once, with values of the
    client's metadata. *)
Definition label_typed (a : attr) : Prop := a.1 ∈ allowedLabels /\ exists j, a.2 = AJson j.
Definition labels_typed (l : list attr) : Prop := NoDup l.*1 /\ Forall label_typed l.

(** The logger of session [id] in a supervisor whose logger is [base]. *)
Definition session_logger (base : logger) (id : string) (l : logger) : Prop :=
  exists labels, l = base ++ ("sessionID", AString id) :: labels /\ labels_typed labels.

(** What identifies a context. *)
Definition tag (cx : ctx) : string * logger := (cx_id cx, cx_logger cx).
Definition tag_typed (base : logger) (t : string * logger) : Prop :=
  session_id t.1 /\ session_logger base t.1 t.2.

(** The series of a vector have the given label values and positive counts. *)
Definition vec_typed (labels : list string) (m : gmap string Z) : Prop :=
  map_Forall (fun l n => l ∈ labels /\ (0 < n)%Z) m.

Definition reasons : list string :=
  [TerminationReasonDeleted; TerminationReasonTimeout; TerminationReasonReplaced].
Definition states : list string := [ExecutionStateFinished; ExecutionStateFailed].

Record metrics_typed (m : SupervisorMetrics) : Prop := {
  mt_active : SessionActive m ∈ [0; 1]%Z;
  mt_created : (0 <= SessionsCreated m)%Z;
  mt_terminated : vec_typed reasons (SessionsTerminated m);
  mt_executions : vec_typed states (ChromiumExecutions m);
  mt_resources : map_Forall (fun l _ => l = ResourceRSS) (ChromiumResources m);
  mt_oom : (0 <= OOMKills m)%Z;
}.

(** ** Types of programs and of what they answer *)

Record well_typed (base : logger) (s : prog) : Prop := {
  wt_logger : sup_logger (sup s) = base;
  wt_ctxs : Forall (tag_typed base) (tag <$> ctxs s);
  wt_sessions id sess : sessions (sup s) !! id = Some sess ->
    ID (info sess) = id /\ (tag <$> ctxs s) !! cancel sess = Some (id, slogger sess);
  wt_creating cr : sessionsMtx (sup s) = Some cr ->
    (tag <$> ctxs s) !! cr_ctx cr = Some (cr_id cr, cr_logger cr);
  wt_metrics : metrics_typed (metrics (sup s));
}.

Definition event_typed (e : event) : Prop :=
  match e with
  | EvReject ifFree e => e = ErrDraining \/ ifFree = true /\ e = ErrSessionExists
  | EvStart _ id | EvReap id _ => session_id id
  | EvReady (Ok si) => session_id (ID si)
  | EvReady (Err e) => version_result (Err e)
  | EvSession id (Some si) => session_id id /\ ID si = id
  | EvSessions ids => NoDup ids /\ Forall session_id ids
  | _ => True
  end.

(** ** Metrics *)

Lemma vec_typed_inc labels l m : l ∈ labels -> vec_typed labels m -> vec_typed labels (inc_label l m).
Proof.
  intros Hl Hm. unfold inc_label. apply map_Forall_insert_2; [|done]. split; [done|].
  destruct (m !! l) as [n|] eqn:E; simpl; [|lia]. destruct (Hm l n E). lia.
Qed.

Lemma float64_nonneg z : (0 <= z)%Z -> (0 <= float64_of_int z)%Z.
Proof.
  intros Hz. unfold float64_of_int. rewrite (proj2 (Z.ltb_ge z 0)) by lia.
  unfold float64_of_nonneg. case_match; [done|]. cbv zeta.
  set (e := (Z.log2 z - 52)%Z).
  pose proof (Z.div_pos z (2 ^ e)). pose proof (Z.pow_nonneg 2 e).
  destruct (Z.eq_dec (2 ^ e)%Z 0%Z) as [->|]; [rewrite Z.mul_0_r; lia|].
  apply Z.mul_nonneg_nonneg; [case_match; lia|lia].
Qed.

(** What an operation may do to the metrics. *)
Inductive metrics_update : (SupervisorMetrics -> SupervisorMetrics) -> Prop :=
  | mu_active v : v ∈ [0; 1]%Z -> metrics_update (set_active v)
  | mu_created : metrics_update inc_created
  | mu_terminated r : r ∈ reasons -> metrics_update (inc_terminated r)
  | mu_execution st : st ∈ states -> metrics_update (inc_execution st)
  | mu_rss v : metrics_update (observe_rss v)
  | mu_duration v : metrics_update (observe_duration v)
  | mu_oom v : (0 <= v)%Z -> metrics_update (add_oom_kills v).

Lemma metrics_update_typed f m : metrics_update f -> metrics_typed m -> metrics_typed (f m).
Proof.
  intros Hf []. destruct Hf; split; simpl; auto using vec_typed_inc; try lia.
  by apply map_Forall_insert_2.
Qed.

(** ** Operations that open no session *)

(** The program keeps its logger, the identities of its contexts and the
    command it starts Chromium with, may lose sessions and the holder of the
    lock, and its metrics stay typed. *)
Record narrows (s s' : prog) : Prop := {
  nw_logger : sup_logger (sup s') = sup_logger (sup s);
  nw_tags : tag <$> ctxs s' = tag <$> ctxs s;
  nw_sessions id sess : sessions (sup s') !! id = Some sess -> sessions (sup s) !! id = Some sess;
  nw_lock cr : sessionsMtx (sup s') = Some cr -> sessionsMtx (sup s) = Some cr;
  nw_metrics : metrics_typed (metrics (sup s)) -> metrics_typed (metrics (sup s'));
  nw_command : launch_command (sup s') = launch_command (sup s);
}.

#[export] Instance narrows_preorder : PreOrder narrows.
Proof.
  split; [by intros s; split|]. intros s1 s2 s3 [] []. split; [congruence|congruence|auto..|congruence].
Qed.

Lemma narrows_typed base s s' : narrows s s' -> well_typed base s -> well_typed base s'.
Proof.
  intros [El Et Es Ec Em _] [Wl Wt Ws Wc Wm]. split; rewrite ?Et; [congruence|done| | |auto].
  - eauto.
  - eauto.
Qed.

Lemma narrows_metrics f s : metrics_update f -> narrows s (set_sup (set_metrics f) s).
Proof. intros Hf. split; try done. by apply metrics_update_typed. Qed.

Lemma narrows_log r s : narrows s (log r s).
Proof. by split. Qed.

Lemma narrows_end e c s : narrows s (end_context e c s).
Proof.
  split; try done. simpl. apply fmap_alter_same. intros cx. unfold end_ctx. by case_match.
Qed.

Lemma narrows_cancel c s : narrows s (call_cancel c s).
Proof. apply narrows_end. Qed.

Lemma narrows_drop id s : narrows s (set_sup (set_sessions (delete id)) s).
Proof. split; try done. cbn. by intros id' sess [_ ?]%lookup_delete_Some. Qed.

Lemma narrows_inactive r s : r ∈ reasons -> narrows s (set_sup (setSessionInactive r) s).
Proof.
  intros Hr. split; try done. intros Hm. simpl.
  apply (metrics_update_typed (inc_terminated r)); [by constructor|].
  apply (metrics_update_typed (set_active 0)); [|done]. constructor. set_solver.
Qed.

(** Chains the narrowing of the operations of a function. *)
Create HintDb narrows.
#[export] Hint Resolve narrows_metrics narrows_log narrows_end narrows_cancel narrows_drop
  narrows_inactive : narrows.

Ltac narrow := first [reflexivity | etransitivity; [|solve [eauto with narrows]]; narrow].

Lemma narrows_kill_one s id : narrows s (kill_one s id).
Proof.
  unfold kill_one, delete_. destruct (sessions _ !! id); simpl snd; [|narrow].
  etransitivity; [|apply narrows_inactive; set_solver]. narrow.
Qed.

Lemma narrows_killExisting order s : narrows s (killExisting order s).
Proof.
  revert s. induction order as [|id order IH]; intros s; [reflexivity|].
  etransitivity; [apply narrows_kill_one|apply IH].
Qed.

Lemma narrows_takeSession id r s : r ∈ reasons -> narrows s (takeSession id r s).2.
Proof. intros Hr. unfold takeSession. destruct (sessions _ !! id); simpl snd; narrow. Qed.

Lemma narrows_logs rs s : narrows s (foldl (flip log) s rs).
Proof.
  revert s. induction rs as [|r rs IH]; intros s; [reflexivity|].
  etransitivity; [apply narrows_log|apply IH].
Qed.

Lemma narrows_unlock s : narrows s (set_sup (set_lock None) s).
Proof. by split. Qed.

Lemma narrows_wg n s : narrows s (set_sup (add_wg n) s).
Proof. by split. Qed.

Lemma narrows_tmpdirs d s : narrows s (set_tmpdirs d s).
Proof. by split. Qed.
#[export] Hint Resolve narrows_kill_one narrows_killExisting narrows_takeSession narrows_logs
  narrows_unlock narrows_wg narrows_tmpdirs : narrows.
#[export] Hint Constructors metrics_update : narrows.

Lemma narrows_launch_steps f c s :
  (forall cx, tag (f cx) = tag cx) -> narrows s (set_ctxs (alter f c) s).
Proof. intros Hf. split; try done. simpl. by apply fmap_alter_same. Qed.

Lemma narrows_mkdirTemp env s : narrows s (mkdirTemp env s).2.
Proof. unfold mkdirTemp. repeat case_match; simplify_eq; simpl snd; narrow. Qed.

Lemma narrows_account_oom l b a s : narrows s (account_oom l b a s).
Proof.
  unfold account_oom. cbv zeta. repeat case_match; try (solve [narrow]).
  etransitivity; [|apply narrows_metrics, mu_oom, float64_nonneg, wrap_u64_range]. narrow.
Qed.

Lemma narrows_observe_process ps s : narrows s (observe_process ps s).
Proof. unfold observe_process. case_match; narrow. Qed.

Lemma narrows_conclude env l r s : narrows s (conclude env l r s).2.
Proof.
  unfold conclude. case_match; simpl snd.
  all: etransitivity; [|apply narrows_log]; apply narrows_metrics, mu_execution; set_solver.
Qed.

Lemma narrows_launch env l oom s : narrows s (launch env l oom s).2.
Proof.
  unfold launch. set (s0 := log _ s). assert (N0 : narrows s s0) by apply narrows_log.
  pose proof (narrows_mkdirTemp (le_mkdir env) s0) as N.
  destruct (mkdirTemp _ s0) as [[dir|e] s1]; simpl in *; [|by transitivity s0].
  set (s2 := account_oom _ _ _ s1). set (s3 := observe_process _ s2).
  pose proof (narrows_conclude env l (le_run env (launch_command (sup s1) dir)) s3) as N3.
  destruct (conclude env l _ s3) as [err s4]. simpl in N3.
  assert (Hn : narrows s s4).
  { etransitivity; [|exact N3]. etransitivity; [|apply narrows_observe_process].
    etransitivity; [|apply narrows_account_oom]. by transitivity s0. }
  destruct (le_remove env); simpl snd; (etransitivity; [exact Hn|]); narrow.
Qed.

Lemma narrows_launch_goroutine env l oom s : narrows s (launch_goroutine env l oom s).2.
Proof.
  unfold launch_goroutine. pose proof (narrows_launch env l oom s) as N.
  destruct (launch env l oom s) as [[[e|]|e] s1]; simpl in *; (etransitivity; [exact N|]); narrow.
Qed.

Lemma narrows_ua_goroutine env s : narrows s (ua_goroutine env s).2.
Proof.
  unfold ua_goroutine. set (l := With _ _).
  pose proof (narrows_launch env l (Err skipOOMSampling) s) as N.
  destruct (launch env l _ s) as [[[e|]|e] s1]; simpl in *; (etransitivity; [exact N|]); narrow.
Qed.

(** ** Session IDs and loggers *)

Lemma randString_typed bs : length bs = IDLen / 2 -> session_id (randString bs).
Proof.
  intros Hl. unfold randString. split; [by rewrite hex_encode_length, Hl|].
  apply all_bytes_mem. apply hex_encode_alphabet.
Qed.

Lemma add_labels_typed md order l :
  key_order md order -> exists labels, add_labels md order l = l ++ labels /\ labels_typed labels.
Proof.
  intros (labels & E & Hnd & Hin)%(add_labels_spec md order l). exists labels. split; [done|].
  split; [done|]. apply Forall_forall. intros [k v] (? & j & _ & ->)%Hin. split; simpl; eauto.
Qed.

Section typing.
Context `{ProcFS}.

Lemma narrows_deleteWithReason w id r s : r ∈ reasons -> narrows s (deleteWithReason w id r s).2.
Proof.
  intros Hr. unfold deleteWithReason. pose proof (narrows_takeSession id r s Hr) as N.
  destruct (takeSession id r s) as [[sess|] s1]; [|done]. simpl in *. etransitivity; [exact N|]. narrow.
Qed.

Lemma create_begin_typed base env ci ifFree s cr s' :
  key_order (Metadata ci) (e_meta_order env) -> length (e_rand env) = IDLen / 2 ->
  create_begin env ci ifFree s = (Ok cr, s') -> well_typed base s ->
  well_typed base s' /\ session_id (cr_id cr).
Proof.
  intros Hm Hr. unfold create_begin. destruct (draining _); [done|]. destruct (ifFree && _); [done|].
  intros Hb W. pose proof (narrows_killExisting (e_kill_order env) s) as N.
  set (s1 := killExisting _ s) in *. clearbody s1.
  set (s2 := match run_io _ _ with Err _ => _ | Ok _ => s1 end) in Hb.
  assert (N2 : narrows s1 s2) by (unfold s2; case_match; narrow).
  assert (Hlen : length (ctxs s1) = length (ctxs s2)).
  { rewrite <- (length_fmap tag (ctxs s1)), <- (nw_tags _ _ N2). by rewrite length_fmap. }
  apply (narrows_typed base) in N; [|done]. apply (narrows_typed base) in N2; [|done].
  clearbody s2. injection Hb as <- <-. destruct N2 as [Wl Wt Ws Wc Wm].
  destruct (add_labels_typed (Metadata ci) (e_meta_order env)
    (With (sup_logger (sup s1)) ("sessionID", AString (randString (e_rand env)))) Hm) as (labels & El & Hl).
  rewrite El. clear El. unfold With. rewrite (wt_logger _ _ N), <- app_assoc.
  pose proof (randString_typed _ Hr) as Hid.
  split; [split; cbn|done]; rewrite ?fmap_app.
  - done.
  - apply Forall_app. split; [done|]. constructor; [|constructor]. split; [done|]. by exists labels.
  - intros id sess E. destruct (Ws id sess E) as [? Ht]. split; [done|]. by apply lookup_app_l_Some.
  - intros cr [= <-]. cbn. by rewrite Hlen, lookup_app_r, length_fmap, Nat.sub_diag by by rewrite length_fmap.
  - done.
Qed.

Lemma tag_lookup base s c t : well_typed base s -> (tag <$> ctxs s) !! c = Some t -> session_id t.1.
Proof.
  intros W Ht. pose proof (wt_ctxs _ _ W) as Hall. rewrite Forall_lookup in Hall. by destruct (Hall _ _ Ht).
Qed.

Lemma session_typed base s id sess :
  well_typed base s -> sessions (sup s) !! id = Some sess -> ID (info sess) = id /\ session_id id.
Proof.
  intros W E. destruct (wt_sessions _ _ W id sess E) as [Hid Ht]. split; [done|].
  by apply (tag_lookup base s _ _ W Ht).
Qed.

Lemma create_end_typed base cr r s x s' :
  sessionsMtx (sup s) = Some cr -> version_result r ->
  create_end cr r s = (x, s') -> well_typed base s -> well_typed base s' /\ event_typed (EvReady x).
Proof.
  intros Hl Hr Hc W. pose proof (wt_creating _ _ W cr Hl) as Ht.
  assert (Hid : session_id (cr_id cr)).
  { by apply (tag_lookup base s _ _ W Ht). }
  unfold create_end in Hc. destruct r as [v|e]; injection Hc as <- <-; (split; [|done]).
  - destruct W as [Wl Wt Ws Wc Wm]. split; cbn; [done|done| |done|].
    + intros id sess [[<- <-]|[_ E]]%lookup_insert_Some; [done|eauto].
    + apply (metrics_update_typed inc_created); [constructor|].
      apply (metrics_update_typed (set_active 1)); [constructor; set_solver|done].
  - eapply narrows_typed; [|exact W]. narrow.
Qed.

Lemma Sessions_typed base s ids :
  well_typed base s -> ids ≡ₚ Sessions s -> NoDup ids /\ Forall session_id ids.
Proof.
  intros W ->. unfold Sessions, keys. split; [apply NoDup_fst_map_to_list|].
  apply Forall_forall. intros id ([? sess] & -> & E%elem_of_map_to_list)%list_elem_of_fmap.
  by apply (session_typed base s _ sess).
Qed.

(** Subject reduction. *)
Lemma step_typed base s e s' : well_typed base s -> step s e s' -> well_typed base s' /\ event_typed e.
Proof.
  intros W Hst. destruct Hst.
  - destruct (create_begin_rejected _ _ _ _ _ _ H1) as [-> [[-> _]|(-> & _ & -> & _)]]; simpl; auto.
  - by eapply create_begin_typed.
  - by eapply create_end_typed.
  - pose proof (narrows_deleteWithReason w id TerminationReasonDeleted s ltac:(set_solver)) as N.
    unfold Delete in *. rewrite H1 in N. split; [|done]. by eapply narrows_typed.
  - split; [|apply (tag_lookup base s c (tag cx)); [done|by rewrite list_lookup_fmap, H1]].
    pose proof (narrows_deleteWithReason w (cx_id cx) TerminationReasonTimeout
      (log (reap_record (cx_logger cx)) s) ltac:(set_solver)) as N.
    rewrite H3 in N. eapply narrows_typed; [|exact W].
    etransitivity; [apply narrows_log|]. etransitivity; [exact N|]. by apply narrows_launch_steps.
  - split; [done|]. unfold Session. simpl. destruct (sessions _ !! id) eqn:E; [|done]. simpl.
    destruct (session_typed _ _ _ _ W E). done.
  - split; [done|]. by eapply Sessions_typed.
  - split; [|done]. eapply narrows_typed; [|exact W]. by split.
  - done.
  - split; [|done]. eapply narrows_typed; [|exact W]. apply narrows_end.
  - split; [|done]. pose proof (narrows_launch_goroutine env (cx_logger cx) (cx_oom cx) s) as N.
    rewrite H3 in N. eapply narrows_typed; [|exact W]. etransitivity; [exact N|].
    by apply narrows_launch_steps.
  - split; [|done]. pose proof (narrows_ua_goroutine env s) as N. rewrite H0 in N. by eapply narrows_typed.
  - split; [|done]. eapply narrows_typed; [|exact W]. apply narrows_log.
  - split; [|done]. eapply narrows_typed; [|exact W]. by split.
Qed.

(** No step changes the command. *)
Lemma create_begin_command env ci ifFree s cr s' :
  create_begin env ci ifFree s = (Ok cr, s') -> launch_command (sup s') = launch_command (sup s).
Proof.
  unfold create_begin. destruct (draining _); [done|]. destruct (ifFree && _); [done|].
  rewrite <- (nw_command _ _ (narrows_killExisting (e_kill_order env) s)).
  set (s1 := killExisting _ s). clearbody s1. intros [= <- <-]. by case_match.
Qed.

Lemma step_command s e s' : step s e s' -> launch_command (sup s') = launch_command (sup s).
Proof.
  intros Hst. destruct Hst; try done.
  - by destruct (create_begin_rejected _ _ _ _ _ _ H1) as [-> _].
  - by eapply create_begin_command.
  - unfold create_end in H2. destruct r; by simplify_eq.
  - pose proof (narrows_deleteWithReason w id TerminationReasonDeleted s ltac:(set_solver)) as N.
    unfold Delete in *. rewrite H1 in N. apply N.
  - pose proof (narrows_deleteWithReason w (cx_id cx) TerminationReasonTimeout
      (log (reap_record (cx_logger cx)) s) ltac:(set_solver)) as N.
    rewrite H3 in N. apply N.
  - pose proof (narrows_launch_goroutine env (cx_logger cx) (cx_oom cx) s) as N. rewrite H3 in N. apply N.
  - pose proof (narrows_ua_goroutine env s) as N. rewrite H0 in N. apply N.
Qed.

Lemma steps_command s es s' : steps s es s' -> launch_command (sup s') = launch_command (sup s).
Proof. induction 1 as [|s e s1 es s2 Hst _ IH]; [done|]. rewrite IH. by eapply step_command. Qed.

Lemma initial_typed s : initial s -> well_typed (sup_logger (sup s)) s.
Proof.
  intros (Es & El & Em & _ & _ & Ec). split; rewrite ?Es, ?El, ?Em, ?Ec; try done.
  split; first [done|left|apply map_Forall_empty].
Qed.

(** C4: Every value of a run has the shape its users rely on.  Whatever steps
    the program takes, session IDs are twelve lower-case hexadecimal digits,
    in the map, in the goroutines' closures and in everything the supervisor
    answers; the list of sessions has no duplicates; a session is stored under
    the ID it was given and cancels the context made for it; the logger of a
    session is the supervisor's with its own [sessionID] and allow-listed
    labels of the client's metadata, each at most once; errors of a creation
    are [ErrDraining], [ErrSessionExists] (only when asked for a free browser)
    or what [Version] returns; and the metrics stay in their domains: the
    gauge is 0 or 1, counters are not negative, vectors only have the declared
    label values. *)
Theorem runs_well_typed s0 es s :
  initial s0 -> steps s0 es s -> well_typed (sup_logger (sup s0)) s /\ Forall event_typed es.
Proof.
  intros Hi Hst. pose proof (initial_typed s0 Hi) as W. clear Hi.
  generalize dependent (sup_logger (sup s0)). intros base W.
  induction Hst as [|s0 e s1 es s Hst _ IH]; [done|].
  destruct (step_typed base s0 e s1 W Hst) as [W1 He]. destruct (IH W1). auto.
Qed.
End typing.

Lemma runs_well_typed_witness :
  well_typed [] freed /\ Forall event_typed
    [EvStart true id1; EvReady (Ok info1); EvReject true ErrSessionExists; EvDelete id1 true].
Proof. apply (runs_well_typed prog0); [apply initial0|apply run_freed]. Defined.
