(* ===== verification/Outcome.v ===== *)
(** * The outcome of a launch

    What [launch] reports about a run of Chromium: executions, resources and
    OOM kills, its error, the command it runs and the directory it leaves;
    and the user agent the runs after [ComputeUserAgent] have. *)

From S2P Require Import Prelude GoStrings OS Machine Json Metrics Chromium Cgroup Proc Supervisor Launch System Scenario Typing.

(** ** The reference *)

(** The run ended with an error that cancelling it does not explain. *)
Definition run_failed (env : launch_env) (r : run_result) : bool :=
  bool_decide (is_Some (run_err r)) && negb (is_canceled (le_ctx_err env)).

(** What is added to the OOM-kill counter. *)
Definition oom_increment (before after : res Z) : Z :=
  match before, after with
  | Ok b, Ok a => if (b <? a)%Z then float64_of_int (a - b) else 0
  | _, _ => 0
  end.

(** The kernel's counter as read after the run. *)
Definition oom_after (env : launch_env) (s : prog) : res Z :=
  run_io (readOOMKillCount (CgroupMemoryEventsPath (opts (sup s)))) (le_world env).

(** The metrics after a run [r]. *)
Definition account (env : launch_env) (r : run_result) (oomBefore oomAfter : res Z)
    (m : SupervisorMetrics) : SupervisorMetrics :=
  mkMetrics (run_elapsed r :: SessionDuration m)
    (inc_label (if run_failed env r then ExecutionStateFailed else ExecutionStateFinished)
       (ChromiumExecutions m))
    match run_process r ≫= ps_maxrss with
    | Some kib => observe_label ResourceRSS (float64_of_int (maxrss_bytes kib)) (ChromiumResources m)
    | None => ChromiumResources m
    end
    (SessionActive m) (SessionsCreated m) (SessionsTerminated m)
    (OOMKills m + oom_increment oomBefore oomAfter).

Lemma readOOMKillCount_range path w n : run_io (readOOMKillCount path) w = Ok n -> is_u64 n.
Proof.
  unfold readOOMKillCount. io_run. destruct (bool_decide _); [intros; simplify_eq; unfold is_u64; lia|].
  destruct (fs_open _ _) as [f|e]; [|case_match; intros; simplify_eq; unfold is_u64; lia].
  destruct (scanner f) as [lines err]. pose proof (scan_oom_kill_result path lines err) as Hr.
  intros E. by rewrite E in Hr.
Qed.

Lemma metrics_eta m :
  mkMetrics (SessionDuration m) (ChromiumExecutions m) (ChromiumResources m) (SessionActive m)
    (SessionsCreated m) (SessionsTerminated m) (OOMKills m) = m.
Proof. by destruct m. Qed.

Lemma account_oom_metrics l before after s :
  (forall b, before = Ok b -> is_u64 b) -> (forall a, after = Ok a -> is_u64 a) ->
  metrics (sup (account_oom l before after s)) =
    add_oom_kills (oom_increment before after) (metrics (sup s)) /\
  tmpdirs (account_oom l before after s) = tmpdirs s.
Proof.
  intros Hb Ha. unfold account_oom, oom_increment, add_oom_kills.
  destruct before as [b|], after as [a|]; simpl; rewrite ?Z.add_0_r, ?metrics_eta; try done.
  specialize (Hb b eq_refl). specialize (Ha a eq_refl). unfold is_u64 in *.
  destruct (a <? b)%Z eqn:E1; to_prop; simpl.
  { rewrite (proj2 (Z.ltb_ge b a)) by lia. by rewrite Z.add_0_r, metrics_eta. }
  rewrite wrap_u64_id by (unfold is_u64; lia).
  destruct (b <? a)%Z eqn:E2; to_prop.
  - by rewrite (proj2 (Z.ltb_lt 0 (a - b))) by lia.
  - rewrite (proj2 (Z.ltb_ge 0 (a - b))) by lia. by rewrite Z.add_0_r, metrics_eta.
Qed.

Lemma mkdirTemp_state env s :
  metrics (sup (mkdirTemp env s).2) = metrics (sup s) /\
  opts (sup (mkdirTemp env s).2) = opts (sup s) /\
  launch_command (sup (mkdirTemp env s).2) = launch_command (sup s) /\
  forall r, (mkdirTemp env (log r s)).1 = (mkdirTemp env s).1.
Proof.
  unfold mkdirTemp. destruct (is_not_exist _), (me_mkdirall env), (me_mkdirtemp env); simpl; try done.
  all: by destruct (UserGroup (opts (sup s)) =? 0)%Z, (me_chown env).
Qed.

Lemma conclude_spec env l r s :
  let '(e, s') := conclude env l r s in
  e = (if run_failed env r then run_err r else None) /\
  metrics (sup s') =
    inc_execution (if run_failed env r then ExecutionStateFailed else ExecutionStateFinished)
      (metrics (sup s)) /\
  tmpdirs s' = tmpdirs s.
Proof. unfold conclude. fold (run_failed env r). by destruct (run_failed env r). Qed.

(** The metrics and the result of [launch], on every branch. *)
Lemma launch_effect env l oomBefore s :
  (forall b, oomBefore = Ok b -> is_u64 b) ->
  let '(res, s') := launch env l oomBefore s in
  match (mkdirTemp (le_mkdir env) s).1 with
  | Err e =>
      res = LaunchRet (Some (ErrWrap "creating temporary directory: %w" [] e)) /\
      metrics (sup s') = metrics (sup s)
  | Ok dir =>
      let r := le_run env (launch_command (sup s) dir) in
      metrics (sup s') = account env r oomBefore (oom_after env s) (metrics (sup s)) /\
      res = match le_remove env with
            | Some e => LaunchPanic (ErrWrap "deleting tmpdir, bug or sandbox compromised: %w" [] e)
            | None => LaunchRet (if run_failed env r then run_err r else None)
            end
  end.
Proof.
  intros Hb. unfold launch. set (s0 := log _ s).
  destruct (mkdirTemp_state (le_mkdir env) s) as (_ & _ & _ & Hres).
  destruct (mkdirTemp_state (le_mkdir env) s0) as (Hm & Ho & Hc & _).
  rewrite <- (Hres (record_of l LevelDebug "starting session" [])). fold s0.
  destruct (mkdirTemp (le_mkdir env) s0) as [[dir|e] s1]; simpl in Hm, Ho, Hc |- *; [|done].
  rewrite Hc, Ho. change (launch_command (sup s0)) with (launch_command (sup s)).
  set (r := le_run env _). fold (oom_after env s).
  destruct (account_oom_metrics l oomBefore (oom_after env s) s1) as [Ha _]; [done|apply readOOMKillCount_range|].
  set (s2 := account_oom _ _ _ s1) in *. clearbody s2.
  pose proof (conclude_spec env l r (observe_process (run_process r) s2)) as Hcl.
  destruct (conclude env l r _) as [err s4]. destruct Hcl as (-> & Hm4 & _).
  assert (metrics (sup s4) = inc_execution (if run_failed env r then ExecutionStateFailed else ExecutionStateFinished)
    (match run_process r ≫= ps_maxrss with
     | Some kib => observe_rss (float64_of_int (maxrss_bytes kib)) | None => id
     end (add_oom_kills (oom_increment oomBefore (oom_after env s)) (metrics (sup s))))) as Hm5.
  { rewrite Hm4. f_equal. unfold observe_process. rewrite <- Hm, <- Ha. by destruct (_ ≫= _). }
  destruct (le_remove env); simpl; rewrite Hm5; unfold account; by destruct (_ ≫= _).
Qed.

(** C17: every run of Chromium is counted exactly once, as failed, with the
    run's error returned, when it failed and its context was not cancelled,
    and as finished otherwise; its duration is observed once, and the session
    metrics, the gauge and both counters, do not move.  When the session directory cannot be made nothing
    is run and nothing is counted. *)
Theorem launch_counts_once env l oomBefore s e s' :
  (forall b, oomBefore = Ok b -> is_u64 b) ->
  launch env l oomBefore s = (LaunchRet e, s') ->
  match (mkdirTemp (le_mkdir env) s).1 with
  | Err e' =>
      e = Some (ErrWrap "creating temporary directory: %w" [] e') /\
      metrics (sup s') = metrics (sup s)
  | Ok dir =>
      let r := le_run env (launch_command (sup s) dir) in
      let failed := run_failed env r in
      ChromiumExecutions (metrics (sup s')) =
        inc_label (if failed then ExecutionStateFailed else ExecutionStateFinished)
          (ChromiumExecutions (metrics (sup s))) /\
      vec_total (ChromiumExecutions (metrics (sup s'))) =
        (vec_total (ChromiumExecutions (metrics (sup s))) + 1)%Z /\
      SessionDuration (metrics (sup s')) = run_elapsed r :: SessionDuration (metrics (sup s)) /\
      (is_Some e <-> failed = true) /\ (failed = true -> e = run_err r) /\
      SessionActive (metrics (sup s')) = SessionActive (metrics (sup s)) /\
      SessionsCreated (metrics (sup s')) = SessionsCreated (metrics (sup s)) /\
      SessionsTerminated (metrics (sup s')) = SessionsTerminated (metrics (sup s))
  end.
Proof.
  intros Hb E. pose proof (launch_effect env l oomBefore s Hb) as He. rewrite E in He.
  destruct (mkdirTemp _ _).1 as [dir|e']; [|by destruct He; simplify_eq].
  destruct He as [-> Hr]. unfold account. simpl. rewrite vec_total_inc.
  destruct (le_remove env); simplify_eq. split_and!; try done.
  - unfold run_failed. case_bool_decide; simpl; [by destruct (negb _); split; intros; try done; destruct H0|].
    by split; [intros []|].
  - by intros ->.
Qed.

(** C18: the OOM-kill counter of the program grows by exactly the number of
    kills the kernel counted between the baseline and the end of the run;
    it never underflows, and stays put when the kernel's counter went
    backwards. *)
Theorem launch_oom_exact env l b a dir s :
  is_u64 b -> (mkdirTemp (le_mkdir env) s).1 = Ok dir ->
  oom_after env s = Ok a -> (a - b < 2 ^ 53)%Z ->
  OOMKills (metrics (sup (launch env l (Ok b) s).2)) =
    (OOMKills (metrics (sup s)) + Z.max 0 (a - b))%Z.
Proof.
  intros Hb Hdir Ha Hlt.
  pose proof (launch_effect env l (Ok b) s ltac:(intros; by simplify_eq)) as He.
  destruct (launch _ _ _ _) as [res s']. rewrite Hdir in He. destruct He as [Hm _].
  simpl. rewrite Hm. simpl. rewrite Ha. f_equal.
  destruct (b <? a)%Z eqn:E; to_prop; [|lia]. rewrite float64_exact; lia.
Qed.

(** ** Memory *)

Lemma float64_shift k n :
  (0 <= n <= 10)%Z -> (0 <= k < 2 ^ 53)%Z -> float64_of_int (k * 2 ^ n) = (k * 2 ^ n)%Z.
Proof.
  intros Hn Hk. unfold float64_of_int. rewrite (proj2 (Z.ltb_ge _ 0)) by lia.
  unfold float64_of_nonneg. destruct (_ <? _)%Z eqn:E; [done|]. to_prop.
  set (z := (k * 2 ^ n)%Z) in *.
  assert (Hz : (Z.log2 z < 53 + n)%Z).
  { apply Z.log2_lt_pow2; [lia|]. unfold z. rewrite Z.pow_add_r by lia.
    apply Z.mul_lt_mono_pos_r; lia. }
  assert (He : (53 <= Z.log2 z)%Z) by (apply Z.log2_le_pow2; lia).
  set (e := (Z.log2 z - 52)%Z) in *.
  assert (Hd : z = (k * 2 ^ (n - e) * 2 ^ e)%Z).
  { unfold z. rewrite <- Z.mul_assoc, <- Z.pow_add_r by lia. f_equal. f_equal. lia. }
  assert (0 < 2 ^ e)%Z by lia. assert (0 < 2 ^ (e - 1))%Z by lia.
  assert (z mod 2 ^ e = 0)%Z as -> by (rewrite Hd; apply Z.mod_mul; lia).
  assert (z / 2 ^ e = k * 2 ^ (n - e))%Z as -> by (rewrite Hd; apply Z.div_mul; lia).
  rewrite (proj2 (Z.ltb_ge _ 0)), (proj2 (Z.eqb_neq 0 _)) by lia. simpl. lia.
Qed.

(** The resident size is observed in bytes without overflow or rounding:
    1024 times the kernel's KiB figure, exactly, up to 2^53 KiB. *)
Theorem launch_rss_exact env l oomBefore dir ps kib s :
  (forall b, oomBefore = Ok b -> is_u64 b) -> (mkdirTemp (le_mkdir env) s).1 = Ok dir ->
  run_process (le_run env (launch_command (sup s) dir)) = Some ps ->
  ps_maxrss ps = Some kib -> (0 <= kib < 2 ^ 53)%Z ->
  ChromiumResources (metrics (sup (launch env l oomBefore s).2)) =
    observe_label ResourceRSS (kib * 1024)%Z (ChromiumResources (metrics (sup s))).
Proof.
  intros Hb Hdir Hp Hk Hr. pose proof (launch_effect env l oomBefore s Hb) as He.
  destruct (launch _ _ _ _) as [res s']. rewrite Hdir in He. destruct He as [Hm _].
  simpl. rewrite Hm. simpl. rewrite Hp. simpl. rewrite Hk. f_equal.
  unfold maxrss_bytes. rewrite wrap_i64_id by (unfold is_i64; lia). by apply (float64_shift kib 10).
Qed.

(** ** The session directory *)

Lemma account_oom_tmpdirs l before after s : tmpdirs (account_oom l before after s) = tmpdirs s.
Proof. unfold account_oom. by repeat case_match. Qed.

Lemma observe_process_tmpdirs ps s : tmpdirs (observe_process ps s) = tmpdirs s.
Proof. unfold observe_process. by case_match. Qed.

(** [launch] removes the directory it was given, if it was. *)
Lemma launch_tmpdirs env l oom s e s' :
  launch env l oom s = (LaunchRet e, s') ->
  tmpdirs s' =
    match mkdirTemp (le_mkdir env) (log (record_of l LevelDebug "starting session" []) s) with
    | (Ok d, s1) => tmpdirs s1 ∖ {[d]}
    | (Err _, s1) => tmpdirs s1
    end.
Proof.
  unfold launch. destruct (mkdirTemp _ _) as [[d|c] s1]; [|by intros; simplify_eq].
  set (s2 := observe_process _ _).
  pose proof (conclude_spec env l (le_run env (launch_command (sup s1) d)) s2) as Hc.
  destruct (conclude _ _ _ s2) as [err s3]. destruct Hc as (_ & _ & Ht).
  destruct (le_remove env); intros; simplify_eq. simpl.
  by rewrite Ht; unfold s2; rewrite observe_process_tmpdirs, account_oom_tmpdirs.
Qed.

(** C28: a launch that returns leaves no directory behind, whatever the run
    did, with one exception: when the new directory cannot be given to the
    user Chromium runs as, the launch fails and the directory stays. *)
Theorem launch_cleans_up env l oom s e s' d :
  me_mkdirtemp (le_mkdir env) = Ok d -> d ∉ tmpdirs s ->
  launch env l oom s = (LaunchRet e, s') ->
  tmpdirs s' = tmpdirs s \/
  (UserGroup (opts (sup s)) <> 0%Z /\ is_Some (me_chown (le_mkdir env)) /\ is_Some e /\
   tmpdirs s' = {[d]} ∪ tmpdirs s).
Proof.
  intros Hd Hni E. pose proof (launch_tmpdirs _ _ _ _ _ _ E) as Ht. rewrite Ht. clear Ht.
  assert (Hclean : ({[d]} ∪ tmpdirs s) ∖ {[d]} = tmpdirs s) by set_solver.
  unfold launch, mkdirTemp in E. unfold mkdirTemp. rewrite Hd in *.
  destruct (is_not_exist _), (me_mkdirall (le_mkdir env)); simpl in *; try by left.
  all: destruct (UserGroup (opts (sup s)) =? 0)%Z eqn:Eu; to_prop; simpl in *; [by left|].
  all: destruct (me_chown _); simpl in *; [|by left].
  all: right; simplify_eq; eauto.
Qed.

(** ** The command line *)

Definition with_flag (flag : string) (args : list string) : list string :=
  List.filter (fun a => has_prefix a (flag +:+ "=")) args.

Lemma with_flag_skip flag a args :
  has_prefix a (flag +:+ "=") = false -> with_flag flag (a :: args) = with_flag flag args.
Proof. unfold with_flag. cbn [List.filter]. by intros ->. Qed.

Lemma with_flag_keep flag v args :
  with_flag flag (((flag +:+ "=") +:+ v) :: args) = ((flag +:+ "=") +:+ v) :: with_flag flag args.
Proof. unfold with_flag. cbn [List.filter]. by rewrite has_prefix_app. Qed.

Lemma with_flag_app flag l l' : with_flag flag (l ++ l') = with_flag flag l ++ with_flag flag l'.
Proof. apply List.filter_app. Qed.

Lemma fixed_port port :
  with_flag "--remote-debugging-port" (fixed_args port) = ["--remote-debugging-port=" +:+ port].
Proof.
  unfold fixed_args. do 2 (rewrite with_flag_skip by reflexivity).
  etransitivity; [apply (with_flag_keep "--remote-debugging-port")|]. reflexivity.
Qed.

(** The command line of Chromium: one [--disable-features] switch, which
    carries all three features, one debugging port, the configured one, and
    the computed user agent if and only if there is one; the browser runs as
    the configured user, and sees only its own temporary directory. *)
Theorem launch_command_spec p tmpDir :
  let c := launch_command p tmpDir in
  with_flag "--disable-features" (c_args c) =
    ["--disable-features=WebUIOmniboxPopup,WebUIOmniboxAimPopup,AvoidCorsURLLoaderRestartOnRedirect"] /\
  with_flag "--remote-debugging-port" (c_args c) = ["--remote-debugging-port=" +:+ ChromiumPort (opts p)] /\
  with_flag "--user-agent" (c_args c) =
    (if decide (userAgent p = EmptyString) then [] else ["--user-agent=" +:+ userAgent p]) /\
  c_env c = ["TMPDIR=" +:+ tmpDir] /\
  (c_credential c = None <-> UserGroup (opts p) = 0%Z).
Proof.
  unfold launch_command, launch_args. cbn [c_args c_env c_credential].
  rewrite !with_flag_app, fixed_port.
  split_and!; [| | |done|].
  4:{ by destruct (_ =? 0)%Z eqn:E; to_prop. }
  1,2: by case_bool_decide.
  case_bool_decide; [by rewrite decide_True|]. rewrite decide_False by done.
  apply (with_flag_keep "--user-agent" _ []).
Qed.

(** ** The user agent *)

(** The parts of a user agent around the occurrences of "Headless". *)
Definition headless_pieces (ua : string) (pieces : list string) : Prop :=
  ua = join pieces "Headless" /\ Forall (fun p => index p "Headless" = None) pieces.

Lemma patch_pieces ua pieces extra :
  headless_pieces ua pieces ->
  patch_user_agent ua extra =
    join pieces "" +:+ (if decide (extra = EmptyString) then EmptyString else " " +:+ extra).
Proof.
  intros [-> Hp]. unfold patch_user_agent. rewrite replace_all_join; [|by eexists _, _|done].
  case_decide; [by rewrite bool_decide_true, string_app_nil|by rewrite bool_decide_false].
Qed.

(** C39: after [ComputeUserAgent], and whatever the program does since, every
    Chromium is started with Chromium's own default user agent without any
    of the occurrences of the word "Headless", followed by the extra terms if
    there are any; the flag is left out when nothing remains.  A failure to
    reach Chromium is returned and changes nothing. *)
Theorem ComputeUserAgent_spec `{ProcFS} r s :
  let '(err, s1) := ComputeUserAgent r s in
  match r with
  | Err e => err = Some (ErrWrap "contacting chromium: %w" [] e) /\ s1 = s
  | Ok v =>
      err = None /\ s1 ≡ s /\ (exists pieces, headless_pieces (UserAgent v) pieces) /\
      forall pieces es s2 tmpDir, headless_pieces (UserAgent v) pieces -> steps s1 es s2 ->
        let extra := ExtraUATerms (opts (sup s)) in
        let ua := join pieces "" +:+ (if decide (extra = EmptyString) then EmptyString else " " +:+ extra) in
        c_args (launch_command (sup s2) tmpDir) =
          fixed_args (ChromiumPort (opts (sup s))) ++
          (if decide (ua = EmptyString) then [] else ["--user-agent=" +:+ ua])
  end.
Proof.
  unfold ComputeUserAgent. destruct r as [v|e]; [|done]. cbn [opts sup log set_sup].
  split; [done|]. split; [done|]. split; [by apply pieces_exist|].
  intros pieces es s2 tmpDir Hp Hs. rewrite (steps_command _ _ _ Hs).
  unfold launch_command, launch_args. cbn [c_args sup log set_sup set_userAgent opts userAgent].
  rewrite (patch_pieces _ pieces _ Hp). f_equal.
  set (ua := join pieces "" +:+ _). clearbody ua. by destruct ua.
Qed.

(** ** Witnesses *)

Definition mkdir_ok : mkdir_env := mkMkdirEnv None None (Ok "/chromium-tmp/1") None.
Definition mkdir_denied : mkdir_env :=
  mkMkdirEnv None None (Ok "/chromium-tmp/1") (Some (ErrNew "operation not permitted" [])).

(** A run that is killed: 300 MiB resident. *)
Definition killed_run : run_result :=
  mkRunResult (Some (ErrNew "signal: killed" []))
    (Some (mkProcessState 17 (-1) "signal: killed" 5 7 (Some 307200%Z))) "" "" 9.

Definition launch_env0 : launch_env :=
  mkLaunchEnv mkdir_ok (fun _ => killed_run) (still machine) (Some ErrDeadlineExceeded) true None.
Definition launch_env_denied : launch_env :=
  mkLaunchEnv mkdir_denied (fun _ => killed_run) (still machine) None true None.

Definition launched0 : launch_result * prog := launch launch_env0 [] (Ok 1%Z) prog0.

Lemma launch_counts_once_witness :
  ChromiumExecutions (metrics (sup launched0.2)) = inc_label ExecutionStateFailed ∅.
Proof.
  assert (H : forall b, Ok 1%Z = Ok b -> is_u64 b) by (intros; simplify_eq; unfold is_u64; lia).
  apply (launch_counts_once launch_env0 [] (Ok 1%Z) prog0 (run_err killed_run) launched0.2 H).
  vm_compute. reflexivity.
Defined.

Lemma launch_oom_exact_witness : OOMKills (metrics (sup launched0.2)) = 2%Z.
Proof.
  change 2%Z with (OOMKills (metrics (sup prog0)) + Z.max 0 (3 - 1))%Z.
  apply (launch_oom_exact launch_env0 [] 1 3 "/chromium-tmp/1" prog0).
  - unfold is_u64. lia.
  - vm_compute. reflexivity.
  - vm_compute. reflexivity.
  - lia.
Defined.

Lemma launch_rss_exact_witness :
  ChromiumResources (metrics (sup launched0.2)) = observe_label ResourceRSS 314572800%Z ∅.
Proof.
  assert (H : forall b, Ok 1%Z = Ok b -> is_u64 b) by (intros; simplify_eq; unfold is_u64; lia).
  apply (launch_rss_exact launch_env0 [] (Ok 1%Z) "/chromium-tmp/1"
           (mkProcessState 17 (-1) "signal: killed" 5 7 (Some 307200%Z)) 307200 prog0 H).
  - vm_compute. reflexivity.
  - reflexivity.
  - reflexivity.
  - lia.
Defined.

Lemma launch_cleans_up_witness :
  tmpdirs launched0.2 = ∅ \/
  (UserGroup (opts (sup prog0)) <> 0%Z /\ is_Some (me_chown (le_mkdir launch_env0)) /\
   is_Some (run_err killed_run) /\ tmpdirs launched0.2 = {["/chromium-tmp/1"]} ∪ ∅).
Proof.
  apply (launch_cleans_up launch_env0 [] (Ok 1%Z) prog0 (run_err killed_run) launched0.2 "/chromium-tmp/1").
  - reflexivity.
  - apply (not_elem_of_empty (C := gset string)).
  - vm_compute. reflexivity.
Defined.

(** The directory that cannot be given to the user stays. *)
Lemma chown_failure_leaks :
  let '(r, s') := launch launch_env_denied [] (Ok 1%Z) prog0 in
  (exists e, r = LaunchRet (Some e)) /\ "/chromium-tmp/1" ∈ tmpdirs s'.
Proof. vm_compute. split; [eauto|]. constructor. Qed.

(** A user agent with the word in two places. *)
Definition headless_twice : VersionInfo :=
  mkVersionInfo "" "" "Mozilla/5.0 HeadlessChrome/124 Headless/1" "" "" "".

Lemma ComputeUserAgent_spec_witness :
  c_args (launch_command (sup (pass_time 5 (ComputeUserAgent (Ok headless_twice) prog0).2)) "/t") =
    fixed_args "5222" ++ ["--user-agent=Mozilla/5.0 Chrome/124 /1 GrafanaSyntheticMonitoring"].
Proof.
  pose proof (ComputeUserAgent_spec (Ok headless_twice) prog0) as Hs.
  assert (Hp : headless_pieces (UserAgent headless_twice) ["Mozilla/5.0 "; "Chrome/124 "; "/1"]).
  { split; [reflexivity|]. by repeat constructor. }
  destruct (ComputeUserAgent (Ok headless_twice) prog0) as [err s1]. destruct Hs as (_ & _ & _ & Hs).
  apply (Hs _ [EvTick 5] (pass_time 5 s1) "/t" Hp). econstructor; [by apply step_tick|constructor].
Defined.
