(* ===== verification/Http.v ===== *)
(** * The HTTP API: internal/http/http.go

    Routing, the five handlers, and the route labels of the request metrics.
    A handler is a function from the request and the program to the response
    and the program; [createSession] is given the method of the supervisor to
    call, as in the source. *)

From S2P Require Import Prelude GoStrings OS Machine Json JsonText Url Mux Metrics Chromium Cgroup Proc Supervisor Launch System Scenario Operations.

(** ** Requests and responses *)

Record request := mkRequest {
  r_method : string;
  r_escaped : string;        (* r.URL.EscapedPath() *)
  r_host : string;
  r_content_type : string;   (* r.Header.Get("Content-Type") *)
  r_body : file;
}.

(** The body of a response: nothing, the text of an error, or JSON. *)
Inductive payload := Nothing | ErrorText (e : error) | JSON (text : string).

Record response := mkResponse { status : Z; content_type : option string; body : payload }.

Definition StatusOK : Z := 200.
Definition StatusBadRequest : Z := 400.
Definition StatusNotFound : Z := 404.
Definition StatusMethodNotAllowed : Z := 405.
Definition StatusConflict : Z := 409.
Definition StatusInternalServerError : Z := 500.
Definition StatusServiceUnavailable : Z := 503.
Definition StatusTemporaryRedirect : Z := 307.

Definition application_json : string := "application/json".

(** ** Routing *)

Inductive handler := HList | HCreate | HAcquire | HDelete | HProxy.

(** The patterns [New] registers. *)
Definition patterns : list (pattern handler) :=
  [mkPattern (Some "GET") [Lit "sessions"] HList;
   mkPattern (Some "POST") [Lit "sessions"] HCreate;
   mkPattern (Some "POST") [Lit "sessions"; Lit "acquire"] HAcquire;
   mkPattern (Some "DELETE") [Lit "sessions"; Wild] HDelete;
   mkPattern None [Lit "proxy"; Wild] HProxy].

(** [s.mux.ServeHTTP] up to the call of the handler. *)
Definition dispatch (r : request) : routed handler := mux_dispatch patterns (r_method r) (r_escaped r).

(** [r.URL.Path]. *)
Definition URL_Path (r : request) : string := path_unescape (r_escaped r).

(** ** Route labels *)

Definition Route (r : request) : string :=
  let path := URL_Path r in
  if bool_decide (path = "/sessions") then "/sessions"
  else if bool_decide (path = "/sessions/acquire") then "/sessions/acquire"
  else if has_prefix path "/sessions/" then "/sessions/{id}"
  else if has_prefix path "/proxy/" then "/proxy/{id}"
  else "unknown".

(** ** Handlers *)

Definition checkinfo_fields : list string := ["type"; "metadata"].

Definition store_checkinfo (ci : CheckInfo) (key : string) (j : json) : res CheckInfo :=
  match find_field checkinfo_fields key with
  | Some f =>
      if bool_decide (f = "type") then
        t ← decode_string (CI_Type ci) j; Ok (mkCheckInfo t (Metadata ci))
      else
        m ← decode_map (Metadata ci) j; Ok (mkCheckInfo (CI_Type ci) m)
  | None => Ok ci
  end.

(** The zero value of [CheckInfo]. *)
Definition zero_checkinfo : CheckInfo := mkCheckInfo EmptyString ∅.

Definition decode_checkinfo (f : file) : res CheckInfo :=
  v ← Decode f; decode_struct store_checkinfo zero_checkinfo v.

Definition encode_version (v : VersionInfo) : string :=
  encode_object
    [("Browser", encode_string (Browser v)); ("Protocol-Version", encode_string (ProtocolVersion v));
     ("User-Agent", encode_string (UserAgent v)); ("V8-Version", encode_string (V8Version v));
     ("WebKit-Version", encode_string (WebKitVersion v));
     ("webSocketDebuggerUrl", encode_string (WebSocketDebuggerURL v))].

Definition encode_session (si : SessionInfo) : string :=
  encode_object [("id", encode_string (ID si)); ("chromiumVersion", encode_version (ChromiumVersion si))].

(** The copy of a session the client is given, with the proxy's URL. *)
Definition proxied (host : string) (si : SessionInfo) : SessionInfo :=
  let v := ChromiumVersion si in
  mkSessionInfo (ID si)
    (mkVersionInfo (Browser v) (ProtocolVersion v) (UserAgent v) (V8Version v) (WebKitVersion v)
       (url_string "ws" host (path_join ["proxy"; ID si]))).

Section handlers.
Context (l : logger).   (* the logger of the server *)

(** The [CheckInfo] of a request, and what is logged about it. *)
Definition read_checkinfo (r : request) : CheckInfo * list record :=
  if negb (bool_decide (r_content_type r = application_json)) then
    (zero_checkinfo,
     [record_of l LevelInfo "no JSON content-type, proceeding with empty CheckInfo"
        [("content_type", AString (r_content_type r))]])
  else match decode_checkinfo (r_body r) with
       | Err e =>
           (zero_checkinfo,
            [record_of l LevelWarn "could not decode request body, ignoring" [("err", AError e)]])
       | Ok ci => (ci, [])
       end.

Definition error_status (e : error) : Z :=
  if errors_is e ErrSessionExists then StatusConflict
  else if errors_is e ErrDraining then StatusServiceUnavailable
  else StatusInternalServerError.

Definition respond (r : request) (x : res SessionInfo) : response :=
  match x with
  | Err e => mkResponse (error_status e) None (ErrorText e)
  | Ok si => mkResponse StatusOK (Some application_json)
               (JSON (encode_session (proxied (r_host r) si) +:+ str1 lf))
  end.

Definition createSession (r : request) (create : CheckInfo -> prog -> res SessionInfo * prog) (s : prog)
    : response * prog :=
  let '(ci, logs) := read_checkinfo r in
  let '(x, s) := create ci (foldl (flip log) s logs) in
  (respond r x, s).

Definition List_ (ids : list string) : response :=
  mkResponse StatusOK (Some application_json) (JSON (encode_strings ids +:+ str1 lf)).

Definition http_Create (env : create_env) (version : res VersionInfo) (r : request) (s : prog) : response * prog :=
  createSession r (Supervisor.Create env version) s.

Definition http_Acquire (env : create_env) (version : res VersionInfo) (r : request) (s : prog) : response * prog :=
  createSession r (Supervisor.CreateIfFree env version) s.

Definition http_Delete `{ProcFS} (w : world) (sessionID : string) (s : prog) : response * prog :=
  if bool_decide (sessionID = EmptyString) then (mkResponse StatusBadRequest None Nothing, s)
  else match Supervisor.Delete w sessionID s with
       | (false, s) => (mkResponse StatusNotFound None Nothing, s)
       | (true, s) => (mkResponse StatusOK None Nothing, s)
       end.

(** A proxied request: the backend and the [Host] header the director sets;
    the [Origin] header is dropped.  The proxy itself is third-party. *)
Inductive proxy_outcome :=
  | Refused (r : response)
  | Forwarded (backend : URL) (host : string) (origin : option string).

Definition Proxy (sessionID : string) (s : prog) : proxy_outcome * prog :=
  if bool_decide (sessionID = EmptyString) then (Refused (mkResponse StatusBadRequest None Nothing), s)
  else match Supervisor.Session sessionID s with
       | None =>
           (Refused (mkResponse StatusNotFound None Nothing),
            log (record_of l LevelWarn "sessionID not found" [("sessionID", AString sessionID)]) s)
       | Some sessionInfo =>
           let rawUrl := WebSocketDebuggerURL (ChromiumVersion sessionInfo) in
           match url_Parse rawUrl with
           | Err e =>
               (Refused (mkResponse StatusInternalServerError None Nothing),
                log (record_of l LevelWarn "could not parse ws URL form chromium response"
                       [("sessionID", AString sessionID); ("url", AString rawUrl); ("err", AError e)]) s)
           | Ok chromiumURL =>
               (Forwarded chromiumURL (Host chromiumURL) None,
                log (record_of l LevelDebug "Proxying WS connection"
                       [("sessionID", AString sessionID); ("chromiumURL", AString rawUrl)]) s)
           end
       end.

(** The record [ServeHTTP] writes before dispatching. *)
Definition request_record (r : request) : record :=
  record_of l LevelDebug "handling request"
    [("method", AString (r_method r)); ("path", AString (URL_Path r))].
End handlers.

(** ** The handlers and their paths *)

(** The paths each handler is called for. *)
Definition serves (h : handler) (segs vs : list string) : Prop :=
  match h with
  | HList | HCreate => segs = ["sessions"] /\ vs = []
  | HAcquire => segs = ["sessions"; "acquire"] /\ vs = []
  | HDelete => exists id, id <> EmptyString /\ segs = ["sessions"; id] /\ vs = [id]
  | HProxy => exists id, id <> EmptyString /\ segs = ["proxy"; id] /\ vs = [id]
  end.

Lemma pattern_serves p segs vs :
  last segs <> Some EmptyString -> p ∈ patterns -> matches (p_segments p) segs vs ->
  serves (p_handler p) segs vs.
Proof.
  unfold patterns. intros Hl Hin Hm.
  repeat (apply elem_of_cons in Hin as [->|Hin]; [|]); simpl in *.
  all: try by apply elem_of_nil in Hin.
  all: repeat match goal with
         | Hm : matches (_ :: _) _ _ |- _ => inversion Hm; clear Hm; subst
         | Hm : matches [] _ _ |- _ => inversion Hm; clear Hm; subst
         end; try done.
  all: eexists; split_and!; [|done..]; intros ->; by apply Hl.
Qed.

(** No pattern of the API has a trailing slash. *)
Lemma patterns_no_slash p :
  p ∈ patterns -> p_segments p <> [] /\ Rest ∉ p_segments p /\ Lit "/" ∉ p_segments p.
Proof.
  unfold patterns. intros Hin.
  repeat (apply elem_of_cons in Hin as [->|Hin]; [set_solver|]). by apply elem_of_nil in Hin.
Qed.

(** A handler is only called for its paths. *)
Lemma dispatch_serves r h vs :
  dispatch r = Handled h vs ->
  serves h (segments (r_escaped r)) vs /\ URL_Path r = abs_path (segments (r_escaped r)).
Proof.
  intros (p & Hin & <- & Hm & _)%mux_dispatch_handled.
  destruct (patterns_no_slash p Hin) as (Hne & Hr & Hl). split.
  - apply pattern_serves; [apply segments_last|done|done].
  - apply segments_path; [|by eapply matches_no_slash]. intros E. rewrite E in Hm. by inversion Hm; subst.
Qed.

(** The label of the pattern a handler is registered with. *)
Definition label (h : handler) : string :=
  match h with
  | HList | HCreate => "/sessions"
  | HAcquire => "/sessions/acquire"
  | HDelete => "/sessions/{id}"
  | HProxy => "/proxy/{id}"
  end.

Definition labels : list string :=
  ["/sessions"; "/sessions/acquire"; "/sessions/{id}"; "/proxy/{id}"; "unknown"].

Lemma Route_labels r : Route r ∈ labels.
Proof. unfold Route, labels. repeat case_bool_decide; repeat case_match; set_solver. Qed.

(** Routing and labels agree: the route label is one of five, whatever
    the request; a request that reaches a handler has the label of that
    handler's pattern (the one exception, deleting a session called
    "acquire", has that of the literal path); and the session ID a handler is
    given is never empty, so its answer to an empty one is never sent. *)
Theorem Route_spec r :
  Route r ∈ labels /\
  forall h vs, dispatch r = Handled h vs ->
    (Route r = label h \/ (h = HDelete /\ vs = ["acquire"] /\ Route r = "/sessions/acquire")) /\
    Forall (fun id => id <> EmptyString) vs /\ (h = HDelete \/ h = HProxy -> length vs = 1%nat).
Proof.
  split; [apply Route_labels|].
  intros h vs [Em Hp]%dispatch_serves. unfold Route. rewrite Hp. set (segs := segments _) in *.
  clearbody segs.
  destruct h; simpl in Em.
  1-3: destruct Em as [-> ->]; split_and!; [by left|constructor|by intros [|]].
  all: destruct Em as (id & Hid & -> & ->); split_and!; [|by repeat constructor|done].
  - destruct (decide (id = "acquire")) as [->|Hne]; [by right|left].
    rewrite bool_decide_false by (by destruct id). rewrite bool_decide_false; [by destruct id|].
    intros E. apply Hne. change (abs_path ["sessions"; id]) with ("/sessions/" +:+ id) in E.
    by injection E.
  - left. by destruct id.
Qed.

Definition get (m p : string) : request := mkRequest m p "croco:8080" "" (mkFile EmptyString None).

Example dispatch_ex :
  dispatch <$> [get "GET" "/sessions"; get "HEAD" "/sessions"; get "POST" "/sessions/acquire";
                get "DELETE" "/sessions/acquire"; get "GET" "/sessions/acquire"; get "DELETE" "/sessions/";
                get "GET" "/proxy/a%2fb"; get "GET" "/proxy/%2F"; get "POST" "/sessions//acquire";
                get "PUT" "/"; get "PUT" "/sessions"] =
    [Handled HList []; Handled HList []; Handled HAcquire [];
     Handled HDelete ["acquire"]; NotAllowed ["DELETE"; "POST"]; NotFound;
     Handled HProxy ["a/b"]; NotFound; Redirected "/sessions/acquire"; NotFound; NotAllowed ["GET"; "HEAD"; "POST"]].
Proof. vm_compute. reflexivity. Qed.

(** ** Creating over HTTP *)

Lemma logs_sup rs s : sup (foldl (flip log) s rs) = sup s /\ ctxs (foldl (flip log) s rs) = ctxs s.
Proof. revert s. induction rs as [|r rs IH]; intros s; [done|]. simpl. by destruct (IH (log r s)) as [-> ->]. Qed.

Lemma url_escape_id kept s : all_bytes kept s = true -> url_escape kept s = s.
Proof.
  induction s as [|c s IH]; simpl; [done|]. intros [-> Hs]%andb_true_iff. by rewrite IH.
Qed.

(** Every byte of an ID is a hexadecimal digit. *)
Lemma id_bytes bs (P : ascii -> bool) : all_bytes P hex_alphabet = true -> all_bytes P (randString bs) = true.
Proof.
  intros HP. apply all_bytes_mem. intros c Hc%hex_encode_alphabet.
  revert Hc HP. generalize hex_alphabet as s. intros s. induction s as [|d s IH]; simpl; [done|].
  intros [->%Ascii.eqb_eq|Hc]%orb_true_iff [Hd Hs]%andb_true_iff; auto.
Qed.

Lemma id_proper bs : length bs = IDLen / 2 -> proper_name (randString bs).
Proof.
  intros Hl. assert (Hn : String.length (randString bs) = 12%nat).
  { unfold randString. by rewrite hex_encode_length, Hl. }
  split; try (intros E; by rewrite E in Hn).
  destruct (mem_byte slash (randString bs)) eqn:E; [|done].
  by apply hex_encode_alphabet in E.
Qed.

Lemma proxy_path id : proper_name id -> path_join ["proxy"; id] = "proxy/" +:+ id.
Proof.
  intros Hid. cbn [path_join]. rewrite bool_decide_false by done.
  change (join ["proxy"; id] "/") with ("proxy/" +:+ id). unfold clean.
  change (has_prefix ("proxy/" +:+ id) "/") with false. cbv iota.
  assert (split ("proxy/" +:+ id) slash = ["proxy"; id]) as ->.
  { apply (split_join ["proxy"; id] slash); [done|]. destruct Hid. by repeat constructor. }
  rewrite clean_steps; [|constructor; [|by constructor]; by split].
  rewrite app_nil_r, rev_involutive. by rewrite bool_decide_false.
Qed.

(** The address of the proxy a client is given. *)
Definition proxy_url (host id : string) : string := "ws://" +:+ host +:+ "/proxy/" +:+ id.

Lemma proxy_url_string host bs :
  host <> EmptyString -> all_bytes host_kept host = true -> length bs = IDLen / 2 ->
  url_string "ws" host (path_join ["proxy"; randString bs]) = proxy_url host (randString bs).
Proof.
  intros Hne Hh Hl. rewrite (proxy_path _ (id_proper bs Hl)). unfold url_string, proxy_url.
  rewrite (bool_decide_false (host = _)), (bool_decide_false ("proxy/" +:+ _ = _)) by done.
  change (has_prefix ("proxy/" +:+ ?x) "/") with false. cbn [andb negb].
  rewrite url_escape_id by done.
  rewrite url_escape_id by (rewrite all_bytes_app; simpl; by apply id_bytes). done.
Qed.

(** ** The address of the proxy *)

Lemma proxy_match m id :
  id <> "/" ->
  exists p, tree_match patterns m ["proxy"; id] = Some (p, [id]) /\ p_handler p = HProxy /\
    p_segments p = [Lit "proxy"; Wild].
Proof.
  intros Hid. exists (mkPattern None [Lit "proxy"; Wild] HProxy). split; [|done].
  assert (Hn : forall m', match_path (with_method patterns (Some m')) ["proxy"; id] = None).
  { intros m'. destruct (match_path _ _) as [[p vs]|] eqn:E; [|done].
    apply match_path_sound in E as (q & Hin & Hm). unfold with_method in Hin.
    apply list_elem_of_fmap in Hin as (p' & [= -> ->] & [Hp Hin]%list_elem_of_filter). unfold patterns in Hin.
    repeat (apply elem_of_cons in Hin as [->|Hin]; [by inversion Hm|]). by apply elem_of_nil in Hin. }
  unfold tree_match. rewrite !Hn. simpl. rewrite (bool_decide_false (id = _)) by done.
  by case_bool_decide.
Qed.

(** A request for the path of a proxied session reaches the proxy, whatever
    its method. *)
Lemma dispatch_proxy m id :
  proper_name id -> mem_byte "%" id = false ->
  mux_dispatch patterns m (abs_path ["proxy"; id]) = Handled HProxy [id].
Proof.
  intros Hid Hp. unfold mux_dispatch.
  rewrite bool_decide_false by done.
  assert (HF : Forall proper_name ["proxy"; id]).
  { constructor; [by split|]. by constructor. }
  assert (Hc : clean_path (abs_path ["proxy"; id]) = abs_path ["proxy"; id]).
  { unfold clean_path. change (has_prefix (abs_path ["proxy"; id]) "/") with true. cbv iota.
    rewrite clean_abs_path by done.
    rewrite split_abs_path by done. simpl.
    rewrite (bool_decide_false (Some id = _)); [done|].
    intros [=E]. by apply (pn_empty _ Hid). }
  rewrite Hc. replace (if bool_decide _ then _ else _) with (abs_path ["proxy"; id]) by by case_bool_decide.
  assert (Hs : segments (abs_path ["proxy"; id]) = ["proxy"; id]).
  { unfold segments. rewrite raw_segments_abs by done. simpl.
    rewrite bool_decide_false by apply (pn_empty _ Hid). by rewrite path_unescape_plain. }
  assert (Hns : id <> "/") by (intros ->; by destruct (pn_slash _ Hid)).
  destruct (proxy_match m id Hns) as (p & Hm & Hh & Hps).
  unfold slash_redirect. rewrite Hs, Hm. unfold exact at 1. rewrite Hps. cbn [last].
  rewrite bool_decide_false by done. simpl. rewrite bool_decide_true by done. simpl. by rewrite Hh.
Qed.

(** C23: the address a client is given leads back to its session: parsed, it
    has this server's host as the client knows it, and the path it holds is
    routed to the proxy with the ID of the session, whatever the method of
    the request, and labelled as such. *)
Theorem proxy_address_roundtrip host bs v :
  host <> EmptyString -> plain_host host = true -> length bs = IDLen / 2 ->
  let id := randString bs in
  exists u, url_Parse (WebSocketDebuggerURL (ChromiumVersion (proxied host (mkSessionInfo id v)))) = Ok u /\
    Scheme u = "ws" /\ Host u = host /\
    forall r, r_escaped r = Path u -> dispatch r = Handled HProxy [id] /\ Route r = "/proxy/{id}".
Proof.
  intros Hne Hh Hl id. pose proof (id_proper bs Hl) as Hid.
  assert (Hhex : forall P, all_bytes P hex_alphabet = true -> all_bytes P id = true) by (intros; by apply id_bytes).
  exists (mkURL "ws" "" None host (abs_path ["proxy"; id]) ""). split.
  - unfold proxied. cbn [ChromiumVersion WebSocketDebuggerURL ID]. unfold id; rewrite proxy_url_string; [|done| |done]; fold id.
    + apply (url_Parse_ws host ("proxy/" +:+ id) Hh). rewrite all_bytes_app. simpl. by apply Hhex.
    + apply andb_true_iff in Hh as [Hb _]. eapply all_bytes_impl; [|done].
      by intros c [? _]%andb_true_iff.
  - split_and!; [done|done|]. intros r Hr. simpl in Hr.
    assert (Hd : dispatch r = Handled HProxy [id]).
    { unfold dispatch. rewrite Hr. apply dispatch_proxy; [done|].
      apply (all_bytes_not_mem (fun c => negb (Ascii.eqb c "%"))); [done|]. by apply Hhex. }
    split; [done|]. pose proof (proj1 (dispatch_serves _ _ _ Hd)) as (w & _ & Hs & [= <-]).
    apply dispatch_serves in Hd as [_ Hp]. unfold Route. rewrite Hp, Hs. generalize id. by intros [].
Qed.

Definition with_url (v : VersionInfo) (url : string) : VersionInfo :=
  mkVersionInfo (Browser v) (ProtocolVersion v) (UserAgent v) (V8Version v) (WebKitVersion v) url.

Lemma create_ok_session env v ci ifFree s si s' :
  create env v ci ifFree s = (Ok si, s') ->
  exists version, v = Ok version /\ si = mkSessionInfo (randString (e_rand env)) version /\
    Session (randString (e_rand env)) s' = Some si.
Proof.
  unfold create, create_begin. destruct (draining _); [done|]. destruct (ifFree && _); [done|].
  destruct v as [version|e]; simpl; [|done]. intros. simplify_eq/=.
  exists version. split_and!; try done. unfold Session. simpl. by rewrite lookup_insert_eq.
Qed.

(** C22: the answer to a successful creation, by either endpoint: the client
    is given the session's ID and Chromium's version, with the address of
    this server's proxy as debugger URL; the session the supervisor keeps has
    Chromium's own URL, and that is where its proxied connections go, with
    the host Chromium advertised and without an origin. *)
Theorem createSession_ok l env v r ifFree s resp s' :
  createSession l r (fun ci => create env v ci ifFree) s = (resp, s') -> status resp = StatusOK ->
  length (e_rand env) = IDLen / 2 ->
  r_host r <> EmptyString -> all_bytes host_kept (r_host r) = true ->
  let id := randString (e_rand env) in
  exists version, v = Ok version /\ content_type resp = Some application_json /\
    body resp = JSON (encode_session (mkSessionInfo id (with_url version (proxy_url (r_host r) id))) +:+ str1 lf) /\
    Session id s' = Some (mkSessionInfo id version) /\
    forall u, url_Parse (WebSocketDebuggerURL version) = Ok u ->
      (Proxy l id s').1 = Forwarded u (Host u) None.
Proof.
  unfold createSession. destruct (read_checkinfo l r) as [ci logs].
  destruct (create env v ci ifFree _) as [[si|e] s1] eqn:Ec; intros E Hst Hl Hne Hh; simplify_eq.
  2:{ simpl in Hst. unfold error_status in Hst. by repeat case_match. }
  apply create_ok_session in Ec as (version & -> & -> & Hs). exists version. split_and!; try done.
  - unfold respond, proxied. cbn [body ID ChromiumVersion]. by rewrite proxy_url_string.
  - intros u Hp. unfold Proxy. rewrite Hs. simpl. rewrite Hp.
    rewrite bool_decide_false; [done|]. apply (pn_empty _ (id_proper _ Hl)).
Qed.

(** The statuses of acquiring: 503 while draining and 409 when there is a
    session, in both cases whatever the request's body, and leaving the
    session as it is; otherwise 200, or the error of starting Chromium. *)
Theorem http_Acquire_status l env v r s :
  let '(resp, s') := http_Acquire l env v r s in
  if draining (sup s) then status resp = StatusServiceUnavailable /\ s' ≡ s
  else if decide (sessions (sup s) = ∅) then
    match v with
    | Ok version => status resp = StatusOK /\
        Session (randString (e_rand env)) s' = Some (mkSessionInfo (randString (e_rand env)) version)
    | Err e => status resp = error_status e
    end
  else status resp = StatusConflict /\ s' ≡ s.
Proof.
  unfold http_Acquire, createSession, CreateIfFree. destruct (read_checkinfo l r) as [ci logs].
  destruct (logs_sup logs s) as [Hsup _]. pose proof (logs_equiv logs s) as Heq.
  set (s0 := foldl _ _ _) in *. clearbody s0.
  destruct (create env v ci true s0) as [x s'] eqn:Ec.
  pose proof (create_ok_session env v ci true s0) as Hok. rewrite Ec in Hok.
  revert Ec. unfold create, create_begin. rewrite Hsup.
  destruct (draining (sup s)); [intros; by simplify_eq|].
  case_decide as Hem.
  - rewrite Hem. rewrite map_size_empty. cbn [andb Nat.ltb Nat.leb].
    destruct v as [version|e]; simpl; intros; simplify_eq; [|done].
    split; [done|]. destruct (Hok _ _ eq_refl) as (? & ? & ? & ?). by simplify_eq.
  - destruct (Nat.ltb_spec 0 (size (sessions (sup s)))) as [|Hle].
    + simpl. intros. by simplify_eq.
    + destruct Hem. apply map_size_empty_iff. lia.
Qed.

(** ** What the client reads *)

Definition version_json (v : VersionInfo) : json :=
  JObject [("Browser", JString (Browser v)); ("Protocol-Version", JString (ProtocolVersion v));
           ("User-Agent", JString (UserAgent v)); ("V8-Version", JString (V8Version v));
           ("WebKit-Version", JString (WebKitVersion v));
           ("webSocketDebuggerUrl", JString (WebSocketDebuggerURL v))].

Definition session_json (si : SessionInfo) : json :=
  JObject [("id", JString (ID si)); ("chromiumVersion", version_json (ChromiumVersion si))].

(** The texts of a version made valid, as the encoder makes them. *)
Definition valid_version (v : VersionInfo) : VersionInfo :=
  mkVersionInfo (valid_text (Browser v)) (valid_text (ProtocolVersion v)) (valid_text (UserAgent v))
    (valid_text (V8Version v)) (valid_text (WebKitVersion v)) (valid_text (WebSocketDebuggerURL v)).

Definition valid_session (si : SessionInfo) : SessionInfo :=
  mkSessionInfo (valid_text (ID si)) (valid_version (ChromiumVersion si)).

Lemma store_version_valid v key j v' :
  valid_version v = v -> utf8_json j -> store_version v key j = Ok v' -> valid_version v' = v'.
Proof.
  destruct v as [b p u v8 w d]. unfold valid_version. cbn. intros [= Hb Hp Hu H8 Hw Hd] Hj.
  assert (Hs : forall old s, valid_text old = old -> decode_string old j = Ok s -> valid_text s = s).
  { intros old s Ho. by apply decode_string_utf8. }
  destruct (find_field _ _) as [f|]; [|intros; simplify_eq; simpl; congruence].
  repeat case_bool_decide;
    (destruct (decode_string _ j) eqn:E; [|done]; apply Hs in E; [|done]; intros; simplify_eq/=; congruence).
Qed.

(** What Chromium answered is valid. *)
Lemma version_valid r v : version r = Ok v -> valid_version v = v.
Proof.
  destruct r as [| |f]; try done. unfold version. destruct (Decode f) as [j|e] eqn:Ed; [|done]. simpl.
  destruct (decode_struct _ _ _) eqn:E; [|done]. intros. simplify_eq/=.
  eapply (decode_struct_inv (fun v => valid_version v = v)); [|apply store_version_valid| |exact E]; [done|].
  by eapply Decode_utf8.
Qed.

Lemma reads_version v : reads 8 (encode_version v) (version_json (valid_version v)).
Proof.
  apply (reads_object
    [("Browser", encode_string (Browser v), JString (valid_text (Browser v)));
     ("Protocol-Version", encode_string (ProtocolVersion v), JString (valid_text (ProtocolVersion v)));
     ("User-Agent", encode_string (UserAgent v), JString (valid_text (UserAgent v)));
     ("V8-Version", encode_string (V8Version v), JString (valid_text (V8Version v)));
     ("WebKit-Version", encode_string (WebKitVersion v), JString (valid_text (WebKitVersion v)));
     ("webSocketDebuggerUrl", encode_string (WebSocketDebuggerURL v), JString (valid_text (WebSocketDebuggerURL v)))] 1);
    [done|].
  repeat (constructor; [split; [reflexivity|by apply reads_string]|]). constructor.
Qed.

Lemma reads_mono n n' t v : (n <= n')%nat -> reads n t v -> reads n' t v.
Proof. intros Hn Hr fuel depth rest ? ?. apply Hr; lia. Qed.

Lemma reads_session si : reads 11 (encode_session si) (session_json (valid_session si)).
Proof.
  apply (reads_object
    [("id", encode_string (ID si), JString (valid_text (ID si)));
     ("chromiumVersion", encode_version (ChromiumVersion si), version_json (valid_version (ChromiumVersion si)))] 8);
    [done|].
  constructor; [split; [done|]; apply (reads_mono 1); [lia|by apply reads_string]|].
  constructor; [split; [done|by apply reads_version]|constructor].
Qed.

(** A complete object at the front of a stream is decoded, whatever follows. *)
Lemma Decode_reads n text l rest err :
  reads n text (JObject l) -> (n <= 20)%nat -> (9 <= String.length text)%nat ->
  Decode (mkFile (text +:+ rest) err) = Ok (JObject l).
Proof.
  intros Hr Hn Hl. unfold Decode, parse_json. cbn [f_data f_err].
  rewrite Hr; [by destruct err|rewrite length_string_app; lia|].
  apply (Nat.le_trans _ 20); [done|]. apply Nat.leb_le. vm_compute. reflexivity.
Qed.

(** C31: what the server writes is what a JSON reader gets: the answer to a
    creation is one JSON object with the session's ID and Chromium's version,
    and a document written from a version is decoded by the Chromium client
    to that version, malformed UTF-8 being replaced, whatever follows it and
    even if reading on fails; and the texts Chromium answered are well formed
    once they were decoded, so clients read them unchanged. *)
Theorem session_json_roundtrip si rest err :
  Decode (mkFile (encode_session si +:+ rest) err) = Ok (session_json (valid_session si)) /\
  version (Body (mkFile (encode_version (ChromiumVersion si) +:+ rest) err)) =
    Ok (valid_version (ChromiumVersion si)) /\
  (forall r, version r = Ok (ChromiumVersion si) -> valid_version (ChromiumVersion si) = ChromiumVersion si).
Proof.
  split; [|split; [|intros r; apply version_valid]].
  - apply (Decode_reads 11); [apply reads_session|lia|].
    unfold encode_session, encode_object. cbn [fmap list_fmap join fst snd].
    rewrite !length_string_app. change (String.length (encode_string "id")) with 4%nat.
    change (String.length (encode_string "chromiumVersion")) with 17%nat. simpl. lia.
  - unfold version.
    rewrite (Decode_reads 8 (encode_version (ChromiumVersion si)) _ rest err (reads_version _)).
    + by destruct (ChromiumVersion si).
    + lia.
    + unfold encode_version, encode_object. cbn [fmap list_fmap join fst snd].
      rewrite !length_string_app. change (String.length (encode_string "Browser")) with 9%nat. simpl. lia.
Qed.

Section deleting.
Context `{ProcFS}.

(** C24: deleting over HTTP: 200 if the session existed and 404 otherwise;
    afterwards the session is gone, a second delete answers 404, and so does
    the proxy. *)
Theorem http_Delete_status l w id s :
  id <> EmptyString ->
  let '(resp, s') := http_Delete w id s in
  status resp = (if decide (is_Some (Session id s)) then StatusOK else StatusNotFound) /\
  Session id s' = None /\
  (forall w', status (http_Delete w' id s').1 = StatusNotFound) /\
  (Proxy l id s').1 = Refused (mkResponse StatusNotFound None Nothing) /\
  (forall id', id' <> id -> Session id' s' = Session id' s).
Proof.
  intros Hid. unfold http_Delete, Proxy. rewrite !(bool_decide_false (id = EmptyString)) by done.
  assert (Hgone : forall s1, sessions (sup s1) !! id = None ->
    Session id s1 = None /\ (forall w', Supervisor.Delete w' id s1 = (false, s1))).
  { intros s1 E. unfold Session. rewrite E. split; [done|].
    intros w'. by apply deleteWithReason_missing. }
  destruct (decide (is_Some (Session id s))) as [Hsome|Hnone].
  - unfold Session in Hsome. apply fmap_is_Some in Hsome as [sess E].
    destruct (deleteWithReason_found w id TerminationReasonDeleted s sess E) as [Hf [Eq]].
    unfold Supervisor.Delete in *.
    destruct (deleteWithReason w id _ s) as [found s']. simpl in Hf, Eq. subst found.
    unfold core in Eq. injection Eq as E1 _ _ _ _ _ _ _ _ _. simpl in E1.
    destruct (Hgone s') as [Hs Hd]; [by rewrite E1, lookup_delete_eq|].
    rewrite Hs. split_and!; try done.
    + intros w'. by rewrite Hd.
    + intros id' Hne. unfold Session. by rewrite E1, lookup_delete_ne.
  - assert (E : sessions (sup s) !! id = None).
    { unfold Session in Hnone. destruct (sessions (sup s) !! id); [|done]. by destruct Hnone. }
    destruct (Hgone s E) as [Hs Hd]. rewrite Hd, Hs. split_and!; try done.
    intros w'. by rewrite Hd.
Qed.
End deleting.

(** ** Witnesses *)

Definition acquire0 : request :=
  mkRequest "POST" "/sessions/acquire" "croco:8080" "application/json"
    (mkFile (quoted "{'type': 'browser', 'metadata': {'tenantID': 7}}") None).

Lemma createSession_ok_witness :
  exists version, Ok version0 = Ok version /\
    Session id1 (http_Acquire [] env1 (Ok version0) acquire0 prog0).2 = Some (mkSessionInfo id1 version).
Proof.
  destruct (createSession_ok [] env1 (Ok version0) acquire0 true prog0
    (http_Acquire [] env1 (Ok version0) acquire0 prog0).1 (http_Acquire [] env1 (Ok version0) acquire0 prog0).2)
    as (version & E & _ & _ & Hs & _); try (vm_compute; reflexivity); try discriminate.
  exists version. split; [exact E|exact Hs].
Defined.

Lemma http_Delete_status_witness : status (http_Delete (still machine) id1 busy).1 = StatusOK.
Proof.
  assert (Hne : id1 <> EmptyString) by discriminate.
  pose proof (http_Delete_status [] (still machine) id1 busy Hne) as Hd.
  destruct (http_Delete (still machine) id1 busy) as [resp s']. destruct Hd as [Hd _].
  rewrite decide_True in Hd by (vm_compute; eauto). exact Hd.
Defined.

Lemma session_json_roundtrip_witness :
  version (Body (mkFile version0_text None)) = Ok version0 /\ valid_version version0 = version0.
Proof.
  assert (Hv : version (Body (mkFile version0_text None)) = Ok version0) by (vm_compute; reflexivity).
  split; [exact Hv|].
  destruct (session_json_roundtrip (mkSessionInfo id1 version0) "x" None) as (_ & _ & Hr).
  exact (Hr _ Hv).
Defined.

Lemma proxy_address_roundtrip_witness :
  exists u, url_Parse (proxy_url "croco:8080" id1) = Ok u /\ Host u = "croco:8080".
Proof.
  destruct (proxy_address_roundtrip "croco:8080" (e_rand env1) version0) as (u & Hu & _ & Hh & _);
    [discriminate|vm_compute; reflexivity|reflexivity|].
  exists u. split; [exact Hu|exact Hh].
Defined.
