(* ===== verification/Service.v ===== *)
(** * The HTTP service

    The server in front of the supervisor, as a transition system: requests
    arrive, are routed, and their handlers run between the other steps of the
    process.  A creation is two events, as its handler waits for Chromium
    while other requests are answered.  [service_implements_lease] is the
    contract of the HTTP API: what the statuses tell a client about who holds
    the browser. *)

From S2P Require Import Prelude GoStrings OS Machine Json Url Mux Metrics Chromium Cgroup Proc Supervisor Launch System Invariant Lease Refinement Scenario Http.

(** ** Replies *)

(** What a client gets: the response of a handler, an answer of the
    multiplexer, or a proxied connection. *)
Inductive reply :=
  | Answered (r : response)
  | Moved (path : string)
  | Disallowed (allow : list string)
  | Missing
  | Malformed
  | Proxied (backend : URL) (host : string) (origin : option string).

(** The answers of the multiplexer itself. *)
Definition mux_reply {H} (d : routed H) : option reply :=
  match d with
  | Handled _ _ => None
  | Redirected path => Some (Moved path)
  | NotAllowed allow => Some (Disallowed allow)
  | NotFound => Some Missing
  | BadURI => Some Malformed
  end.

(** The status; the backend decides that of a proxied request. *)
Definition reply_status (a : reply) : option Z :=
  match a with
  | Answered r => Some (status r)
  | Moved _ => Some StatusTemporaryRedirect
  | Disallowed _ => Some StatusMethodNotAllowed
  | Missing => Some StatusNotFound
  | Malformed => Some StatusBadRequest
  | Proxied _ _ _ => None
  end.

Definition proxy_reply (o : proxy_outcome) : reply :=
  match o with Refused r => Answered r | Forwarded b h o => Proxied b h o end.

(** The handlers that create sessions, and whether only if none exists. *)
Definition creates (d : routed handler) : option bool :=
  match d with
  | Handled HCreate _ => Some false
  | Handled HAcquire _ => Some true
  | _ => None
  end.

Inductive http_event :=
  | HReply (r : request) (a : reply)   (* a request was answered *)
  | HBegan (r : request)               (* a creation waits for Chromium *)
  | HInternal (e : event).             (* something else happened *)

(** The events that are not calls of the HTTP server. *)
Definition internal (e : event) : bool :=
  match e with
  | EvReject _ _ | EvStart _ _ | EvReady _ | EvDelete _ _ | EvSession _ _ | EvSessions _ => false
  | _ => true
  end.

Section service.
Context `{ProcFS} (l : logger).

(** [Server.ServeHTTP] logs a request before anything else. *)
Definition arrived (r : request) (s : prog) : prog := log (request_record l r) s.

(** [createSession] up to the wait for Chromium, and after it. *)
Definition begin_session (env : create_env) (ifFree : bool) (r : request) (s : prog) : res creating * prog :=
  let '(ci, logs) := read_checkinfo l r in create_begin env ci ifFree (foldl (flip log) s logs).

Definition finish_session (r : request) (cr : creating) (v : res VersionInfo) (s : prog) : reply * prog :=
  let '(x, s) := create_end cr v s in (Answered (respond r x), s).

(** The inputs a creation may meet. *)
Definition possible (env : create_env) (r : request) (s : prog) : Prop :=
  key_order (sessions (sup s)) (e_kill_order env) /\
  key_order (Metadata (read_checkinfo l r).1) (e_meta_order env) /\
  length (e_rand env) = IDLen / 2.

(** The state: the program, and the creation that waits for Chromium. *)
Inductive http_step : prog * option request -> http_event -> prog * option request -> Prop :=
  | hs_mux r a s cur :
      mux_reply (dispatch r) = Some a ->
      http_step (s, cur) (HReply r a) (arrived r s, cur)
  | hs_list r vs ids s cur :
      dispatch r = Handled HList vs -> unlocked s -> ids ≡ₚ Sessions s ->
      http_step (s, cur) (HReply r (Answered (List_ ids))) (arrived r s, cur)
  | hs_refused env r ifFree e s s' cur :
      creates (dispatch r) = Some ifFree -> unlocked s ->
      begin_session env ifFree r (arrived r s) = (Err e, s') ->
      http_step (s, cur) (HReply r (Answered (respond r (Err e)))) (s', cur)
  | hs_begin env r ifFree c s s' cur :
      creates (dispatch r) = Some ifFree -> unlocked s -> possible env r s ->
      begin_session env ifFree r (arrived r s) = (Ok c, s') ->
      http_step (s, cur) (HBegan r) (s', Some r)
  | hs_finish r c v s a s' :
      sessionsMtx (sup s) = Some c -> version_result v -> finish_session r c v s = (a, s') ->
      http_step (s, Some r) (HReply r a) (s', None)
  | hs_delete w r id s resp s' cur :
      dispatch r = Handled HDelete [id] -> unlocked s ->
      http_Delete w id (arrived r s) = (resp, s') ->
      http_step (s, cur) (HReply r (Answered resp)) (s', cur)
  | hs_proxy r id s o s' cur :
      dispatch r = Handled HProxy [id] -> unlocked s ->
      Proxy l id (arrived r s) = (o, s') ->
      http_step (s, cur) (HReply r (proxy_reply o)) (s', cur)
  | hs_internal e s s' cur :
      internal e = true -> step s e s' ->
      http_step (s, cur) (HInternal e) (s', cur).

Inductive http_steps : prog * option request -> list http_event -> prog * option request -> Prop :=
  | hss_nil x : http_steps x [] x
  | hss_cons x e y es z : http_step x e y -> http_steps y es z -> http_steps x (e :: es) z.

(** ** Serving one request alone *)

(** [ServeHTTP] when nothing else happens meanwhile; [ids] is the order in
    which the sessions are listed. *)
Definition ServeHTTP (env : create_env) (v : res VersionInfo) (w : world) (ids : list string)
    (r : request) (s : prog) : reply * prog :=
  let s := arrived r s in
  match dispatch r with
  | Handled HList _ => (Answered (List_ ids), s)
  | Handled HCreate _ => let '(resp, s) := http_Create l env v r s in (Answered resp, s)
  | Handled HAcquire _ => let '(resp, s) := http_Acquire l env v r s in (Answered resp, s)
  | Handled HDelete vs =>
      let '(resp, s) := http_Delete w (default EmptyString (head vs)) s in (Answered resp, s)
  | Handled HProxy vs => let '(o, s) := Proxy l (default EmptyString (head vs)) s in (proxy_reply o, s)
  | d => (default Missing (mux_reply d), s)
  end.
End service.

(** ** The contract of the API *)

(** A lease, and the client the browser is being started for. *)
Definition api := (lease * option request)%type.

Inductive api_step : api -> http_event -> api -> Prop :=
  (* requests that no handler takes say nothing about the browser *)
  | as_mux r a x :
      mux_reply (dispatch r) = Some a -> api_step x (HReply r a) x
  (* the list holds the session that has the browser, if any *)
  | as_list r vs h b cur :
      dispatch r = Handled HList vs -> idle h ->
      api_step (mkLease h b, cur) (HReply r (Answered (List_ (holder_ids h)))) (mkLease h b, cur)
  (* 503: closed; 409: an acquire while the browser is held *)
  | as_closed r ifFree h resp cur :
      creates (dispatch r) = Some ifFree -> idle h -> status resp = StatusServiceUnavailable ->
      api_step (mkLease h true, cur) (HReply r (Answered resp)) (mkLease h true, cur)
  | as_conflict r id resp cur :
      creates (dispatch r) = Some true -> status resp = StatusConflict ->
      api_step (mkLease (Busy id) false, cur) (HReply r (Answered resp)) (mkLease (Busy id) false, cur)
  (* an acquire only begins when the browser is free, a create also when held *)
  | as_begin r ifFree h id cur :
      creates (dispatch r) = Some ifFree -> h = Free \/ (ifFree = false /\ exists old, h = Busy old) ->
      api_step (mkLease h false, cur) (HBegan r) (mkLease (Starting id) false, Some r)
  (* 200: the client has the browser under the ID it is given *)
  | as_ready r si resp :
      status resp = StatusOK -> body resp = JSON (encode_session (proxied (r_host r) si) +:+ str1 lf) ->
      api_step (mkLease (Starting (ID si)) false, Some r) (HReply r (Answered resp))
        (mkLease (Busy (ID si)) false, None)
  (* 500: Chromium did not start, the browser is free *)
  | as_failed r id resp :
      status resp = StatusInternalServerError ->
      api_step (mkLease (Starting id) false, Some r) (HReply r (Answered resp)) (mkLease Free false, None)
  (* 200: the session held the browser and is gone; 404: it did not hold it *)
  | as_deleted r id resp b cur :
      dispatch r = Handled HDelete [id] -> status resp = StatusOK ->
      api_step (mkLease (Busy id) b, cur) (HReply r (Answered resp)) (mkLease Free b, cur)
  | as_undeleted r id resp h b cur :
      dispatch r = Handled HDelete [id] -> status resp = StatusNotFound -> idle h -> h <> Busy id ->
      api_step (mkLease h b, cur) (HReply r (Answered resp)) (mkLease h b, cur)
  (* the proxy answers 404 exactly when the session does not hold the browser *)
  | as_proxy r id a h b cur :
      dispatch r = Handled HProxy [id] -> idle h ->
      (reply_status a = Some StatusNotFound <-> h <> Busy id) ->
      api_step (mkLease h b, cur) (HReply r a) (mkLease h b, cur)
  | as_internal e x y cur :
      internal e = true -> lease_step x e y -> api_step (x, cur) (HInternal e) (y, cur).

Inductive api_steps : api -> list http_event -> api -> Prop :=
  | ass_nil x : api_steps x [] x
  | ass_cons x e y es z : api_step x e y -> api_steps y es z -> api_steps x (e :: es) z.

(** ** The service implements the contract *)

Section refinement.
Context `{ProcFS} (l : logger).

Lemma inv_logs rs s : inv s -> inv (foldl (flip log) s rs).
Proof. intros I. by eapply inv_proper; [apply logs_equiv|]. Qed.

Lemma abs_logs rs s : abs (foldl (flip log) s rs) = abs s.
Proof. by rewrite logs_equiv. Qed.

Lemma logs_unlocked rs s : unlocked s -> unlocked (foldl (flip log) s rs).
Proof. unfold unlocked. by destruct (logs_sup rs s) as [-> _]. Qed.

(** The steps of the program a creation takes. *)
Lemma begin_step env ifFree r s x s' :
  unlocked s -> inv s -> (is_ok x = true -> possible l env r s) ->
  begin_session l env ifFree r (arrived l r s) = (x, s') ->
  inv s' /\ lease_step (abs s)
    (match x with Ok c => EvStart ifFree (cr_id c) | Err e => EvReject ifFree e end) (abs s').
Proof.
  unfold begin_session. destruct (read_checkinfo l r) as [ci logs] eqn:Er. intros Hu I Hp Hb.
  set (s1 := foldl (flip log) (arrived l r s) logs) in *.
  assert (I1 : inv s1) by (apply inv_logs; unfold arrived; by rewrite log_equiv).
  assert (Hu1 : unlocked s1) by apply (logs_unlocked logs (arrived l r s) Hu).
  assert (Hs1 : sessions (sup s1) = sessions (sup s)) by (unfold s1; by destruct (logs_sup logs (arrived l r s)) as [-> _]).
  assert (Ha : abs s1 = abs s) by apply (abs_logs logs (arrived l r s)).
  assert (Hst : step s1 (match x with Ok c => EvStart ifFree (cr_id c) | Err e => EvReject ifFree e end) s').
  { destruct x as [c|e]; [|by eapply step_reject].
    destruct Hp as (Hk & Hm & Hl); [done|]. rewrite Er in Hm.
    eapply (step_start env ci); try done. by rewrite Hs1. }
  split; [by eapply inv_step|]. rewrite <- Ha. by apply step_lease.
Qed.

Lemma api_refused r ifFree e x y cur :
  creates (dispatch r) = Some ifFree -> lease_step x (EvReject ifFree e) y ->
  api_step (x, cur) (HReply r (Answered (respond r (Err e)))) (y, cur).
Proof.
  intros Hc Hst. inversion Hst; subst.
  - by eapply as_closed.
  - by eapply as_conflict.
Qed.

Lemma api_begun r ifFree id x y cur :
  creates (dispatch r) = Some ifFree -> lease_step x (EvStart ifFree id) y ->
  api_step (x, cur) (HBegan r) (y, Some r).
Proof. intros Hc Hst. inversion Hst; subst; eapply as_begin; eauto. Qed.

Lemma api_finished r v rs x y :
  version_result v -> (forall e, rs = Err e -> v = Err e) ->
  lease_step x (EvReady rs) y ->
  api_step (x, Some r) (HReply r (Answered (respond r rs))) (y, None).
Proof.
  intros Hv Hx Hst. inversion Hst; subst.
  - by apply as_ready.
  - apply as_failed. rewrite (Hx _ eq_refl) in Hv.
    apply version_result_error in Hv as (c & -> & [-> | ->]); done.
Qed.

Lemma api_delete r id (found : bool) resp x y cur :
  dispatch r = Handled HDelete [id] -> status resp = (if found then StatusOK else StatusNotFound) ->
  lease_step x (EvDelete id found) y -> api_step (x, cur) (HReply r (Answered resp)) (y, cur).
Proof. intros Hd Hs Hst. inversion Hst; subst; [by eapply as_deleted|by eapply as_undeleted]. Qed.

Lemma api_list r vs ids x y cur :
  dispatch r = Handled HList vs -> lease_step x (EvSessions ids) y ->
  api_step (x, cur) (HReply r (Answered (List_ ids))) (y, cur).
Proof. intros Hd Hst. inversion Hst; subst. by eapply as_list. Qed.

Lemma api_deleted w id r s resp s' cur :
  dispatch r = Handled HDelete [id] -> id <> EmptyString -> unlocked s -> inv s ->
  http_Delete w id (arrived l r s) = (resp, s') ->
  inv s' /\ api_step (abs s, cur) (HReply r (Answered resp)) (abs s', cur).
Proof.
  intros Hd Hid Hu I. unfold http_Delete. rewrite bool_decide_false by done.
  destruct (Delete w id (arrived l r s)) as [found s1] eqn:E. intros Hr.
  assert (I1 : inv (arrived l r s)) by (unfold arrived; by rewrite log_equiv).
  assert (Hst : step (arrived l r s) (EvDelete id found) s1) by by eapply step_delete.
  assert (s' = s1 /\ status resp = if found then StatusOK else StatusNotFound) as [-> Hs]
    by by destruct found; simplify_eq.
  split; [by eapply inv_step|].
  eapply api_delete; [done|done|]. apply (step_lease _ _ _ I1 Hst).
Qed.

Lemma api_proxied id r s o s' cur :
  dispatch r = Handled HProxy [id] -> id <> EmptyString -> unlocked s -> inv s ->
  Proxy l id (arrived l r s) = (o, s') ->
  inv s' /\ api_step (abs s, cur) (HReply r (proxy_reply o)) (abs s', cur).
Proof.
  intros Hd Hid Hu I. unfold Proxy. rewrite bool_decide_false by done.
  pose proof (abs_busy s id Hu I) as Hb. pose proof (abs_idle s Hu I) as Hi.
  change (Session id (arrived l r s)) with (Session id s). unfold Session.
  assert (Hsame : forall rec a, (reply_status a = Some StatusNotFound <-> held (abs s) <> Busy id) ->
    inv (log rec (arrived l r s)) /\
    api_step (abs s, cur) (HReply r a) (abs (log rec (arrived l r s)), cur)).
  { intros rec a Ha. split; [unfold arrived; by rewrite !log_equiv|].
    change (abs (log rec (arrived l r s))) with (abs s). rewrite (lease_eta (abs s)).
    by eapply as_proxy. }
  destruct (sessions (sup s) !! id) as [sess|] eqn:E; simpl.
  - assert (Hbusy : held (abs s) = Busy id) by (apply Hb; eauto).
    destruct (url_Parse _) as [u|e]; intros; simplify_eq.
    + refine (Hsame _ (Proxied u _ _) _). split; [discriminate|congruence].
    + refine (Hsame _ (Answered _) _). split; [discriminate|congruence].
  - assert (Hfree : held (abs s) <> Busy id) by (rewrite Hb; by intros []).
    intros. simplify_eq. by refine (Hsame _ (Answered _) _).
Qed.

Lemma http_step_api x e y :
  inv x.1 -> http_step l x e y -> inv y.1 /\ api_step (abs x.1, x.2) e (abs y.1, y.2).
Proof.
  intros I Hst. destruct Hst as [r a s cur Hm|r vs ids s cur Hd Hu Hp|env r ifFree e s s' cur Hc Hu Hb|
    env r ifFree c s s' cur Hc Hu Hp Hb|r c v s a s' Hl Hv Hf|w r id s resp s' cur Hd Hu Hb|
    r id s o s' cur Hd Hu Hb|e s s' cur Hi Hst]; simpl in *.
  - split; [unfold arrived; by rewrite log_equiv|].
    change (abs (arrived l r s)) with (abs s). by apply as_mux.
  - split; [unfold arrived; by rewrite log_equiv|]. change (abs (arrived l r s)) with (abs s).
    eapply api_list; [done|]. by apply step_lease, step_sessions.
  - destruct (begin_step env ifFree r s (Err e) s' Hu I ltac:(done) Hb) as [I' Hl].
    split; [done|]. by eapply api_refused.
  - destruct (begin_step env ifFree r s (Ok c) s' Hu I (fun _ => Hp) Hb) as [I' Hl].
    split; [done|]. by eapply api_begun.
  - unfold finish_session in Hf. destruct (create_end c v s) as [x s1] eqn:Ee. simplify_eq.
    assert (Hst : step s (EvReady x) s') by by eapply step_ready.
    split; [by eapply inv_step|].
    eapply api_finished; [done| |by apply step_lease].
    intros e. destruct v; simplify_eq/=; congruence.
  - eapply api_deleted; eauto. by apply dispatch_serves in Hd as [(? & ? & _ & [= <-]) _].
  - eapply api_proxied; eauto. by apply dispatch_serves in Hd as [(? & ? & _ & [= <-]) _].
  - split; [by eapply inv_step|]. apply as_internal; [done|]. by apply step_lease.
Qed.

Lemma http_steps_api x es y :
  inv x.1 -> http_steps l x es y -> api_steps (abs x.1, x.2) es (abs y.1, y.2).
Proof.
  intros I Hs. revert I. induction Hs as [x|x e y es z Hst _ IH]; intros I; [constructor|].
  apply http_step_api in Hst as [I' Ha]; [|done]. econstructor; eauto.
Qed.

(** C2: the HTTP API keeps its contract in every run, whatever requests
    arrive, in whatever interleaving with timeouts, exits and draining: 200
    to a creation means the client has the browser under the ID it is given,
    409 that somebody else has, 503 that the server is closed, 500 that
    Chromium did not start; 200 to a delete means the session had the browser
    and is gone, 404 that it did not have it; the proxy answers 404 exactly
    to those who do not have the browser, and the list names who has. *)
Theorem service_implements_lease s0 es s cur :
  initial s0 -> http_steps l (s0, None) es (s, cur) ->
  api_steps (mkLease Free false, None) es (abs s, cur).
Proof.
  intros Hi Hs. rewrite <- (abs_initial s0 Hi).
  apply (http_steps_api (s0, None) es (s, cur) (inv_initial s0 Hi) Hs).
Qed.
End refinement.

(** ** Consequences *)

(** Creations that were answered with 200. *)
Definition granted (e : http_event) : bool :=
  match e with
  | HReply r (Answered resp) => bool_decide (is_Some (creates (dispatch r))) && (status resp =? StatusOK)%Z
  | _ => false
  end.

(** What takes the browser away from its client: a delete answered with 200,
    a timeout that found the session, a POST to /sessions. *)
Definition released (e : http_event) : bool :=
  match e with
  | HReply r (Answered resp) =>
      match dispatch r with Handled HDelete _ => (status resp =? StatusOK)%Z | _ => false end
  | HBegan r => bool_decide (creates (dispatch r) = Some false)
  | HInternal (EvReap _ true) => true
  | _ => false
  end.

Definition tally (p : http_event -> bool) (es : list http_event) : nat := length (List.filter p es).

Lemma tally_cons p e es : tally p (e :: es) = (if p e then 1 else 0) + tally p es.
Proof. unfold tally. simpl. by destruct (p e). Qed.

Definition holds (x : api) : nat := length (holder_ids (held x.1)).

Lemma mux_creates r a : mux_reply (dispatch r) = Some a -> creates (dispatch r) = None.
Proof. by destruct (dispatch r). Qed.

Lemma api_step_balance x e y :
  api_step x e y -> (if granted e then 1 else 0) + holds x <= (if released e then 1 else 0) + holds y.
Proof.
  unfold holds. destruct 1 as [r a x Hm|r vs h b cur Hd _|r ifFree h resp cur Hc _ Hs|r id resp cur Hc Hs|
    r ifFree h id cur Hc Hh|r si resp Hs _|r id resp Hs|r id resp b cur Hd Hs|r id resp h b cur Hd Hs _ _|
    r id a h b cur Hd _ _|e x y cur Hi Hst]; simpl.
  - apply mux_creates in Hm. destruct a; try lia. rewrite Hm. simpl. lia.
  - rewrite Hd. simpl. lia.
  - rewrite Hs, andb_false_r. lia.
  - rewrite Hs, andb_false_r. lia.
  - rewrite Hc. destruct Hh as [->|(-> & old & ->)]; simpl; lia.
  - case_match; lia.
  - rewrite Hs, andb_false_r. lia.
  - rewrite Hd, Hs. simpl. lia.
  - rewrite Hd, Hs. simpl. lia.
  - destruct a; try lia. rewrite Hd. simpl. lia.
  - destruct Hst; simpl in *; try lia; try done; case_match; lia.
Qed.

Lemma api_exclusive x es y :
  api_steps x es y -> tally granted es + holds x <= tally released es + holds y.
Proof.
  induction 1 as [|x e y es z Hst _ IH]; [done|].
  apply api_step_balance in Hst. rewrite !tally_cons. lia.
Qed.

Section exclusive.
Context `{ProcFS} (l : logger).

(** C11: over any run of the service the creations answered with 200
    outnumber the releases by at most one: of any number of concurrent
    clients that acquire, one has the browser until it is released. *)
Theorem http_grants_are_exclusive s0 es s cur :
  initial s0 -> http_steps l (s0, None) es (s, cur) ->
  (tally granted es <= tally released es + 1)%nat.
Proof.
  intros Hi Hs.
  apply (http_steps_api l (s0, None) es (s, cur) (inv_initial s0 Hi)), api_exclusive in Hs.
  unfold holds in Hs. cbn [fst] in Hs. rewrite (abs_initial s0 Hi) in Hs. cbn [held holder_ids length] in Hs.
  assert (length (holder_ids (held (abs s))) <= 1)%nat by (destruct (held (abs s)); simpl; lia).
  lia.
Qed.
End exclusive.

(** ** One request at a time *)

Section sequential.
Context `{ProcFS} (l : logger).

Lemma creation_runs env v ifFree r s resp s' :
  creates (dispatch r) = Some ifFree -> unlocked s -> possible l env r s -> version_result v ->
  createSession l r (fun ci => create env v ci ifFree) (arrived l r s) = (resp, s') ->
  exists es, http_steps l (s, None) (es ++ [HReply r (Answered resp)]) (s', None) /\
    (es = [] \/ es = [HBegan r]).
Proof.
  intros Hc Hu Hp Hv. unfold createSession, create.
  destruct (read_checkinfo l r) as [ci logs] eqn:Er.
  destruct (create_begin env ci ifFree _) as [[c|e] s1] eqn:Eb.
  - destruct (create_end c v s1) as [x s2] eqn:Ee. intros. simplify_eq.
    exists [HBegan r]. split; [|by right].
    assert (Hl : sessionsMtx (sup s1) = Some c).
    { revert Eb. unfold create_begin. destruct (draining _); [done|]. destruct (ifFree && _); [done|].
      destruct (run_io _ _); intros; by simplify_eq. }
    econstructor; [eapply hs_begin; [done|done|done|]|].
    + unfold begin_session. by rewrite Er.
    + econstructor; [|constructor]. eapply hs_finish; [done|done|]. unfold finish_session. by rewrite Ee.
  - intros. simplify_eq. exists []. split; [|by left].
    econstructor; [|constructor]. eapply hs_refused; [done|done|]. unfold begin_session. by rewrite Er.
Qed.

(** Serving one request alone is a run of the service, which ends with the
    reply of [ServeHTTP]. *)
Lemma ServeHTTP_runs env v w ids r s a s' :
  unlocked s -> possible l env r s -> version_result v -> ids ≡ₚ Sessions s ->
  ServeHTTP l env v w ids r s = (a, s') ->
  exists es, http_steps l (s, None) (es ++ [HReply r a]) (s', None) /\ (es = [] \/ es = [HBegan r]).
Proof.
  intros Hu Hp Hv Hids. unfold ServeHTTP.
  assert (Hone : forall a s', http_step l (s, None) (HReply r a) (s', None) ->
    exists es, http_steps l (s, None) (es ++ [HReply r a]) (s', None) /\ (es = [] \/ es = [HBegan r])).
  { intros a1 s1 Hst. exists []. split; [|by left]. econstructor; [done|constructor]. }
  destruct (dispatch r) as [h vs| | | |] eqn:Hd; [|intros; simplify_eq; apply Hone, hs_mux; by rewrite Hd..].
  pose proof (proj1 (dispatch_serves _ _ _ Hd)) as Hsv. destruct h.
  - intros. simplify_eq. by eapply Hone, hs_list.
  - destruct (http_Create _ _ _ _ _) as [resp s1] eqn:Ec. intros. simplify_eq.
    eapply creation_runs; [|done..|exact Ec]. by rewrite Hd.
  - destruct (http_Acquire _ _ _ _ _) as [resp s1] eqn:Ec. intros. simplify_eq.
    eapply creation_runs; [|done..|exact Ec]. by rewrite Hd.
  - destruct Hsv as (id & _ & _ & ->). simpl.
    destruct (http_Delete _ _ _) as [resp s1] eqn:Ec. intros. simplify_eq. by eapply Hone, hs_delete.
  - destruct Hsv as (id & _ & _ & ->). simpl.
    destruct (Proxy _ _ _) as [o s1] eqn:Ec. intros. simplify_eq. by eapply Hone, hs_proxy.
Qed.
End sequential.

(** ** Witnesses *)

Definition post_acquire : request := get "POST" "/sessions/acquire".
Definition served1 : reply * prog := ServeHTTP [] env1 (Ok version0) (still machine) [] post_acquire prog0.

Lemma served1_runs :
  exists es, http_steps [] (prog0, None) (es ++ [HReply post_acquire served1.1]) (served1.2, None) /\
    (es = [] \/ es = [HBegan post_acquire]).
Proof.
  apply (ServeHTTP_runs [] env1 (Ok version0) (still machine) []); try done.
  - split_and!; [constructor|vm_compute; constructor|done].
  - apply answers.
Qed.

Lemma service_implements_lease_witness :
  exists es, api_steps (mkLease Free false, None) (es ++ [HReply post_acquire served1.1])
    (mkLease (Busy id1) false, None) /\ reply_status served1.1 = Some StatusOK.
Proof.
  destruct served1_runs as (es & Hs & _). exists es. split; [|vm_compute; reflexivity].
  apply (service_implements_lease [] prog0 _ served1.2 None initial0) in Hs.
  assert (Ha : abs served1.2 = mkLease (Busy id1) false) by (vm_compute; reflexivity).
  rewrite Ha in Hs. exact Hs.
Defined.

Lemma http_grants_are_exclusive_witness :
  exists es, tally granted es = 1 /\ tally granted es <= tally released es + 1.
Proof.
  destruct served1_runs as (es & Hs & He). exists (es ++ [HReply post_acquire served1.1]). split.
  - destruct He as [-> | ->]; vm_compute; reflexivity.
  - apply (http_grants_are_exclusive [] prog0 _ served1.2 None initial0 Hs).
Defined.
