(* ===== verification/Instrument.v ===== *)
(** * Metrics of the process: InstrumentHTTP, AddVersionMetrics, registration

    The metrics around the HTTP handler (internal/metrics/metrics.go), the
    outer multiplexer of cmd/crocochrome/main.go that exposes them, and the
    registration of every collector.  The packages of prometheus/client_golang
    are the interfaces [Promhttp] and [Prometheus]. *)

From S2P Require Import Prelude GoStrings OS Machine Json JsonText Url Mux Metrics Chromium BuildVersion Cgroup Proc Supervisor Launch System Scenario Http Service.

(** ** promhttp *)

(** A handler on a state [M]; its context holds the route label, if any. *)
Definition Handler (M : Type) := request -> option string -> M -> reply * M.

(** The values of the labels code, method and route. *)
Record series := mkSeries { l_code : string; l_method : string; l_route : string }.

#[export] Instance series_eq_dec : EqDecision series.
Proof. solve_decision. Defined.
#[export] Instance series_countable : Countable series.
Proof.
  apply (inj_countable' (fun l => (l_code l, l_method l, l_route l)) (fun x => mkSeries x.1.1 x.1.2 x.2)).
  by intros [].
Defined.

(** The two middlewares.  They call the handler once and observe its result:
    the status it wrote, the method, and the labels taken from the context,
    and for durations a time that is not negative. *)
Class Promhttp := {
  code_label : reply -> string;
  method_label : string -> string;
  InstrumentHandlerCounter {M} : (series -> M -> M) -> Handler M -> (option string -> string) -> Handler M;
  InstrumentHandlerDuration {M} : (series -> Z -> M -> M) -> Handler M -> (option string -> string) -> Handler M;
  counter_law {M} (add : series -> M -> M) next label r c m :
    InstrumentHandlerCounter add next label r c m =
      let '(a, m) := next r c m in (a, add (mkSeries (code_label a) (method_label (r_method r)) (label c)) m);
  duration_law {M} (observe : series -> Z -> M -> M) next label r c m :
    exists d, (0 <= d)%Z /\
    InstrumentHandlerDuration observe next label r c m =
      let '(a, m) := next r c m in (a, observe (mkSeries (code_label a) (method_label (r_method r)) (label c)) d m);
}.

(** ** InstrumentHTTP *)

(** The process as its HTTP server sees it: the program and the two vectors. *)
Record site := mkSite { s_prog : prog; requests_total : gmap series Z; request_duration : gmap series (list Z) }.

Definition add_request (l : series) (s : site) : site :=
  mkSite (s_prog s) (inc_label l (requests_total s)) (request_duration s).
Definition observe_request (l : series) (d : Z) (s : site) : site :=
  mkSite (s_prog s) (requests_total s) (observe_label l d (request_duration s)).

(** The label taken from the context. *)
Definition routeLabel (ctx : option string) : string := default "unknown" ctx.

Section instrument.
Context `{Promhttp}.

Definition InstrumentHTTP (handler : Handler site) (route : request -> string) (r : request) (s : site)
    : reply * site :=
  let handler := InstrumentHandlerCounter add_request handler routeLabel in
  let instrumented := InstrumentHandlerDuration observe_request handler routeLabel in
  instrumented r (Some (route r)) s.
End instrument.

(** A handler of the program, which does not look at the context. *)
Definition lift (serve : request -> prog -> reply * prog) : Handler site := fun r _ s =>
  let '(a, p) := serve r (s_prog s) in (a, mkSite p (requests_total s) (request_duration s)).

(** ** The outer multiplexer *)

Inductive endpoint := MetricsEndpoint | ApiEndpoint.

Definition main_patterns : list (pattern endpoint) :=
  [mkPattern None [Lit "metrics"] MetricsEndpoint; mkPattern None [Rest] ApiEndpoint].

(** What the process does with a request: [None] is the exposition of the
    metrics, which is third-party. *)
Definition serve_main `{Promhttp} (serve : request -> prog -> reply * prog) (r : request) (s : site)
    : option reply * site :=
  match mux_dispatch main_patterns (r_method r) (r_escaped r) with
  | Handled MetricsEndpoint _ => (None, s)
  | Handled ApiEndpoint _ => let '(a, s) := InstrumentHTTP (lift serve) Route r s in (Some a, s)
  | d => (mux_reply d, s)
  end.

(** ** Collectors and their registration *)

Record collector := mkCollector {
  c_namespace : string; c_subsystem : string; c_name : string;
  c_labels : list string;                 (* variable labels *)
  c_const : list (string * string);       (* constant labels *)
}.

Definition metricNs : string := "sm".
Definition metricSubsystemCrocochrome : string := "crocochrome".
Definition ExecutionState : string := "state".
Definition Resource : string := "resource".
Definition TerminationReason : string := "reason".

Definition croco_collector (name : string) (labels : list string) : collector :=
  mkCollector metricNs metricSubsystemCrocochrome name labels [].

(** The collectors [Supervisor] registers, in order. *)
Definition supervisor_collectors : list collector :=
  [croco_collector "session_duration_seconds" [];
   croco_collector "chromium_executions_total" [ExecutionState];
   croco_collector "chromium_resource_usage" [Resource];
   croco_collector "session_active" [];
   croco_collector "sessions_created_total" [];
   croco_collector "sessions_terminated_total" [TerminationReason];
   croco_collector "chromium_oom_kills_total" []].

(** The collectors [InstrumentHTTP] registers. *)
Definition http_collectors : list collector :=
  [croco_collector "requests_total" ["code"; "method"; "route"];
   croco_collector "request_duration_seconds" ["code"; "method"; "route"]].

(** The gauge of [AddVersionMetrics], always 1; a version string may panic. *)
Definition info_collector (version : string) (bi : option BuildInfo) : outcome collector :=
  match Short version bi, Commit bi, Buildstamp bi with
  | Returns v, Returns c, Returns t =>
      Returns (mkCollector "sm" "crocochrome" "info" [] [("version", v); ("commit", c); ("timestamp", t)])
  | _, _, _ => Panics
  end.

(** A descriptor: the name, the variable labels and the constant ones. *)
Record desc := mkDesc { d_name : string; d_labels : list string; d_const : list (string * string) }.

(** Names prometheus accepts whatever its validation scheme, and descriptors
    it accepts: valid names, labels that differ, and UTF-8 values. *)
Definition name_byte (c : ascii) : bool := is_alnum c || Ascii.eqb c "_".
Definition metric_name (n : string) : bool :=
  match n with
  | EmptyString => false
  | String c _ => negb (byte_in 48 57 c) && all_bytes name_byte n
  end.
Definition label_name (n : string) : bool := metric_name n && negb (has_prefix n "__").

Definition valid_desc (d : desc) : Prop :=
  metric_name (d_name d) = true /\
  Forall (fun n => label_name n = true) (d_labels d ++ (d_const d).*1) /\
  NoDup (d_labels d ++ (d_const d).*1) /\ Forall utf8 (d_const d).*2.
#[export] Instance valid_desc_dec d : Decision (valid_desc d).
Proof. unfold valid_desc. apply _. Defined.

(** prometheus: a registry, and the names it holds; [MustRegister] of a
    collector, given by its descriptors, panics ([None]) when it refuses it:
    a constant label that is not UTF-8 makes a descriptor invalid. *)
Class Prometheus := {
  registry : Type;
  registered : registry -> list string;
  NewRegistry : registry;
  BuildFQName : string -> string -> string -> string;
  MustRegister : registry -> list desc -> option registry;
  build_info_descs : list desc;   (* of collectors.NewBuildInfoCollector *)
}.

Class PrometheusLaws `{Prometheus} : Prop := {
  registry_new : registered NewRegistry = [];
  registry_register reg ds :
    Forall valid_desc ds -> NoDup (d_name <$> ds) -> (forall n, n ∈ (d_name <$> ds) -> n ∉ registered reg) ->
    exists reg', MustRegister reg ds = Some reg' /\ registered reg' = registered reg ++ (d_name <$> ds);
  registry_refuses reg ds d :
    d ∈ ds -> ~ Forall utf8 (d_const d).*2 -> MustRegister reg ds = None;
  fq_name ns sub n : ns <> EmptyString -> sub <> EmptyString -> n <> EmptyString ->
    BuildFQName ns sub n = ns +:+ "_" +:+ sub +:+ "_" +:+ n;
  build_info_name : d_name <$> build_info_descs = ["go_build_info"];
  build_info_valid : Forall valid_desc build_info_descs;
}.

Section registration.
Context `{Prometheus}.

Definition fq (c : collector) : string := BuildFQName (c_namespace c) (c_subsystem c) (c_name c).
Definition describe (c : collector) : desc := mkDesc (fq c) (c_labels c) (c_const c).

(** Registering collectors one after the other. *)
Fixpoint register_all (cs : list collector) (reg : registry) : option registry :=
  match cs with
  | [] => Some reg
  | c :: cs' => reg ← MustRegister reg [describe c]; register_all cs' reg
  end.

Definition AddVersionMetrics (version : string) (bi : option BuildInfo) (reg : registry) : outcome registry :=
  match info_collector version bi with
  | Panics => Panics
  | Returns info =>
      match (reg ← MustRegister reg [describe info]; MustRegister reg build_info_descs) with
      | Some reg => Returns reg
      | None => Panics
      end
  end.
End registration.

(** ** Theorems *)

Section instrument_facts.
Context `{Promhttp}.

(** What [InstrumentHTTP] does to a request. *)
Lemma InstrumentHTTP_step serve route r s :
  exists d, (0 <= d)%Z /\
  let '(a, p) := serve r (s_prog s) in
  let l := mkSeries (code_label a) (method_label (r_method r)) (route r) in
  InstrumentHTTP (lift serve) route r s =
    (a, mkSite p (inc_label l (requests_total s)) (observe_label l d (request_duration s))).
Proof.
  unfold InstrumentHTTP.
  destruct (duration_law observe_request (InstrumentHandlerCounter add_request (lift serve) routeLabel)
    routeLabel r (Some (route r)) s) as (d & Hd & E).
  exists d. split; [done|]. rewrite E, counter_law. unfold lift. by destruct (serve r (s_prog s)).
Qed.

(** The two vectors have the same series, one observation per request
    counted, and route labels from the bounded set. *)
Definition consistent (s : site) : Prop :=
  (forall l, requests_total s !! l = Z.of_nat ∘ length <$> request_duration s !! l) /\
  (forall l, is_Some (requests_total s !! l) -> l_route l ∈ labels) /\
  (forall l ds d, request_duration s !! l = Some ds -> d ∈ ds -> (0 <= d)%Z).

Lemma consistent_observe s l d p :
  consistent s -> (0 <= d)%Z -> l_route l ∈ labels ->
  consistent (mkSite p (inc_label l (requests_total s)) (observe_label l d (request_duration s))).
Proof.
  intros (Hc & Hr & Hd) Hpos Hl. unfold inc_label, observe_label. split_and!; simpl.
  - intros l'. destruct (decide (l = l')) as [<-|].
    + rewrite !lookup_insert_eq, Hc.  destruct (request_duration s !! l); simpl; f_equal; lia.
    + by rewrite !lookup_insert_ne.
  - intros l' [k Hk]. destruct (decide (l = l')) as [<-|]; [done|].
    rewrite lookup_insert_ne in Hk by done. eauto.
  - intros l' ds d'. destruct (decide (l = l')) as [<-|].
    + rewrite lookup_insert_eq. intros [= <-] [->|Hin]%elem_of_cons; [done|].
      destruct (request_duration s !! l) eqn:E; simpl in Hin; [eauto|by apply elem_of_nil in Hin].
    + rewrite lookup_insert_ne by done. eauto.
Qed.

Context (serve : request -> prog -> reply * prog).

(** Serving requests one after the other, through the outer multiplexer. *)
Definition serve_all (rs : list request) (s : site) : site := foldl (fun s r => (serve_main serve r s).2) s rs.

(** The requests the API is given. *)
Definition to_api (r : request) : bool :=
  match mux_dispatch main_patterns (r_method r) (r_escaped r) with Handled ApiEndpoint _ => true | _ => false end.

Lemma serve_main_spec r s :
  consistent s ->
  let '(a, s') := serve_main serve r s in
  consistent s' /\
  if to_api r then
    a = Some (serve r (s_prog s)).1 /\ s_prog s' = (serve r (s_prog s)).2 /\
    requests_total s' =
      inc_label (mkSeries (code_label (serve r (s_prog s)).1) (method_label (r_method r)) (Route r))
        (requests_total s)
  else s' = s.
Proof.
  intros Hs. unfold serve_main, to_api. destruct (mux_dispatch _ _ _) as [[] vs| | | |]; try done.
  destruct (InstrumentHTTP_step serve Route r s) as (d & Hd & E).
  destruct (serve r (s_prog s)) as [a p]. rewrite E. split; [|done].
  apply consistent_observe; [done|done|]. apply Route_labels.
Qed.

(** C16: every request the API is given is counted once: over any sequence
    of requests the program serves exactly those, in their order and with
    their own replies, the request counter adds up to their number, every
    series of the counter has as many observations in the histogram, none of
    them negative, and the route of every series is one of the five labels,
    whatever paths clients ask for. *)
Theorem requests_are_counted rs s :
  consistent s ->
  let s' := serve_all rs s in
  s_prog s' = foldl (fun p r => (serve r p).2) (s_prog s) (List.filter to_api rs) /\
  vec_total (requests_total s') =
    (vec_total (requests_total s) + Z.of_nat (length (List.filter to_api rs)))%Z /\
  consistent s'.
Proof.
  unfold serve_all. revert s. induction rs as [|r rs IH]; intros s Hs; simpl.
  { split_and!; [done|lia|done]. }
  pose proof (serve_main_spec r s Hs) as Hm.
  destruct (serve_main serve r s) as [a s1]. destruct Hm as [Hc Hm]. simpl.
  destruct (IH s1 Hc) as (Hp & Ht & Hc'). destruct (to_api r); simpl.
  - destruct Hm as (_ & <- & Hreq). split_and!; [done| |done].
    rewrite Ht, Hreq, vec_total_inc. lia.
  - subst s1. done.
Qed.
End instrument_facts.

(** ** The outer multiplexer *)

Lemma match_path_nil {H} segs : match_path ([] : node H) segs = None.
Proof. induction segs as [|w segs IH]; [done|]. cbn. rewrite IH. by case_bool_decide. Qed.

Lemma match_path_leaf {H} (p : pattern H) w segs : match_path [([], p)] (w :: segs) = None.
Proof. cbn. rewrite match_path_nil. by case_bool_decide. Qed.

Lemma main_method m : with_method main_patterns (Some m) = [].
Proof. unfold with_method, main_patterns. rewrite !filter_cons. repeat case_decide; simplify_eq/=; done. Qed.

Definition metrics_pattern : pattern endpoint := mkPattern None [Lit "metrics"] MetricsEndpoint.
Definition api_pattern : pattern endpoint := mkPattern None [Rest] ApiEndpoint.

Definition main_node : node endpoint := [([Lit "metrics"], metrics_pattern); ([Rest], api_pattern)].

Lemma main_any : with_method main_patterns None = main_node.
Proof. reflexivity. Qed.

Lemma main_literal w :
  child (is_lit w) main_node = if bool_decide (w = "metrics") then [([], metrics_pattern)] else [].
Proof.
  destruct (decide (w = "metrics")) as [->|Hw]; [done|]. rewrite bool_decide_false by done.
  cbn. by rewrite bool_decide_false by congruence.
Qed.

Lemma main_match m segs :
  tree_match main_patterns m segs =
    match segs with
    | [] => None
    | w :: rest => Some (if bool_decide (w :: rest = ["metrics"]) then metrics_pattern else api_pattern, [])
    end.
Proof.
  unfold tree_match. rewrite !main_method, !match_path_nil, main_any.
  assert (Hn : (if bool_decide (m = "HEAD") then None else None) =
    (None : option (pattern endpoint * list string))) by by case_bool_decide.
  rewrite Hn. clear Hn. destruct segs as [|w rest]; [done|]. cbn [first_some match_path]. rewrite main_literal.
  change (child is_wild main_node) with (@nil (list segment * pattern endpoint)).
  change (multi main_node) with (Some api_pattern). rewrite match_path_nil.
  destruct (decide (w = "metrics")) as [->|Hw].
  - rewrite (bool_decide_true ("metrics" = "metrics")) by done. destruct rest as [|w' rest]; [done|]. rewrite match_path_leaf.
    by rewrite (bool_decide_false (_ = ["metrics"])).
  - rewrite (bool_decide_false (w = "metrics")), match_path_nil, (bool_decide_false (_ = ["metrics"])) by congruence. by case_bool_decide.
Qed.

(** The paths a request can have. *)
Definition request_path (p : string) : Prop := p = "*" \/ p = EmptyString \/ has_prefix p "/" = true.

Lemma segments_rooted p : has_prefix p "/" = true -> segments p <> [].
Proof.
  intros [t ->]%rooted_inv. unfold segments. cbn [raw_segments]. change (Ascii.eqb slash slash) with true. cbv iota.
  intros E%(f_equal length). rewrite unescape_segments_length in E.
  pose proof (split_nonempty t slash). by destruct (split t slash).
Qed.

Lemma clean_path_rooted p : has_prefix (clean_path p) "/" = true.
Proof.
  unfold clean_path. set (q := if has_prefix p "/" then p else String slash p).
  assert (Hq : has_prefix q "/" = true).
  { unfold q. destruct (has_prefix p "/") eqn:E; [done|apply rooted_slash]. }
  assert (exists t, clean q = String slash t) as [t ->] by (unfold clean; rewrite Hq; eauto).
  destruct (_ && _); [|apply rooted_slash]. apply (rooted_slash (t +:+ "/")).
Qed.

Lemma main_slash m path :
  path = EmptyString \/ has_prefix path "/" = true ->
  slash_redirect main_patterns m path = bool_decide (path = EmptyString).
Proof.
  intros [->|Hp]; unfold slash_redirect.
  { rewrite !main_match. done. }
  apply rooted_inv in Hp as [p ->]. rewrite bool_decide_false by done.
  change (String slash p +:+ "/") with (String slash (p +:+ "/")).
  rewrite !andb_false_iff. right. rewrite main_match. unfold segments. cbn [raw_segments].
  change (Ascii.eqb slash slash) with true. cbv iota. rewrite split_trailing, unescape_segments_snoc.
  pose proof (split_nonempty p slash) as Hne. destruct (split p slash) as [|w ws] eqn:Es; [done|].
  rewrite bool_decide_true by done. cbn [fmap list_fmap app].
  assert (exact (Some (api_pattern, [])) (String slash (p +:+ "/")) = false) as Hx.
  { unfold exact. change (bool_decide (last (p_segments api_pattern) = Some Rest)) with true. cbv iota.
    rewrite andb_false_iff. right. apply bool_decide_eq_false. cbn [raw_segments].
    change (Ascii.eqb slash slash) with true. cbv iota. rewrite split_trailing, Es, length_app. simpl. lia. }
  rewrite (bool_decide_false (_ = ["metrics"])).
  - exact Hx.
  - destruct ws; done.
Qed.

(** C34: the two multiplexers fit together.  The outer one gives /metrics to
    the exposition and every other clean path to the API; it redirects the
    paths that are not clean, so these are not counted as requests of the
    API, and answers nothing else itself; and a request it gives to the API
    is handled there or answered with 404 or 405, but never redirected
    again. *)
Theorem multiplexers_compose r :
  request_path (r_escaped r) ->
  match mux_dispatch main_patterns (r_method r) (r_escaped r) with
  | Handled MetricsEndpoint _ => segments (r_escaped r) = ["metrics"]
  | Handled ApiEndpoint _ =>
      segments (r_escaped r) <> ["metrics"] /\
      match dispatch r with Redirected _ | BadURI => False | _ => True end
  | Redirected _ => (r_method r <> "CONNECT" /\ clean_path (r_escaped r) <> r_escaped r) \/
      (r_method r = "CONNECT" /\ r_escaped r = EmptyString)
  | BadURI => r_escaped r = "*"
  | NotAllowed _ | NotFound => False
  end.
Proof.
  intros Hp. pose proof (dispatch_clean patterns (r_method r) (r_escaped r)) as Hin.
  fold (dispatch r) in Hin. unfold mux_dispatch at 1. revert Hin.
  set (m := r_method r) in *. set (e := r_escaped r) in *.
  case_bool_decide as Hstar; [done|].
  set (path := if bool_decide (m = "CONNECT") then e else clean_path e).
  assert (Hpath : path = EmptyString \/ has_prefix path "/" = true).
  { unfold path. case_bool_decide; [by destruct Hp as [?|?]|right; apply clean_path_rooted]. }
  rewrite main_slash by done.
  case_bool_decide as Hempty.
  { intros _. right. unfold path in Hempty. case_bool_decide; [done|].
    pose proof (clean_path_rooted e) as Hr. by rewrite Hempty in Hr. }
  destruct (decide (path = e)) as [Heq|Hne].
  2:{ rewrite bool_decide_false by done. intros _. left. unfold path in Hne. by case_bool_decide. }
  rewrite bool_decide_true, Heq by done. simpl. intros Hin.
  destruct Hpath as [?|Hr]; [done|]. rewrite Heq in Hr.
  assert (Hd : match dispatch r with Redirected _ | BadURI => False | _ => True end).
  { assert (Hnr : forall p, dispatch r <> Redirected p).
    { apply Hin; [|unfold path in Heq; case_bool_decide; auto].
      apply patterns_no_slash. }
    destruct (dispatch r) eqn:Ed; try done; [by eapply Hnr|].
    revert Ed. unfold dispatch, mux_dispatch. fold e. rewrite bool_decide_false by done. by repeat case_match. }
  pose proof (segments_rooted e Hr) as Hne. rewrite main_match.
  destruct (segments e) as [|w ws]; [done|].
  case_bool_decide as Hm; simpl; [done|by split].
Qed.

(** ** Registration *)

Section registration_facts.
Context `{PrometheusLaws}.

Lemma register_all_fresh cs reg :
  Forall valid_desc (describe <$> cs) -> NoDup (fq <$> cs) -> (forall c, c ∈ cs -> fq c ∉ registered reg) ->
  exists reg', register_all cs reg = Some reg' /\ registered reg' = registered reg ++ (fq <$> cs).
Proof.
  revert reg. induction cs as [|c cs IH]; intros reg Hv Hd Hf.
  { exists reg. by rewrite app_nil_r. }
  rewrite fmap_cons, Forall_cons in Hv. destruct Hv as [Hvc Hv].
  rewrite fmap_cons, NoDup_cons in Hd. destruct Hd as [Hc Hd].
  destruct (registry_register reg [describe c]) as (reg1 & E1 & R1).
  { by constructor. }
  { apply NoDup_singleton. }
  { intros n. cbn. intros ->%list_elem_of_singleton. apply Hf. by left. }
  destruct (IH reg1 Hv Hd) as (reg2 & E2 & R2).
  { intros c' Hc'. rewrite R1. cbn. rewrite not_elem_of_app, list_elem_of_singleton. split; [apply Hf; by right|].
    intros E. apply Hc. apply list_elem_of_fmap. eauto. }
  exists reg2. cbn [register_all]. rewrite E1. split; [done|]. rewrite R2, R1, <- app_assoc. done.
Qed.

(** The same with the descriptors spelled out. *)
Lemma register_descs cs reg names ds :
  registered reg = names -> describe <$> cs = ds -> Forall valid_desc ds -> NoDup (d_name <$> ds) ->
  Forall (fun n => n ∉ names) (d_name <$> ds) ->
  exists reg', register_all cs reg = Some reg' /\ registered reg' = names ++ (d_name <$> ds).
Proof.
  intros <- <- Hv. assert (d_name <$> (describe <$> cs) = fq <$> cs) as -> by by rewrite <- list_fmap_compose.
  intros Hd Hf. apply register_all_fresh; [done|done|]. rewrite Forall_fmap, Forall_forall in Hf. done.
Qed.

Definition croco_name (n : string) : string := "sm_crocochrome_" +:+ n.
Definition croco_desc (c : collector) : desc := mkDesc (croco_name (c_name c)) (c_labels c) (c_const c).

Lemma describe_croco n ls : n <> EmptyString -> describe (croco_collector n ls) = croco_desc (croco_collector n ls).
Proof. intros Hn. unfold describe, fq. simpl. by rewrite fq_name. Qed.

Lemma describe_info version bi info :
  info_collector version bi = Returns info ->
  describe info = mkDesc (croco_name "info") [] (c_const info) /\
  (c_const info).*1 = ["version"; "commit"; "timestamp"].
Proof.
  unfold info_collector. repeat case_match; intros; simplify_eq. unfold describe, fq. simpl.
  by rewrite fq_name.
Qed.

Lemma describe_supervisor : describe <$> supervisor_collectors = croco_desc <$> supervisor_collectors.
Proof. unfold supervisor_collectors. simpl. by rewrite !describe_croco. Qed.

Lemma describe_http : describe <$> http_collectors = croco_desc <$> http_collectors.
Proof. unfold http_collectors. simpl. by rewrite !describe_croco. Qed.

(** The version strings can be label values. *)
Definition version_labels (version : string) (bi : option BuildInfo) : Prop :=
  exists info, info_collector version bi = Returns info /\ Forall utf8 (c_const info).*2.

Lemma registered_in_order version bi :
  version_labels version bi ->
  exists reg1 reg2 reg3,
    AddVersionMetrics version bi NewRegistry = Returns reg1 /\
    register_all supervisor_collectors reg1 = Some reg2 /\
    register_all http_collectors reg2 = Some reg3 /\
    registered reg3 = croco_name "info" :: "go_build_info" ::
      (croco_name <$> (c_name <$> supervisor_collectors ++ http_collectors)).
Proof.
  intros (info & Hi & Hu). destruct (describe_info version bi info Hi) as [Hd Hk].
  destruct (registry_register NewRegistry [describe info]) as (r0 & E0 & R0).
  { constructor; [|done]. rewrite Hd. unfold valid_desc. cbn [d_name d_labels d_const app]. rewrite Hk.
    split_and!; [reflexivity| | |done]; by apply (bool_decide_unpack _); vm_compute. }
  { apply NoDup_singleton. }
  { rewrite registry_new. intros n _ []%elem_of_nil. }
  rewrite registry_new, Hd in R0.
  destruct (registry_register r0 build_info_descs build_info_valid) as (r1 & E1 & R1).
  { rewrite build_info_name. apply NoDup_singleton. }
  { rewrite build_info_name, R0. intros n ->%list_elem_of_singleton. by intros Hn%list_elem_of_singleton. }
  rewrite R0, build_info_name in R1.
  destruct (register_descs supervisor_collectors r1 _ _ R1 describe_supervisor) as (r2 & E2 & R2).
  1-3: by apply (bool_decide_unpack _); vm_compute.
  destruct (register_descs http_collectors r2 _ _ R2 describe_http) as (r3 & E3 & R3).
  1-3: by apply (bool_decide_unpack _); vm_compute.
  exists r1, r2, r3. unfold AddVersionMetrics. rewrite Hi, E0. simpl. rewrite E1.
  by split_and!.
Qed.

Lemma version_labels_refused version bi info :
  info_collector version bi = Returns info -> ~ Forall utf8 (c_const info).*2 ->
  AddVersionMetrics version bi NewRegistry = Panics.
Proof.
  intros Hi Hu. unfold AddVersionMetrics. rewrite Hi.
  rewrite (registry_refuses NewRegistry [describe info] (describe info)); [done|by left|done].
Qed.

(** C35: the process exposes each of its collectors under a name of its own,
    and registering them, in the order of start-up, does not panic: if the
    version strings can be read and are UTF-8, as label values must be, the
    build information, the supervisor's collectors and those of the HTTP
    server are all accepted, under exactly these names; with a version string
    that is not UTF-8 the process panics. *)
Theorem registration_succeeds version bi info :
  info_collector version bi = Returns info ->
  if decide (Forall utf8 (c_const info).*2) then
    exists reg1 reg2 reg3,
      AddVersionMetrics version bi NewRegistry = Returns reg1 /\
      register_all supervisor_collectors reg1 = Some reg2 /\
      register_all http_collectors reg2 = Some reg3 /\
      NoDup (registered reg3) /\
      registered reg3 =
        [croco_name "info"; "go_build_info"; croco_name "session_duration_seconds";
         croco_name "chromium_executions_total"; croco_name "chromium_resource_usage";
         croco_name "session_active"; croco_name "sessions_created_total";
         croco_name "sessions_terminated_total"; croco_name "chromium_oom_kills_total";
         croco_name "requests_total"; croco_name "request_duration_seconds"]
  else AddVersionMetrics version bi NewRegistry = Panics.
Proof.
  intros Hi. case_decide as Hu; [|by eapply version_labels_refused].
  destruct (registered_in_order version bi (ex_intro _ info (conj Hi Hu))) as (r1 & r2 & r3 & E1 & E2 & E3 & R).
  exists r1, r2, r3. rewrite R. split_and!; try done. by apply (bool_decide_unpack _); vm_compute.
Qed.
End registration_facts.

(** ** Instances and witnesses *)

(** Middlewares that time every request at a millisecond. *)
#[export] Instance plain_promhttp : Promhttp.
Proof.
  refine {|
    code_label a := match reply_status a with Some z => itoa z | None => "200" end;
    method_label m := m;
    InstrumentHandlerCounter M add next label := fun r c m =>
      let '(a, m) := next r c m in
      (a, add (mkSeries (match reply_status a with Some z => itoa z | None => "200" end) (r_method r) (label c)) m);
    InstrumentHandlerDuration M observe next label := fun r c m =>
      let '(a, m) := next r c m in
      (a, observe (mkSeries (match reply_status a with Some z => itoa z | None => "200" end) (r_method r) (label c))
            Millisecond m);
  |}; [reflexivity|].
  intros. exists Millisecond. split; [|reflexivity]. by apply (bool_decide_unpack _).
Defined.

(** A registry that is the list of its names. *)
#[export] Instance plain_prometheus : Prometheus := {|
  registry := list string;
  registered reg := reg;
  NewRegistry := [];
  BuildFQName ns sub n := ns +:+ "_" +:+ sub +:+ "_" +:+ n;
  MustRegister reg ds :=
    if bool_decide (Forall valid_desc ds /\ NoDup (d_name <$> ds) /\ Forall (fun n => n ∉ reg) (d_name <$> ds))
    then Some (reg ++ (d_name <$> ds)) else None;
  build_info_descs := [mkDesc "go_build_info" [] [("path", "crocochrome"); ("version", "(devel)"); ("checksum", "")]];
|}.

#[export] Instance plain_prometheus_laws : PrometheusLaws.
Proof.
  split; try done.
  - intros reg ds Hv Hd Hf. exists (reg ++ (d_name <$> ds)). simpl.
    rewrite bool_decide_true; [done|]. split; [done|]. split; [done|]. by apply Forall_forall.
  - intros reg ds d Hin Hu. simpl. rewrite bool_decide_false; [done|]. intros [Hv _].
    rewrite Forall_forall in Hv. by destruct (Hv d Hin) as (_ & _ & _ & ?).
  - by apply (bool_decide_unpack _); vm_compute.
Qed.

Definition serve0 : request -> prog -> reply * prog :=
  ServeHTTP [] env1 (Ok version0) (still machine) [id1].
Definition site0 : site := mkSite prog0 ∅ ∅.

Lemma consistent0 : consistent site0.
Proof.
  split_and!.
  - intros l. unfold site0. simpl. by rewrite !lookup_empty.
  - intros l. unfold site0. simpl. rewrite lookup_empty. by intros [].
  - intros l ds d. unfold site0. simpl. by rewrite lookup_empty.
Qed.

Lemma requests_are_counted_witness :
  vec_total (requests_total (serve_all serve0
    [post_acquire; get "GET" "/metrics"; get "GET" "/sessions"; get "GET" "//sessions"] site0)) = 2%Z.
Proof.
  destruct (requests_are_counted serve0
    [post_acquire; get "GET" "/metrics"; get "GET" "/sessions"; get "GET" "//sessions"] site0 consistent0)
    as (_ & Ht & _).
  rewrite Ht. vm_compute. reflexivity.
Defined.

Lemma multiplexers_compose_witness : request_path "/metrics" /\ segments "/metrics" = ["metrics"].
Proof.
  assert (Hp : request_path "/metrics") by (right; right; reflexivity).
  split; [exact Hp|]. exact (multiplexers_compose (get "GET" "/metrics") Hp).
Defined.

Lemma registration_succeeds_witness :
  exists info, info_collector "v1" None = Returns info /\
    exists reg1 reg2 reg3, AddVersionMetrics "v1" None NewRegistry = Returns reg1 /\
      register_all supervisor_collectors reg1 = Some reg2 /\
      register_all http_collectors reg2 = Some reg3 /\ NoDup (registered reg3).
Proof.
  eexists. split; [reflexivity|].
  pose proof (registration_succeeds "v1" None _ eq_refl) as Hr. rewrite decide_True in Hr.
  - destruct Hr as (r1 & r2 & r3 & E1 & E2 & E3 & Hd & _).
    exists r1, r2, r3. split; [exact E1|]. split; [exact E2|]. split; [exact E3|exact Hd].
  - by apply (bool_decide_unpack _); vm_compute.
Defined.

(** A version with a byte that is no UTF-8. *)
Example version_not_utf8 : AddVersionMetrics ("v1" +:+ str1 (Ascii.ascii_of_nat 255)) None NewRegistry = Panics.
Proof. vm_compute. reflexivity. Qed.
