(* ===== verification/Guarantees.v ===== *)
(** * Guarantees of the supervisor

    The theorems about whole runs of the program: the refinement of the
    lease, mutual exclusion of sessions and browsers, metrics, draining. *)

From S2P Require Import Prelude GoStrings OS Machine Json Metrics Chromium Cgroup Proc Supervisor Launch System Invariant Lease Refinement Scenario.

(** The trace contains no event that ends the session [id]. *)
Definition undisturbed (id : string) (es : list event) : Prop :=
  forallb (fun e => negb (ends id e)) es = true.

Section guarantees.
Context `{ProcFS}.

(** C1: every run of the program from a fresh supervisor is a run of the
    lease: what [create], [Delete], the timeout callbacks, [Session],
    [Sessions] and [Drain] return to their concurrent callers is what the
    single-holder contract allows, in that order. *)
Theorem program_implements_lease s0 es s :
  initial s0 -> steps s0 es s -> lease_steps (mkLease Free false) es (abs s).
Proof.
  intros Hi Hs. rewrite <- (abs_initial s0 Hi).
  by apply steps_lease; [apply inv_initial|].
Qed.

(** C3: in every reachable program at most one session is registered, at
    most one browser has a context that is not done, and that browser
    belongs to the registered session or to the [create] in progress: a
    launched Chromium that was not told to stop is never orphaned. *)
Theorem single_browser s :
  reachable s ->
  (size (sessions (sup s)) <= 1)%nat /\
  (forall c cx, ctxs s !! c = Some cx -> cx_err cx = None -> owned s c) /\
  (forall c c' cx cx', ctxs s !! c = Some cx -> ctxs s !! c' = Some cx' ->
     cx_err cx = None -> cx_err cx' = None -> c = c').
Proof.
  intros I%reachable_inv. split_and!; [apply (inv_single s I)|apply (inv_live s I)|].
  intros c c' cx cx' Hc Hc' He He'.
  destruct (inv_live s I c cx Hc He) as [(id & x & E & <-)|(cr & E & <-)];
    destruct (inv_live s I c' cx' Hc' He') as [(id' & x' & E' & <-)|(cr' & E' & <-)].
  - by destruct (single_unique _ _ _ _ _ (inv_single s I) E E') as [_ ->].
  - destruct (inv_creating s I cr' E') as [Hm _]. by rewrite Hm, lookup_empty in E.
  - destruct (inv_creating s I cr E) as [Hm _]. by rewrite Hm, lookup_empty in E'.
  - congruence.
Qed.

(** C10: the session metrics are a view of the session map: in every
    reachable program the gauge is 1 exactly when a session is registered,
    and the sessions created are those terminated, over all reasons, plus
    those registered. *)
Theorem metrics_mirror_sessions s :
  reachable s ->
  SessionActive (metrics (sup s)) = (if decide (sessions (sup s) = ∅) then 0%Z else 1%Z) /\
  SessionsCreated (metrics (sup s)) =
    (vec_total (SessionsTerminated (metrics (sup s))) + Z.of_nat (size (sessions (sup s))))%Z.
Proof. intros I%reachable_inv. split; [apply (inv_gauge s I)|apply (inv_count s I)]. Qed.

(** C25: the wait group counts the launch goroutines that have not
    returned, so it never goes negative and [Wait] returns exactly when
    none is left. *)
Theorem wait_counts_launches s :
  reachable s ->
  wg (sup s) = Z.of_nat (running (ctxs s)) /\
  (Wait_returns s <-> Forall (fun cx => cx_launch cx = LaunchReturned) (ctxs s)).
Proof.
  intros I%reachable_inv. split; [apply (inv_wg s I)|].
  unfold Wait_returns. rewrite (inv_wg s I). generalize (ctxs s). clear I.
  induction l as [|cx cs IH]; [done|].
  rewrite running_cons, Forall_cons, <- IH by done.
  destruct (cx_launch cx); simpl; split; intros; try lia; naive_solver lia.
Qed.

(** C5: a session is not preempted: while it is registered, calls of
    [CreateIfFree] by others, deletes and callbacks for other IDs, queries,
    draining and the passing of time leave it registered.  Only a delete of
    its ID, its own callback or a [Create] ends it. *)
Theorem session_not_preempted s es s' id :
  reachable s -> unlocked s -> is_Some (sessions (sup s) !! id) ->
  steps s es s' -> undisturbed id es ->
  unlocked s' /\ is_Some (sessions (sup s') !! id).
Proof.
  intros I%reachable_inv Hu Hid Hs Hes.
  pose proof (steps_lease s es s' I Hs) as Hl. pose proof (steps_inv s es s' I Hs) as I'.
  apply (abs_busy s id Hu I) in Hid.
  pose proof (lease_kept _ _ _ _ Hl Hid Hes) as Hb.
  assert (Hu' : unlocked s').
  { unfold unlocked. unfold abs in Hb. simpl in Hb. by destruct (sessionsMtx (sup s')). }
  split; [done|]. by apply abs_busy.
Qed.

(** Over any run from a fresh supervisor the successful creations
    outnumber the removals (a delete or callback that found the session,
    and a [Create]) by at most one; so of any number of concurrent calls of
    [CreateIfFree], with no removal, at most one succeeds. *)
Theorem grants_are_exclusive s0 es s :
  initial s0 -> steps s0 es s -> (count is_grant es <= count is_end es + 1)%nat.
Proof.
  intros Hi Hs.
  assert (Hl : lease_steps (mkLease Free false) es (abs s)).
  { rewrite <- (abs_initial s0 Hi). by apply steps_lease; [apply inv_initial|]. }
  apply lease_exclusive in Hl. change (length (holder_ids (held (mkLease Free false)))) with 0 in Hl.
  assert (length (holder_ids (held (abs s))) <= 1)%nat by (destruct (held (abs s)); simpl; lia).
  lia.
Qed.
End guarantees.

(** ** Witnesses *)

Lemma reachable_busy : reachable busy.
Proof. exists prog0. eexists. split; [apply initial0|apply run_busy]. Qed.

Lemma program_implements_lease_witness :
  lease_steps (mkLease Free false)
    [EvStart true id1; EvReady (Ok info1); EvReject true ErrSessionExists; EvDelete id1 true]
    (abs freed).
Proof. apply (program_implements_lease prog0); [apply initial0|apply run_freed]. Defined.

Lemma single_browser_witness : (size (sessions (sup busy)) <= 1)%nat /\ size (sessions (sup busy)) = 1%nat.
Proof. split; [apply (single_browser busy), reachable_busy|vm_compute; reflexivity]. Defined.

Lemma metrics_mirror_sessions_witness :
  SessionActive (metrics (sup busy)) = 1%Z /\ sessions (sup busy) <> ∅.
Proof.
  assert (sessions (sup busy) <> ∅) by (vm_compute; discriminate).
  destruct (metrics_mirror_sessions busy reachable_busy) as [Hg _].
  rewrite decide_False in Hg by done. done.
Defined.

Lemma wait_counts_launches_witness : ~ Wait_returns busy.
Proof.
  intros Hw. apply (wait_counts_launches busy reachable_busy) in Hw.
  by apply Forall_cons in Hw as [Hw _].
Defined.

Lemma session_not_preempted_witness :
  unlocked busy /\ is_Some (sessions (sup busy) !! id1).
Proof.
  apply (session_not_preempted busy [EvReject true ErrSessionExists] busy id1).
  - apply reachable_busy.
  - reflexivity.
  - vm_compute. eauto.
  - apply (steps_cons _ _ busy); [apply step_refused|constructor].
  - vm_compute. reflexivity.
Defined.

Lemma grants_are_exclusive_witness :
  let es := [EvStart true id1; EvReady (Ok info1); EvReject true ErrSessionExists;
             EvDelete id1 true] in
  (count is_grant es <= count is_end es + 1)%nat /\ count is_grant es = 1%nat.
Proof.
  split; [|reflexivity].
  apply (grants_are_exclusive prog0 _ freed); [apply initial0|apply run_freed].
Defined.
