(* ===== verification/Liveness.v ===== *)
(** * Timers, draining and termination

    How contexts evolve over a step, what is left to do in a program, and
    the theorems on timeouts and on draining. *)

From S2P Require Import Prelude GoStrings OS Machine Json Metrics Chromium Cgroup Proc Supervisor Launch System Invariant Lease Refinement Scenario.

(** ** Evolution of contexts *)

(** The goroutine work a context still has to do: its callback, in up to two
    steps, and its launch. *)
Definition work_of (cx : ctx) : nat :=
  match cx_after cx with AfterWaiting => 2 | AfterStarted => 1 | AfterDone => 0 end +
  match cx_launch cx with LaunchRunning => 1 | LaunchReturned => 0 end.

Definition work (s : prog) : nat := sum_list (work_of <$> ctxs s).

(** One context before and after a step that ends at time [t]. *)
Record evolves (t : Z) (cx cx' : ctx) : Prop := {
  ev_id : cx_id cx' = cx_id cx;
  ev_deadline : cx_deadline cx' = cx_deadline cx;
  ev_err : cx_err cx' = cx_err cx \/
    (cx_err cx = None /\
     (cx_err cx' = Some ErrCanceled \/
      cx_err cx' = Some ErrDeadlineExceeded /\ (cx_deadline cx <= t)%Z));
  ev_work : (work_of cx' <= work_of cx)%nat;
}.

Lemma evolves_refl t cx : evolves t cx cx.
Proof. split; auto. Qed.

Lemma evolves_cancel t cx :
  (cx_err cx = None <-> cx_after cx = AfterWaiting) -> evolves t cx (end_ctx ErrCanceled cx).
Proof.
  intros Ha. unfold end_ctx. destruct (cx_err cx) eqn:E; [apply evolves_refl|].
  split; simpl; auto. unfold work_of. simpl. rewrite (proj1 Ha) by done. lia.
Qed.

Lemma Forall2_alter {A} (R : A -> A -> Prop) (f : A -> A) i l :
  (forall x, R x x) -> (forall x, l !! i = Some x -> R x (f x)) -> Forall2 R l (alter f i l).
Proof.
  intros Hr Hf. apply Forall2_same_length_lookup_2; [by rewrite length_alter|].
  intros j x y Hx Hy. destruct (decide (i = j)) as [->|].
  - rewrite list_lookup_alter_eq, Hx in Hy. simplify_eq/=. by apply Hf.
  - rewrite list_lookup_alter_ne in Hy by done. simplify_eq. apply Hr.
Qed.

Lemma sum_alter {A} (g : A -> nat) (f : A -> A) i x l :
  l !! i = Some x ->
  (sum_list (g <$> alter f i l) + g x = sum_list (g <$> l) + g (f x))%nat.
Proof.
  revert i. induction l as [|y l IH]; intros [|i] E; simplify_eq/=; [lia|].
  specialize (IH i E). lia.
Qed.

Lemma sum_Forall2 {A} (g : A -> nat) (R : A -> A -> Prop) l l' :
  (forall x y, R x y -> (g y <= g x)%nat) -> Forall2 R l l' ->
  (sum_list (g <$> l') <= sum_list (g <$> l))%nat.
Proof. intros Hg. induction 1 as [|x y l l' Hxy _ IH]; csimpl; [lia|]. specialize (Hg x y Hxy). lia. Qed.

(** What a step does to the contexts, the clock and the options. *)
Record progressed (s s' : prog) (new : list ctx) : Prop := {
  pg_now : (now s <= now s')%Z;
  pg_opts : opts (sup s') = opts (sup s);
  pg_ctxs : exists old, ctxs s' = old ++ new /\ Forall2 (evolves (now s')) (ctxs s) old;
}.

Lemma progressed_keep s s' :
  now s' = now s -> opts (sup s') = opts (sup s) ->
  Forall2 (evolves (now s')) (ctxs s) (ctxs s') -> progressed s s' [].
Proof. intros Hn Ho Hc. split; [lia|done|]. exists (ctxs s'). by rewrite app_nil_r. Qed.

Lemma evolve_all_refl t l : Forall2 (evolves t) l l.
Proof. induction l; constructor; auto using evolves_refl. Qed.

Lemma evolve_cancelled s c t : inv s -> Forall2 (evolves t) (ctxs s) (alter (end_ctx ErrCanceled) c (ctxs s)).
Proof.
  intros I. apply Forall2_alter; [apply evolves_refl|].
  intros cx Hc. apply evolves_cancel, (inv_after s I c cx Hc).
Qed.

Section progress.
Context `{ProcFS}.

Lemma progressed_deleteWithReason w id reason s :
  inv s ->
  let s' := (deleteWithReason w id reason s).2 in
  now s' = now s /\ opts (sup s') = opts (sup s) /\ wg (sup s') = wg (sup s) /\
  Forall2 (evolves (now s)) (ctxs s) (ctxs s').
Proof.
  intros I s'. subst s'. destruct (sessions (sup s) !! id) as [sess|] eqn:E.
  - destruct (deleteWithReason_found w id reason s sess E) as [_ [Eq]].
    unfold core in Eq. injection Eq as _ _ E3 E4 _ _ _ _ E9 E10.
    rewrite E3, E4, E9, E10. split_and!; try done. by apply evolve_cancelled.
  - rewrite (deleteWithReason_missing w id reason s E). simpl.
    split_and!; try done. apply evolve_all_refl.
Qed.

Lemma evolve_killed s s1 t :
  inv s -> killed s s1 -> Forall2 (evolves t) (ctxs s) (ctxs s1).
Proof.
  intros I K. apply Forall2_same_length_lookup_2; [by rewrite (killed_length _ _ K)|].
  intros c cx cx' Hc Hc'.
  destruct (killed_ctx _ _ _ _ K Hc') as (cx0 & Hc0 & [[-> _]|[-> _]]); simplify_eq.
  - apply evolves_refl.
  - apply evolves_cancel, (inv_after s I c cx Hc).
Qed.

Lemma step_progressed s e s' :
  inv s -> step s e s' ->
  exists new, progressed s s' new /\
    match e with
    | EvStart _ _ => exists cx, new = [cx] /\ cx_err cx = None /\
        cx_deadline cx = (now s + SessionTimeout_ (opts (sup s)))%Z
    | _ => new = []
    end.
Proof.
  intros I Hst. destruct Hst.
  - exists []. split; [|done].
    destruct (create_begin_rejected _ _ _ _ _ _ H1) as [-> _].
    apply progressed_keep; try done. apply evolve_all_refl.
  - destruct (create_begin_begun _ _ _ _ _ _ H1 H4)
      as [_ _ _ _ (s1 & cx & K & Ec & Es & En & _ & Ee & _ & _ & Ed)].
    exists [cx]. split; [|by exists cx]. split; [lia|by rewrite Es; simpl; rewrite (kd_opts _ _ K)|].
    exists (ctxs s1). split; [done|]. by apply evolve_killed.
  - exists []. split; [|done]. destruct r; simplify_eq/=; apply progressed_keep; simpl; try done.
    + apply evolve_all_refl.
    + by apply evolve_cancelled.
  - exists []. split; [|done]. unfold Delete in *.
    pose proof (progressed_deleteWithReason w id TerminationReasonDeleted s I) as Hp.
    rewrite H1 in Hp. simpl in Hp. destruct Hp as (Hn & Ho & _ & Hc).
    apply progressed_keep; [done|done|by rewrite Hn].
  - exists []. split; [|done].
    assert (I1 : inv (log (reap_record (cx_logger cx)) s)) by by rewrite log_equiv.
    pose proof (progressed_deleteWithReason w (cx_id cx) TerminationReasonTimeout _ I1) as Hp.
    rewrite H3 in Hp. simpl in Hp. destruct Hp as (Hn & Ho & _ & Hc).
    apply progressed_keep; [done|done|]. simpl. rewrite Hn.
    apply Forall2_alter_r; [done|]. intros cx1 cx2 _ _ [Hi Hd He Hw]. split; simpl; try done.
    unfold work_of in *. simpl. lia.
  - exists []. split; [|done]. apply progressed_keep; try done. apply evolve_all_refl.
  - exists []. split; [|done]. apply progressed_keep; try done. apply evolve_all_refl.
  - exists []. split; [|done]. apply progressed_keep; try done. apply evolve_all_refl.
  - exists []. split; [|done]. apply progressed_keep; try done. apply evolve_all_refl.
  - exists []. split; [|done]. apply progressed_keep; try done. simpl.
    apply Forall2_alter; [apply evolves_refl|]. intros cx' E'. simplify_eq.
    unfold end_ctx. rewrite H1. split; simpl; auto. unfold work_of. simpl.
    rewrite (proj1 (inv_after s I c cx H0)) by done. lia.
  - exists []. split; [|done].
    destruct (frame_launch_goroutine _ _ _ _ _ H3) as [Eq]. unfold core in Eq.
    injection Eq as _ _ E3 _ _ _ _ _ E9 E10. apply progressed_keep; simpl; [done|done|].
    rewrite E9. apply Forall2_alter; [apply evolves_refl|].
    intros cx' E'. split; simpl; auto. unfold work_of. simpl. case_match; lia.
  - exists []. split; [|done]. destruct (frame_ua_goroutine _ _ _ H0) as [Eq]. unfold core in Eq.
    injection Eq as _ _ E3 _ _ _ _ _ E9 E10. apply progressed_keep; [done|done|].
    rewrite E9. apply evolve_all_refl.
  - exists []. split; [|done]. apply progressed_keep; try done. apply evolve_all_refl.
  - exists []. split; [|done]. split; simpl; [lia|done|]. exists (ctxs s).
    rewrite app_nil_r. split; [done|]. apply evolve_all_refl.
Qed.
End progress.

(** ** Deadlines *)

(** Deadlines lie at most one session timeout ahead, and a context expired
    only when its deadline had come. *)
Record timed (s : prog) : Prop := {
  tm_deadline c cx : ctxs s !! c = Some cx ->
    (cx_deadline cx <= now s + SessionTimeout_ (opts (sup s)))%Z;
  tm_expired c cx : ctxs s !! c = Some cx -> cx_err cx = Some ErrDeadlineExceeded ->
    (cx_deadline cx <= now s)%Z;
}.

Lemma evolved_lookup s s' new c cx' :
  progressed s s' new -> ctxs s' !! c = Some cx' ->
  (exists cx, ctxs s !! c = Some cx /\ evolves (now s') cx cx') \/
  (exists i, new !! i = Some cx').
Proof.
  intros [_ _ (old & -> & Hev)] Hc. apply lookup_app_Some in Hc as [Hc|[_ Hc]]; [left|right; eauto].
  destruct (Forall2_lookup_r _ _ _ _ _ Hev Hc) as (cx & ? & ?). eauto.
Qed.

(** The goroutine steps that need nobody outside the supervisor. *)
Definition internal (e : event) : bool :=
  match e with EvExpire _ | EvReap _ _ | EvExit _ => true | _ => false end.

Section timers.
Context `{ProcFS}.

Lemma timed_step s e s' : inv s -> timed s -> step s e s' -> timed s'.
Proof.
  intros I T Hst. destruct (step_progressed s e s' I Hst) as (new & P & Hnew).
  pose proof (pg_now _ _ _ P). pose proof (pg_opts _ _ _ P) as Ho.
  assert (Hn : forall i cx, new !! i = Some cx -> cx_err cx = None /\
      cx_deadline cx = (now s + SessionTimeout_ (opts (sup s)))%Z).
  { intros i cx. destruct e; subst; try done.
    destruct Hnew as (cx0 & -> & He & Hd). by intros [_ <-]%list_lookup_singleton_Some. }
  split; intros c cx' Hc;
    destruct (evolved_lookup _ _ _ _ _ P Hc) as [(cx & Hc0 & [_ Hd He _])|(i & Hi)].
  - pose proof (tm_deadline s T c cx Hc0). rewrite Hd, Ho. lia.
  - destruct (Hn i cx' Hi) as [_ ->]. rewrite Ho. lia.
  - intros Hx. rewrite Hd. destruct He as [He|(_ & [He|[_ He]])]; [|congruence|done].
    rewrite He in Hx. pose proof (tm_expired s T c cx Hc0 Hx). lia.
  - destruct (Hn i cx' Hi) as [-> _]. done.
Qed.

Lemma reachable_timed s : reachable s -> timed s.
Proof.
  intros Hr. revert s Hr. apply reachable_ind'.
  - intros s (_ & _ & _ & _ & _ & E). split; intros c cx; by rewrite E.
  - intros s e s' Hr. apply timed_step. by apply reachable_inv.
Qed.

(** ** Work *)

Lemma work_nonincreasing s s' : progressed s s' [] -> (work s' <= work s)%nat.
Proof.
  intros [_ _ (old & E & Hev)]. unfold work. rewrite E, app_nil_r.
  eapply sum_Forall2; [|done]. intros x y. apply ev_work.
Qed.

(** Finishing the callback or the launch of a context is progress. *)
Lemma work_alter f c cx s :
  ctxs s !! c = Some cx -> (work_of (f cx) < work_of cx)%nat ->
  (work (set_ctxs (alter f c) s) < work s)%nat.
Proof.
  intros Hc Hw. unfold work. simpl. pose proof (sum_alter work_of f c cx (ctxs s) Hc). lia.
Qed.

Lemma internal_work s e s' :
  inv s -> step s e s' -> internal e = true -> (work s' < work s)%nat.
Proof.
  intros I Hst Hi. destruct Hst; try done.
  - set (s1 := log _ s) in *.
    assert (I1 : inv s1) by by eapply (inv_proper s1 s).
    pose proof (progressed_deleteWithReason w (cx_id cx) TerminationReasonTimeout s1 I1) as Hp.
    rewrite H3 in Hp. simpl in Hp. destruct Hp as (_ & _ & _ & Hc).
    assert (Hle : (work s' <= work s)%nat).
    { eapply sum_Forall2; [|apply Hc]. intros x y. apply ev_work. }
    pose proof (done_ctx_kept w (cx_id cx) TerminationReasonTimeout c cx s1 H0 I1 H1 H2) as Hk.
    rewrite H3 in Hk. simpl in Hk.
    eapply Nat.lt_le_trans; [|exact Hle]. eapply work_alter; [done|].
    unfold work_of. simpl. rewrite H2. lia.
  - eapply work_alter; [done|]. unfold end_ctx. rewrite H1. unfold work_of. simpl.
    rewrite (proj1 (inv_after s I c cx H0)) by done. lia.
  - destruct (frame_launch_goroutine _ _ _ _ _ H3) as [Eq]. unfold core in Eq.
    injection Eq as _ _ _ _ _ _ _ _ E9 _. unfold work. simpl. rewrite E9.
    pose proof (sum_alter work_of (set_launch LaunchReturned) c cx (ctxs s) H0) as Hs.
    unfold work_of in Hs at 2 4. simpl in Hs. rewrite H1 in Hs. lia.
Qed.
End timers.

(** ** Theorems *)

(** An environment in which the launch goroutine returns. *)
Definition returning (e : option error) : launch_env :=
  mkLaunchEnv (mkMkdirEnv None None (Err ErrNotExist) None)
    (fun _ => mkRunResult None None EmptyString EmptyString 0) (fun _ => mkFS (fun _ => Ok tt) (fun _ => Err ErrNotExist))
    e false None.

Lemma filter_nil_or {A} (P : A -> Prop) `{forall x, Decision (P x)} (l : list A) :
  (exists i x, l !! i = Some x /\ P x) \/ Forall (fun x => ~ P x) l.
Proof.
  induction l as [|x l [(i & y & Hi & Hy)|IH]]; [by right|left; by exists (S i), y|].
  destruct (decide (P x)); [left; by exists 0, x|right; by constructor].
Qed.

Section termination.
Context `{ProcFS}.

Lemma draining_unlocked s : inv s -> draining (sup s) = true -> unlocked s.
Proof.
  intros I Hd. unfold unlocked. destruct (sessionsMtx (sup s)) as [cr|] eqn:E; [|done].
  destruct (inv_creating s I cr E) as (_ & ? & _). congruence.
Qed.

(** With every deadline passed, an idle supervisor whose goroutines are all
    blocked has nothing left. *)
Lemma progress_or_done s :
  inv s -> unlocked s ->
  (forall c cx, ctxs s !! c = Some cx -> (cx_deadline cx <= now s)%Z) ->
  (Wait_returns s /\ sessions (sup s) = ∅) \/
  (exists e s', internal e = true /\ step s e s').
Proof.
  intros I Hu Hd.
  destruct (filter_nil_or (fun cx => cx_launch cx = LaunchRunning) (ctxs s))
    as [(c & cx & Hc & Hl)|Hn].
  { right. exists (EvExit c). eexists. split; [done|].
    by eapply (step_exit (returning (cx_err cx)) c cx). }
  destruct (single_cases _ (inv_single s I)) as [Hm|(id & sess & Hm)].
  { left. split; [|done]. unfold Wait_returns. rewrite (inv_wg s I).
    revert Hn. clear. induction 1 as [|cx cs Hcx _ IH]; [done|].
    rewrite running_cons, decide_False by done. done. }
  right. destruct (inv_session s I id sess) as (_ & cx & Hc & Hid & Ha & He).
  { by rewrite Hm, lookup_singleton_eq. }
  destruct (cx_err cx) eqn:E.
  - exists (EvReap (cx_id cx) (deleteWithReason (still machine) (cx_id cx) TerminationReasonTimeout
              (log (reap_record (cx_logger cx)) s)).1).
    eexists. split; [done|].
    eapply (step_reap (still machine) (cancel sess) cx); [done|done| |apply surjective_pairing].
    pose proof (inv_after s I _ _ Hc) as Hx. rewrite E in Hx.
    destruct (cx_after cx); [|done|done]. by discriminate (proj2 Hx eq_refl).
  - exists (EvExpire (cancel sess)). eexists. split; [done|].
    eapply step_expire; [done|done|]. by eapply Hd.
Qed.

(** What may be seen of a supervisor that drains: it starts no session,
    hands none out, and refuses every request for one as draining. *)
Definition draining_event (e : event) : Prop :=
  match e with
  | EvStart _ _ | EvReady _ => False
  | EvReject _ err => err = ErrDraining
  | _ => True
  end.

(** The event ends the registered session [id]. *)
Definition ends_session (id : string) (e : event) : Prop := e = EvDelete id true \/ e = EvReap id true.

(** The sessions after [es]: as they were, or none, by the end of one of
    them. *)
Definition only_ended (es : list event) (m m' : gmap string session) : Prop :=
  m' = m \/ m' = ∅ /\ exists id, is_Some (m !! id) /\ Exists (ends_session id) es.

Lemma only_ended_deleted w id reason s found s' e :
  inv s -> unlocked s -> deleteWithReason w id reason s = (found, s') -> (found = true -> ends_session id e) ->
  only_ended [e] (sessions (sup s)) (sessions (sup s')).
Proof.
  intros I Hu E He. destruct (sessions (sup s) !! id) as [sess|] eqn:Es; last first.
  { rewrite (deleteWithReason_missing w id reason s Es) in E. simplify_eq. by left. }
  destruct (deleteWithReason_found w id reason s sess Es) as [Hf [Eq]].
  destruct (inv_removed id reason sess s) as [_ Hem]; [done|done|done|].
  rewrite E in Hf, Eq. simpl in *. unfold core in Eq. injection Eq as Eq _ _ _ _ _ _ _ _ _.
  right. rewrite Eq. split; [exact Hem|]. exists id. rewrite Es. split; [eauto|]. constructor. auto.
Qed.

Lemma draining_step s e s' :
  inv s -> draining (sup s) = true -> step s e s' ->
  draining (sup s') = true /\ draining_event e /\ length (ctxs s') = length (ctxs s) /\
  only_ended [e] (sessions (sup s)) (sessions (sup s')).
Proof.
  intros I Hd Hst.
  destruct (lease_closed_step _ _ _ (step_lease s e s' I Hst)) as (Hd' & _ & _ & _ & Hns);
    [done|by apply abs_idle; [apply draining_unlocked|]|].
  destruct (step_progressed s e s' I Hst) as (new & P & Hnew).
  assert (Hlen : length (ctxs s') = length (ctxs s)).
  { destruct (pg_ctxs _ _ _ P) as (old & -> & Hev). rewrite (Forall2_length _ _ _ Hev), length_app.
    destruct e; subst; simpl; try lia. by destruct (Hns ifFree id). }
  split; [done|]. split; [|split; [done|]].
  - destruct Hst; simpl; try done.
    + destruct (create_begin_rejected _ _ _ _ _ _ H1) as [_ [[-> _]|(_ & ? & _)]]; [done|congruence].
    + by eapply Hns.
    + pose proof (draining_unlocked s I Hd). unfold unlocked in *. congruence.
  - clear Hnew. destruct Hst; try (by left).
    + destruct (create_begin_rejected _ _ _ _ _ _ H1) as [-> _]. by left.
    + by destruct (Hns ifFree (cr_id cr)).
    + pose proof (draining_unlocked s I Hd). unfold unlocked in *. congruence.
    + eapply only_ended_deleted; [done|done|exact H1|]. intros ->. by left.
    + eapply (only_ended_deleted w (cx_id cx) TerminationReasonTimeout
        (log (reap_record (cx_logger cx)) s) found s'); [by rewrite log_equiv|done|exact H3|].
      intros ->. by right.
    + left. destruct (frame_launch_goroutine _ _ _ _ _ H3) as [Eq].
      unfold core in Eq. by injection Eq.
    + left. destruct (frame_ua_goroutine _ _ _ H0) as [Eq]. unfold core in Eq. by injection Eq.
Qed.

(** C12: draining is final: in any run that goes on after [Drain] the
    supervisor stays draining; no session is started, no Chromium is launched
    and none is granted, every request for one is refused as draining; and
    the registered session stays as it is until a deletion or its timeout
    removes it. *)
Theorem draining_is_final s es s' :
  reachable s -> draining (sup s) = true -> steps s es s' ->
  draining (sup s') = true /\ Forall draining_event es /\ count is_grant es = 0%nat /\
  length (ctxs s') = length (ctxs s) /\ only_ended es (sessions (sup s)) (sessions (sup s')).
Proof.
  intros I%reachable_inv Hd Hs. revert I Hd.
  induction Hs as [s|s e s1 es s2 Hst _ IH]; intros I Hd; [split_and!; [done..|by left]|].
  destruct (draining_step s e s1 I Hd Hst) as (Hd1 & He & Hl & Ho).
  destruct (IH (inv_step s e s1 I Hst) Hd1) as (Hd2 & Hes & Hg & Hl2 & Ho2).
  split_and!; [done|by constructor| |congruence|].
  - unfold count in *. simpl. by destruct e as [| |[]| | | | | | | | | | |].
  - destruct Ho as [Eq|[Em (id & Hid & Hx)]].
    + rewrite <- Eq. destruct Ho2 as [?|[? (id & Hid & Hx)]]; [by left|right]. eauto.
    + right. split; [|exists id; split; [done|]; rewrite Exists_cons; rewrite Exists_cons, Exists_nil in Hx; tauto].
      destruct Ho2 as [?|[? _]]; [congruence|done].
Qed.

(** C8: while draining, the goroutines of the supervisor can take only
    finitely many steps, at most [work s] of them, whatever else happens in
    between: each expiry, callback and return of a launch uses one up. *)
Theorem draining_bounded s es s' :
  reachable s -> draining (sup s) = true -> steps s es s' ->
  (count internal es + work s' <= work s)%nat.
Proof.
  intros I%reachable_inv Hd Hs. revert I Hd.
  induction Hs as [s|s e s1 es s2 Hst _ IH]; intros I Hd; [done|].
  pose proof (inv_step s e s1 I Hst) as I1.
  destruct (lease_closed_step _ _ _ (step_lease s e s1 I Hst)) as (Hd1 & _ & _ & _ & Hns);
    [done|by apply abs_idle; [apply draining_unlocked|]|].
  specialize (IH I1 Hd1).
  destruct (step_progressed s e s1 I Hst) as (new & P & Hnew).
  assert (new = []) as ->.
  { destruct e; try done. by destruct (Hns ifFree id). }
  pose proof (work_nonincreasing _ _ P). pose proof (internal_work s e s1 I Hst).
  unfold count in *. simpl. destruct (internal e); simpl; [|lia].
  specialize (H1 eq_refl). lia.
Qed.

(** While draining, no context outlives the session timeout counted from the
    start of the drain. *)
Lemma draining_deadlines s es s' c cx :
  reachable s -> draining (sup s) = true -> steps s es s' -> ctxs s' !! c = Some cx ->
  (cx_deadline cx <= now s + SessionTimeout_ (opts (sup s)))%Z.
Proof.
  intros Hr Hd Hs. pose proof (reachable_inv s Hr) as I.
  assert (Hb : forall c cx, ctxs s !! c = Some cx ->
    (cx_deadline cx <= now s + SessionTimeout_ (opts (sup s)))%Z) by apply (reachable_timed s Hr).
  generalize (now s + SessionTimeout_ (opts (sup s)))%Z as D, Hb. clear Hb Hr.
  revert I Hd. induction Hs as [s|s e s1 es s2 Hst _ IH]; intros I Hd D Hb Hc; [by eapply Hb|].
  destruct (lease_closed_step _ _ _ (step_lease s e s1 I Hst)) as (Hd1 & _ & _ & _ & Hns);
    [done|by apply abs_idle; [apply draining_unlocked|]|].
  destruct (step_progressed s e s1 I Hst) as (new & P & Hnew).
  assert (new = []) as ->.
  { destruct e; try done. by destruct (Hns ifFree id). }
  apply (IH (inv_step s e s1 I Hst) Hd1 D); [|done].
  intros c' cx' Hc'. destruct (evolved_lookup _ _ _ _ _ P Hc') as [(cx0 & Hc0 & Hev)|(i & Hi)];
    [|done].
  rewrite (ev_deadline _ _ _ Hev). by eapply Hb.
Qed.

(** C7: once a session timeout has passed since the supervisor was
    draining, either nothing is left, [Wait] returns and no session is
    registered, or one of the supervisor's goroutines can take a step.  With
    [draining_bounded] this is the termination of [Wait] within the session
    timeout of [Drain], for every schedule that runs its goroutines. *)
Theorem draining_progress s es s' :
  reachable s -> draining (sup s) = true -> steps s es s' ->
  (now s + SessionTimeout_ (opts (sup s)) <= now s')%Z ->
  (Wait_returns s' /\ sessions (sup s') = ∅) \/
  (exists e s'', internal e = true /\ step s' e s'').
Proof.
  intros Hr Hd Hs Ht. pose proof (reachable_inv s Hr) as I.
  pose proof (steps_inv s es s' I Hs) as I'.
  assert (Hd' : draining (sup s') = true).
  { apply (lease_closed _ _ _ (steps_lease s es s' I Hs)); [done|].
    by apply abs_idle; [apply draining_unlocked|]. }
  apply progress_or_done; [done|by apply draining_unlocked|].
  intros c cx Hc. pose proof (draining_deadlines s es s' c cx Hr Hd Hs Hc). lia.
Qed.
End termination.

Section timeouts.
Context `{ProcFS}.

(** C9: no session outlives its timeout: from any reachable program with a
    session and nobody creating one, letting a session timeout pass and
    running the session's own timer and callback leaves no session, and the
    callback reports that it found it. *)
Theorem session_expires s id :
  reachable s -> unlocked s -> is_Some (sessions (sup s) !! id) ->
  (0 <= SessionTimeout_ (opts (sup s)))%Z ->
  exists es s', steps s (EvTick (SessionTimeout_ (opts (sup s))) :: es) s' /\
    Forall (fun e => e = EvReap id true \/ exists c, e = EvExpire c) es /\
    sessions (sup s') = ∅.
Proof.
  intros Hr Hu [sess E] Ht. pose proof (reachable_inv s Hr) as I.
  set (s1 := pass_time (SessionTimeout_ (opts (sup s))) s).
  assert (Hst : step s (EvTick (SessionTimeout_ (opts (sup s)))) s1) by by constructor.
  pose proof (inv_step _ _ _ I Hst) as I1.
  assert (Hreap : forall s2 cx, inv s2 -> unlocked s2 -> sessions (sup s2) = sessions (sup s) ->
    ctxs s2 !! cancel sess = Some cx -> cx_id cx = id -> cx_after cx = AfterStarted ->
    exists s', step s2 (EvReap id true) s' /\ sessions (sup s') = ∅).
  { intros s2 cx I2 Hu2 Hs2 Hc Hid Ha.
    set (s3 := log (reap_record (cx_logger cx)) s2).
    assert (E3 : sessions (sup s3) !! cx_id cx = Some sess) by (simpl; by rewrite Hs2, Hid).
    destruct (deleteWithReason_found (still machine) (cx_id cx) TerminationReasonTimeout s3 sess E3)
      as [Hf [Eq]]. unfold core in Eq. injection Eq as Eq _ _ _ _ _ _ _ _ _.
    destruct (inv_removed (cx_id cx) TerminationReasonTimeout sess s3) as [_ Hem]; [done|done| |].
    { by eapply (inv_proper s3 s2). }
    exists (set_ctxs (alter (set_after AfterDone) (cancel sess))
      (deleteWithReason (still machine) (cx_id cx) TerminationReasonTimeout s3).2).
    split; [|simpl; rewrite Eq; exact Hem]. rewrite <- Hid, <- Hf at 1.
    eapply step_reap; [done|done|done|apply surjective_pairing]. }
  destruct (inv_session s I id sess E) as (_ & cx & Hc & Hid & Ha & He).
  pose proof (inv_after s I _ _ Hc) as Hx.
  destruct He as [He|He].
  - set (s2 := end_context ErrDeadlineExceeded (cancel sess) s1).
    assert (Hst2 : step s1 (EvExpire (cancel sess)) s2).
    { apply (step_expire _ cx); [done|done|]. simpl. by apply (tm_deadline s (reachable_timed s Hr) (cancel sess)). }
    destruct (Hreap s2 (set_err ErrDeadlineExceeded cx)) as (s3 & Hst3 & Hem); try done.
    { by eapply inv_step. }
    { simpl. rewrite list_lookup_alter_eq, Hc. simpl. unfold end_ctx. by rewrite He. }
    exists [EvExpire (cancel sess); EvReap id true], s3. split; [eauto using steps|].
    split; [|done]. eauto 10.
  - destruct (Hreap s1 cx) as (s3 & Hst3 & Hem); try done.
    { rewrite He in Hx. destruct (cx_after cx); [|done|done].
      by discriminate (proj2 Hx eq_refl). }
    exists [EvReap id true], s3. split; [eauto using steps|]. split; [|done]. auto.
Qed.

(** "timeout" terminations are timeouts: as long as no two contexts
    share a session ID, a callback that finds its session, and so counts a
    "timeout", runs for a session whose deadline had passed and whose context
    was not cancelled by anything else. *)
Theorem timeout_is_a_timeout s id s' :
  reachable s -> NoDup (cx_id <$> ctxs s) -> step s (EvReap id true) s' ->
  exists c cx, ctxs s !! c = Some cx /\ cx_id cx = id /\
    cx_err cx = Some ErrDeadlineExceeded /\ (cx_deadline cx <= now s)%Z /\
    (exists sess, sessions (sup s) !! id = Some sess /\ cancel sess = c).
Proof.
  intros Hr Hnd Hst. pose proof (reachable_inv s Hr) as I.
  inversion Hst as [| | | |w c cx s0 found s1 Hu Hcx Hstarted Hdel| | | | | | | | |]; subst.
  destruct (sessions (sup s) !! cx_id cx) as [sess|] eqn:E; last first.
  { by rewrite deleteWithReason_missing in Hdel. }
  destruct (inv_session s I _ _ E) as (_ & cx' & Hc & Hid & Ha & He).
  exists (cancel sess), cx'.
  assert (Heq : c = cancel sess).
  { eapply (NoDup_lookup (cx_id <$> ctxs s)); [done| |].
    - by rewrite list_lookup_fmap, Hcx.
    - rewrite list_lookup_fmap, Hc. simpl. by f_equal. }
  subst c. rewrite Hc in Hcx. injection Hcx as <-.
  destruct He as [He|He].
  - pose proof (proj1 (inv_after s I _ _ Hc) He). congruence.
  - split_and!; try done; [|eauto]. by apply (tm_expired s (reachable_timed s Hr) (cancel sess)).
Qed.
End timeouts.

(** ** The wait group does not count sessions *)

(** The browser of [busy] exits by itself. *)
Definition crashed : prog :=
  set_ctxs (alter (set_launch LaunchReturned) 0)
    (launch_goroutine (returning None) (cr_logger creating1) (Ok 3%Z) busy).2.

Lemma step_crashed : step busy (EvExit 0) crashed.
Proof.
  eapply (step_exit (returning None) 0); [reflexivity|reflexivity|reflexivity|].
  vm_compute. reflexivity.
Qed.

(** [Wait] may return while a session is registered: the counter follows
    the launch goroutines, so when Chromium exits by itself the session stays
    listed, and counted as active, until it is deleted or times out. *)
Theorem wait_returns_with_session :
  reachable crashed /\ Wait_returns crashed /\ Sessions crashed = [id1] /\
  SessionActive (metrics (sup crashed)) = 1%Z.
Proof.
  split; [|vm_compute; done]. exists prog0. eexists. split; [apply initial0|].
  eapply steps_snoc; [apply run_busy|apply step_crashed].
Qed.

(** ** Witnesses *)

Definition drained : prog := Drain busy.
Definition late : prog := pass_time defaultSessionTimeout drained.
Definition expired : prog := end_context ErrDeadlineExceeded 0 late.

Lemma reachable_drained : reachable drained.
Proof.
  exists prog0. eexists. split; [apply initial0|].
  eapply steps_snoc; [apply run_busy|]. by apply step_drain.
Qed.

Lemma step_late : step drained (EvTick defaultSessionTimeout) late.
Proof. by apply step_tick. Qed.

Lemma step_expired : step late (EvExpire 0) expired.
Proof. eapply step_expire; [reflexivity|reflexivity|]. vm_compute. discriminate. Qed.

Lemma reachable_expired : reachable expired.
Proof. eapply reachable_step, step_expired. eapply reachable_step, step_late. apply reachable_drained. Qed.

Definition expired_ctx : ctx :=
  mkCtx id1 (cr_logger creating1) defaultSessionTimeout (Some ErrDeadlineExceeded) AfterStarted
    (Ok 3%Z) LaunchRunning.

Lemma step_expired_reaped : exists s, step expired (EvReap id1 true) s.
Proof.
  eexists. change id1 with (cx_id expired_ctx).
  eapply (step_reap (still machine) 0); [reflexivity|reflexivity|reflexivity|].
  vm_compute. reflexivity.
Qed.

Lemma draining_is_final_witness :
  draining (sup expired) = true /\
  only_ended [EvTick defaultSessionTimeout; EvExpire 0] (sessions (sup drained)) (sessions (sup expired)).
Proof.
  destruct (draining_is_final drained [EvTick defaultSessionTimeout; EvExpire 0] expired)
    as (? & _ & _ & _ & ?); [apply reachable_drained|reflexivity| |done].
  eauto using steps, step_late, step_expired.
Defined.

Lemma draining_bounded_witness :
  (count internal [EvTick defaultSessionTimeout; EvExpire 0] + work expired <= work drained)%nat /\
  work drained = 3%nat.
Proof.
  split; [|reflexivity].
  apply draining_bounded; [apply reachable_drained|reflexivity|].
  eauto using steps, step_late, step_expired.
Defined.

Lemma draining_progress_witness :
  (Wait_returns late /\ sessions (sup late) = ∅) \/
  (exists e s', internal e = true /\ step late e s').
Proof.
  apply (draining_progress drained [EvTick defaultSessionTimeout]);
    [apply reachable_drained|reflexivity| |vm_compute; discriminate].
  eauto using steps, step_late.
Defined.

Lemma reachable_busy' : reachable busy.
Proof. exists prog0. eexists. split; [apply initial0|apply run_busy]. Qed.

Lemma session_expires_witness :
  exists es s', steps busy (EvTick defaultSessionTimeout :: es) s' /\
    Forall (fun e => e = EvReap id1 true \/ exists c, e = EvExpire c) es /\
    sessions (sup s') = ∅.
Proof.
  apply (session_expires busy id1);
    [apply reachable_busy'|reflexivity|vm_compute; eauto|vm_compute; discriminate].
Defined.

Lemma timeout_is_a_timeout_witness :
  exists c cx, ctxs expired !! c = Some cx /\ cx_id cx = id1 /\
    cx_err cx = Some ErrDeadlineExceeded /\ (cx_deadline cx <= now expired)%Z /\
    (exists sess, sessions (sup expired) !! id1 = Some sess /\ cancel sess = c).
Proof.
  destruct step_expired_reaped as [s Hs].
  apply (timeout_is_a_timeout expired id1 s); [apply reachable_expired| |done].
  vm_compute. repeat constructor. set_solver.
Defined.
