(* ===== verification/Main.v ===== *)
(** * The process: cmd/crocochrome/main.go

    Starting up and shutting down: the options [run] gives the supervisor,
    the checks before it serves, and the shutdown goroutine as a state
    machine around [System.step]. *)

From S2P Require Import Prelude GoStrings OS Machine Json Metrics Chromium BuildVersion Cgroup Proc Supervisor Launch System Invariant Lease Refinement Scenario JsonText Url Mux Flags Http Service Instrument Liveness.

(** ** Configuration *)

(** The options [run] passes to [New]; [reg] is the registry it made. *)
Definition run_options (config : Config) (reg : nat) : Options :=
  mkOptions "chromium" "" 0 (C_UserGroup config) (C_TempDir config) (Some reg)
    "GrafanaSyntheticMonitoring" "" (C_EnableProcessMetrics config) "".

(** ** Start-up *)

(** What start-up meets: the version the linker wrote and the build
    information, the process's temporary directory and registry, what
    [Version] returns to [ComputeUserAgent], and the clock. *)
Record startup_env := mkStartup {
  su_version : string;
  su_buildinfo : option BuildInfo;
  su_tmp : string;
  su_reg : nat;
  su_ua : res VersionInfo;
  su_now : Z;
}.

(** The record with the three version strings; [None] if one panics. *)
Definition starting_record (env : startup_env) (l : logger) : option record :=
  match Short (su_version env) (su_buildinfo env), Commit (su_buildinfo env),
        Buildstamp (su_buildinfo env) with
  | Returns v, Returns c, Returns t =>
      Some (record_of l LevelInfo "Starting crocochrome supervisor"
              [("version", AString v); ("commit", AString c); ("timestamp", AString t)])
  | _, _, _ => None
  end.

Section startup.
Context `{ProcFS} `{Prometheus}.

(** [run] up to the start of the goroutines: a panic, an error, or the
    program that serves. *)
Definition run_startup (env : startup_env) (l : logger) (config : Config) : IO (outcome (res prog)) :=
  match starting_record env l with
  | None => mret Panics
  | Some r =>
      caps ← (if (C_UserGroup config =? 0)%Z then mret None else CheckCapabilities "/proc");
      match caps with
      | Some e => mret (Returns (Err e))
      | None =>
          match AddVersionMetrics (su_version env) (su_buildinfo env) NewRegistry with
          | Panics => mret Panics
          | Returns reg =>
              p ← New (su_tmp env) (su_reg env) l (run_options config (su_reg env));
              match register_all supervisor_collectors reg with
              | None => mret Panics
              | Some reg =>
                  let s := log r (init_prog p (su_now env)) in
                  match ComputeUserAgent (su_ua env) s with
                  | (Some e, _) =>
                      mret (Returns (Err (ErrWrap "could not compute user agent: %w" [] e)))
                  | (None, s) =>
                      match register_all http_collectors reg with
                      | None => mret Panics
                      | Some _ => mret (Returns (Ok s))
                      end
                  end
              end
          end
      end
  end.
End startup.

(** ** Shutdown *)

Definition graceTime (p : Supervisor) : Z := wrap_i64 (SessionTimeout p + 10 * Second).
Definition httpShutdownGraceTime : Z := (10 * Second)%Z.

(** Where the shutdown goroutine is: before the context is done; in the
    select on the grace timer and [Wait], since [drained]; in
    [server.Shutdown], since [closing]; after it. *)
Inductive phase :=
  | Serving
  | Waiting (drained : Z)
  | Closing (drained closing : Z)
  | Exited (drained exited : Z).

(** When the timer the goroutine waits on fires. *)
Definition timer (p : Supervisor) (ph : phase) : option Z :=
  match ph with
  | Waiting t => Some (t + graceTime p)%Z
  | Closing _ u => Some (u + httpShutdownGraceTime)%Z
  | _ => None
  end.

Definition log_info (msg : string) (attrs : list attr) (s : prog) : prog :=
  log (record_of (sup_logger (sup s)) LevelInfo msg attrs) s.
Definition log_warn (msg : string) (attrs : list attr) (s : prog) : prog :=
  log (record_of (sup_logger (sup s)) LevelWarn msg attrs) s.

Definition closing_log : prog -> prog :=
  log_warn "Existing sessions terminated, shutting down HTTP server"
    [("httpShutdownGrace", AInt httpShutdownGraceTime)].

Definition exited (ph : phase) : bool := match ph with Exited _ _ => true | _ => false end.

(** The process, its timers being prompt: time does not pass beyond a timer
    that the goroutine waits on.  [Drain] needs the lock: a signal that comes
    while a creation waits for Chromium is acted on when the creation has
    ended, and the grace time counts from then. *)
Inductive main_step `{ProcFS} : prog * phase -> prog * phase -> Prop :=
  | ms_run s e s' ph :
      exited ph = false -> step s e s' ->
      (forall d, timer (sup s) ph = Some d -> (now s' <= d)%Z) ->
      main_step (s, ph) (s', ph)
  (* a signal arrived, or the HTTP server failed *)
  | ms_drain s s' :
      step s EvDrain s' ->
      main_step (s, Serving)
        (log_info "Context cancelled, waiting for existing sessions to finish"
           [("graceTime", AInt (graceTime (sup s')))] s', Waiting (now s'))
  | ms_grace s t :
      (t + graceTime (sup s) <= now s)%Z ->
      main_step (s, Waiting t)
        (closing_log (log_warn "Sessions did not finish within graceTime"
           [("graceTime", AInt (graceTime (sup s)))] s), Closing t (now s))
  | ms_waited s t :
      Wait_returns s ->
      main_step (s, Waiting t) (closing_log s, Closing t (now s))
  | ms_exit s t u :
      main_step (s, Closing t u) (s, Exited t (now s)).

(** The states of a process that started with the given configuration. *)
Inductive main_reachable `{ProcFS} `{Prometheus} : prog * phase -> Prop :=
  | mr_start env l config w s :
      run_io (run_startup env l config) w = Returns (Ok s) -> main_reachable (s, Serving)
  | mr_step x y : main_reachable x -> main_step x y -> main_reachable y.

(** ** Facts *)

Section facts.
Context `{ProcFS}.

Lemma New_fields tmp reg l o w n :
  let p := (New tmp reg l o w n).1 in
  sessions p = ∅ /\ sessionsMtx p = None /\ metrics p = newSupervisorMetrics /\ wg p = 0%Z /\
  draining p = false /\ SessionTimeout p = (if (SessionTimeout_ o =? 0)%Z then defaultSessionTimeout else SessionTimeout_ o).
Proof.
  unfold New, withDefaults, mbind, io_bind.
  case_bool_decide; simpl; [by destruct (detectCgroupMemoryEventsPath _ _ _)|done].
Qed.

Lemma New_opts tmp reg l o w n :
  let p := (New tmp reg l o w n).1 in
  UserGroup (opts p) = UserGroup o /\ EnableProcessMetrics (opts p) = EnableProcessMetrics o /\
  ExtraUATerms (opts p) = ExtraUATerms o /\ ChromiumPath (opts p) = ChromiumPath o.
Proof.
  unfold New, withDefaults, mbind, io_bind.
  case_bool_decide; simpl; [by destruct (detectCgroupMemoryEventsPath _ _ _)|done].
Qed.

Lemma startup_ok `{Prometheus} env l config w s :
  run_io (run_startup env l config) w = Returns (Ok s) ->
  (C_UserGroup config <> 0%Z -> run_io (CheckCapabilities "/proc") w = None) /\
  initial s /\ now s = su_now env /\ SessionTimeout (sup s) = defaultSessionTimeout /\
  UserGroup (opts (sup s)) = C_UserGroup config /\
  exists v, su_ua env = Ok v /\
    userAgent (sup s) = patch_user_agent (UserAgent v) "GrafanaSyntheticMonitoring".
Proof.
  unfold run_startup, run_io. destruct (starting_record env l) as [r|]; [|done].
  unfold mbind, io_bind.
  destruct ((if (C_UserGroup config =? 0)%Z then mret None else CheckCapabilities "/proc" : IO (option error))
    w 0%nat) as [[e|] n] eqn:Ec; [done|].
  destruct (AddVersionMetrics _ _ _) as [reg|]; [|done].
  pose proof (New_fields (su_tmp env) (su_reg env) l (run_options config (su_reg env)) w n) as Hn.
  pose proof (New_opts (su_tmp env) (su_reg env) l (run_options config (su_reg env)) w n) as Ho.
  destruct (New _ _ _ _ _ n) as [p n']. simpl in Hn, Ho. destruct Hn as (E1 & E2 & E3 & E4 & E5 & E6).
  destruct Ho as (O1 & _ & O3 & _). destruct (register_all supervisor_collectors reg) as [reg'|]; [|done].
  unfold ComputeUserAgent. destruct (su_ua env) as [v|e]; [|done].
  destruct (register_all http_collectors reg'); [|done]. intros E. simplify_eq/=.
  split.
  { intros Hu. rewrite (proj2 (Z.eqb_neq _ _) Hu) in Ec. by rewrite Ec. }
  rewrite O3. split_and!; try done. exists v. done.
Qed.

Lemma info_starting env l :
  (exists info, info_collector (su_version env) (su_buildinfo env) = Returns info) -> is_Some (starting_record env l).
Proof. intros [info]. unfold starting_record, info_collector in *. by repeat case_match. Qed.

(** When start-up succeeds: with version strings that can be exposed, a
    Chromium that answers, and the capabilities, unless Chromium is to run
    as the process's own user. *)
Lemma startup_succeeds `{PrometheusLaws} env l config w :
  (exists s, run_io (run_startup env l config) w = Returns (Ok s)) <->
  version_labels (su_version env) (su_buildinfo env) /\ is_ok (su_ua env) = true /\
  (C_UserGroup config = 0%Z \/ run_io (CheckCapabilities "/proc") w = None).
Proof.
  unfold run_startup, run_io. unfold mbind, io_bind. split.
  - intros [s Hs]. destruct (starting_record env l) as [r|]; [|done].
    destruct ((if (C_UserGroup config =? 0)%Z then mret None else CheckCapabilities "/proc" : IO (option error))
      w 0%nat) as [[e|] n] eqn:Ec; [done|].
    destruct (AddVersionMetrics _ _ _) as [reg|] eqn:Ev; [|done].
    destruct (New _ _ _ _ _ n) as [p n']. destruct (register_all supervisor_collectors reg) as [reg'|]; [|done].
    split_and!.
    + destruct (info_collector (su_version env) (su_buildinfo env)) as [info|] eqn:Hi;
        [|by unfold AddVersionMetrics in Ev; rewrite Hi in Ev].
      exists info. split; [done|]. destruct (decide (Forall utf8 (c_const info).*2)) as [|Hu]; [done|].
      by rewrite (version_labels_refused _ _ _ Hi Hu) in Ev.
    + by destruct (su_ua env).
    + destruct (C_UserGroup config =? 0)%Z eqn:Eu; to_prop; [by left|right]. by rewrite Ec.
  - intros (Hv & Hua & Hc). destruct (info_starting env l) as [r ->]; [by destruct Hv as (info & ? & _); exists info|].
    assert (exists n, (if (C_UserGroup config =? 0)%Z then mret None else CheckCapabilities "/proc" : IO (option error))
      w 0%nat = (None, n)) as [n ->].
    { destruct (C_UserGroup config =? 0)%Z eqn:Eu; to_prop; [by eexists|].
      destruct Hc as [?|Hc]; [done|]. destruct (CheckCapabilities _ w 0%nat) as [x n]. simpl in Hc.
      exists n. by rewrite Hc. }
    destruct (registered_in_order _ _ Hv) as (r1 & r2 & r3 & E1 & E2 & E3 & _). rewrite E1.
    destruct (New _ _ _ _ _ n) as [p n']. rewrite E2.
    destruct (su_ua env) as [v|e]; [|done]. unfold ComputeUserAgent. cbv zeta iota. rewrite E3. by eexists.
Qed.

(** The invariant of the process. *)
Definition drain_point (s : prog) (t : Z) : Prop :=
  exists s0 es, reachable s0 /\ draining (sup s0) = true /\ now s0 = t /\
    SessionTimeout (sup s0) = defaultSessionTimeout /\ steps s0 es s.

Definition main_inv (x : prog * phase) : Prop :=
  let '(s, ph) := x in
  reachable s /\ SessionTimeout (sup s) = defaultSessionTimeout /\
  match ph with
  | Serving => True
  | Waiting t => drain_point s t /\ (t <= now s <= t + graceTime (sup s))%Z
  | Closing t u => drain_point s t /\ (t <= u <= t + graceTime (sup s))%Z /\
      (u <= now s <= u + httpShutdownGraceTime)%Z
  | Exited t x => drain_point s t /\ (t <= x <= t + graceTime (sup s) + httpShutdownGraceTime)%Z
  end.

Lemma graceTime_default p : SessionTimeout p = defaultSessionTimeout -> graceTime p = (310 * Second)%Z.
Proof. unfold graceTime. by intros ->. Qed.

Lemma step_keeps s e s' :
  reachable s -> step s e s' -> opts (sup s') = opts (sup s) /\ (now s <= now s')%Z.
Proof.
  intros Hr Hst. destruct (step_progressed s e s' (reachable_inv s Hr) Hst) as (new & P & _).
  split; [apply (pg_opts _ _ _ P)|apply (pg_now _ _ _ P)].
Qed.

Lemma drain_point_step s t e s' : drain_point s t -> step s e s' -> drain_point s' t.
Proof.
  intros (s0 & es & ? & ? & ? & ? & Hs) Hst. exists s0, (es ++ [e]).
  eauto 10 using steps_snoc.
Qed.

Lemma drain_point_draining s t : drain_point s t -> draining (sup s) = true.
Proof.
  intros (s0 & es & Hr & Hd & _ & _ & Hs). pose proof (reachable_inv s0 Hr) as I.
  apply (lease_closed _ _ _ (steps_lease s0 es s I Hs)); [done|].
  by apply abs_idle; [apply draining_unlocked|].
Qed.

Lemma main_inv_run s e s' ph :
  exited ph = false -> step s e s' ->
  (forall d, timer (sup s) ph = Some d -> (now s' <= d)%Z) -> main_inv (s, ph) -> main_inv (s', ph).
Proof.
  intros Hx Hst Ht (Hr & Hto & Hph). destruct (step_keeps s e s' Hr Hst) as [Ho Hn].
  assert (Hto' : SessionTimeout (sup s') = SessionTimeout (sup s)) by (unfold SessionTimeout; by rewrite Ho).
  split; [by eapply reachable_step|]. split; [congruence|].
  unfold timer, graceTime in *. unfold main_inv, graceTime. rewrite Hto'.
  destruct ph as [|t|t u|t x]; simpl in *; [done| | |done].
  - destruct Hph. specialize (Ht _ eq_refl). split; [by eapply drain_point_step|lia].
  - destruct Hph as (? & ? & ?). specialize (Ht _ eq_refl).
    split_and!; try lia. by eapply drain_point_step.
Qed.

Lemma main_inv_step x y : main_inv x -> main_step x y -> main_inv y.
Proof.
  intros I Hst. destruct Hst as [s e s' ph Hx Hst Ht|s s' Hst|s t Hle|s t Hw|s t u].
  - by eapply main_inv_run.
  - destruct I as (Hr & Hto & _). destruct (step_keeps s _ s' Hr Hst) as [Ho Hn].
    assert (Hd : draining (sup s') = true) by (by inversion Hst).
    assert (Hr' : reachable s') by by eapply reachable_step.
    assert (Hto' : SessionTimeout (sup s') = defaultSessionTimeout) by (unfold SessionTimeout; by rewrite Ho).
    assert (Hl : step s' EvLog (log_info "Context cancelled, waiting for existing sessions to finish"
       [("graceTime", AInt (graceTime (sup s')))] s')) by constructor.
    split; [by eapply reachable_step|]. split; [done|]. split.
    + exists s', [EvLog]. split_and!; try done. eapply steps_cons; [exact Hl|constructor].
    + pose proof (graceTime_default (sup s') Hto') as Hg.
      change (graceTime (sup (log_info _ _ s'))) with (graceTime (sup s')). rewrite Hg. simpl.
      unfold Second, Millisecond. lia.
  - destruct I as (Hr & Hto & Hp & Hb).
    assert (Hsteps : forall r r', step s EvLog (log r s) /\ step (log r s) EvLog (log r' (log r s)))
      by (split; constructor).
    destruct (Hsteps (record_of (sup_logger (sup s)) LevelWarn "Sessions did not finish within graceTime"
      [("graceTime", AInt (graceTime (sup s)))])
      (record_of (sup_logger (sup s)) LevelWarn "Existing sessions terminated, shutting down HTTP server"
        [("httpShutdownGrace", AInt httpShutdownGraceTime)])) as [S1 S2].
    split; [by eapply reachable_step, S2; eapply reachable_step|]. split; [done|].
    split; [by eapply drain_point_step, S2; eapply drain_point_step|].
    change (graceTime (sup (closing_log _))) with (graceTime (sup s)). simpl.
    unfold httpShutdownGraceTime, Second, Millisecond. lia.
  - destruct I as (Hr & Hto & Hp & Hb).
    assert (S1 : step s EvLog (closing_log s)) by constructor.
    split; [by eapply reachable_step|]. split; [done|]. split; [by eapply drain_point_step|].
    change (graceTime (sup (closing_log s))) with (graceTime (sup s)). simpl.
    unfold httpShutdownGraceTime, Second, Millisecond. lia.
  - destruct I as (Hr & Hto & Hp & ? & ?). split; [done|]. split; [done|]. split; [done|]. lia.
Qed.

Lemma main_reachable_inv `{Prometheus} x : main_reachable x -> main_inv x.
Proof.
  induction 1 as [env l config w s E|x y _ IH Hst]; [|by eapply main_inv_step].
  apply startup_ok in E as (_ & Hi & _ & Ht & _). split; [|done].
  exists s, []. split; [done|constructor].
Qed.

(** ** Theorems *)

Context `{Prometheus}.

(** A process that serves has checked that it may run Chromium as another
    user, unless it is told to run it as its own; it has no session, a
    five-minute session timeout, and the patched user agent. *)
Theorem startup_spec env l config w s :
  run_io (run_startup env l config) w = Returns (Ok s) ->
  (C_UserGroup config <> 0%Z -> run_io (CheckCapabilities "/proc") w = None) /\
  initial s /\ SessionTimeout (sup s) = (300 * Second)%Z /\
  UserGroup (opts (sup s)) = C_UserGroup config /\
  exists v, su_ua env = Ok v /\
    userAgent (sup s) = patch_user_agent (UserAgent v) "GrafanaSyntheticMonitoring".
Proof. intros E. by apply startup_ok in E as (? & ? & _ & ? & ? & ?). Qed.

(** From the moment the process reacts to a signal until it exits, no
    session can be created. *)
Theorem no_session_after_signal s ph s' ifFree id :
  main_reachable (s, ph) -> ph <> Serving -> ~ step s (EvStart ifFree id) s'.
Proof.
  intros Hm Hne Hst. apply main_reachable_inv in Hm as (Hr & _ & Hph).
  assert (Hd : draining (sup s) = true).
  { destruct ph; [done|..]; destruct Hph as [Hp _]; by eapply drain_point_draining. }
  inversion Hst as [|env ci b s0 cr s1 _ Ho _ _ Hb| | | | | | | | | | | |]; subst.
  apply create_begin_begun in Hb as [Hd' _ _ _ _]; [congruence|done].
Qed.

(** C14: the grace time is sufficient by construction: the HTTP server is only
    shut down when [Wait] has returned, or when every session context has
    been past its deadline for at least the ten-second margin. *)
Theorem grace_covers_sessions s t s' u :
  main_reachable (s, Waiting t) -> main_step (s, Waiting t) (s', Closing t u) ->
  Wait_returns s \/
  (forall c cx, ctxs s !! c = Some cx -> (cx_deadline cx + 10 * Second <= u)%Z).
Proof.
  intros Hm Hst. apply main_reachable_inv in Hm as (Hr & Hto & Hp & Hb).
  pose proof (graceTime_default (sup s) Hto) as Hg.
  inversion Hst; subst; [right|by left].
  intros c cx Hc. destruct Hp as (s0 & es & Hr0 & Hd0 & Hn0 & Hto0 & Hs).
  pose proof (draining_deadlines s0 es s c cx Hr0 Hd0 Hs Hc) as Hdl.
  unfold SessionTimeout, defaultSessionTimeout in Hto0. rewrite Hto0, Hn0 in Hdl.
  rewrite Hg in *. simpl in *. lia.
Qed.

(** C13: the process exits within graceTime + httpShutdownGraceTime, 320
    seconds, of the start of the drain, the bound its deployment relies on. *)
Theorem shutdown_bound s t x :
  main_reachable (s, Exited t x) -> (t <= x <= t + 320 * Second)%Z.
Proof.
  intros Hm. apply main_reachable_inv in Hm as (_ & Hto & _ & Hb).
  rewrite (graceTime_default (sup s) Hto) in Hb.
  unfold httpShutdownGraceTime, Second, Millisecond in *. lia.
Qed.
End facts.

(** ** Witnesses *)

Definition startup0 : startup_env := mkStartup "v1.2.3" None "/tmp" 1 (Ok version0) 0.
Definition config0 : Config := mkConfig 65534 "/chromium-tmp" true.

Definition serving0 : prog :=
  match run_io (run_startup startup0 [] config0) (still machine) with
  | Returns (Ok s) => s
  | _ => prog0
  end.

Lemma startup_runs : run_io (run_startup startup0 [] config0) (still machine) = Returns (Ok serving0).
Proof. vm_compute. reflexivity. Qed.

Lemma startup_spec_witness :
  SessionTimeout (sup serving0) = (300 * Second)%Z /\ run_io (CheckCapabilities "/proc") (still machine) = None.
Proof.
  destruct (startup_spec startup0 [] config0 (still machine) serving0 startup_runs) as (Hc & _ & Ht & _).
  split; [exact Ht|]. apply Hc. discriminate.
Defined.

Definition waiting0 : prog :=
  log_info "Context cancelled, waiting for existing sessions to finish"
    [("graceTime", AInt (graceTime (sup (Drain serving0))))] (Drain serving0).

Lemma reachable_waiting0 : main_reachable (waiting0, Waiting (now (Drain serving0))).
Proof.
  eapply mr_step; [apply (mr_start startup0 [] config0 (still machine)), startup_runs|].
  apply (ms_drain serving0 (Drain serving0)). constructor. reflexivity.
Qed.

Lemma waiting0_closes :
  main_step (waiting0, Waiting (now (Drain serving0)))
    (closing_log waiting0, Closing (now (Drain serving0)) (now waiting0)).
Proof. apply ms_waited. reflexivity. Qed.

Lemma no_session_after_signal_witness : ~ step waiting0 (EvStart true id1) waiting0.
Proof.
  apply (no_session_after_signal waiting0 (Waiting (now (Drain serving0)))); [|discriminate].
  apply reachable_waiting0.
Defined.

Lemma grace_covers_sessions_witness :
  Wait_returns waiting0 \/
  (forall c cx, ctxs waiting0 !! c = Some cx -> (cx_deadline cx + 10 * Second <= now waiting0)%Z).
Proof.
  apply (grace_covers_sessions waiting0 (now (Drain serving0)) (closing_log waiting0) (now waiting0)).
  - apply reachable_waiting0.
  - apply waiting0_closes.
Defined.

Lemma shutdown_bound_witness :
  (now (Drain serving0) <= now (closing_log waiting0) <= now (Drain serving0) + 320 * Second)%Z.
Proof.
  apply (shutdown_bound (closing_log waiting0)).
  eapply mr_step; [eapply mr_step; [apply reachable_waiting0|apply waiting0_closes]|].
  apply (ms_exit (closing_log waiting0) (now (Drain serving0)) (now waiting0)).
Defined.
