(* ===== verification/Process.v ===== *)
(** * The process: func main, the error group, the HTTP server's goroutine

    Around [Main.main_step]: what the command line leads to, which of the two
    goroutines of [run] ends it, and the exit status. *)

From S2P Require Import Prelude GoStrings OS Machine Json Metrics Chromium BuildVersion Cgroup Proc Supervisor Launch System Invariant Lease Refinement Scenario Typing Url Mux Flags Http Service Instrument Liveness Main.

(** ** The goroutines of run *)

Inductive server := Listening | Stopped.

(** The process: the program, where the shutdown goroutine is, the goroutine
    of the HTTP server, whether a signal arrived, and the first error a
    goroutine of the group returned. *)
Record process := mkProcess {
  p_prog : prog; p_phase : phase; p_server : server; p_signal : bool; p_err : option error
}.

(** The context of the group: cancelled by a signal and by the first error. *)
Definition ctx_done (x : process) : Prop := p_signal x = true \/ is_Some (p_err x).

(** [errgroup.Group]: the first error is kept. *)
Definition group_error (old new : option error) : option error :=
  match old with Some e => Some e | None => new end.

Definition serving (ph : phase) : bool := match ph with Serving => true | _ => false end.
(** [server.Shutdown] has been called. *)
Definition shutting_down (ph : phase) : bool := match ph with Closing _ _ | Exited _ _ => true | _ => false end.

Section process.
Context `{ProcFS} `{Prometheus}.

Inductive process_step : process -> process -> Prop :=
  (* the program, and the shutdown goroutine up to its return; it starts
     draining when the context is done *)
  | pr_main s ph s' ph' sv sg er :
      main_step (s, ph) (s', ph') -> exited ph' = false ->
      (serving ph = true -> serving ph' = false -> ctx_done (mkProcess s ph sv sg er)) ->
      process_step (mkProcess s ph sv sg er) (mkProcess s' ph' sv sg er)
  | pr_signal s ph sv sg er :
      process_step (mkProcess s ph sv sg er) (mkProcess s ph sv true er)
  (* ListenAndServe returned an error of its own *)
  | pr_failed e s ph sg er :
      process_step (mkProcess s ph Listening sg er) (mkProcess s ph Stopped sg (group_error er (Some e)))
  (* ListenAndServe returned ErrServerClosed, as Shutdown was called *)
  | pr_closed s ph sg er :
      shutting_down ph = true ->
      process_step (mkProcess s ph Listening sg er)
        (mkProcess (log_warn "HTTP server shut down" [] s) ph Stopped sg er)
  (* Shutdown returned *)
  | pr_exit r s t u sv sg er :
      process_step (mkProcess s (Closing t u) sv sg er)
        (mkProcess s (Exited t (now s)) sv sg (group_error er r)).



(** ** func main *)




(** ** Facts *)

Lemma main_inv_log r s ph : main_inv (s, ph) -> main_inv (log r s, ph).
Proof.
  intros (Hr & Hto & Hph).
  assert (Hst : step s EvLog (log r s)) by constructor.
  split; [by eapply reachable_step|]. split; [done|].
  destruct ph; try done; destruct Hph as [Hp Hb]; (split; [by eapply drain_point_step|done]).
Qed.

(** What holds of a process: the invariant of [Main], and that the server
    stops for a reason. *)
Record process_inv (x : process) : Prop := {
  pi_main : main_inv (p_prog x, p_phase x);
  pi_done : serving (p_phase x) = false -> ctx_done x;
  pi_server : p_server x = Stopped -> shutting_down (p_phase x) = false -> is_Some (p_err x);
}.

Lemma group_error_some old new : is_Some old -> group_error old new = old.
Proof. by intros [e ->]. Qed.

Ltac proj := cbn [p_prog p_phase p_server p_signal p_err] in *.

Lemma process_inv_step x y : process_inv x -> process_step x y -> process_inv y.
Proof.
  intros I Hst. destruct Hst as [s ph s' ph' sv sg er Hm Hx Hd|s ph sv sg er|e s ph sg er|s ph sg er Hc|
    r s t u sv sg er]; destruct I as [Im Id Is]; proj.
  - split; proj; [by eapply main_inv_step| |].
    + intros Hs'. destruct (serving ph) eqn:Hs; [by apply Hd|by apply Id].
    + intros -> Hsd. apply Is; [done|]. inversion Hm; subst; simpl in *; done.
  - split; proj; [done|intros _; by left|done].
  - split; proj; [done| |by destruct er; eauto]. intros Hs.
    destruct (Id Hs) as [Hg|He]; [by left|right]. simpl in *. by rewrite group_error_some.
  - split; proj; [by apply main_inv_log|done|congruence].
  - split; proj; [|intros _|done].
    + apply (main_inv_step _ _ Im). constructor.
    + destruct (Id eq_refl) as [Hg|He]; [by left|right]. simpl in *. by rewrite group_error_some.
Qed.


Inductive process_steps : process -> process -> Prop :=
  | prs_nil x : process_steps x x
  | prs_cons x y z : process_step x y -> process_steps y z -> process_steps x z.

Lemma process_steps_inv x y : process_steps x y -> process_inv x -> process_inv y.
Proof. induction 1; eauto using process_inv_step. Qed.

End process.

(** ** Theorems *)

Section theorems.
Context `{ProcFS} `{Prometheus}.



(** C37: Chromium runs as the user the command line asks for: as the
    process's own user for 0, and then no capability is needed; otherwise as
    the given user and group, the default being nobody, reduced to 32 bits,
    and only if the process may switch to another user.  That is all the user
    has to do with start-up: it succeeds exactly when the version strings can
    be exposed, Chromium answers, and the user is 0 or the capability check
    passes. *)
Theorem chromium_user `{!PrometheusLaws} args c env l w :
  parse_flags args default_config = Parsed c ->
  ((exists s, run_io (run_startup env l c) w = Returns (Ok s)) <->
    version_labels (su_version env) (su_buildinfo env) /\ is_ok (su_ua env) = true /\
    (C_UserGroup c = 0%Z \/ run_io (CheckCapabilities "/proc") w = None)) /\
  (args = [] -> C_UserGroup c = 65534%Z) /\
  forall s es s' tmp, run_io (run_startup env l c) w = Returns (Ok s) -> steps s es s' ->
    c_credential (launch_command (sup s') tmp) =
      (if decide (C_UserGroup c = 0%Z) then None
       else if decide (0 < C_UserGroup c < 2 ^ 32)%Z then Some (C_UserGroup c, C_UserGroup c)
       else Some (wrap_u32 (C_UserGroup c), wrap_u32 (C_UserGroup c))).
Proof.
  intros Hp. split; [apply startup_succeeds|]. split.
  - intros ->. simpl in Hp. by simplify_eq.
  - intros s es s' tmp Hs Hst. apply startup_ok in Hs as (_ & _ & _ & _ & Hu & _).
    rewrite (steps_command _ _ _ Hst). unfold launch_command. cbn [c_credential]. rewrite Hu.
    destruct (decide (C_UserGroup c = 0%Z)) as [->|Hne]; [done|].
    rewrite (proj2 (Z.eqb_neq _ _) Hne). case_decide as Hb; [|done].
    unfold wrap_u32. by rewrite Z.mod_small by lia.
Qed.
End theorems.

(** A user group that is not 0 but is 0 in 32 bits passes as another user, and
    Chromium runs as root. *)
Lemma user_group_wraps tmp l w n :
  parse_flags ["-user-group=4294967296"] default_config = Parsed (mkConfig (2 ^ 32) "/chromium-tmp" false) /\
  c_credential (launch_command
    (New (H := plain_procfs) "/tmp" 1 l (run_options (mkConfig (2 ^ 32) "/chromium-tmp" false) 1) w n).1 tmp) =
    Some (0%Z, 0%Z).
Proof.
  split; [by vm_compute|]. unfold launch_command. simpl.
  pose proof (New_opts (H := plain_procfs) "/tmp" 1 l (run_options (mkConfig (2 ^ 32) "/chromium-tmp" false) 1) w n)
    as (Ho & _). simpl in Ho. rewrite Ho. reflexivity.
Qed.

(** ** Witnesses *)










Lemma chromium_user_witness :
  (exists s, run_io (run_startup startup0 [] config0) (still machine) = Returns (Ok s)) /\
  c_credential (launch_command (sup serving0) "/t") = Some (65534%Z, 65534%Z).
Proof.
  destruct (chromium_user ["-process-metrics"] config0 startup0 [] (still machine) eq_refl) as (Hs & _ & Hc).
  split.
  - apply Hs. split; [|split; [reflexivity|right; vm_compute; reflexivity]].
    eexists. split; [reflexivity|]. by apply (bool_decide_unpack _); vm_compute.
  - exact (Hc serving0 [] serving0 "/t" startup_runs (steps_nil serving0)).
Defined.
